(** * Gen 3 save decoding: a shallow embedding of the PTB binary decoders

    The development follows [src/features/gba_support.py] (cartridge saves,
    PK3 records), [src/features/memory_card.py] (console export records)
    and [src/trading/gba_trading.py] (transfer compatibility rules).

    Python integers are [Z]; [bytes] objects are [list byte]; [str] is
    [string]; a [dict] is a [gmap] (or an association list for constant
    tables); [Optional[T]] is [option T].  Exceptions raised by
    [struct.unpack_from] and by indexing are explicit in the result type
    [pyres], so that every [try ... except] of the source is visible. *)

From Stdlib Require Import ZArith List Lia.
From Stdlib Require Import Strings.Byte Strings.Ascii Strings.String.
From stdpp Require Import base option list sorting gmap strings pretty.

Local Open Scope Z_scope.

(** ** Exceptions *)

Inductive exn : Type :=
  | struct_error
  | IndexError.

Inductive pyres (A : Type) : Type :=
  | Return (a : A)
  | Raise (e : exn).
Arguments Return {A} a.
Arguments Raise {A} e.

#[global] Instance pyres_ret : MRet pyres := @Return.
#[global] Instance pyres_bind : MBind pyres := fun A B f m =>
  match m with
  | Return a => f a
  | Raise e => Raise e
  end.

(** ** Bytes, slices and ranges *)

(** [len(x)] *)
Definition len {A} (l : list A) : Z := Z.of_nat (length l).

(** The integer value of one byte, and the byte of an integer modulo 256. *)
Definition byte_to_Z (b : byte) : Z := Z.of_N (Byte.to_N b).
Definition byte_of_Z (z : Z) : byte :=
  default x00 (Byte.of_N (Z.to_N (z mod 256))).

(** [x[lo:hi]] for non-negative bounds: Python clamps to the length and
    yields the empty sequence when [hi <= lo]. *)
Definition slice {A} (l : list A) (lo hi : Z) : list A :=
  take (Z.to_nat (hi - lo)) (drop (Z.to_nat lo) l).

(** [x[i]]: negative indices count from the end, anything outside raises
    [IndexError]. *)
Definition getitem {A} (l : list A) (i : Z) : pyres A :=
  let j := if decide (i < 0) then i + len l else i in
  if decide (j < 0) then Raise IndexError
  else match l !! Z.to_nat j with
       | Some x => Return x
       | None => Raise IndexError
       end.

(** [data[i]] on a [bytes] object yields an [int]. *)
Definition byte_at (data : list byte) (i : Z) : pyres Z :=
  b ← getitem data i; mret (byte_to_Z b).

(** [bytes(n)]: [n] zero bytes. *)
Definition zero_bytes (n : Z) : list byte := replicate (Z.to_nat n) x00.

(** [range(start, stop, step)] for a positive step, and [range(n)]. *)
Definition range3 (start stop step : Z) : list Z :=
  (fun k => start + step * Z.of_nat k) <$>
    seq 0 (Z.to_nat ((stop - start + step - 1) / step)).
Definition range (n : Z) : list Z := range3 0 n 1.

(** [dict.get] on a constant table written as a dict literal. *)
Fixpoint dict_get {V} (d : list (Z * V)) (k : Z) : option V :=
  match d with
  | [] => None
  | (k', v) :: d' => if decide (k = k') then Some v else dict_get d' k
  end.

(** ** The [struct] module, for the four formats the decoders use *)

Module struct.

Inductive format : Type :=
  | LE_H   (* '<H' *)
  | LE_I   (* '<I' *)
  | BE_H   (* '>H' *)
  | BE_I.  (* '>I' *)

Definition calcsize (f : format) : Z :=
  match f with
  | LE_H | BE_H => 2
  | LE_I | BE_I => 4
  end.

Definition little (f : format) : bool :=
  match f with
  | LE_H | LE_I => true
  | BE_H | BE_I => false
  end.

(** Value of a byte string read least-significant byte first. *)
Fixpoint le_value (bs : list byte) : Z :=
  match bs with
  | [] => 0
  | b :: bs' => byte_to_Z b + 256 * le_value bs'
  end.

(** The [n] low bytes of [v], least-significant first. *)
Fixpoint le_bytes (n : nat) (v : Z) : list byte :=
  match n with
  | O => []
  | S n' => byte_of_Z v :: le_bytes n' (v / 256)
  end.

Definition decode (f : format) (bs : list byte) : Z :=
  if little f then le_value bs else le_value (rev bs).

Definition encode (f : format) (v : Z) : list byte :=
  let bs := le_bytes (Z.to_nat (calcsize f)) v in
  if little f then bs else rev bs.

(** [struct.unpack_from(fmt, buffer, offset)[0]]: raises [struct.error]
    unless [calcsize(fmt)] bytes are available at [offset].  Every offset
    in the decoders is a non-negative constant or sum of such. *)
Definition unpack_from (f : format) (buffer : list byte) (offset : Z) : pyres Z :=
  if decide (0 <= offset ∧ offset + calcsize f <= len buffer)
  then Return (decode f (slice buffer offset (offset + calcsize f)))
  else Raise struct_error.

(** [struct.pack(fmt, v)]: raises [struct.error] when [v] does not fit. *)
Definition pack (f : format) (v : Z) : pyres (list byte) :=
  if decide (0 <= v < 2 ^ (8 * calcsize f))
  then Return (encode f v)
  else Raise struct_error.

(** [struct.pack_into(fmt, buffer, offset, v)], returning the updated
    buffer. *)
Definition pack_into (f : format) (buffer : list byte) (offset v : Z)
  : pyres (list byte) :=
  bs ← pack f v;
  if decide (0 <= offset ∧ offset + calcsize f <= len buffer)
  then Return (slice buffer 0 offset ++ bs
               ++ drop (Z.to_nat (offset + calcsize f)) buffer)
  else Raise struct_error.

End struct.

(** ** Constants of [gba_support.py] *)

Definition GBA_SAVE_SIZE : Z := 0x20000.
Definition GBA_SECTION_SIZE : Z := 0x1000.
Definition GBA_SLOT_SIZE : Z := 0xE000.
Definition GBA_SECTION_COUNT : Z := 14.
Definition GBA_FOOTER_OFFSET : Z := 0xFF8.
Definition GBA_SECTION_ID_OFF : Z := 0xFF8.
Definition GBA_CHECKSUM_OFF : Z := 0xFFA.
Definition GBA_SAVE_INDEX_OFF : Z := 0xFFC.

Definition PK3_SIZE : Z := 100.
Definition PK3_HEADER_SIZE : Z := 32.
Definition PK3_DATA_SIZE : Z := 48.
Definition PK3_STATUS_SIZE : Z := 20.

Definition SECTION_PC_BUFFER_A : Z := 5.

Definition PARTY_COUNT_OFFSET : Z := 0x234.
Definition PARTY_DATA_OFFSET : Z := 0x238.

Definition PC_BOX_COUNT : Z := 14.
Definition PC_BOX_SIZE : Z := 30.
Definition PC_POKEMON_SIZE : Z := 80.

Definition NATURES : list string :=
  ["Hardy"; "Lonely"; "Brave"; "Adamant"; "Naughty";
   "Bold"; "Docile"; "Relaxed"; "Impish"; "Lax";
   "Timid"; "Hasty"; "Serious"; "Jolly"; "Naive";
   "Modest"; "Mild"; "Quiet"; "Bashful"; "Rash";
   "Calm"; "Gentle"; "Sassy"; "Careful"; "Quirky"].

(** Substructure order lookup (personality value % 24): G=Growth,
    A=Attacks, E=EVs/Condition, M=Misc. *)
Definition SUBSTRUCTURE_ORDER : list string :=
  ["GAEM"; "GAME"; "GEAM"; "GEMA"; "GMAE"; "GMEA";
   "AGEM"; "AGME"; "AEGM"; "AEMG"; "AMGE"; "AMEG";
   "EGAM"; "EGMA"; "EAGM"; "EAMG"; "EMGA"; "EMAG";
   "MGAE"; "MGEA"; "MAGE"; "MAEG"; "MEGA"; "MEAG"].

(** ** [try ... except] *)

(** [try: body except struct.error: handler] *)
Definition try_except_struct_error {A} (body handler : pyres A) : pyres A :=
  match body with
  | Raise struct_error => handler
  | r => r
  end.

(** [try: body except (struct.error, IndexError): handler] *)
Definition try_except_struct_or_index {A} (body handler : pyres A) : pyres A :=
  match body with
  | Raise struct_error | Raise IndexError => handler
  | r => r
  end.

(** ** SectionAssembler and SlotSelector ([GBASaveParser]) *)

(** The summing loop of [_verify_section_checksum]:
    [for i in range(0, len(data_area), 4): if i + 4 <= len(data_area): ...] *)
Fixpoint sum_words (data_area : list byte) (idxs : list Z) (total : Z) : pyres Z :=
  match idxs with
  | [] => mret total
  | i :: idxs' =>
      if decide (i + 4 <= len data_area) then
        w ← struct.unpack_from struct.LE_I data_area i;
        sum_words data_area idxs' (total + w)
      else sum_words data_area idxs' total
  end.

(** The local [checksum] of [_verify_section_checksum]: the 16-bit fold of
    the word sum over the data area [section[:GBA_FOOTER_OFFSET]]. *)
Definition section_checksum (section : list byte) : pyres Z :=
  let data_area := slice section 0 GBA_FOOTER_OFFSET in
  total ← sum_words data_area (range3 0 (len data_area) 4) 0;
  mret (Z.land (Z.shiftr total 16 + Z.land total 0xFFFF) 0xFFFF).

Definition _verify_section_checksum (section : list byte) : pyres bool :=
  try_except_struct_error
    (stored_checksum ← struct.unpack_from struct.LE_H section GBA_CHECKSUM_OFF;
     checksum ← section_checksum section;
     mret (bool_decide (checksum = stored_checksum)))
    (mret false).

(** The loop of [_parse_slot].  The state is the dict under construction and
    the ids written to the debug log ("Section {id} checksum failed"); the
    log is the only place the verification result goes. *)
Fixpoint _parse_slot_loop (data : list byte) (offset : Z) (idxs : list Z)
    (sections : gmap Z (list byte)) (log : list Z)
  : pyres (gmap Z (list byte) * list Z) :=
  match idxs with
  | [] => mret (sections, log)
  | i :: idxs' =>
      let section_start := offset + i * GBA_SECTION_SIZE in
      let section_end := section_start + GBA_SECTION_SIZE in
      if decide (section_end > len data) then mret (sections, log) (* break *)
      else
        let section := slice data section_start section_end in
        section_id ← struct.unpack_from struct.LE_H section GBA_SECTION_ID_OFF;
        if decide (section_id > 13) then
          _parse_slot_loop data offset idxs' sections log (* continue *)
        else
          ok ← _verify_section_checksum section;
          let log := if (ok : bool) then log else log ++ [section_id] in
          _parse_slot_loop data offset idxs' (<[section_id := section]> sections) log
  end.

Definition _parse_slot_run (data : list byte) (offset : Z)
  : pyres (gmap Z (list byte) * list Z) :=
  _parse_slot_loop data offset (range GBA_SECTION_COUNT) ∅ [].

(** The debug log written by one call of [_parse_slot]. *)
Definition _parse_slot_log (data : list byte) (offset : Z) : pyres (list Z) :=
  r ← _parse_slot_run data offset; mret (r.2).

(** [_parse_slot]: [return sections if sections else None]. *)
Definition _parse_slot (data : list byte) (offset : Z)
  : pyres (option (gmap Z (list byte))) :=
  r ← _parse_slot_run data offset;
  mret (if decide (r.1 = ∅) then None else Some r.1).

Definition _get_save_index (sections : gmap Z (list byte)) : pyres Z :=
  match sections !! (0 : Z) with
  | None => mret (-1)
  | Some sec0 =>
      try_except_struct_error
        (struct.unpack_from struct.LE_I sec0 GBA_SAVE_INDEX_OFF)
        (mret (-1))
  end.

(** [_pick_best_slot] returns one of its two arguments.  The caller tests
    [sections is slot_a], so the result carries which argument it is. *)
Inductive slot_ref : Type := SlotA | SlotB.

Definition _pick_best_slot (slot_a slot_b : option (gmap Z (list byte)))
  : pyres (option (slot_ref * gmap Z (list byte))) :=
  match slot_a, slot_b with
  | None, None => mret None
  | None, Some b => mret (Some (SlotB, b))
  | Some a, None => mret (Some (SlotA, a))
  | Some a, Some b =>
      idx_a ← _get_save_index a;
      idx_b ← _get_save_index b;
      mret (Some (if decide (idx_a >= idx_b) then (SlotA, a) else (SlotB, b)))
  end.

(** ** StringDecoder: [_read_gba_string] *)

Definition double_quote : string := String (Ascii.ascii_of_nat 34) EmptyString.

(** Gen 3 character table (international). *)
Definition CHAR_TABLE : list (Z * string) :=
  [
   (0x00, " "); (0xA1, "0"); (0xA2, "1"); (0xA3, "2"); (0xA4, "3"); (0xA5, "4");
   (0xA6, "5"); (0xA7, "6"); (0xA8, "7"); (0xA9, "8"); (0xAA, "9"); (0xAB, "!");
   (0xAC, "?"); (0xAD, "."); (0xAE, "-"); (0xB1, "'"); (0xB2, "'"); (0xB3, double_quote);
   (0xB4, double_quote); (0xB5, "…"); (0xB6, ">"); (0xB7, "<"); (0xB8, "="); (0xBB, "/");
   (0xBC, "A"); (0xBD, "B"); (0xBE, "C"); (0xBF, "D"); (0xC0, "E"); (0xC1, "F");
   (0xC2, "G"); (0xC3, "H"); (0xC4, "I"); (0xC5, "J"); (0xC6, "K"); (0xC7, "L");
   (0xC8, "M"); (0xC9, "N"); (0xCA, "O"); (0xCB, "P"); (0xCC, "Q"); (0xCD, "R");
   (0xCE, "S"); (0xCF, "T"); (0xD0, "U"); (0xD1, "V"); (0xD2, "W"); (0xD3, "X");
   (0xD4, "Y"); (0xD5, "Z"); (0xD6, "("); (0xD7, ")"); (0xD8, ":"); (0xD9, ";");
   (0xDA, "["); (0xDB, "]"); (0xDC, "a"); (0xDD, "b"); (0xDE, "c"); (0xDF, "d");
   (0xE0, "e"); (0xE1, "f"); (0xE2, "g"); (0xE3, "h"); (0xE4, "i"); (0xE5, "j");
   (0xE6, "k"); (0xE7, "l"); (0xE8, "m"); (0xE9, "n"); (0xEA, "o"); (0xEB, "p");
   (0xEC, "q"); (0xED, "r"); (0xEE, "s"); (0xEF, "t"); (0xF0, "u"); (0xF1, "v");
   (0xF2, "w"); (0xF3, "x"); (0xF4, "y"); (0xF5, "z"); (0xFF, "")
  ].

(** [str.strip()]: the only whitespace [CHAR_TABLE] can produce is the
    space, so stripping removes leading and trailing spaces. *)
Fixpoint lstrip (s : string) : string :=
  match s with
  | String " "%char s' => lstrip s'
  | _ => s
  end.
Definition strip (s : string) : string :=
  String.rev (lstrip (String.rev (lstrip s))).

(** [''.join(chars)] *)
Definition join (chars : list string) : string := foldr String.append "" chars.

(** The loop of [_read_gba_string], returning [chars]. *)
Fixpoint _read_gba_string_loop (data : list byte) (offset : Z) (idxs : list Z)
  : list string :=
  match idxs with
  | [] => []
  | i :: idxs' =>
      if decide (offset + i >= len data) then [] (* break *)
      else
        match data !! Z.to_nat (offset + i) with
        | None => []
        | Some b =>
            let byte := byte_to_Z b in
            if decide (byte = 0xFF) then [] (* break *)
            else default "?" (dict_get CHAR_TABLE byte)
                   :: _read_gba_string_loop data offset idxs'
        end
  end.

Definition _read_gba_string (data : list byte) (offset max_len : Z) : string :=
  strip (join (_read_gba_string_loop data offset (range max_len))).

(** ** Name tables *)

(** Gen 3 species names (indices 1-386), [GEN3_SPECIES] of gba_support.py. *)
Definition GEN3_SPECIES : list (Z * string) :=
  [
   (1, "Bulbasaur"); (2, "Ivysaur"); (3, "Venusaur"); (4, "Charmander"); (5, "Charmeleon");
   (6, "Charizard"); (7, "Squirtle"); (8, "Wartortle"); (9, "Blastoise"); (10, "Caterpie");
   (11, "Metapod"); (12, "Butterfree"); (13, "Weedle"); (14, "Kakuna"); (15, "Beedrill");
   (16, "Pidgey"); (17, "Pidgeotto"); (18, "Pidgeot"); (19, "Rattata"); (20, "Raticate");
   (21, "Spearow"); (22, "Fearow"); (23, "Ekans"); (24, "Arbok"); (25, "Pikachu");
   (26, "Raichu"); (27, "Sandshrew"); (28, "Sandslash"); (29, "Nidoran-F"); (30, "Nidorina");
   (31, "Nidoqueen"); (32, "Nidoran-M"); (33, "Nidorino"); (34, "Nidoking"); (35, "Clefairy");
   (36, "Clefable"); (37, "Vulpix"); (38, "Ninetales"); (39, "Jigglypuff"); (40, "Wigglytuff");
   (41, "Zubat"); (42, "Golbat"); (43, "Oddish"); (44, "Gloom"); (45, "Vileplume");
   (46, "Paras"); (47, "Parasect"); (48, "Venonat"); (49, "Venomoth"); (50, "Diglett");
   (51, "Dugtrio"); (52, "Meowth"); (53, "Persian"); (54, "Psyduck"); (55, "Golduck");
   (56, "Mankey"); (57, "Primeape"); (58, "Growlithe"); (59, "Arcanine"); (60, "Poliwag");
   (61, "Poliwhirl"); (62, "Poliwrath"); (63, "Abra"); (64, "Kadabra"); (65, "Alakazam");
   (66, "Machop"); (67, "Machoke"); (68, "Machamp"); (69, "Bellsprout"); (70, "Weepinbell");
   (71, "Victreebel"); (72, "Tentacool"); (73, "Tentacruel"); (74, "Geodude");
   (75, "Graveler"); (76, "Golem"); (77, "Ponyta"); (78, "Rapidash"); (79, "Slowpoke");
   (80, "Slowbro"); (81, "Magnemite"); (82, "Magneton"); (83, "Farfetch'd"); (84, "Doduo");
   (85, "Dodrio"); (86, "Seel"); (87, "Dewgong"); (88, "Grimer"); (89, "Muk");
   (90, "Shellder"); (91, "Cloyster"); (92, "Gastly"); (93, "Haunter"); (94, "Gengar");
   (95, "Onix"); (96, "Drowzee"); (97, "Hypno"); (98, "Krabby"); (99, "Kingler");
   (100, "Voltorb"); (101, "Electrode"); (102, "Exeggcute"); (103, "Exeggutor");
   (104, "Cubone"); (105, "Marowak"); (106, "Hitmonlee"); (107, "Hitmonchan");
   (108, "Lickitung"); (109, "Koffing"); (110, "Weezing"); (111, "Rhyhorn"); (112, "Rhydon");
   (113, "Chansey"); (114, "Tangela"); (115, "Kangaskhan"); (116, "Horsea"); (117, "Seadra");
   (118, "Goldeen"); (119, "Seaking"); (120, "Staryu"); (121, "Starmie"); (122, "Mr. Mime");
   (123, "Scyther"); (124, "Jynx"); (125, "Electabuzz"); (126, "Magmar"); (127, "Pinsir");
   (128, "Tauros"); (129, "Magikarp"); (130, "Gyarados"); (131, "Lapras"); (132, "Ditto");
   (133, "Eevee"); (134, "Vaporeon"); (135, "Jolteon"); (136, "Flareon"); (137, "Porygon");
   (138, "Omanyte"); (139, "Omastar"); (140, "Kabuto"); (141, "Kabutops"); (142, "Aerodactyl");
   (143, "Snorlax"); (144, "Articuno"); (145, "Zapdos"); (146, "Moltres"); (147, "Dratini");
   (148, "Dragonair"); (149, "Dragonite"); (150, "Mewtwo"); (151, "Mew"); (152, "Chikorita");
   (153, "Bayleef"); (154, "Meganium"); (155, "Cyndaquil"); (156, "Quilava");
   (157, "Typhlosion"); (158, "Totodile"); (159, "Croconaw"); (160, "Feraligatr");
   (161, "Sentret"); (162, "Furret"); (163, "Hoothoot"); (164, "Noctowl"); (165, "Ledyba");
   (166, "Ledian"); (167, "Spinarak"); (168, "Ariados"); (169, "Crobat"); (170, "Chinchou");
   (171, "Lanturn"); (172, "Pichu"); (173, "Cleffa"); (174, "Igglybuff"); (175, "Togepi");
   (176, "Togetic"); (177, "Natu"); (178, "Xatu"); (179, "Mareep"); (180, "Flaaffy");
   (181, "Ampharos"); (182, "Bellossom"); (183, "Marill"); (184, "Azumarill");
   (185, "Sudowoodo"); (186, "Politoed"); (187, "Hoppip"); (188, "Skiploom");
   (189, "Jumpluff"); (190, "Aipom"); (191, "Sunkern"); (192, "Sunflora"); (193, "Yanma");
   (194, "Wooper"); (195, "Quagsire"); (196, "Espeon"); (197, "Umbreon"); (198, "Murkrow");
   (199, "Slowking"); (200, "Misdreavus"); (201, "Unown"); (202, "Wobbuffet");
   (203, "Girafarig"); (204, "Pineco"); (205, "Forretress"); (206, "Dunsparce");
   (207, "Gligar"); (208, "Steelix"); (209, "Snubbull"); (210, "Granbull"); (211, "Qwilfish");
   (212, "Scizor"); (213, "Shuckle"); (214, "Heracross"); (215, "Sneasel"); (216, "Teddiursa");
   (217, "Ursaring"); (218, "Slugma"); (219, "Magcargo"); (220, "Swinub"); (221, "Piloswine");
   (222, "Corsola"); (223, "Remoraid"); (224, "Octillery"); (225, "Delibird");
   (226, "Mantine"); (227, "Skarmory"); (228, "Houndour"); (229, "Houndoom"); (230, "Kingdra");
   (231, "Phanpy"); (232, "Donphan"); (233, "Porygon2"); (234, "Stantler"); (235, "Smeargle");
   (236, "Tyrogue"); (237, "Hitmontop"); (238, "Smoochum"); (239, "Elekid"); (240, "Magby");
   (241, "Miltank"); (242, "Blissey"); (243, "Raikou"); (244, "Entei"); (245, "Suicune");
   (246, "Larvitar"); (247, "Pupitar"); (248, "Tyranitar"); (249, "Lugia"); (250, "Ho-Oh");
   (251, "Celebi"); (252, "Treecko"); (253, "Grovyle"); (254, "Sceptile"); (255, "Torchic");
   (256, "Combusken"); (257, "Blaziken"); (258, "Mudkip"); (259, "Marshtomp");
   (260, "Swampert"); (261, "Poochyena"); (262, "Mightyena"); (263, "Zigzagoon");
   (264, "Linoone"); (265, "Wurmple"); (266, "Silcoon"); (267, "Beautifly"); (268, "Cascoon");
   (269, "Dustox"); (270, "Lotad"); (271, "Lombre"); (272, "Ludicolo"); (273, "Seedot");
   (274, "Nuzleaf"); (275, "Shiftry"); (276, "Taillow"); (277, "Swellow"); (278, "Wingull");
   (279, "Pelipper"); (280, "Ralts"); (281, "Kirlia"); (282, "Gardevoir"); (283, "Surskit");
   (284, "Masquerain"); (285, "Shroomish"); (286, "Breloom"); (287, "Slakoth");
   (288, "Vigoroth"); (289, "Slaking"); (290, "Nincada"); (291, "Ninjask"); (292, "Shedinja");
   (293, "Whismur"); (294, "Loudred"); (295, "Exploud"); (296, "Makuhita"); (297, "Hariyama");
   (298, "Azurill"); (299, "Nosepass"); (300, "Skitty"); (301, "Delcatty"); (302, "Sableye");
   (303, "Mawile"); (304, "Aron"); (305, "Lairon"); (306, "Aggron"); (307, "Meditite");
   (308, "Medicham"); (309, "Electrike"); (310, "Manectric"); (311, "Plusle"); (312, "Minun");
   (313, "Volbeat"); (314, "Illumise"); (315, "Roselia"); (316, "Gulpin"); (317, "Swalot");
   (318, "Carvanha"); (319, "Sharpedo"); (320, "Wailmer"); (321, "Wailord"); (322, "Numel");
   (323, "Camerupt"); (324, "Torkoal"); (325, "Spoink"); (326, "Grumpig"); (327, "Spinda");
   (328, "Trapinch"); (329, "Vibrava"); (330, "Flygon"); (331, "Cacnea"); (332, "Cacturne");
   (333, "Swablu"); (334, "Altaria"); (335, "Zangoose"); (336, "Seviper"); (337, "Lunatone");
   (338, "Solrock"); (339, "Barboach"); (340, "Whiscash"); (341, "Corphish");
   (342, "Crawdaunt"); (343, "Baltoy"); (344, "Claydol"); (345, "Lileep"); (346, "Cradily");
   (347, "Anorith"); (348, "Armaldo"); (349, "Feebas"); (350, "Milotic"); (351, "Castform");
   (352, "Kecleon"); (353, "Shuppet"); (354, "Banette"); (355, "Duskull"); (356, "Dusclops");
   (357, "Tropius"); (358, "Chimecho"); (359, "Absol"); (360, "Wynaut"); (361, "Snorunt");
   (362, "Glalie"); (363, "Spheal"); (364, "Sealeo"); (365, "Walrein"); (366, "Clamperl");
   (367, "Huntail"); (368, "Gorebyss"); (369, "Relicanth"); (370, "Luvdisc"); (371, "Bagon");
   (372, "Shelgon"); (373, "Salamence"); (374, "Beldum"); (375, "Metang"); (376, "Metagross");
   (377, "Regirock"); (378, "Regice"); (379, "Registeel"); (380, "Latias"); (381, "Latios");
   (382, "Kyogre"); (383, "Groudon"); (384, "Rayquaza"); (385, "Jirachi"); (386, "Deoxys")
  ].

(** Gen 3 move names, [GEN3_MOVES] of gba_support.py. *)
Definition GEN3_MOVES : list (Z * string) :=
  [
   (0, "---"); (1, "Pound"); (2, "Karate Chop"); (3, "Double Slap"); (4, "Comet Punch");
   (5, "Mega Punch"); (6, "Pay Day"); (7, "Fire Punch"); (8, "Ice Punch");
   (9, "Thunder Punch"); (10, "Scratch"); (11, "Vice Grip"); (12, "Guillotine");
   (13, "Razor Wind"); (14, "Swords Dance"); (15, "Cut"); (16, "Gust"); (17, "Wing Attack");
   (18, "Whirlwind"); (19, "Fly"); (20, "Bind"); (21, "Slam"); (22, "Vine Whip");
   (23, "Stomp"); (24, "Double Kick"); (25, "Mega Kick"); (26, "Jump Kick");
   (27, "Rolling Kick"); (28, "Sand Attack"); (29, "Headbutt"); (30, "Horn Attack");
   (31, "Fury Attack"); (32, "Horn Drill"); (33, "Tackle"); (34, "Body Slam"); (35, "Wrap");
   (36, "Take Down"); (37, "Thrash"); (38, "Double-Edge"); (39, "Tail Whip");
   (40, "Poison Sting"); (41, "Twineedle"); (42, "Pin Missile"); (43, "Leer"); (44, "Bite");
   (45, "Growl"); (46, "Roar"); (47, "Sing"); (48, "Supersonic"); (49, "Sonic Boom");
   (50, "Disable"); (51, "Acid"); (52, "Ember"); (53, "Flamethrower"); (54, "Mist");
   (55, "Water Gun"); (56, "Hydro Pump"); (57, "Surf"); (58, "Ice Beam"); (59, "Blizzard");
   (60, "Psybeam"); (61, "Bubble Beam"); (62, "Aurora Beam"); (63, "Hyper Beam"); (64, "Peck");
   (65, "Drill Peck"); (66, "Submission"); (67, "Low Kick"); (68, "Counter");
   (69, "Seismic Toss"); (70, "Strength"); (71, "Absorb"); (72, "Mega Drain");
   (73, "Leech Seed"); (74, "Growth"); (75, "Razor Leaf"); (76, "Solar Beam");
   (77, "Poison Powder"); (78, "Stun Spore"); (79, "Sleep Powder"); (80, "Petal Dance");
   (81, "String Shot"); (82, "Dragon Rage"); (83, "Fire Spin"); (84, "Thunder Shock");
   (85, "Thunderbolt"); (86, "Thunder Wave"); (87, "Thunder"); (88, "Rock Throw");
   (89, "Earthquake"); (90, "Fissure"); (91, "Dig"); (92, "Toxic"); (93, "Confusion");
   (94, "Psychic"); (95, "Hypnosis"); (96, "Meditate"); (97, "Agility"); (98, "Quick Attack");
   (99, "Rage"); (100, "Teleport"); (101, "Night Shade"); (102, "Mimic"); (103, "Screech");
   (104, "Double Team"); (105, "Recover"); (106, "Harden"); (107, "Minimize");
   (108, "Smokescreen"); (109, "Confuse Ray"); (110, "Withdraw"); (111, "Defense Curl");
   (112, "Barrier"); (113, "Light Screen"); (114, "Haze"); (115, "Reflect");
   (116, "Focus Energy"); (117, "Bide"); (118, "Metronome"); (119, "Mirror Move");
   (120, "Self-Destruct"); (121, "Egg Bomb"); (122, "Lick"); (123, "Smog"); (124, "Sludge");
   (125, "Bone Club"); (126, "Fire Blast"); (127, "Waterfall"); (128, "Clamp"); (129, "Swift");
   (130, "Skull Bash"); (131, "Spike Cannon"); (132, "Constrict"); (133, "Amnesia");
   (134, "Kinesis"); (135, "Soft-Boiled"); (136, "Hi Jump Kick"); (137, "Glare");
   (138, "Dream Eater"); (139, "Poison Gas"); (140, "Barrage"); (141, "Leech Life");
   (142, "Lovely Kiss"); (143, "Sky Attack"); (144, "Transform"); (145, "Bubble");
   (146, "Dizzy Punch"); (147, "Spore"); (148, "Flash"); (149, "Psywave"); (150, "Splash");
   (151, "Acid Armor"); (152, "Crabhammer"); (153, "Explosion"); (154, "Fury Swipes");
   (155, "Bonemerang"); (156, "Rest"); (157, "Rock Slide"); (158, "Hyper Fang");
   (159, "Sharpen"); (160, "Conversion"); (161, "Tri Attack"); (162, "Super Fang");
   (163, "Slash"); (164, "Substitute"); (165, "Struggle"); (166, "Sketch");
   (167, "Triple Kick"); (168, "Thief"); (169, "Spider Web"); (170, "Mind Reader");
   (171, "Nightmare"); (172, "Flame Wheel"); (173, "Snore"); (174, "Curse"); (175, "Flail");
   (176, "Conversion 2"); (177, "Aeroblast"); (178, "Cotton Spore"); (179, "Reversal");
   (180, "Spite"); (181, "Powder Snow"); (182, "Protect"); (183, "Mach Punch");
   (184, "Scary Face"); (185, "Faint Attack"); (186, "Sweet Kiss"); (187, "Belly Drum");
   (188, "Sludge Bomb"); (189, "Mud-Slap"); (190, "Octazooka"); (191, "Spikes");
   (192, "Zap Cannon"); (193, "Foresight"); (194, "Destiny Bond"); (195, "Perish Song");
   (196, "Icy Wind"); (197, "Detect"); (198, "Bone Rush"); (199, "Lock-On"); (200, "Outrage");
   (201, "Sandstorm"); (202, "Giga Drain"); (203, "Endure"); (204, "Charm"); (205, "Rollout");
   (206, "False Swipe"); (207, "Swagger"); (208, "Milk Drink"); (209, "Spark");
   (210, "Fury Cutter"); (211, "Steel Wing"); (212, "Mean Look"); (213, "Attract");
   (214, "Sleep Talk"); (215, "Heal Bell"); (216, "Return"); (217, "Present");
   (218, "Frustration"); (219, "Safeguard"); (220, "Pain Split"); (221, "Sacred Fire");
   (222, "Magnitude"); (223, "Dynamic Punch"); (224, "Megahorn"); (225, "Dragon Breath");
   (226, "Baton Pass"); (227, "Encore"); (228, "Pursuit"); (229, "Rapid Spin");
   (230, "Sweet Scent"); (231, "Iron Tail"); (232, "Metal Claw"); (233, "Vital Throw");
   (234, "Morning Sun"); (235, "Synthesis"); (236, "Moonlight"); (237, "Hidden Power");
   (238, "Cross Chop"); (239, "Twister"); (240, "Rain Dance"); (241, "Sunny Day");
   (242, "Crunch"); (243, "Mirror Coat"); (244, "Psych Up"); (245, "Extreme Speed");
   (246, "Ancient Power"); (247, "Shadow Ball"); (248, "Future Sight"); (249, "Rock Smash");
   (250, "Whirlpool"); (251, "Beat Up"); (252, "Fake Out"); (253, "Uproar");
   (254, "Stockpile"); (255, "Spit Up"); (256, "Swallow"); (257, "Heat Wave"); (258, "Hail");
   (259, "Torment"); (260, "Flatter"); (261, "Will-O-Wisp"); (262, "Memento"); (263, "Facade");
   (264, "Focus Punch"); (265, "Smelling Salts"); (266, "Follow Me"); (267, "Nature Power");
   (268, "Charge"); (269, "Taunt"); (270, "Helping Hand"); (271, "Trick"); (272, "Role Play");
   (273, "Wish"); (274, "Assist"); (275, "Ingrain"); (276, "Superpower"); (277, "Magic Coat");
   (278, "Recycle"); (279, "Revenge"); (280, "Brick Break"); (281, "Yawn"); (282, "Knock Off");
   (283, "Endeavor"); (284, "Eruption"); (285, "Skill Swap"); (286, "Imprison");
   (287, "Refresh"); (288, "Grudge"); (289, "Snatch"); (290, "Secret Power"); (291, "Dive");
   (292, "Arm Thrust"); (293, "Camouflage"); (294, "Tail Glow"); (295, "Luster Purge");
   (296, "Mist Ball"); (297, "Feather Dance"); (298, "Teeter Dance"); (299, "Blaze Kick");
   (300, "Mud Sport"); (301, "Ice Ball"); (302, "Needle Arm"); (303, "Slack Off");
   (304, "Hyper Voice"); (305, "Poison Fang"); (306, "Crush Claw"); (307, "Blast Burn");
   (308, "Hydro Cannon"); (309, "Meteor Mash"); (310, "Astonish"); (311, "Weather Ball");
   (312, "Aromatherapy"); (313, "Fake Tears"); (314, "Air Cutter"); (315, "Overheat");
   (316, "Odor Sleuth"); (317, "Rock Tomb"); (318, "Silver Wind"); (319, "Metal Sound");
   (320, "Grass Whistle"); (321, "Tickle"); (322, "Cosmic Power"); (323, "Water Spout");
   (324, "Signal Beam"); (325, "Shadow Punch"); (326, "Extrasensory"); (327, "Sky Uppercut");
   (328, "Sand Tomb"); (329, "Sheer Cold"); (330, "Muddy Water"); (331, "Bullet Seed");
   (332, "Aerial Ace"); (333, "Icicle Spear"); (334, "Iron Defense"); (335, "Block");
   (336, "Howl"); (337, "Dragon Claw"); (338, "Frenzy Plant"); (339, "Bulk Up");
   (340, "Bounce"); (341, "Mud Shot"); (342, "Poison Tail"); (343, "Covet");
   (344, "Volt Tackle"); (345, "Magical Leaf"); (346, "Water Sport"); (347, "Calm Mind");
   (348, "Leaf Blade"); (349, "Dragon Dance"); (350, "Rock Blast"); (351, "Shock Wave");
   (352, "Water Pulse"); (353, "Doom Desire"); (354, "Psycho Boost")
  ].

(** Gen 3 held items, [GEN3_ITEMS] of gba_support.py. *)
Definition GEN3_ITEMS : list (Z * string) :=
  [
   (0, "None"); (1, "Master Ball"); (2, "Ultra Ball"); (3, "Great Ball"); (4, "Poke Ball");
   (5, "Safari Ball"); (6, "Net Ball"); (7, "Dive Ball"); (8, "Nest Ball"); (9, "Repeat Ball");
   (10, "Timer Ball"); (11, "Luxury Ball"); (12, "Premier Ball"); (13, "Potion");
   (14, "Antidote"); (15, "Burn Heal"); (16, "Ice Heal"); (17, "Awakening");
   (18, "Parlyz Heal"); (19, "Full Restore"); (20, "Max Potion"); (21, "Hyper Potion");
   (22, "Super Potion"); (23, "Full Heal"); (24, "Revive"); (25, "Max Revive");
   (26, "Fresh Water"); (27, "Soda Pop"); (28, "Lemonade"); (29, "Moomoo Milk");
   (30, "Energy Powder"); (31, "Energy Root"); (32, "Heal Powder"); (33, "Revival Herb");
   (34, "Ether"); (35, "Max Ether"); (36, "Elixir"); (37, "Max Elixir"); (38, "Lava Cookie");
   (39, "Blue Flute"); (40, "Yellow Flute"); (41, "Red Flute"); (42, "Black Flute");
   (43, "White Flute"); (44, "Berry Juice"); (45, "Sacred Ash"); (46, "Shoal Salt");
   (47, "Shoal Shell"); (48, "Red Shard"); (49, "Blue Shard"); (50, "Yellow Shard");
   (51, "Green Shard"); (63, "HP Up"); (64, "Protein"); (65, "Iron"); (66, "Carbos");
   (67, "Calcium"); (68, "Rare Candy"); (69, "PP Up"); (70, "Zinc"); (71, "PP Max");
   (78, "Guard Spec."); (79, "Dire Hit"); (80, "X Attack"); (81, "X Defend"); (82, "X Speed");
   (83, "X Accuracy"); (84, "X Special"); (85, "Poke Doll"); (86, "Fluffy Tail");
   (91, "Super Repel"); (92, "Max Repel"); (93, "Escape Rope"); (94, "Repel");
   (103, "Sun Stone"); (104, "Moon Stone"); (105, "Fire Stone"); (106, "Thunder Stone");
   (107, "Water Stone"); (108, "Leaf Stone"); (116, "TinyMushroom"); (117, "Big Mushroom");
   (119, "Pearl"); (120, "Big Pearl"); (121, "Stardust"); (122, "Star Piece"); (123, "Nugget");
   (124, "Heart Scale"); (131, "Orange Mail"); (132, "Harbor Mail"); (133, "Glitter Mail");
   (134, "Mech Mail"); (135, "Wood Mail"); (136, "Wave Mail"); (137, "Bead Mail");
   (138, "Shadow Mail"); (139, "Tropic Mail"); (140, "Dream Mail"); (141, "Fab Mail");
   (142, "Retro Mail"); (143, "Cheri Berry"); (144, "Chesto Berry"); (145, "Pecha Berry");
   (146, "Rawst Berry"); (147, "Aspear Berry"); (148, "Leppa Berry"); (149, "Oran Berry");
   (150, "Persim Berry"); (151, "Lum Berry"); (152, "Sitrus Berry"); (153, "Figy Berry");
   (154, "Wiki Berry"); (155, "Mago Berry"); (156, "Aguav Berry"); (157, "Iapapa Berry");
   (158, "Razz Berry"); (159, "Bluk Berry"); (160, "Nanab Berry"); (161, "Wepear Berry");
   (162, "Pinap Berry"); (163, "Pomeg Berry"); (164, "Kelpsy Berry"); (165, "Qualot Berry");
   (166, "Hondew Berry"); (167, "Grepa Berry"); (168, "Tamato Berry"); (169, "Cornn Berry");
   (170, "Magost Berry"); (171, "Rabuta Berry"); (172, "Nomel Berry"); (173, "Spelon Berry");
   (174, "Pamtre Berry"); (175, "Watmel Berry"); (176, "Durin Berry"); (177, "Belue Berry");
   (178, "Liechi Berry"); (179, "Ganlon Berry"); (180, "Salac Berry"); (181, "Petaya Berry");
   (182, "Apicot Berry"); (183, "Lansat Berry"); (184, "Starf Berry"); (185, "Enigma Berry");
   (216, "BrightPowder"); (217, "White Herb"); (218, "Macho Brace"); (219, "Exp. Share");
   (220, "Quick Claw"); (221, "Soothe Bell"); (222, "Mental Herb"); (223, "Choice Band");
   (224, "King's Rock"); (225, "Silver Powder"); (226, "Amulet Coin"); (227, "Cleanse Tag");
   (228, "Soul Dew"); (229, "Deep Sea Tooth"); (230, "Deep Sea Scale"); (231, "Smoke Ball");
   (232, "Everstone"); (233, "Focus Band"); (234, "Lucky Egg"); (235, "Scope Lens");
   (236, "Metal Coat"); (237, "Leftovers"); (238, "Dragon Scale"); (239, "Light Ball");
   (240, "Soft Sand"); (241, "Hard Stone"); (242, "Miracle Seed"); (243, "Black Glasses");
   (244, "Black Belt"); (245, "Magnet"); (246, "Mystic Water"); (247, "Sharp Beak");
   (248, "Poison Barb"); (249, "Never-Melt Ice"); (250, "Spell Tag"); (251, "Twisted Spoon");
   (252, "Charcoal"); (253, "Dragon Fang"); (254, "Silk Scarf"); (255, "Up-Grade");
   (256, "Shell Bell"); (257, "Sea Incense"); (258, "Lax Incense"); (259, "Lucky Punch");
   (260, "Metal Powder"); (261, "Thick Club"); (262, "Stick")
  ].

(** ** RecordCodec (cartridge format): [_parse_pk3] *)

Module PK3Pokemon.
(** The dataclass [PK3Pokemon]. *)
Record t : Type := make {
  (* Identity *)
  personality_value : Z;
  ot_id : Z;
  ot_secret_id : Z;
  nickname : string;
  language : Z;
  ot_name : string;
  markings : Z;
  checksum : Z;
  (* Growth substructure *)
  species_id : Z;
  item_id : Z;
  experience : Z;
  pp_bonuses : Z;
  friendship : Z;
  unknown_growth : Z;
  (* Attacks substructure *)
  move1_id : Z; move2_id : Z; move3_id : Z; move4_id : Z;
  move1_pp : Z; move2_pp : Z; move3_pp : Z; move4_pp : Z;
  (* EVs/Condition substructure *)
  hp_ev : Z; atk_ev : Z; def_ev : Z; spe_ev : Z; spa_ev : Z; spd_ev : Z;
  coolness : Z; beauty : Z; cuteness : Z;
  smartness : Z; toughness : Z; feel : Z;
  (* Misc substructure *)
  pokerus : Z;
  met_location : Z;
  origins_info : Z;
  iv_egg_ability : Z;
  ribbons_obedience : Z;
  (* Status (unencrypted) *)
  status_condition : Z;
  level : Z;
  pokerus_days : Z;
  current_hp : Z; total_hp : Z;
  attack : Z; defense : Z; speed : Z; sp_attack : Z; sp_defense : Z;
  (* Derived fields *)
  species_name : string;
  nature : string;
  is_shiny : bool;
  is_egg : bool;
  gender : string;
  ability_slot : Z;
  hp_iv : Z; atk_iv : Z; def_iv : Z; spe_iv : Z; spa_iv : Z; spd_iv : Z;
  move_names : list string;
  item_name : string;
  met_game : string;
  met_level : Z;
  is_fateful : bool
}.
End PK3Pokemon.

(** The loop of [_decrypt_pk3_data]; [decrypted] is the bytearray being
    filled in place. *)
Fixpoint _decrypt_pk3_data_loop (encrypted : list byte) (key : Z) (idxs : list Z)
    (decrypted : list byte) : pyres (list byte) :=
  match idxs with
  | [] => mret decrypted
  | i :: idxs' =>
      if decide (i + 4 <= len encrypted) then
        word ← struct.unpack_from struct.LE_I encrypted i;
        let word := Z.lxor word key in
        decrypted ← struct.pack_into struct.LE_I decrypted i word;
        _decrypt_pk3_data_loop encrypted key idxs' decrypted
      else _decrypt_pk3_data_loop encrypted key idxs' decrypted
  end.

Definition _decrypt_pk3_data (encrypted : list byte) (key : Z) : pyres (list byte) :=
  _decrypt_pk3_data_loop encrypted key (range3 0 (len encrypted) 4)
    (zero_bytes (len encrypted)).

(** [key = personality_value ^ ot_id_full] in [_parse_pk3]. *)
Definition pk3_key (personality_value ot_id_full : Z) : Z :=
  Z.lxor personality_value ot_id_full.

(** [_exp_to_level].  [float_pow_third e] stands for the floating-point
    expression [int(e ** (1/3))], which is kept abstract. *)
Definition _exp_to_level (float_pow_third : Z → Z) (species_id experience : Z) : Z :=
  if decide (experience <= 0) then 1
  else Z.max 1 (Z.min 100 (float_pow_third experience)).

Definition _calc_gender (species_id personality_value : Z) : string :=
  let pv_low := Z.land personality_value 0xFF in
  if decide (pv_low < 0x7F) then "male"
  else if decide (pv_low = 0xFF) then "unknown"
  else "female".

Definition _origins_to_game (game_id : Z) : string :=
  let origins :=
    [(1, "Sapphire"); (2, "Ruby"); (3, "Emerald");
     (4, "FireRed"); (5, "LeafGreen"); (15, "Colosseum/XD")] in
  default ("Game " +:+ pretty game_id) (dict_get origins game_id).

(** Iterating a [str] yields its one-character substrings. *)
Fixpoint chars (s : string) : list string :=
  match s with
  | EmptyString => []
  | String c s' => String c EmptyString :: chars s'
  end.

Definition enumerate {A} (l : list A) : list (Z * A) := zip (range (len l)) l.

(** [sub_map] of [_parse_pk3]: each letter of the order is bound to its
    12-byte block of the decrypted payload. *)
Definition build_sub_map (order : string) (decrypted : list byte)
  : gmap string (list byte) :=
  foldl (fun sub_map il => <[il.2 := slice decrypted (il.1 * 12) ((il.1 + 1) * 12)]> sub_map)
        ∅ (enumerate (chars order)).

(** [sub_map.get(letter, bytes(12))] *)
Definition sub_map_get (sub_map : gmap string (list byte)) (letter : string)
  : list byte :=
  default (zero_bytes 12) (sub_map !! letter).

(** The move-name loop of [_parse_pk3]. *)
Definition pk3_move_names (mids : list Z) : list string :=
  (fun mid => default ("Move #" +:+ pretty mid) (dict_get GEN3_MOVES mid))
    <$> filter (fun mid => mid > 0) mids.

(** Python truthiness of a [str]: [a or b]. *)
Definition str_or (a b : string) : string := if decide (a = "") then b else a.

Definition nonzero (z : Z) : bool := bool_decide (z ≠ 0).

(** The body of the [try] block of [_parse_pk3]. *)
Definition _parse_pk3_body (float_pow_third : Z → Z) (data : list byte)
  : pyres (option PK3Pokemon.t) :=
  (* Unencrypted header (32 bytes) *)
  personality_value ← struct.unpack_from struct.LE_I data 0x00;
  ot_id_full ← struct.unpack_from struct.LE_I data 0x04;
  let ot_id := Z.land ot_id_full 0xFFFF in
  let ot_secret_id := Z.land (Z.shiftr ot_id_full 16) 0xFFFF in
  let nickname := _read_gba_string data 0x08 10 in
  language ← (if decide (len data > 0x12) then byte_at data 0x12 else mret 2);
  let ot_name := _read_gba_string data 0x14 7 in
  markings ← (if decide (len data > 0x1B) then byte_at data 0x1B else mret 0);
  checksum ← (if decide (len data > 0x1E)
              then struct.unpack_from struct.LE_H data 0x1C else mret 0);
  (* Decrypt the 48-byte data section *)
  if decide (len data < PK3_HEADER_SIZE + PK3_DATA_SIZE) then mret None
  else
  let encrypted := slice data PK3_HEADER_SIZE (PK3_HEADER_SIZE + PK3_DATA_SIZE) in
  let key := pk3_key personality_value ot_id_full in
  decrypted ← _decrypt_pk3_data encrypted key;
  (* Determine substructure order *)
  let order_idx := personality_value mod 24 in
  order ← getitem SUBSTRUCTURE_ORDER order_idx;
  let sub_map := build_sub_map order decrypted in
  (* Growth substructure (G) *)
  let g := sub_map_get sub_map "G" in
  species_id ← struct.unpack_from struct.LE_H g 0;
  item_id ← struct.unpack_from struct.LE_H g 2;
  experience ← struct.unpack_from struct.LE_I g 4;
  pp_bonuses ← byte_at g 8;
  friendship ← byte_at g 9;
  unknown_g ← struct.unpack_from struct.LE_H g 10;
  if decide (species_id = 0 ∨ species_id > 386) then mret None
  else
  (* Attacks substructure (A) *)
  let a := sub_map_get sub_map "A" in
  move1_id ← struct.unpack_from struct.LE_H a 0;
  move2_id ← struct.unpack_from struct.LE_H a 2;
  move3_id ← struct.unpack_from struct.LE_H a 4;
  move4_id ← struct.unpack_from struct.LE_H a 6;
  move1_pp ← byte_at a 8; move2_pp ← byte_at a 9;
  move3_pp ← byte_at a 10; move4_pp ← byte_at a 11;
  (* EVs/Condition substructure (E) *)
  let e := sub_map_get sub_map "E" in
  hp_ev ← byte_at e 0; atk_ev ← byte_at e 1; def_ev ← byte_at e 2;
  spe_ev ← byte_at e 3; spa_ev ← byte_at e 4; spd_ev ← byte_at e 5;
  coolness ← byte_at e 6; beauty ← byte_at e 7; cuteness ← byte_at e 8;
  smartness ← byte_at e 9; toughness ← byte_at e 10; feel ← byte_at e 11;
  (* Misc substructure (M) *)
  let m := sub_map_get sub_map "M" in
  pokerus ← byte_at m 0;
  met_location ← byte_at m 1;
  origins_info ← struct.unpack_from struct.LE_H m 2;
  iv_egg_ability ← struct.unpack_from struct.LE_I m 4;
  ribbons_obedience ← struct.unpack_from struct.LE_I m 8;
  (* Status data (unencrypted, last 20 bytes) *)
  let status_offset := PK3_HEADER_SIZE + PK3_DATA_SIZE in
  status ←
    (if decide (len data >= status_offset + PK3_STATUS_SIZE) then
       let st := slice data status_offset (status_offset + PK3_STATUS_SIZE) in
       status_condition ← struct.unpack_from struct.LE_I st 0;
       level ← byte_at st 4;
       pokerus_days ← byte_at st 5;
       current_hp ← struct.unpack_from struct.LE_H st 6;
       total_hp ← struct.unpack_from struct.LE_H st 8;
       attack ← struct.unpack_from struct.LE_H st 10;
       defense ← struct.unpack_from struct.LE_H st 12;
       speed ← struct.unpack_from struct.LE_H st 14;
       sp_attack ← struct.unpack_from struct.LE_H st 16;
       sp_defense ← struct.unpack_from struct.LE_H st 18;
       mret (status_condition, level, pokerus_days,
             [current_hp; total_hp; attack; defense; speed; sp_attack; sp_defense])
     else
       (* PC Pokemon: level from experience, everything else zero *)
       mret (0, _exp_to_level float_pow_third species_id experience, 0,
             [0; 0; 0; 0; 0; 0; 0]));
  let '(status_condition, level, pokerus_days, stats) := status in
  let stat i := default 0 (stats !! i) in
  (* Derived fields *)
  nature ← getitem NATURES (personality_value mod 25);
  let iv sh := Z.land (Z.shiftr iv_egg_ability sh) 0x1F in
  let is_egg := nonzero (Z.land (Z.shiftr iv_egg_ability 30) 1) in
  let ability_sl := Z.land (Z.shiftr iv_egg_ability 31) 1 in
  let pv_high := Z.land (Z.shiftr personality_value 16) 0xFFFF in
  let pv_low := Z.land personality_value 0xFFFF in
  let shiny_val := Z.lxor (Z.lxor (Z.lxor ot_id ot_secret_id) pv_high) pv_low in
  let is_shiny := bool_decide (shiny_val < 8) in
  let gender := _calc_gender species_id personality_value in
  let met_game_id := Z.land (Z.shiftr origins_info 7) 0xF in
  let met_game := _origins_to_game met_game_id in
  let met_level := Z.land origins_info 0x7F in
  let is_fateful := nonzero (Z.land (Z.shiftr ribbons_obedience 31) 1) in
  let move_names := pk3_move_names [move1_id; move2_id; move3_id; move4_id] in
  let species_name :=
    default ("Pokemon #" +:+ pretty species_id) (dict_get GEN3_SPECIES species_id) in
  let item_name :=
    default (if decide (item_id > 0) then "Item #" +:+ pretty item_id else "None")
            (dict_get GEN3_ITEMS item_id) in
  mret (Some {|
    PK3Pokemon.personality_value := personality_value;
    PK3Pokemon.ot_id := ot_id;
    PK3Pokemon.ot_secret_id := ot_secret_id;
    PK3Pokemon.nickname := str_or nickname species_name;
    PK3Pokemon.language := language;
    PK3Pokemon.ot_name := str_or ot_name "Trainer";
    PK3Pokemon.markings := markings;
    PK3Pokemon.checksum := checksum;
    PK3Pokemon.species_id := species_id;
    PK3Pokemon.item_id := item_id;
    PK3Pokemon.experience := experience;
    PK3Pokemon.pp_bonuses := pp_bonuses;
    PK3Pokemon.friendship := friendship;
    PK3Pokemon.unknown_growth := unknown_g;
    PK3Pokemon.move1_id := move1_id; PK3Pokemon.move2_id := move2_id;
    PK3Pokemon.move3_id := move3_id; PK3Pokemon.move4_id := move4_id;
    PK3Pokemon.move1_pp := move1_pp; PK3Pokemon.move2_pp := move2_pp;
    PK3Pokemon.move3_pp := move3_pp; PK3Pokemon.move4_pp := move4_pp;
    PK3Pokemon.hp_ev := hp_ev; PK3Pokemon.atk_ev := atk_ev;
    PK3Pokemon.def_ev := def_ev; PK3Pokemon.spe_ev := spe_ev;
    PK3Pokemon.spa_ev := spa_ev; PK3Pokemon.spd_ev := spd_ev;
    PK3Pokemon.coolness := coolness; PK3Pokemon.beauty := beauty;
    PK3Pokemon.cuteness := cuteness; PK3Pokemon.smartness := smartness;
    PK3Pokemon.toughness := toughness; PK3Pokemon.feel := feel;
    PK3Pokemon.pokerus := pokerus;
    PK3Pokemon.met_location := met_location;
    PK3Pokemon.origins_info := origins_info;
    PK3Pokemon.iv_egg_ability := iv_egg_ability;
    PK3Pokemon.ribbons_obedience := ribbons_obedience;
    PK3Pokemon.status_condition := status_condition;
    PK3Pokemon.level := level;
    PK3Pokemon.pokerus_days := pokerus_days;
    PK3Pokemon.current_hp := stat 0%nat; PK3Pokemon.total_hp := stat 1%nat;
    PK3Pokemon.attack := stat 2%nat; PK3Pokemon.defense := stat 3%nat;
    PK3Pokemon.speed := stat 4%nat; PK3Pokemon.sp_attack := stat 5%nat;
    PK3Pokemon.sp_defense := stat 6%nat;
    PK3Pokemon.species_name := species_name;
    PK3Pokemon.nature := nature;
    PK3Pokemon.is_shiny := is_shiny;
    PK3Pokemon.is_egg := is_egg;
    PK3Pokemon.gender := gender;
    PK3Pokemon.ability_slot := ability_sl;
    PK3Pokemon.hp_iv := iv 0; PK3Pokemon.atk_iv := iv 5;
    PK3Pokemon.def_iv := iv 10; PK3Pokemon.spe_iv := iv 15;
    PK3Pokemon.spa_iv := iv 20; PK3Pokemon.spd_iv := iv 25;
    PK3Pokemon.move_names := move_names;
    PK3Pokemon.item_name := item_name;
    PK3Pokemon.met_game := met_game;
    PK3Pokemon.met_level := met_level;
    PK3Pokemon.is_fateful := is_fateful
  |}).

(** [_parse_pk3]: the length guard, then the [try] block; both
    [struct.error] and [IndexError] are turned into an absent record. *)
Definition _parse_pk3 (float_pow_third : Z → Z) (data : list byte)
  : pyres (option PK3Pokemon.t) :=
  if decide (len data < PK3_HEADER_SIZE) then mret None
  else try_except_struct_or_index (_parse_pk3_body float_pow_third data) (mret None).

(** ** PartyBoxExtractor and the parser entry point *)

Inductive GBAGame : Type :=
  | RUBY | SAPPHIRE | EMERALD | FIRERED | LEAFGREEN | GAME_UNKNOWN.

Inductive GBARegion : Type :=
  | US | EU | JP | REGION_UNKNOWN.

Module GBASaveInfo.
Record t : Type := make {
  file_path : string;
  game : GBAGame;
  region : GBARegion;
  game_name : string;
  trainer_name : string;
  trainer_id : Z;
  secret_id : Z;
  play_time_h : Z;
  play_time_m : Z;
  play_time_s : Z;
  money : Z;
  badges : Z;
  is_valid : bool;
  error : string;
  slot_used : Z
}.
End GBASaveInfo.

Module GBAParty.
Record t : Type := make {
  pokemon : list PK3Pokemon.t;
  count : Z
}.
(** [GBAParty()] *)
Definition empty : t := {| pokemon := []; count := 0 |}.
End GBAParty.

Module GBABox.
Record t : Type := make {
  box_index : Z;
  name : string;
  pokemon : list PK3Pokemon.t
}.
End GBABox.

Module GBASave.
Record t : Type := make {
  info : GBASaveInfo.t;
  party : GBAParty.t;
  boxes : list GBABox.t
}.
End GBASave.

(** [if poke and poke.species_id > 0: pokemon.append(poke)] *)
Definition append_if_present (pokemon : list PK3Pokemon.t) (poke : option PK3Pokemon.t)
  : list PK3Pokemon.t :=
  match poke with
  | Some p => if decide (PK3Pokemon.species_id p > 0) then pokemon ++ [p] else pokemon
  | None => pokemon
  end.

(** The record loop of [_parse_party]. *)
Fixpoint _parse_party_loop (float_pow_third : Z → Z) (sec : list byte) (idxs : list Z)
    (pokemon : list PK3Pokemon.t) : pyres (list PK3Pokemon.t) :=
  match idxs with
  | [] => mret pokemon
  | i :: idxs' =>
      let offset := PARTY_DATA_OFFSET + i * PK3_SIZE in
      if decide (offset + PK3_SIZE > len sec) then mret pokemon (* break *)
      else
        let pk3_data := slice sec offset (offset + PK3_SIZE) in
        poke ← _parse_pk3 float_pow_third pk3_data;
        _parse_party_loop float_pow_third sec idxs' (append_if_present pokemon poke)
  end.

(** The clamped party count: [max(0, min(6, count))] of the stored word. *)
Definition party_count (sec : list byte) : pyres Z :=
  count ← struct.unpack_from struct.LE_I sec PARTY_COUNT_OFFSET;
  mret (Z.max 0 (Z.min 6 count)).

Definition _parse_party (float_pow_third : Z → Z) (sections : gmap Z (list byte))
  : pyres GBAParty.t :=
  match sections !! (1 : Z) with
  | None => mret GBAParty.empty
  | Some sec =>
      match party_count sec with
      | Raise struct_error => mret GBAParty.empty
      | Raise e => Raise e
      | Return count =>
          pokemon ← _parse_party_loop float_pow_third sec (range count) [];
          mret {| GBAParty.pokemon := pokemon; GBAParty.count := len pokemon |}
      end
  end.

(** The PC buffer: the data areas of the sections 5 to 13 that are present,
    in ascending id order. *)
Definition pc_buffer (sections : gmap Z (list byte)) : list byte :=
  foldl (fun pc_data section_id =>
           match sections !! section_id with
           | Some sec => pc_data ++ slice sec 0 GBA_FOOTER_OFFSET
           | None => pc_data
           end)
        [] (range3 SECTION_PC_BUFFER_A GBA_SECTION_COUNT 1).

Definition BOX_DATA_START : Z := 0x0004.
Definition BOX_NAMES_START : Z := 0x8344.
Definition BOX_NAME_LEN : Z := 9.

(** The slot loop of one box in [_parse_pc_boxes]. *)
Fixpoint _parse_box_loop (float_pow_third : Z → Z) (pc_data : list byte) (box_idx : Z)
    (slots : list Z) (box_pokemon : list PK3Pokemon.t) : pyres (list PK3Pokemon.t) :=
  match slots with
  | [] => mret box_pokemon
  | slot :: slots' =>
      let poke_offset := BOX_DATA_START + (box_idx * PC_BOX_SIZE + slot) * PC_POKEMON_SIZE in
      if decide (poke_offset + PC_POKEMON_SIZE > len pc_data) then mret box_pokemon
      else
        let pk3_data := slice pc_data poke_offset (poke_offset + PC_POKEMON_SIZE) in
        let pk3_padded := pk3_data ++ zero_bytes (PK3_SIZE - PC_POKEMON_SIZE) in
        poke ← _parse_pk3 float_pow_third pk3_padded;
        _parse_box_loop float_pow_third pc_data box_idx slots'
          (append_if_present box_pokemon poke)
  end.

Definition _parse_box (float_pow_third : Z → Z) (pc_data : list byte) (box_idx : Z)
  : pyres GBABox.t :=
  let name_offset := BOX_NAMES_START + box_idx * BOX_NAME_LEN in
  let box_name :=
    if decide (name_offset + BOX_NAME_LEN <= len pc_data)
    then _read_gba_string pc_data name_offset BOX_NAME_LEN
    else "Box " +:+ pretty (box_idx + 1) in
  let box_name := str_or box_name ("Box " +:+ pretty (box_idx + 1)) in
  box_pokemon ← _parse_box_loop float_pow_third pc_data box_idx (range PC_BOX_SIZE) [];
  mret {| GBABox.box_index := box_idx; GBABox.name := box_name;
          GBABox.pokemon := box_pokemon |}.

Fixpoint _parse_boxes_loop (float_pow_third : Z → Z) (pc_data : list byte)
    (box_idxs : list Z) : pyres (list GBABox.t) :=
  match box_idxs with
  | [] => mret []
  | box_idx :: rest =>
      box ← _parse_box float_pow_third pc_data box_idx;
      boxes ← _parse_boxes_loop float_pow_third pc_data rest;
      mret (box :: boxes)
  end.

Definition _parse_pc_boxes (float_pow_third : Z → Z) (sections : gmap Z (list byte))
  : pyres (list GBABox.t) :=
  let pc_data := pc_buffer sections in
  if decide (pc_data = []) then mret []
  else _parse_boxes_loop float_pow_third pc_data (range PC_BOX_COUNT).

Definition _detect_game (sections : gmap Z (list byte)) : GBAGame * GBARegion :=
  match sections !! (0 : Z) with
  | None => (GAME_UNKNOWN, REGION_UNKNOWN)
  | Some sec0 =>
      let byte_set i :=
        match sec0 !! Z.to_nat i with
        | Some b => bool_decide (byte_to_Z b ≠ 0)
        | None => false
        end in
      if decide (Z.of_nat (size sections) = GBA_SECTION_COUNT) then
        if byte_set 0xAC then (EMERALD, US)
        else if byte_set 0x00C5 then (FIRERED, US)
        else (RUBY, US)
      else (RUBY, US)
  end.

Definition _get_game_name (game : GBAGame) (region : GBARegion) : string :=
  let name :=
    match game with
    | RUBY => "Pokemon Ruby"
    | SAPPHIRE => "Pokemon Sapphire"
    | EMERALD => "Pokemon Emerald"
    | FIRERED => "Pokemon FireRed"
    | LEAFGREEN => "Pokemon LeafGreen"
    | GAME_UNKNOWN => "Unknown GBA Game"
    end in
  let region_str :=
    match region with
    | US => " (US)"
    | EU => " (EU)"
    | JP => " (JP)"
    | REGION_UNKNOWN => ""
    end in
  name +:+ region_str.

(** [bin(badges).count('1')] for a byte value. *)
Definition popcount (z : Z) : Z :=
  len (filter (fun i => Z.testbit z i = true) (range 8)).

Definition _parse_trainer_info (sections : gmap Z (list byte)) (file_path : string)
    (slot_used : Z) : pyres (option GBASaveInfo.t) :=
  match sections !! (0 : Z) with
  | None => mret None
  | Some sec =>
      try_except_struct_or_index
        (let trainer_name := _read_gba_string sec 0x00 7 in
         trainer_id ← struct.unpack_from struct.LE_H sec 0x0A;
         secret_id ← struct.unpack_from struct.LE_H sec 0x0C;
         play_h ← struct.unpack_from struct.LE_H sec 0x0E;
         play_m ← byte_at sec 0x10;
         play_s ← byte_at sec 0x11;
         money ← (if decide (len sec > 0x0294)
                  then struct.unpack_from struct.LE_I sec 0x0290 else mret 0);
         badges ← (if decide (len sec > 0x0098) then byte_at sec 0x0098 else mret 0);
         let '(game, region) := _detect_game sections in
         let game_name := _get_game_name game region in
         mret (Some {|
           GBASaveInfo.file_path := file_path;
           GBASaveInfo.game := game;
           GBASaveInfo.region := region;
           GBASaveInfo.game_name := game_name;
           GBASaveInfo.trainer_name := str_or trainer_name "Trainer";
           GBASaveInfo.trainer_id := trainer_id;
           GBASaveInfo.secret_id := secret_id;
           GBASaveInfo.play_time_h := play_h;
           GBASaveInfo.play_time_m := play_m;
           GBASaveInfo.play_time_s := play_s;
           GBASaveInfo.money := money;
           GBASaveInfo.badges := popcount badges;
           GBASaveInfo.is_valid := true;
           GBASaveInfo.error := "";
           GBASaveInfo.slot_used := slot_used
         |}))
        (mret None)
  end.

(** Why [parse_save_file] returned [None]; the source logs a distinct
    message before each of these returns. *)
Inductive parse_failure : Type :=
  | TooSmall        (* "Save file too small to parse" *)
  | NoValidSlot     (* "No valid save slot found" *)
  | NoTrainerInfo.  (* [_parse_trainer_info] returned None *)

(** The part of [parse_save_file] that runs once a slot has been picked. *)
Definition parse_picked_slot (float_pow_third : Z → Z) (file_path : string)
    (picked : slot_ref * gmap Z (list byte)) : pyres (parse_failure + GBASave.t) :=
  let sections := picked.2 in
  let slot_used := match picked.1 with SlotA => 0 | SlotB => 1 end in
  info ← _parse_trainer_info sections file_path slot_used;
  match info with
  | None => mret (inl NoTrainerInfo)
  | Some info =>
      party ← _parse_party float_pow_third sections;
      boxes ← _parse_pc_boxes float_pow_third sections;
      mret (inr {| GBASave.info := info; GBASave.party := party;
                   GBASave.boxes := boxes |})
  end.

(** [parse_save_file] from the point where the file has been read into
    [data]. *)
Definition parse_save_file (float_pow_third : Z → Z) (file_path : string)
    (data : list byte) : pyres (parse_failure + GBASave.t) :=
  if decide (len data < GBA_SAVE_SIZE ∧ len data < GBA_SLOT_SIZE) then mret (inl TooSmall)
  else
    slot_a ← _parse_slot data 0;
    slot_b ← (if decide (len data >= GBA_SAVE_SIZE)
              then _parse_slot data GBA_SLOT_SIZE else mret None);
    sections ← _pick_best_slot slot_a slot_b;
    match sections with
    | None => mret (inl NoValidSlot)
    | Some picked => parse_picked_slot float_pow_third file_path picked
    end.

(** ** ConsoleRecordCodec ([GCIParser] of memory_card.py) *)

Module SavedPokemon.
(** The dataclass [SavedPokemon]; [purification_progress] is the float
    constant [0.0] on this path and is recorded as [0]. *)
Record t : Type := make {
  slot_index : Z;
  species_id : Z;
  species_name : string;
  nickname : string;
  level : Z;
  nature : string;
  ability : string;
  held_item : string;
  is_shadow : bool;
  shadow_level : Z;
  purification_progress : Z;
  moves : list string;
  hp_iv : Z; atk_iv : Z; def_iv : Z;
  spa_iv : Z; spd_iv : Z; spe_iv : Z;
  hp_ev : Z; atk_ev : Z; def_ev : Z;
  spa_ev : Z; spd_ev : Z; spe_ev : Z;
  is_shiny : bool;
  gender : string;
  ot_name : string;
  ot_id : Z
}.
End SavedPokemon.

Module GCIParser.

(** Species names of [GCIParser.SPECIES] in memory_card.py. *)
Definition SPECIES : list (Z * string) :=
[
 (1, "Bulbasaur"); (2, "Ivysaur"); (3, "Venusaur"); (4, "Charmander"); (5, "Charmeleon");
 (6, "Charizard"); (7, "Squirtle"); (8, "Wartortle"); (9, "Blastoise"); (10, "Caterpie");
 (11, "Metapod"); (12, "Butterfree"); (13, "Weedle"); (14, "Kakuna"); (15, "Beedrill");
 (16, "Pidgey"); (17, "Pidgeotto"); (18, "Pidgeot"); (19, "Rattata"); (20, "Raticate");
 (21, "Spearow"); (22, "Fearow"); (23, "Ekans"); (24, "Arbok"); (25, "Pikachu");
 (26, "Raichu"); (27, "Sandshrew"); (28, "Sandslash"); (29, "Nidoran-F"); (30, "Nidorina");
 (31, "Nidoqueen"); (32, "Nidoran-M"); (33, "Nidorino"); (34, "Nidoking"); (35, "Clefairy");
 (36, "Clefable"); (37, "Vulpix"); (38, "Ninetales"); (39, "Jigglypuff"); (40, "Wigglytuff");
 (41, "Zubat"); (42, "Golbat"); (43, "Oddish"); (44, "Gloom"); (45, "Vileplume");
 (46, "Paras"); (47, "Parasect"); (48, "Venonat"); (49, "Venomoth"); (50, "Diglett");
 (51, "Dugtrio"); (52, "Meowth"); (53, "Persian"); (54, "Psyduck"); (55, "Golduck");
 (56, "Mankey"); (57, "Primeape"); (58, "Growlithe"); (59, "Arcanine"); (60, "Poliwag");
 (61, "Poliwhirl"); (62, "Poliwrath"); (63, "Abra"); (64, "Kadabra"); (65, "Alakazam");
 (66, "Machop"); (67, "Machoke"); (68, "Machamp"); (69, "Bellsprout"); (70, "Weepinbell");
 (71, "Victreebel"); (72, "Tentacool"); (73, "Tentacruel"); (74, "Geodude");
 (75, "Graveler"); (76, "Golem"); (77, "Ponyta"); (78, "Rapidash"); (79, "Slowpoke");
 (80, "Slowbro"); (81, "Magnemite"); (82, "Magneton"); (83, "Farfetchd"); (84, "Doduo");
 (85, "Dodrio"); (86, "Seel"); (87, "Dewgong"); (88, "Grimer"); (89, "Muk");
 (90, "Shellder"); (91, "Cloyster"); (92, "Gastly"); (93, "Haunter"); (94, "Gengar");
 (95, "Onix"); (96, "Drowzee"); (97, "Hypno"); (98, "Krabby"); (99, "Kingler");
 (100, "Voltorb"); (101, "Electrode"); (102, "Exeggcute"); (103, "Exeggutor");
 (104, "Cubone"); (105, "Marowak"); (106, "Hitmonlee"); (107, "Hitmonchan");
 (108, "Lickitung"); (109, "Koffing"); (110, "Weezing"); (111, "Rhyhorn"); (112, "Rhydon");
 (113, "Chansey"); (114, "Tangela"); (115, "Kangaskhan"); (116, "Horsea"); (117, "Seadra");
 (118, "Goldeen"); (119, "Seaking"); (120, "Staryu"); (121, "Starmie"); (122, "Mr. Mime");
 (123, "Scyther"); (124, "Jynx"); (125, "Electabuzz"); (126, "Magmar"); (127, "Pinsir");
 (128, "Tauros"); (129, "Magikarp"); (130, "Gyarados"); (131, "Lapras"); (132, "Ditto");
 (133, "Eevee"); (134, "Vaporeon"); (135, "Jolteon"); (136, "Flareon"); (137, "Porygon");
 (138, "Omanyte"); (139, "Omastar"); (140, "Kabuto"); (141, "Kabutops"); (142, "Aerodactyl");
 (143, "Snorlax"); (144, "Articuno"); (145, "Zapdos"); (146, "Moltres"); (147, "Dratini");
 (148, "Dragonair"); (149, "Dragonite"); (150, "Mewtwo"); (151, "Mew"); (152, "Chikorita");
 (153, "Bayleef"); (154, "Meganium"); (155, "Cyndaquil"); (156, "Quilava");
 (157, "Typhlosion"); (158, "Totodile"); (159, "Croconaw"); (160, "Feraligatr");
 (161, "Sentret"); (162, "Furret"); (163, "Hoothoot"); (164, "Noctowl"); (165, "Ledyba");
 (166, "Ledian"); (167, "Spinarak"); (168, "Ariados"); (169, "Crobat"); (170, "Chinchou");
 (171, "Lanturn"); (172, "Pichu"); (173, "Cleffa"); (174, "Igglybuff"); (175, "Togepi");
 (176, "Togetic"); (177, "Natu"); (178, "Xatu"); (179, "Mareep"); (180, "Flaaffy");
 (181, "Ampharos"); (182, "Bellossom"); (183, "Marill"); (184, "Azumarill");
 (185, "Sudowoodo"); (186, "Politoed"); (187, "Hoppip"); (188, "Skiploom");
 (189, "Jumpluff"); (190, "Aipom"); (191, "Sunkern"); (192, "Sunflora"); (193, "Yanma");
 (194, "Wooper"); (195, "Quagsire"); (196, "Espeon"); (197, "Umbreon"); (198, "Murkrow");
 (199, "Slowking"); (200, "Misdreavus"); (201, "Unown"); (202, "Wobbuffet");
 (203, "Girafarig"); (204, "Pineco"); (205, "Forretress"); (206, "Dunsparce");
 (207, "Gligar"); (208, "Steelix"); (209, "Snubbull"); (210, "Granbull"); (211, "Qwilfish");
 (212, "Scizor"); (213, "Shuckle"); (214, "Heracross"); (215, "Sneasel"); (216, "Teddiursa");
 (217, "Ursaring"); (218, "Slugma"); (219, "Magcargo"); (220, "Swinub"); (221, "Piloswine");
 (222, "Corsola"); (223, "Remoraid"); (224, "Octillery"); (225, "Delibird");
 (226, "Mantine"); (227, "Skarmory"); (228, "Houndour"); (229, "Houndoom"); (230, "Kingdra");
 (231, "Phanpy"); (232, "Donphan"); (233, "Porygon2"); (234, "Stantler"); (235, "Smeargle");
 (236, "Tyrogue"); (237, "Hitmontop"); (238, "Smoochum"); (239, "Elekid"); (240, "Magby");
 (241, "Miltank"); (242, "Blissey"); (243, "Raikou"); (244, "Entei"); (245, "Suicune");
 (246, "Larvitar"); (247, "Pupitar"); (248, "Tyranitar"); (249, "Lugia"); (250, "Ho-Oh");
 (251, "Celebi"); (252, "Treecko"); (253, "Grovyle"); (254, "Sceptile"); (255, "Torchic");
 (256, "Combusken"); (257, "Blaziken"); (258, "Mudkip"); (259, "Marshtomp");
 (260, "Swampert"); (261, "Poochyena"); (262, "Mightyena"); (263, "Zigzagoon");
 (264, "Linoone"); (265, "Wurmple"); (266, "Silcoon"); (267, "Beautifly"); (268, "Cascoon");
 (269, "Dustox"); (270, "Lotad"); (271, "Lombre"); (272, "Ludicolo"); (273, "Seedot");
 (274, "Nuzleaf"); (275, "Shiftry"); (276, "Taillow"); (277, "Swellow"); (278, "Wingull");
 (279, "Pelipper"); (280, "Ralts"); (281, "Kirlia"); (282, "Gardevoir"); (283, "Surskit");
 (284, "Masquerain"); (285, "Shroomish"); (286, "Breloom"); (287, "Slakoth");
 (288, "Vigoroth"); (289, "Slaking"); (290, "Nincada"); (291, "Ninjask"); (292, "Shedinja");
 (293, "Whismur"); (294, "Loudred"); (295, "Exploud"); (296, "Makuhita"); (297, "Hariyama");
 (298, "Azurill"); (299, "Nosepass"); (300, "Skitty"); (301, "Delcatty"); (302, "Sableye");
 (303, "Mawile"); (304, "Aron"); (305, "Lairon"); (306, "Aggron"); (307, "Meditite");
 (308, "Medicham"); (309, "Electrike"); (310, "Manectric"); (311, "Plusle"); (312, "Minun");
 (313, "Volbeat"); (314, "Illumise"); (315, "Roselia"); (316, "Gulpin"); (317, "Swalot");
 (318, "Carvanha"); (319, "Sharpedo"); (320, "Wailmer"); (321, "Wailord"); (322, "Numel");
 (323, "Camerupt"); (324, "Torkoal"); (325, "Spoink"); (326, "Grumpig"); (327, "Spinda");
 (328, "Trapinch"); (329, "Vibrava"); (330, "Flygon"); (331, "Cacnea"); (332, "Cacturne");
 (333, "Swablu"); (334, "Altaria"); (335, "Zangoose"); (336, "Seviper"); (337, "Lunatone");
 (338, "Solrock"); (339, "Barboach"); (340, "Whiscash"); (341, "Corphish");
 (342, "Crawdaunt"); (343, "Baltoy"); (344, "Claydol"); (345, "Lileep"); (346, "Cradily");
 (347, "Anorith"); (348, "Armaldo"); (349, "Feebas"); (350, "Milotic"); (351, "Castform");
 (352, "Kecleon"); (353, "Shuppet"); (354, "Banette"); (355, "Duskull"); (356, "Dusclops");
 (357, "Tropius"); (358, "Chimecho"); (359, "Absol"); (360, "Wynaut"); (361, "Snorunt");
 (362, "Glalie"); (363, "Spheal"); (364, "Sealeo"); (365, "Walrein"); (366, "Clamperl");
 (367, "Huntail"); (368, "Gorebyss"); (369, "Relicanth"); (370, "Luvdisc"); (371, "Bagon");
 (372, "Shelgon"); (373, "Salamence"); (374, "Beldum"); (375, "Metang"); (376, "Metagross");
 (377, "Regirock"); (378, "Regice"); (379, "Registeel"); (380, "Latias"); (381, "Latios");
 (382, "Kyogre"); (383, "Groudon"); (384, "Rayquaza"); (385, "Jirachi"); (386, "Deoxys")
].

Definition species_name (sid : Z) : string :=
  default ("Pokemon #" +:+ pretty sid) (dict_get SPECIES sid).

(** [chr(code)] for the ASCII letters and digits. *)
Definition chr (code : Z) : string := String (Ascii.ascii_of_N (Z.to_N code)) EmptyString.

Fixpoint _gc_str_loop (data : list byte) (offset : Z) (idxs : list Z)
  : pyres (list string) :=
  match idxs with
  | [] => mret []
  | i :: idxs' =>
      let pos := offset + i * 2 in
      if decide (pos + 1 >= len data) then mret [] (* break *)
      else
        code ← struct.unpack_from struct.BE_H data pos;
        if decide (code = 0) then mret [] (* break *)
        else
          let c :=
            if decide ((0x41 <= code <= 0x5A) ∨ (0x61 <= code <= 0x7A)
                       ∨ (0x30 <= code <= 0x39))
            then chr code else "?" in
          rest ← _gc_str_loop data offset idxs';
          mret (c :: rest)
  end.

Definition _gc_str (data : list byte) (offset max_len : Z) : pyres string :=
  chars ← _gc_str_loop data offset (range max_len);
  mret (join chars).

(** The move loop of [_parse_pokemon]. *)
Fixpoint moves_loop (data : list byte) (ms : list Z) : pyres (list string) :=
  match ms with
  | [] => mret []
  | m :: ms' =>
      let off := 0x40 + m * 2 in
      here ←
        (if decide (off + 2 <= len data) then
           mid ← struct.unpack_from struct.BE_H data off;
           mret (if decide (mid > 0) then ["Move #" +:+ pretty mid] else [])
         else mret []);
      rest ← moves_loop data ms';
      mret (here ++ rest)
  end.

Definition _parse_pokemon_body (data : list byte) (idx : Z)
  : pyres (option SavedPokemon.t) :=
  sid ← struct.unpack_from struct.BE_H data 0x00;
  if decide (sid = 0 ∨ sid > 386) then mret None
  else
  level_raw ← (if decide (len data > 0x04) then byte_at data 0x04 else mret 1);
  let level := Z.max 1 (Z.min 100 level_raw) in
  nature_raw ← (if decide (len data > 0x08) then byte_at data 0x08 else mret 0);
  nature ← getitem NATURES (nature_raw mod 25);
  is_shadow ← (if decide (len data > 0x10)
               then b ← byte_at data 0x10; mret (nonzero b) else mret false);
  shadow_raw ← (if decide (is_shadow = true ∧ len data > 0x11)
                then byte_at data 0x11 else mret 0);
  let shadow_level := Z.max 0 (Z.min 5 shadow_raw) in
  nick ← _gc_str data 0x18 10;
  let nickname := str_or nick (species_name sid) in
  ivs ← (if decide (len data >= 0x3C) then
           iv_raw ← struct.unpack_from struct.BE_I data 0x38;
           mret ((fun j => Z.land (Z.shiftr iv_raw (25 - j * 5)) 0x1F) <$> range 6)
         else mret (replicate 6 0));
  let iv i := default 0 (ivs !! i) in
  moves ← moves_loop data (range 4);
  mret (Some {|
    SavedPokemon.slot_index := idx;
    SavedPokemon.species_id := sid;
    SavedPokemon.species_name := species_name sid;
    SavedPokemon.nickname := nickname;
    SavedPokemon.level := level;
    SavedPokemon.nature := nature;
    SavedPokemon.ability := "";
    SavedPokemon.held_item := "";
    SavedPokemon.is_shadow := is_shadow;
    SavedPokemon.shadow_level := shadow_level;
    SavedPokemon.purification_progress := 0;
    SavedPokemon.moves := moves;
    SavedPokemon.hp_iv := iv 0%nat; SavedPokemon.atk_iv := iv 1%nat;
    SavedPokemon.def_iv := iv 2%nat; SavedPokemon.spa_iv := iv 3%nat;
    SavedPokemon.spd_iv := iv 4%nat; SavedPokemon.spe_iv := iv 5%nat;
    SavedPokemon.hp_ev := 0; SavedPokemon.atk_ev := 0; SavedPokemon.def_ev := 0;
    SavedPokemon.spa_ev := 0; SavedPokemon.spd_ev := 0; SavedPokemon.spe_ev := 0;
    SavedPokemon.is_shiny := false;
    SavedPokemon.gender := "unknown";
    SavedPokemon.ot_name := "";
    SavedPokemon.ot_id := 0
  |}).

Definition _parse_pokemon (data : list byte) (idx : Z) : pyres (option SavedPokemon.t) :=
  if decide (len data < 0x50) then mret None
  else try_except_struct_or_index (_parse_pokemon_body data idx) (mret None).

End GCIParser.

(** ** CompatibilityEvaluator *)

Inductive TransferCompatibility : Type :=
  | COMPATIBLE
  | INCOMPATIBLE
  | REQUIRES_PURIFY
  | VERSION_LOCKED.

(** [GBAToGCNTransfer.check_transfer_compatibility] of gba_support.py. *)
Module GBAToGCNTransfer.

Definition total_evs (pokemon : PK3Pokemon.t) : Z :=
  PK3Pokemon.hp_ev pokemon + PK3Pokemon.atk_ev pokemon + PK3Pokemon.def_ev pokemon
  + PK3Pokemon.spe_ev pokemon + PK3Pokemon.spa_ev pokemon + PK3Pokemon.spd_ev pokemon.

Definition check_transfer_compatibility (pokemon : PK3Pokemon.t) (target_game : string)
  : TransferCompatibility * string :=
  if PK3Pokemon.is_egg pokemon then (INCOMPATIBLE, "Eggs cannot be transferred")
  else if decide (PK3Pokemon.species_id pokemon = 0 ∨ PK3Pokemon.species_id pokemon > 386)
  then (INCOMPATIBLE, "Invalid species")
  else if decide (PK3Pokemon.level pokemon > 100 ∨ PK3Pokemon.level pokemon < 1)
  then (INCOMPATIBLE, "Invalid level")
  else if decide (total_evs pokemon > 510)
  then (INCOMPATIBLE, "EVs exceed maximum (510)")
  else (COMPATIBLE, "Compatible").

End GBAToGCNTransfer.

(** [GBACompatibilityChecker] of gba_trading.py. *)
Module GBACompatibilityChecker.

Definition check_gba_to_gcn (species_id : Z) (is_shadow is_egg : bool)
    (level total_evs : Z) : bool * string :=
  if is_egg then (false, "Eggs cannot be transferred via link cable")
  else if is_shadow then (false, "Shadow Pokemon cannot be transferred to GBA")
  else if decide (species_id = 0 ∨ species_id > 386)
  then (false, "Species #" +:+ pretty species_id +:+ " is not available in Gen 3")
  else if decide (level < 1 ∨ level > 100)
  then (false, "Invalid level: " +:+ pretty level)
  else if decide (total_evs > 510)
  then (false, "Total EVs (" +:+ pretty total_evs +:+ ") exceed maximum (510)")
  else (true, "Compatible").

Definition check_gcn_to_gba (species_id : Z) (is_shadow is_egg : bool) (level : Z)
  : bool * string :=
  if is_shadow
  then (false, "Shadow Pokemon must be purified before transferring to GBA")
  else if is_egg then (false, "Eggs cannot be transferred via link cable")
  else if decide (species_id = 0 ∨ species_id > 386)
  then (false, "Species #" +:+ pretty species_id
               +:+ " cannot be transferred to Gen 3 GBA")
  else (true, "Compatible").

End GBACompatibilityChecker.

(** ** Auxiliary definitions used to state the properties *)

(** Sum of the complete little-endian 32-bit words of a byte string; a
    trailing group of fewer than four bytes does not count. *)
Fixpoint words_total (l : list byte) : Z :=
  match l with
  | a :: b :: c :: d :: r => struct.le_value [a; b; c; d] + words_total r
  | _ => 0
  end.

(** The 16-bit end-around fold applied to the word sum. *)
Definition fold16 (total : Z) : Z :=
  Z.land (Z.shiftr total 16 + Z.land total 0xFFFF) 0xFFFF.

(** Flipping bit [j] of one byte, and of the byte at index [p] of a buffer. *)
Definition flip_byte (j : Z) (b : byte) : byte :=
  byte_of_Z (Z.lxor (byte_to_Z b) (2 ^ j)).
Definition flip_bit (data : list byte) (p : Z) (j : Z) : list byte :=
  alter (flip_byte j) (Z.to_nat p) data.

(** ** Sample data *)

(** A 4096-byte section: data area filled with [fill], then the footer
    fields section id, stored checksum and save index; the last four bytes
    of the data area are left zero. *)
Definition sample_section (fill : byte) (section_id stored_checksum save_index : Z)
  : list byte :=
  replicate 4084 fill ++ zero_bytes 4
  ++ struct.le_bytes 2 section_id ++ struct.le_bytes 2 stored_checksum
  ++ struct.le_bytes 4 save_index.

(** Word-wise XOR of a byte string with one fixed 32-bit key: every
    complete little-endian word is replaced by its XOR with [key]; a
    trailing group of fewer than four bytes is left as zero bytes. *)
Fixpoint xor_words (key : Z) (l : list byte) : list byte :=
  match l with
  | a :: b :: c :: d :: r =>
      struct.le_bytes 4 (Z.lxor (struct.le_value [a; b; c; d]) key) ++ xor_words key r
  | _ => zero_bytes (len l)
  end.

(** A 48-byte payload whose first two bytes hold [species] (the layout of an
    unencrypted payload in the order "GAEM"), followed by [fill]. *)
Definition sample_payload (species : Z) (fill : byte) : list byte :=
  struct.le_bytes 2 species ++ replicate 46 fill.

(** What it means for an order string to place the four substructures:
    its letters are a rearrangement of G, A, E, M, the letter at position
    [k] is bound to the [k]-th 12-byte block, and the four blocks laid end
    to end in that order are the 48 decrypted bytes. *)
Definition places_substructures (order : string) : Prop :=
  exists l0 l1 l2 l3 : string,
    chars order = [l0; l1; l2; l3]
    /\ [l0; l1; l2; l3] ≡ₚ ["G"; "A"; "E"; "M"]
    /\ forall decrypted : list byte,
         len decrypted = PK3_DATA_SIZE ->
         let sub_map := build_sub_map order decrypted in
         sub_map !! l0 = Some (slice decrypted 0 12)
         /\ sub_map !! l1 = Some (slice decrypted 12 24)
         /\ sub_map !! l2 = Some (slice decrypted 24 36)
         /\ sub_map !! l3 = Some (slice decrypted 36 48)
         /\ len (sub_map_get sub_map "G") = 12
         /\ len (sub_map_get sub_map "A") = 12
         /\ len (sub_map_get sub_map "E") = 12
         /\ len (sub_map_get sub_map "M") = 12
         /\ sub_map_get sub_map l0 ++ sub_map_get sub_map l1
            ++ sub_map_get sub_map l2 ++ sub_map_get sub_map l3 = decrypted.

(** The species id a cartridge record decodes to: header words, payload
    decryption, substructure lookup and the first half-word of the Growth
    block, as in [_parse_pk3]. *)
Definition pk3_decoded_species (data : list byte) : pyres Z :=
  personality_value ← struct.unpack_from struct.LE_I data 0x00;
  ot_id_full ← struct.unpack_from struct.LE_I data 0x04;
  let encrypted := slice data PK3_HEADER_SIZE (PK3_HEADER_SIZE + PK3_DATA_SIZE) in
  decrypted ← _decrypt_pk3_data encrypted (pk3_key personality_value ot_id_full);
  order ← getitem SUBSTRUCTURE_ORDER (personality_value mod 24);
  struct.unpack_from struct.LE_H (sub_map_get (build_sub_map order decrypted) "G") 0.

(** The species id a console record decodes to. *)
Definition gc_decoded_species (data : list byte) : pyres Z :=
  struct.unpack_from struct.BE_H data 0x00.

(** A decoder result that is a record whose species id is [sid]. *)
Definition present_with {A} (species : A -> Z) (r : pyres (option A)) (sid : Z) : Prop :=
  match r with
  | Return (Some p) => species p = sid
  | _ => False
  end.

(** The exact integer cube root below 1627, a sample instance for the
    abstract [float_pow_third]. *)
Definition cube_root_floor (e : Z) : Z :=
  len (filter (fun k => k * k * k <= e) (range3 1 1627 1)).

(** A full-size cartridge record with personality value 24 (order index 0,
    "GAEM"), owner-id word 0xCAFE0001, a name block, and an encrypted
    payload whose Growth block starts with [species]; the status block is
    [status]. *)
Definition sample_pk3 (species : Z) (status : list byte) : list byte :=
  struct.le_bytes 4 24 ++ struct.le_bytes 4 0xCAFE0001
  ++ [xbc; xbd; xff] ++ zero_bytes 21
  ++ xor_words (pk3_key 24 0xCAFE0001) (sample_payload species x00)
  ++ status.

(** An 80-byte console record with species id [species]. *)
Definition sample_gc_record (species : Z) : list byte :=
  struct.encode struct.BE_H species ++ replicate 78 x41.

(** ** The slot as the specification describes it *)

(** Footer fields of a section. *)
Definition footer_id (section : list byte) : Z :=
  struct.decode struct.LE_H (slice section GBA_SECTION_ID_OFF (GBA_SECTION_ID_OFF + 2)).
Definition footer_checksum (section : list byte) : Z :=
  struct.decode struct.LE_H (slice section GBA_CHECKSUM_OFF (GBA_CHECKSUM_OFF + 2)).
Definition footer_save_index (section : list byte) : Z :=
  struct.decode struct.LE_I (slice section GBA_SAVE_INDEX_OFF (GBA_SAVE_INDEX_OFF + 4)).

(** The [i]-th 4096-byte section of the slot at [offset]. *)
Definition section_at (data : list byte) (offset i : Z) : list byte :=
  slice data (offset + i * GBA_SECTION_SIZE) (offset + i * GBA_SECTION_SIZE + GBA_SECTION_SIZE).

(** Whether section [i] of the slot lies inside the image. *)
Definition section_fits (data : list byte) (offset i : Z) : Prop :=
  offset + i * GBA_SECTION_SIZE + GBA_SECTION_SIZE <= len data.

#[global] Instance section_fits_dec (data : list byte) (offset i : Z)
  : Decision (section_fits data offset i) :=
  decide (offset + i * GBA_SECTION_SIZE + GBA_SECTION_SIZE <= len data).

(** The sections of a candidate slot that lie inside the image. *)
Definition slot_sections (data : list byte) (offset : Z) : list (list byte) :=
  section_at data offset <$> filter (section_fits data offset) (range GBA_SECTION_COUNT).

(** The fold checksum of the data area equals the stored footer checksum. *)
Definition checksum_valid (section : list byte) : bool :=
  bool_decide (fold16 (words_total (slice section 0 GBA_FOOTER_OFFSET))
               = footer_checksum section).

(** Following the specification's words: the slot of the specification maps
    a section id to the section bytes together with a checksum-valid flag;
    sections whose id exceeds 13 are discarded, a mismatching checksum
    clears the flag but the section stays. *)
Definition spec_slot_step (slot : gmap Z (list byte * bool)) (section : list byte)
  : gmap Z (list byte * bool) :=
  if decide (footer_id section > 13) then slot
  else <[footer_id section := (section, checksum_valid section)]> slot.

Definition spec_slot_map (data : list byte) (offset : Z) : gmap Z (list byte * bool) :=
  foldl spec_slot_step ∅ (slot_sections data offset).

(** A slot with zero valid sections is itself invalid. *)
Definition spec_parse_slot (data : list byte) (offset : Z)
  : option (gmap Z (list byte * bool)) :=
  let slot := spec_slot_map data offset in
  if decide (slot = ∅) then None else Some slot.

(** The specification's slot with its flags dropped. *)
Definition forget_flags (slot : gmap Z (list byte * bool)) : gmap Z (list byte) :=
  fst <$> slot.

(** The ids the specification's slot flags as checksum-invalid, in section
    order. *)
Definition spec_invalid_ids (data : list byte) (offset : Z) : list Z :=
  footer_id <$> filter (fun s => ¬ footer_id s > 13 ∧ checksum_valid s = false)
                       (slot_sections data offset).

(** Python values a slot dictionary could hold: the code stores a [bytes]
    object ([sections[section_id] = section]); the specification describes
    a pair of the bytes and a flag. *)
Inductive pyvalue : Type :=
  | PyBytes (b : list byte)
  | PyBool (b : bool)
  | PyTuple2 (first second : pyvalue).

Definition code_slot_value (section : list byte) : pyvalue := PyBytes section.
Definition spec_slot_value (entry : list byte * bool) : pyvalue :=
  PyTuple2 (PyBytes entry.1) (PyBool entry.2).

(** The save index a slot offers for comparison: the footer word of its
    section 0, when the slot has a section 0 long enough to hold it. *)
Definition readable_index (sections : gmap Z (list byte)) : option Z :=
  match sections !! (0 : Z) with
  | Some sec0 =>
      if decide (GBA_SAVE_INDEX_OFF + 4 <= len sec0)
      then Some (footer_save_index sec0) else None
  | None => None
  end.

(** A one-slot image (0xE000 bytes): a section with id 0, stored checksum
    [stored_checksum] and save index [save_index], followed by thirteen
    sections whose footer id is 99.  The data area of the first section is
    all zero, so its fold checksum is 0. *)
Definition sample_slot_with (stored_checksum save_index : Z) : list byte :=
  sample_section x00 0 stored_checksum save_index
  ++ mjoin (replicate 13 (sample_section x00 99 0 save_index)).
Definition sample_slot (save_index : Z) : list byte := sample_slot_with 0 save_index.

(** A one-slot image in which every footer id is 99. *)
Definition sample_bad_slot : list byte :=
  mjoin (replicate 14 (sample_section x00 99 0 0)).

(** A full 0x20000-byte image: two slots back to back and the unused tail. *)
Definition sample_image (slot_a slot_b : list byte) : list byte :=
  slot_a ++ slot_b ++ zero_bytes (GBA_SAVE_SIZE - 2 * GBA_SLOT_SIZE).

(** Slots holding only a section 0 with the given save index, and a slot
    holding only a section 1. *)
Definition sample_sections (save_index : Z) : gmap Z (list byte) :=
  {[ 0 := sample_section x00 0 0 save_index ]}.
Definition sample_sections_without_zero : gmap Z (list byte) :=
  {[ 1 := sample_section x00 1 0 9 ]}.

(** Which slot a successful parse reports as used. *)
Definition slot_used_of (r : pyres (parse_failure + GBASave.t)) : option Z :=
  match r with
  | Return (inr save) => Some (GBASaveInfo.slot_used (GBASave.info save))
  | _ => None
  end.

(** ** Party decoding *)

(** The 100-byte window of party record [i] in section 1, and whether it
    lies inside the section. *)
Definition party_window (sec : list byte) (i : Z) : list byte :=
  slice sec (PARTY_DATA_OFFSET + i * PK3_SIZE) (PARTY_DATA_OFFSET + i * PK3_SIZE + PK3_SIZE).
Definition party_window_fits (sec : list byte) (i : Z) : Prop :=
  PARTY_DATA_OFFSET + i * PK3_SIZE + PK3_SIZE <= len sec.

#[global] Instance party_window_fits_dec (sec : list byte) (i : Z)
  : Decision (party_window_fits sec i) :=
  decide (PARTY_DATA_OFFSET + i * PK3_SIZE + PK3_SIZE <= len sec).

(** How many whole record windows the section holds. *)
Definition party_capacity (sec : list byte) : Z :=
  Z.max 0 ((len sec - PARTY_DATA_OFFSET) / PK3_SIZE).

(** A record decoded from one window; a window the codec rejects gives no
    record. *)
Definition decode_record (float_pow_third : Z -> Z) (window : list byte)
  : option PK3Pokemon.t :=
  match _parse_pk3 float_pow_third window with
  | Return r => r
  | Raise _ => None
  end.

(** The records kept out of a list of decoding results. *)
Definition collect (records : list (option PK3Pokemon.t)) : list PK3Pokemon.t :=
  foldl append_if_present [] records.

(** A section 1 of [size] bytes whose stored party count is [stored] and
    whose party area repeats the full-size sample record. *)
Definition sample_party_section (stored : Z) (size : Z) : list byte :=
  slice (zero_bytes PARTY_COUNT_OFFSET ++ struct.le_bytes 4 stored
         ++ mjoin (replicate 40 (sample_pk3 25 (zero_bytes 20))))
        0 size.

(** ** Transfer rules *)

(** [GBATransferDirection] of gba_trading.py. *)
Inductive GBATransferDirection : Type :=
  | GBA_TO_GCN
  | GCN_TO_GBA.

(** The record fields the compatibility rules look at. *)
Module TransferInput.
Record t : Type := make {
  species_id : Z;
  is_shadow : bool;
  is_egg : bool;
  level : Z;
  total_evs : Z
}.
End TransferInput.

(** The fields of a decoded cartridge record; such a record has no shadow
    state. *)
Definition input_of_pk3 (pokemon : PK3Pokemon.t) : TransferInput.t :=
  {| TransferInput.species_id := PK3Pokemon.species_id pokemon;
     TransferInput.is_shadow := false;
     TransferInput.is_egg := PK3Pokemon.is_egg pokemon;
     TransferInput.level := PK3Pokemon.level pokemon;
     TransferInput.total_evs := GBAToGCNTransfer.total_evs pokemon |}.

(** The checker of gba_trading.py that serves a direction. *)
Definition check_direction (direction : GBATransferDirection) (r : TransferInput.t)
  : bool * string :=
  match direction with
  | GBA_TO_GCN =>
      GBACompatibilityChecker.check_gba_to_gcn
        (TransferInput.species_id r) (TransferInput.is_shadow r) (TransferInput.is_egg r)
        (TransferInput.level r) (TransferInput.total_evs r)
  | GCN_TO_GBA =>
      GBACompatibilityChecker.check_gcn_to_gba
        (TransferInput.species_id r) (TransferInput.is_shadow r) (TransferInput.is_egg r)
        (TransferInput.level r)
  end.

(** Following the specification's words: the rules in order, first match
    wins.  [requires_non_shadow] says whether the direction requires the
    non-shadow side. *)
Definition spec_verdict (requires_non_shadow : bool) (r : TransferInput.t)
  : TransferCompatibility :=
  if TransferInput.is_egg r then INCOMPATIBLE
  else if decide (¬ (1 <= TransferInput.species_id r <= 386)) then INCOMPATIBLE
  else if TransferInput.is_shadow r && requires_non_shadow then REQUIRES_PURIFY
  else if decide (¬ (1 <= TransferInput.level r <= 100)) then INCOMPATIBLE
  else if decide (TransferInput.total_evs r > 510) then INCOMPATIBLE
  else COMPATIBLE.

(** An ordered rule list: the first rule whose condition holds gives the
    result. *)
Fixpoint first_match {A} (rules : list (bool * A)) (otherwise : A) : A :=
  match rules with
  | [] => otherwise
  | (condition, result) :: rules' =>
      if condition then result else first_match rules' otherwise
  end.

(** A healthy level-50 record with the given EV total, and the same as a
    decoded cartridge record. *)
Definition sample_input (total_evs : Z) : TransferInput.t :=
  {| TransferInput.species_id := 25; TransferInput.is_shadow := false;
     TransferInput.is_egg := false; TransferInput.level := 50;
     TransferInput.total_evs := total_evs |}.

Definition sample_record : option PK3Pokemon.t :=
  decode_record cube_root_floor (sample_pk3 25 (replicate 20 x32)).

(** The record the sample decodes to ([blank] only fills the impossible
    case). *)
Definition blank_pokemon : PK3Pokemon.t :=
  PK3Pokemon.make 0 0 0 "" 0 "" 0 0 0 0 0 0 0 0 0 0 0 0 0 0 0 0 0 0 0 0 0 0
    0 0 0 0 0 0 0 0 0 0 0 0 0 0 0 0 0 0 0 0 0 "" "" false false "" 0
    0 0 0 0 0 0 [] "" "" 0 false.

Definition sample_pokemon : PK3Pokemon.t :=
  Eval vm_compute in default blank_pokemon sample_record.


(** ** Views of a decoded save ([PK3Pokemon], [GBASave], [GBAToGCNTransfer]) *)

#[global] Instance byte_eq_dec : EqDecision byte := Byte.byte_eq_dec.

#[global] Instance TransferCompatibility_eq_dec : EqDecision TransferCompatibility.
Proof. solve_decision. Defined.

(** The property [PK3Pokemon.transfer_compatibility]. *)
Definition transfer_compatibility (self : PK3Pokemon.t) : TransferCompatibility :=
  if PK3Pokemon.is_egg self then INCOMPATIBLE
  else if decide (PK3Pokemon.species_id self = 0 ∨ PK3Pokemon.species_id self > 386)
  then INCOMPATIBLE
  else COMPATIBLE.

(** The property [GBASave.all_pokemon]: the party, then every box in turn. *)
Definition all_pokemon (self : GBASave.t) : list PK3Pokemon.t :=
  foldl (fun result box => result ++ GBABox.pokemon box)
        (GBAParty.pokemon (GBASave.party self)) (GBASave.boxes self).

(** The property [GBASave.transferable_pokemon]. *)
Definition transferable_pokemon (self : GBASave.t) : list PK3Pokemon.t :=
  filter (fun p => transfer_compatibility p = COMPATIBLE) (all_pokemon self).

(** One loop of [GBAToGCNTransfer.get_transferable_pokemon]: the entries
    appended for one list of records, [label i] being the location string
    of position [i]. *)
Definition transferable_entries (label : Z → string) (pokemon : list PK3Pokemon.t)
  : list (string * PK3Pokemon.t) :=
  (fun ip => (label ip.1, ip.2))
    <$> filter (fun ip => transfer_compatibility ip.2 = COMPATIBLE) (enumerate pokemon).

Definition party_label (i : Z) : string := "party_" +:+ pretty i.
Definition box_label (box_index i : Z) : string :=
  "box_" +:+ pretty box_index +:+ "_" +:+ pretty i.

Definition get_transferable_pokemon (save : GBASave.t) : list (string * PK3Pokemon.t) :=
  foldl (fun result box =>
           result ++ transferable_entries (box_label (GBABox.box_index box))
                       (GBABox.pokemon box))
        (transferable_entries party_label (GBAParty.pokemon (GBASave.party save)))
        (GBASave.boxes save).

(** The version-exclusive sets of gba_support.py. *)
Definition RUBY_EXCLUSIVES : gset Z :=
  list_to_set [273;274;275;288;289;290;291;292;335;337;338;339;340;
               341;342;343;344;345;346;347;348;369;370].
Definition SAPPHIRE_EXCLUSIVES : gset Z :=
  list_to_set [270;271;272;285;286;287;300;301;302;303;318;319;320;
               321;333;334;336;349;350;363;364;365;366;367;368].
Definition FIRERED_EXCLUSIVES : gset Z :=
  list_to_set [1;2;3;4;5;6;37;38;52;53;58;59;83;123;125;126;
               143;144;145;146;150;151].
Definition LEAFGREEN_EXCLUSIVES : gset Z :=
  list_to_set [7;8;9;10;11;12;69;70;71;79;80;102;103;108;114;
               115;116;117;118;119;120;121;147;148;149].

(** The [value] of a [GBAGame] member. *)
Definition GBAGame_value (game : GBAGame) : string :=
  match game with
  | RUBY => "ruby"
  | SAPPHIRE => "sapphire"
  | EMERALD => "emerald"
  | FIRERED => "firered"
  | LEAFGREEN => "leafgreen"
  | GAME_UNKNOWN => "unknown"
  end.

(** The dict [exclusives] of [get_version_exclusives_info], with its
    [.get(game, set())] default. *)
Definition version_exclusives (game : GBAGame) : gset Z :=
  match game with
  | RUBY => RUBY_EXCLUSIVES
  | SAPPHIRE => SAPPHIRE_EXCLUSIVES
  | FIRERED => FIRERED_EXCLUSIVES
  | LEAFGREEN => LEAFGREEN_EXCLUSIVES
  | EMERALD => ∅
  | GAME_UNKNOWN => ∅
  end.

(** ** Console saves: header, slot and card ([memory_card.py]) *)

Definition GCI_HEADER_SIZE : Z := 0x40.
Definition GC_BLOCK_SIZE : Z := 0x2000.
Definition COLOSSEUM_PARTY_SIZE : Z := 6.
Definition XD_PARTY_SIZE : Z := 6.

Inductive MemoryCardGame : Type :=
  | COLOSSEUM | XD_GALE | POKEMON_BOX | UNKNOWN.

Inductive SlotStatus : Type :=
  | EMPTY | OCCUPIED | CORRUPT.

#[global] Instance MemoryCardGame_eq_dec : EqDecision MemoryCardGame.
Proof. solve_decision. Defined.
#[global] Instance SlotStatus_eq_dec : EqDecision SlotStatus.
Proof. solve_decision. Defined.

(** The game identifiers, as [bytes] literals. *)
Definition GC6E : list byte := [x47; x43; x36; x45].
Definition GC6J : list byte := [x47; x43; x36; x4a].
Definition GC6P : list byte := [x47; x43; x36; x50].
Definition GXXE : list byte := [x47; x58; x58; x45].
Definition GXXJ : list byte := [x47; x58; x58; x4a].
Definition GXXP : list byte := [x47; x58; x58; x50].
Definition GPXE : list byte := [x47; x50; x58; x45].
Definition GPXJ : list byte := [x47; x50; x58; x4a].

Definition KNOWN_GAME_IDS : list (list byte * string) :=
  [(GC6E, "Pokemon Colosseum (US)");
   (GC6J, "Pokemon Colosseum (JP)");
   (GC6P, "Pokemon Colosseum (EU)");
   (GXXE, "Pokemon XD: Gale of Darkness (US)");
   (GXXJ, "Pokemon XD: Gale of Darkness (JP)");
   (GXXP, "Pokemon XD: Gale of Darkness (EU)");
   (GPXE, "Pokemon Box: Ruby & Sapphire (US)");
   (GPXJ, "Pokemon Box: Ruby & Sapphire (JP)")].

(** [dict.get] on a table keyed by [bytes]. *)
Fixpoint bytes_dict_get {V} (d : list (list byte * V)) (k : list byte) : option V :=
  match d with
  | [] => None
  | (k', v) :: d' => if decide (k = k') then Some v else bytes_dict_get d' k
  end.

(** [repr] of a [bytes] object: the quote is the apostrophe unless the
    bytes hold an apostrophe and no double quote; the quote and the
    backslash are escaped, tab, newline and carriage return have their
    letters, every other byte outside the printable ASCII range is written
    as a two-digit lowercase hex escape. *)
Definition hex_digit (d : Z) : string :=
  String (Ascii.ascii_of_N (Z.to_N (if decide (d < 10) then 48 + d else 87 + d)))
         EmptyString.

Definition byte_char (b : byte) : string := String (ascii_of_byte b) EmptyString.

Definition bytes_repr_char (quote : byte) (b : byte) : string :=
  if decide (b = quote ∨ b = x5c) then "\" +:+ byte_char b
  else if decide (b = x09) then "\t"
  else if decide (b = x0a) then "\n"
  else if decide (b = x0d) then "\r"
  else if decide (byte_to_Z b < 0x20 ∨ byte_to_Z b >= 0x7f)
  then "\x" +:+ hex_digit (byte_to_Z b / 16) +:+ hex_digit (byte_to_Z b mod 16)
  else byte_char b.

Definition bytes_repr (bs : list byte) : string :=
  let quote :=
    if decide (x27 ∈ bs ∧ x22 ∉ bs) then x22 else x27 in
  "b" +:+ byte_char quote +:+ join (bytes_repr_char quote <$> bs) +:+ byte_char quote.

(** [bytes.rstrip(b'\x00')] *)
Fixpoint rstrip_zero (bs : list byte) : list byte :=
  match bs with
  | [] => []
  | b :: bs' =>
      match rstrip_zero bs' with
      | [] => if decide (b = x00) then [] else [b]
      | rest => b :: rest
      end
  end.

(** [bytes.decode('ascii', errors='replace')]: a byte above 0x7F becomes
    the replacement character U+FFFD. *)
Definition decode_ascii_replace (bs : list byte) : string :=
  join ((fun b => if decide (byte_to_Z b < 0x80) then byte_char b else "�") <$> bs).

Module GCIHeader.
(** The dataclass [GCIHeader]. *)
Record t : Type := make {
  game_id : list byte;
  maker_code : list byte;
  filename : string;
  modified_time : Z;
  block_count : Z;
  file_size : Z;
  raw_header : list byte
}.

(** What [from_bytes] can raise: its own [ValueError], or whatever a read
    raises. *)
Inductive error : Type :=
  | ValueError
  | ReadError (e : exn).

Definition from_bytes (data : list byte) : error + t :=
  if decide (len data < GCI_HEADER_SIZE) then inl ValueError
  else
    let game_id := slice data 0x00 0x04 in
    let maker_code := slice data 0x04 0x06 in
    let filename := decode_ascii_replace (rstrip_zero (slice data 0x08 0x28)) in
    match
      (modified_time ← struct.unpack_from struct.BE_I data 0x28;
       block_count ← struct.unpack_from struct.BE_H data 0x38;
       file_size ← struct.unpack_from struct.BE_I data 0x3C;
       mret {| game_id := game_id; maker_code := maker_code; filename := filename;
               modified_time := modified_time; block_count := block_count;
               file_size := file_size;
               raw_header := slice data 0 GCI_HEADER_SIZE |})
    with
    | Return header => inr header
    | Raise e => inl (ReadError e)
    end.

Definition game_name (self : t) : string :=
  default ("Unknown (" +:+ bytes_repr (game_id self) +:+ ")")
          (bytes_dict_get KNOWN_GAME_IDS (game_id self)).

Definition detected_game (self : t) : MemoryCardGame :=
  if decide (game_id self ∈ [GC6E; GC6J; GC6P]) then COLOSSEUM
  else if decide (game_id self ∈ [GXXE; GXXJ; GXXP]) then XD_GALE
  else if decide (game_id self ∈ [GPXE; GPXJ]) then POKEMON_BOX
  else UNKNOWN.

End GCIHeader.

Module MemoryCardSlot.
(** The dataclass [MemoryCardSlot]; [boxes] is a dict in insertion order. *)
Record t : Type := make {
  slot_index : Z;
  status : SlotStatus;
  game : MemoryCardGame;
  trainer_name : string;
  trainer_id : Z;
  play_time_h : Z;
  play_time_m : Z;
  party : list SavedPokemon.t;
  boxes : list (string * list SavedPokemon.t);
  purif_chamber : list SavedPokemon.t;
  checksum_ok : bool;
  raw_data : list byte
}.

(** [slot.slot_index = index] *)
Definition set_slot_index (index : Z) (self : t) : t :=
  {| slot_index := index; status := status self; game := game self;
     trainer_name := trainer_name self; trainer_id := trainer_id self;
     play_time_h := play_time_h self; play_time_m := play_time_m self;
     party := party self; boxes := boxes self;
     purif_chamber := purif_chamber self; checksum_ok := checksum_ok self;
     raw_data := raw_data self |}.

Definition total_pokemon (self : t) : Z :=
  len (party self) + foldr Z.add 0 ((fun kv => len kv.2) <$> boxes self)
  + len (purif_chamber self).

Definition shadow_pokemon (self : t) : list SavedPokemon.t :=
  let all_p := party self in
  let all_p := foldl (fun all_p kv => all_p ++ kv.2) all_p (boxes self) in
  let all_p := all_p ++ purif_chamber self in
  filter (fun p => SavedPokemon.is_shadow p = true) all_p.

End MemoryCardSlot.

Module MemoryCard.
(** The dataclass [MemoryCard].  The two time stamps come from
    [datetime.now()]; every operation that stamps the card takes the
    current time [now] as an argument. *)
Record t : Type := make {
  card_size_mb : Z;
  slots : list MemoryCardSlot.t;
  source_file : string;
  card_label : string;
  created_at : string;
  modified_at : string
}.

(** The card after [self.slots] and [self.modified_at] have been assigned. *)
Definition touch (self : t) (slots' : list MemoryCardSlot.t) (now : string) : t :=
  {| card_size_mb := card_size_mb self; slots := slots';
     source_file := source_file self; card_label := card_label self;
     created_at := created_at self; modified_at := now |}.

Definition get_occupied_slots (self : t) : list MemoryCardSlot.t :=
  filter (fun s => MemoryCardSlot.status s = OCCUPIED) (slots self).

Definition get_slot (self : t) (index : Z) : option MemoryCardSlot.t :=
  snd <$> list_find (fun s => MemoryCardSlot.slot_index s = index) (slots self).

(** [add_slot] and [remove_slot] return their flag and the updated card. *)
Definition add_slot (now : string) (self : t) (slot : MemoryCardSlot.t) : bool * t :=
  match list_find (fun existing => MemoryCardSlot.slot_index existing
                                   = MemoryCardSlot.slot_index slot) (slots self) with
  | Some (i, _) => (true, touch self (<[i := slot]> (slots self)) now)
  | None => (true, touch self (slots self ++ [slot]) now)
  end.

Definition remove_slot (now : string) (self : t) (index : Z) : bool * t :=
  match list_find (fun slot => MemoryCardSlot.slot_index slot = index) (slots self) with
  | Some (i, _) => (true, touch self (delete i (slots self)) now)
  | None => (false, self)
  end.

End MemoryCard.

(** The slot-level methods of [GCIParser]. *)
Module GCISlotParser.

Definition COLO_TRAINER_NAME : Z := 0x78.
Definition COLO_TRAINER_ID : Z := 0x88.
Definition COLO_PLAY_TIME : Z := 0x8C.
Definition COLO_PARTY : Z := 0x498.
Definition COLO_POKE_SIZE : Z := 0x138.

Definition XD_TRAINER_NAME : Z := 0x78.
Definition XD_TRAINER_ID : Z := 0x88.
Definition XD_PLAY_TIME : Z := 0x8C.
Definition XD_PARTY : Z := 0x4A8.
Definition XD_POKE_SIZE : Z := 0x196.

(** [_trainer_info]: the four locals are assigned one after the other
    inside one [try]; a [struct.error] leaves the values assigned so far. *)
Definition _trainer_info (data : list byte) (name_off id_off time_off : Z)
  : pyres (string * Z * Z * Z) :=
  let name := "Trainer" in
  let tid := 0 in
  let ph := 0 in
  let pm := 0 in
  match (if decide (len data > name_off + 16)
         then s ← GCIParser._gc_str data name_off 8; mret (str_or s "Trainer")
         else mret name) with
  | Raise struct_error => mret (name, tid, ph, pm)
  | Raise e => Raise e
  | Return name =>
      match (if decide (len data > id_off + 4)
             then w ← struct.unpack_from struct.BE_I data id_off;
                  mret (Z.land w 0xFFFF)
             else mret tid) with
      | Raise struct_error => mret (name, tid, ph, pm)
      | Raise e => Raise e
      | Return tid =>
          match (if decide (len data > time_off + 4)
                 then t ← struct.unpack_from struct.BE_I data time_off;
                      mret (Z.land (Z.shiftr t 16) 0xFFFF, Z.land (Z.shiftr t 8) 0xFF)
                 else mret (ph, pm)) with
          | Raise struct_error => mret (name, tid, ph, pm)
          | Raise e => Raise e
          | Return (ph, pm) => mret (name, tid, ph, pm)
          end
      end
  end.

(** [if p and p.species_id > 0: party.append(p)] *)
Definition append_if_present (party : list SavedPokemon.t) (p : option SavedPokemon.t)
  : list SavedPokemon.t :=
  match p with
  | Some p => if decide (SavedPokemon.species_id p > 0) then party ++ [p] else party
  | None => party
  end.

(** The loop of [_parse_party]. *)
Fixpoint _parse_party_loop (data : list byte) (offset poke_size : Z) (idxs : list Z)
    (party : list SavedPokemon.t) : pyres (list SavedPokemon.t) :=
  match idxs with
  | [] => mret party
  | i :: idxs' =>
      let start := offset + i * poke_size in
      if decide (start + poke_size > len data) then mret party (* break *)
      else
        p ← GCIParser._parse_pokemon (slice data start (start + poke_size)) i;
        _parse_party_loop data offset poke_size idxs' (append_if_present party p)
  end.

Definition _parse_party (data : list byte) (offset count poke_size : Z)
  : pyres (list SavedPokemon.t) :=
  _parse_party_loop data offset poke_size (range count) [].

Definition _parse_colosseum (data : list byte) : pyres MemoryCardSlot.t :=
  info ← _trainer_info data COLO_TRAINER_NAME COLO_TRAINER_ID COLO_PLAY_TIME;
  let '(name, tid, ph, pm) := info in
  party ← _parse_party data COLO_PARTY COLOSSEUM_PARTY_SIZE COLO_POKE_SIZE;
  mret {| MemoryCardSlot.slot_index := 0; MemoryCardSlot.status := OCCUPIED;
          MemoryCardSlot.game := COLOSSEUM; MemoryCardSlot.trainer_name := name;
          MemoryCardSlot.trainer_id := tid; MemoryCardSlot.play_time_h := ph;
          MemoryCardSlot.play_time_m := pm; MemoryCardSlot.party := party;
          MemoryCardSlot.boxes := []; MemoryCardSlot.purif_chamber := [];
          MemoryCardSlot.checksum_ok := true; MemoryCardSlot.raw_data := data |}.

Definition _parse_xd (data : list byte) : pyres MemoryCardSlot.t :=
  info ← _trainer_info data XD_TRAINER_NAME XD_TRAINER_ID XD_PLAY_TIME;
  let '(name, tid, ph, pm) := info in
  party ← _parse_party data XD_PARTY XD_PARTY_SIZE XD_POKE_SIZE;
  mret {| MemoryCardSlot.slot_index := 0; MemoryCardSlot.status := OCCUPIED;
          MemoryCardSlot.game := XD_GALE; MemoryCardSlot.trainer_name := name;
          MemoryCardSlot.trainer_id := tid; MemoryCardSlot.play_time_h := ph;
          MemoryCardSlot.play_time_m := pm; MemoryCardSlot.party := party;
          MemoryCardSlot.boxes := []; MemoryCardSlot.purif_chamber := [];
          MemoryCardSlot.checksum_ok := true; MemoryCardSlot.raw_data := data |}.

Definition _parse_save (header : GCIHeader.t) (data : list byte) : pyres MemoryCardSlot.t :=
  let game := GCIHeader.detected_game header in
  if decide (game = COLOSSEUM) then _parse_colosseum data
  else if decide (game = XD_GALE) then _parse_xd data
  else
    mret {| MemoryCardSlot.slot_index := 0; MemoryCardSlot.status := OCCUPIED;
            MemoryCardSlot.game := game; MemoryCardSlot.trainer_name := "Unknown";
            MemoryCardSlot.trainer_id := 0; MemoryCardSlot.play_time_h := 0;
            MemoryCardSlot.play_time_m := 0; MemoryCardSlot.party := [];
            MemoryCardSlot.boxes := []; MemoryCardSlot.purif_chamber := [];
            MemoryCardSlot.checksum_ok := false; MemoryCardSlot.raw_data := data |}.

(** [parse_gci_file] from the point where the file has been read into
    [raw]; [None] stands for the pair [(None, None)]. *)
Definition parse_gci_file (raw : list byte)
  : pyres (option (GCIHeader.t * MemoryCardSlot.t)) :=
  if decide (len raw < GCI_HEADER_SIZE) then mret None
  else
    match GCIHeader.from_bytes (slice raw 0 GCI_HEADER_SIZE) with
    | inl GCIHeader.ValueError => mret None
    | inl (GCIHeader.ReadError struct_error) => mret None
    | inl (GCIHeader.ReadError e) => Raise e
    | inr header =>
        slot ← _parse_save header (drop (Z.to_nat GCI_HEADER_SIZE) raw);
        mret (Some (header, slot))
    end.

End GCISlotParser.

(** The team and card methods of [MemoryCardManager]. *)
(** A [str] is held as its UTF-8 encoding, so a character (a code
    point) is one leading byte followed by its continuation bytes, the
    bytes of the form [10xxxxxx]. *)
Definition is_continuation (c : ascii) : bool :=
  bool_decide (0x80 <= Z.of_N (N_of_ascii c) < 0xC0).

(** [len(s)] of a [str]: its number of code points. *)
Fixpoint str_len (s : string) : nat :=
  match s with
  | EmptyString => 0%nat
  | String c s' => if is_continuation c then str_len s' else S (str_len s')
  end.

Module MemoryCardManager.

(** [s[:n]] of a [str] for a non-negative literal [n]: the first [n] code
    points, that is every byte before the leading byte of code point
    number [n]. *)
Fixpoint str_prefix (n : nat) (s : string) : string :=
  match s with
  | EmptyString => EmptyString
  | String c s' =>
      if is_continuation c then String c (str_prefix n s')
      else match n with
           | O => EmptyString
           | S n' => String c (str_prefix n' s')
           end
  end.

(** [load_gci] from the bytes of the file; [now] is the creation time
    stamp of the new card and [now'] the stamp written by [add_slot],
    which replaces the [modified_at] the card was constructed with. *)
Definition load_gci (now now' : string) (file_path : string) (raw : list byte)
  : pyres (option MemoryCard.t) :=
  parsed ← GCISlotParser.parse_gci_file raw;
  match parsed with
  | None => mret None
  | Some (header, slot) =>
      let card :=
        {| MemoryCard.card_size_mb := 59; MemoryCard.slots := [];
           MemoryCard.source_file := file_path;
           MemoryCard.card_label := GCIHeader.game_name header +:+ " Save";
           MemoryCard.created_at := now; MemoryCard.modified_at := now |} in
      let slot := MemoryCardSlot.set_slot_index 0 slot in
      mret (Some (MemoryCard.add_slot now' card slot).2)
  end.

(** [create_new_card]; the two default factories of the dataclass read
    the clock one after the other, [created_at] first. *)
Definition create_new_card (created_at modified_at : string) (label : string)
    (size_mb : Z) : MemoryCard.t :=
  {| MemoryCard.card_size_mb := size_mb; MemoryCard.slots := [];
     MemoryCard.source_file := ""; MemoryCard.card_label := label;
     MemoryCard.created_at := created_at; MemoryCard.modified_at := modified_at |}.

(** [export_team_to_slot] returns the new slot and the updated card. *)
Definition export_team_to_slot (now : string) (card : MemoryCard.t) (slot_index : Z)
    (trainer_name : string) (trainer_id : Z) (party : list SavedPokemon.t)
    (game : MemoryCardGame) : MemoryCardSlot.t * MemoryCard.t :=
  let slot :=
    {| MemoryCardSlot.slot_index := slot_index; MemoryCardSlot.status := OCCUPIED;
       MemoryCardSlot.game := game;
       MemoryCardSlot.trainer_name := str_prefix 8%nat trainer_name;
       MemoryCardSlot.trainer_id := Z.land trainer_id 0xFFFF;
       MemoryCardSlot.play_time_h := 0; MemoryCardSlot.play_time_m := 0;
       MemoryCardSlot.party := slice party 0 6;
       MemoryCardSlot.boxes := []; MemoryCardSlot.purif_chamber := [];
       MemoryCardSlot.checksum_ok := true; MemoryCardSlot.raw_data := [] |} in
  (slot, (MemoryCard.add_slot now card slot).2).

Definition import_team_from_slot (card : MemoryCard.t) (slot_index : Z)
  : option (list SavedPokemon.t) :=
  match MemoryCard.get_slot card slot_index with
  | None => None
  | Some slot =>
      if decide (MemoryCardSlot.status slot ≠ OCCUPIED) then None
      else Some (MemoryCardSlot.party slot)
  end.

Definition get_all_shadow_pokemon (card : MemoryCard.t) : list (Z * SavedPokemon.t) :=
  s ← MemoryCard.get_occupied_slots card;
  p ← MemoryCardSlot.shadow_pokemon s;
  [(MemoryCardSlot.slot_index s, p)].

End MemoryCardManager.

(** ** Link-cable transfers ([gba_trading.py]) *)

Inductive GBALinkStatus : Type :=
  | DISCONNECTED | CONNECTING | CONNECTED | TRANSFERRING | LINK_ERROR.

Inductive GBATransferResult : Type :=
  | SUCCESS
  | FAILED_SHADOW
  | FAILED_EGG
  | FAILED_ILLEGAL
  | FAILED_SPECIES
  | FAILED_NO_SPACE
  | FAILED_DISCONNECT.

Module GBATransferRecord.
Record t : Type := make {
  transfer_id : string;
  session_id : string;
  direction : GBATransferDirection;
  species_id : Z;
  species_name : string;
  nickname : string;
  level : Z;
  result : GBATransferResult;
  timestamp : string;
  notes : string
}.
End GBATransferRecord.

(** The keys [transfer_gba_to_gcn] reads from its [pokemon_data] dict; a
    missing key is [None]. *)
Module PokemonData.
Record t : Type := make {
  species_id : option Z;
  species_name : option string;
  nickname : option string;
  level : option Z;
  is_egg : option bool;
  hp_ev : option Z; atk_ev : option Z; def_ev : option Z;
  spe_ev : option Z; spa_ev : option Z; spd_ev : option Z
}.
End PokemonData.

(** The attributes the trading interface reads from a [Pokemon] object;
    [shadow_level] is present exactly when the object is a
    [ShadowPokemon]. *)
Module Pokemon.
Record t : Type := make {
  name : string;
  species_id : Z;
  level : Z;
  shadow_level : option Z
}.
End Pokemon.

Module GBALinkSession.
(** The dataclass [GBALinkSession]; the entries of [transfer_log] are the
    [to_dict] images of transfer records and are kept as the records. *)
Record t : Type := make {
  session_id : string;
  gba_game : string;
  gcn_game : string;
  status : GBALinkStatus;
  connected_at : option string;
  trainer_name : string;
  trainer_id : Z;
  gba_party : list PokemonData.t;
  transfer_log : list GBATransferRecord.t
}.

Definition log_append (self : t) (record : GBATransferRecord.t) : t :=
  {| session_id := session_id self; gba_game := gba_game self;
     gcn_game := gcn_game self; status := status self;
     connected_at := connected_at self; trainer_name := trainer_name self;
     trainer_id := trainer_id self; gba_party := gba_party self;
     transfer_log := transfer_log self ++ [record] |}.

Definition set_status (self : t) (status' : GBALinkStatus) : t :=
  {| session_id := session_id self; gba_game := gba_game self;
     gcn_game := gcn_game self; status := status';
     connected_at := connected_at self; trainer_name := trainer_name self;
     trainer_id := trainer_id self; gba_party := gba_party self;
     transfer_log := transfer_log self |}.
End GBALinkSession.

(** The version-exclusive sets and [get_required_game] of
    [GBACompatibilityChecker]. *)
Module GBARequiredGame.

Definition RUBY_ONLY : gset Z :=
  list_to_set [273; 274; 275; 288; 289; 290; 291; 292; 335; 337; 338].
Definition SAPPHIRE_ONLY : gset Z :=
  list_to_set [270; 271; 272; 285; 286; 287; 300; 301; 302; 303; 318; 319].
Definition FIRERED_ONLY : gset Z :=
  list_to_set [1; 2; 3; 4; 5; 6; 37; 38; 52; 53; 58; 59; 83; 123; 125; 126].
Definition LEAFGREEN_ONLY : gset Z :=
  list_to_set [7; 8; 9; 10; 11; 12; 69; 70; 71; 79; 80; 102; 103; 108; 114].

Definition get_required_game (species_id : Z) : option string :=
  if decide (species_id ∈ RUBY_ONLY) then Some "ruby"
  else if decide (species_id ∈ SAPPHIRE_ONLY) then Some "sapphire"
  else if decide (species_id ∈ FIRERED_ONLY) then Some "firered"
  else if decide (species_id ∈ LEAFGREEN_ONLY) then Some "leafgreen"
  else None.

End GBARequiredGame.

(** The transfer methods of [GBALinkCableTrading].  The state is the pair
    of [_active_link_sessions] and [_transfer_history]; the fresh
    [uuid.uuid4()] and the [datetime.now()] stamp are arguments. *)
Module GBALinkCableTrading.

Record t : Type := make {
  _active_link_sessions : gmap string GBALinkSession.t;
  _transfer_history : list GBATransferRecord.t
}.

(** The common tail of both transfer methods: the record is appended to
    the history and, when the session is known, to its log. *)
Definition record_transfer (self : t) (record : GBATransferRecord.t) : t :=
  let history := _transfer_history self ++ [record] in
  let session_id := GBATransferRecord.session_id record in
  match _active_link_sessions self !! session_id with
  | Some session =>
      {| _active_link_sessions :=
           <[session_id := GBALinkSession.log_append session record]>
             (_active_link_sessions self);
         _transfer_history := history |}
  | None =>
      {| _active_link_sessions := _active_link_sessions self;
         _transfer_history := history |}
  end.

Definition transfer_gba_to_gcn (transfer_id now : string) (self : t)
    (session_id : string) (pokemon_data : PokemonData.t) : GBATransferRecord.t * t :=
  let species_id := default 0 (PokemonData.species_id pokemon_data) in
  let species_name :=
    default ("Pokemon #" +:+ pretty species_id) (PokemonData.species_name pokemon_data) in
  let nickname := default species_name (PokemonData.nickname pokemon_data) in
  let level := default 1 (PokemonData.level pokemon_data) in
  let is_egg := default false (PokemonData.is_egg pokemon_data) in
  let total_evs :=
    foldr Z.add 0
      [default 0 (PokemonData.hp_ev pokemon_data);
       default 0 (PokemonData.atk_ev pokemon_data);
       default 0 (PokemonData.def_ev pokemon_data);
       default 0 (PokemonData.spe_ev pokemon_data);
       default 0 (PokemonData.spa_ev pokemon_data);
       default 0 (PokemonData.spd_ev pokemon_data)] in
  let '(can_transfer, reason) :=
    GBACompatibilityChecker.check_gba_to_gcn species_id false is_egg level total_evs in
  let result := if (can_transfer : bool) then SUCCESS else FAILED_ILLEGAL in
  let record :=
    {| GBATransferRecord.transfer_id := transfer_id;
       GBATransferRecord.session_id := session_id;
       GBATransferRecord.direction := GBA_TO_GCN;
       GBATransferRecord.species_id := species_id;
       GBATransferRecord.species_name := species_name;
       GBATransferRecord.nickname := nickname;
       GBATransferRecord.level := level;
       GBATransferRecord.result := result;
       GBATransferRecord.timestamp := now;
       GBATransferRecord.notes := if negb can_transfer then reason else "" |} in
  (record, record_transfer self record).

(** [isinstance(pokemon, ShadowPokemon) and pokemon.shadow_level > 0] *)
Definition is_shadow_pokemon (pokemon : Pokemon.t) : bool :=
  match Pokemon.shadow_level pokemon with
  | Some shadow_level => bool_decide (shadow_level > 0)
  | None => false
  end.

Definition transfer_gcn_to_gba (transfer_id now : string) (self : t)
    (session_id : string) (pokemon : Pokemon.t) : GBATransferRecord.t * t :=
  let is_shadow := is_shadow_pokemon pokemon in
  let '(can_transfer, reason) :=
    GBACompatibilityChecker.check_gcn_to_gba
      (Pokemon.species_id pokemon) is_shadow false (Pokemon.level pokemon) in
  let result :=
    if is_shadow then FAILED_SHADOW
    else if negb can_transfer then FAILED_ILLEGAL
    else SUCCESS in
  let record :=
    {| GBATransferRecord.transfer_id := transfer_id;
       GBATransferRecord.session_id := session_id;
       GBATransferRecord.direction := GCN_TO_GBA;
       GBATransferRecord.species_id := Pokemon.species_id pokemon;
       GBATransferRecord.species_name := Pokemon.name pokemon;
       GBATransferRecord.nickname := Pokemon.name pokemon;
       GBATransferRecord.level := Pokemon.level pokemon;
       GBATransferRecord.result := result;
       GBATransferRecord.timestamp := now;
       GBATransferRecord.notes := if negb can_transfer then reason else "" |} in
  (record, record_transfer self record).

(** [get_transfer_history]: [session_id] is [None], or a string that
    filters only when it is non-empty.  As in the session log, the
    [to_dict] images of the records are kept as the records. *)
Definition get_transfer_history (self : t) (session_id : option string)
  : list GBATransferRecord.t :=
  match session_id with
  | Some sid =>
      if decide (sid = "") then _transfer_history self
      else filter (fun r => GBATransferRecord.session_id r = sid) (_transfer_history self)
  | None => _transfer_history self
  end.

Definition disconnect (self : t) (session_id : string) : bool * t :=
  match _active_link_sessions self !! session_id with
  | Some session =>
      (true,
       {| _active_link_sessions :=
            <[session_id := GBALinkSession.set_status session DISCONNECTED]>
              (_active_link_sessions self);
          _transfer_history := _transfer_history self |})
  | None => (false, self)
  end.

Definition validate_pokemon_for_trading (pokemon : Pokemon.t) : list string :=
  let issues := [] in
  let issues :=
    if is_shadow_pokemon pokemon
    then issues ++ [Pokemon.name pokemon
                    +:+ " is a Shadow Pokemon — must be purified first"]
    else issues in
  let issues :=
    if decide (Pokemon.species_id pokemon > 386)
    then issues ++ [Pokemon.name pokemon +:+ " (#" +:+ pretty (Pokemon.species_id pokemon)
                    +:+ ") is not a Gen 1-3 Pokemon"]
    else issues in
  let issues :=
    if decide (Pokemon.level pokemon < 1 ∨ Pokemon.level pokemon > 100)
    then issues ++ ["Invalid level: " +:+ pretty (Pokemon.level pokemon)]
    else issues in
  issues.

End GBALinkCableTrading.

(** ** Auxiliary definitions for the properties of decoded data *)

(** How the fields of a record [p] decoded from [data] relate to the
    bytes and to each other. *)
Record pk3_decoded (float_pow_third : Z -> Z) (data : list byte) (p : PK3Pokemon.t)
  : Prop := {
  dec_len : PK3_HEADER_SIZE + PK3_DATA_SIZE <= len data;
  dec_pv : struct.unpack_from struct.LE_I data 0x00
           = Return (PK3Pokemon.personality_value p);
  dec_ot : exists ot_id_full,
      struct.unpack_from struct.LE_I data 0x04 = Return ot_id_full
      /\ PK3Pokemon.ot_id p = Z.land ot_id_full 0xFFFF
      /\ PK3Pokemon.ot_secret_id p = Z.land (Z.shiftr ot_id_full 16) 0xFFFF;
  dec_species : 1 <= PK3Pokemon.species_id p <= 386;
  dec_halfwords :
    Forall (fun v => 0 <= v < 2 ^ 16)
      [PK3Pokemon.checksum p; PK3Pokemon.item_id p; PK3Pokemon.unknown_growth p;
       PK3Pokemon.move1_id p; PK3Pokemon.move2_id p; PK3Pokemon.move3_id p;
       PK3Pokemon.move4_id p; PK3Pokemon.origins_info p];
  dec_words :
    Forall (fun v => 0 <= v < 2 ^ 32)
      [PK3Pokemon.personality_value p; PK3Pokemon.experience p;
       PK3Pokemon.iv_egg_ability p; PK3Pokemon.ribbons_obedience p];
  dec_bytes :
    Forall (fun v => 0 <= v < 256)
      [PK3Pokemon.language p; PK3Pokemon.markings p;
       PK3Pokemon.pp_bonuses p; PK3Pokemon.friendship p;
       PK3Pokemon.move1_pp p; PK3Pokemon.move2_pp p; PK3Pokemon.move3_pp p;
       PK3Pokemon.move4_pp p;
       PK3Pokemon.hp_ev p; PK3Pokemon.atk_ev p; PK3Pokemon.def_ev p;
       PK3Pokemon.spe_ev p; PK3Pokemon.spa_ev p; PK3Pokemon.spd_ev p;
       PK3Pokemon.coolness p; PK3Pokemon.beauty p; PK3Pokemon.cuteness p;
       PK3Pokemon.smartness p; PK3Pokemon.toughness p; PK3Pokemon.feel p;
       PK3Pokemon.pokerus p; PK3Pokemon.met_location p];
  dec_ivs :
    [PK3Pokemon.hp_iv p; PK3Pokemon.atk_iv p; PK3Pokemon.def_iv p;
     PK3Pokemon.spe_iv p; PK3Pokemon.spa_iv p; PK3Pokemon.spd_iv p]
    = (fun sh => Z.land (Z.shiftr (PK3Pokemon.iv_egg_ability p) sh) 0x1F)
        <$> [0; 5; 10; 15; 20; 25];
  dec_egg : PK3Pokemon.is_egg p
            = nonzero (Z.land (Z.shiftr (PK3Pokemon.iv_egg_ability p) 30) 1);
  dec_ability : PK3Pokemon.ability_slot p
                = Z.land (Z.shiftr (PK3Pokemon.iv_egg_ability p) 31) 1;
  dec_nature : NATURES !! Z.to_nat (PK3Pokemon.personality_value p mod 25)
               = Some (PK3Pokemon.nature p);
  dec_names :
    PK3Pokemon.species_name p
    = default ("Pokemon #" +:+ pretty (PK3Pokemon.species_id p))
              (dict_get GEN3_SPECIES (PK3Pokemon.species_id p))
    /\ PK3Pokemon.nickname p
       = str_or (_read_gba_string data 0x08 10) (PK3Pokemon.species_name p)
    /\ PK3Pokemon.ot_name p = str_or (_read_gba_string data 0x14 7) "Trainer"
    /\ PK3Pokemon.move_names p
       = pk3_move_names [PK3Pokemon.move1_id p; PK3Pokemon.move2_id p;
                         PK3Pokemon.move3_id p; PK3Pokemon.move4_id p];
  dec_met : PK3Pokemon.met_level p = Z.land (PK3Pokemon.origins_info p) 0x7F
            /\ PK3Pokemon.met_game p
               = _origins_to_game (Z.land (Z.shiftr (PK3Pokemon.origins_info p) 7) 0xF);
  dec_status_full :
    PK3_SIZE <= len data ->
    let st := slice data 80 100 in
    struct.unpack_from struct.LE_I st 0 = Return (PK3Pokemon.status_condition p)
    /\ byte_at st 4 = Return (PK3Pokemon.level p)
    /\ byte_at st 5 = Return (PK3Pokemon.pokerus_days p)
    /\ struct.unpack_from struct.LE_H st 6 = Return (PK3Pokemon.current_hp p)
    /\ struct.unpack_from struct.LE_H st 8 = Return (PK3Pokemon.total_hp p)
    /\ struct.unpack_from struct.LE_H st 10 = Return (PK3Pokemon.attack p)
    /\ struct.unpack_from struct.LE_H st 12 = Return (PK3Pokemon.defense p)
    /\ struct.unpack_from struct.LE_H st 14 = Return (PK3Pokemon.speed p)
    /\ struct.unpack_from struct.LE_H st 16 = Return (PK3Pokemon.sp_attack p)
    /\ struct.unpack_from struct.LE_H st 18 = Return (PK3Pokemon.sp_defense p);
  dec_status_short :
    len data < PK3_SIZE ->
    PK3Pokemon.level p
    = _exp_to_level float_pow_third (PK3Pokemon.species_id p) (PK3Pokemon.experience p)
    /\ [PK3Pokemon.status_condition p; PK3Pokemon.pokerus_days p;
        PK3Pokemon.current_hp p; PK3Pokemon.total_hp p; PK3Pokemon.attack p;
        PK3Pokemon.defense p; PK3Pokemon.speed p; PK3Pokemon.sp_attack p;
        PK3Pokemon.sp_defense p] = replicate 9 0
}.

(** The bytes of a name field up to, not including, the first 0xFF, and
    the text of one byte. *)
Fixpoint until_terminator (bs : list byte) : list byte :=
  match bs with
  | [] => []
  | b :: bs' => if decide (byte_to_Z b = 0xFF) then [] else b :: until_terminator bs'
  end.

Definition gba_char (b : byte) : string :=
  default "?" (dict_get CHAR_TABLE (byte_to_Z b)).

(** How the fields of a console record [p] decoded from [data] at party
    position [idx] relate to the bytes. *)
Record gc_decoded (data : list byte) (idx : Z) (p : SavedPokemon.t) : Prop := {
  gc_len : 0x50 <= len data;
  gc_slot : SavedPokemon.slot_index p = idx;
  gc_species_read : struct.unpack_from struct.BE_H data 0x00
                    = Return (SavedPokemon.species_id p);
  gc_species : 1 <= SavedPokemon.species_id p <= 386;
  gc_level : exists level_raw,
      byte_at data 0x04 = Return level_raw
      /\ SavedPokemon.level p = Z.max 1 (Z.min 100 level_raw);
  gc_nature : exists nature_raw,
      byte_at data 0x08 = Return nature_raw
      /\ NATURES !! Z.to_nat (nature_raw mod 25) = Some (SavedPokemon.nature p);
  gc_shadow : exists flag,
      byte_at data 0x10 = Return flag
      /\ SavedPokemon.is_shadow p = nonzero flag;
  gc_shadow_level :
    (SavedPokemon.is_shadow p = false -> SavedPokemon.shadow_level p = 0)
    /\ (SavedPokemon.is_shadow p = true ->
        exists shadow_raw,
          byte_at data 0x11 = Return shadow_raw
          /\ SavedPokemon.shadow_level p = Z.max 0 (Z.min 5 shadow_raw));
  gc_names :
    SavedPokemon.species_name p = GCIParser.species_name (SavedPokemon.species_id p)
    /\ exists nick,
         GCIParser._gc_str data 0x18 10 = Return nick
         /\ SavedPokemon.nickname p = str_or nick (SavedPokemon.species_name p);
  gc_ivs : exists iv_raw,
      struct.unpack_from struct.BE_I data 0x38 = Return iv_raw
      /\ [SavedPokemon.hp_iv p; SavedPokemon.atk_iv p; SavedPokemon.def_iv p;
          SavedPokemon.spa_iv p; SavedPokemon.spd_iv p; SavedPokemon.spe_iv p]
         = (fun sh => Z.land (Z.shiftr iv_raw sh) 0x1F) <$> [25; 20; 15; 10; 5; 0];
  gc_moves : GCIParser.moves_loop data (range 4) = Return (SavedPokemon.moves p);
  gc_constants :
    [SavedPokemon.hp_ev p; SavedPokemon.atk_ev p; SavedPokemon.def_ev p;
     SavedPokemon.spa_ev p; SavedPokemon.spd_ev p; SavedPokemon.spe_ev p;
     SavedPokemon.ot_id p; SavedPokemon.purification_progress p] = replicate 8 0
    /\ [SavedPokemon.ability p; SavedPokemon.held_item p; SavedPokemon.ot_name p]
       = replicate 3 ""
    /\ SavedPokemon.gender p = "unknown"
    /\ SavedPokemon.is_shiny p = false
}.

(** ** More sample data *)

(** A slot holding only PC section 5, whose data area is the four leading
    bytes of the PC buffer followed by one stored 80-byte record. *)
Definition sample_pc_sections : gmap Z (list byte) :=
  {[ 5 := zero_bytes 4 ++ sample_pk3 25 [] ]}.

Definition sample_boxes : list GBABox.t :=
  Eval vm_compute in
    match _parse_pc_boxes cube_root_floor sample_pc_sections with
    | Return boxes => boxes
    | Raise _ => []
    end.

Definition sample_box : GBABox.t :=
  Eval vm_compute in default (GBABox.make 0 "" []) (head sample_boxes).

Definition sample_box_pokemon : PK3Pokemon.t :=
  Eval vm_compute in default blank_pokemon (head (GBABox.pokemon sample_box)).

(** Two slots back to back without the unused tail: 0x1C000 bytes. *)
Definition sample_two_slots : list byte := sample_slot 3 ++ sample_slot 7.

(** The same two slots followed by a tail of 0xFF bytes that runs past
    the nominal image size. *)
Definition sample_long_image : list byte :=
  sample_two_slots ++ replicate (Z.to_nat 0x4100) xff.

(** A card with two exported slots, indices 0 and 1. *)
Definition sample_card : MemoryCard.t :=
  (MemoryCardManager.export_team_to_slot "2004-03-22T10:00:00"
     (MemoryCardManager.export_team_to_slot "2004-03-21T09:05:00"
        (MemoryCardManager.create_new_card "2004-03-21T09:00:00.000021"
           "2004-03-21T09:00:00.000034" "Memory Card A" 59)
        0 "WES" 12345 [] COLOSSEUM).2
     1 "MICHAEL" 54321 [] XD_GALE).2.

(** A slot with index 7 to add to the sample card. *)
Definition sample_card_slot : MemoryCardSlot.t :=
  MemoryCardSlot.make 7 OCCUPIED POKEMON_BOX "BOX" 1 0 0 [] [] [] true [].

(** A Colosseum export file: the header with game id GC6E, the save data
    up to the party offset, and one 0x138-byte party record. *)
Definition sample_gci : list byte :=
  GC6E ++ zero_bytes 60 ++ zero_bytes 0x498
  ++ struct.encode struct.BE_H 25 ++ replicate 310 x41.
(** * Properties *)

(** ** Bytes and lists *)

Lemma byte_to_Z_range (b : byte) : 0 <= byte_to_Z b < 256.
Proof.
  unfold byte_to_Z. pose proof (Byte.to_N_bounded b). lia.
Qed.

Lemma byte_of_to_Z (b : byte) : byte_of_Z (byte_to_Z b) = b.
Proof.
  unfold byte_of_Z, byte_to_Z.
  pose proof (Byte.to_N_bounded b).
  rewrite Z.mod_small by lia.
  rewrite N2Z.id, Byte.of_to_N. reflexivity.
Qed.

Lemma byte_to_of_Z (z : Z) : byte_to_Z (byte_of_Z z) = z mod 256.
Proof.
  unfold byte_of_Z, byte_to_Z.
  pose proof (Z.mod_pos_bound z 256 ltac:(lia)) as Hr.
  destruct (Byte.of_N (Z.to_N (z mod 256))) as [b|] eqn:E.
  - apply Byte.to_of_N in E. simpl. rewrite E. lia.
  - apply Byte.of_N_None_iff in E. lia.
Qed.

Lemma len_nonneg {A} (l : list A) : 0 <= len l.
Proof. unfold len. lia. Qed.

Lemma len_app {A} (l1 l2 : list A) : len (l1 ++ l2) = len l1 + len l2.
Proof. unfold len. rewrite length_app. lia. Qed.

Lemma len_slice {A} (l : list A) (lo hi : Z) :
  0 <= lo -> lo <= hi -> hi <= len l -> len (slice l lo hi) = hi - lo.
Proof.
  unfold len, slice. intros. rewrite length_take, length_drop. lia.
Qed.

Lemma length_slice {A} (l : list A) (lo hi : Z) :
  0 <= lo -> lo <= hi -> hi <= len l -> length (slice l lo hi) = Z.to_nat (hi - lo).
Proof.
  unfold len, slice. intros. rewrite length_take, length_drop. lia.
Qed.

Lemma slice_app_middle {A} (pre mid post : list A) :
  slice (pre ++ mid ++ post) (len pre) (len pre + len mid) = mid.
Proof.
  unfold slice, len.
  replace (Z.to_nat (Z.of_nat (length pre))) with (length pre) by lia.
  rewrite drop_app_length.
  replace (Z.to_nat (Z.of_nat (length pre) + Z.of_nat (length mid) - Z.of_nat (length pre)))
    with (length mid) by lia.
  apply take_app_length.
Qed.

(** Induction four elements at a time. *)
Lemma chunk4_ind {A} (P : list A -> Prop) :
  (forall l, (length l < 4)%nat -> P l) ->
  (forall a b c d l, P l -> P (a :: b :: c :: d :: l)) ->
  forall l, P l.
Proof.
  intros Hsmall Hstep l.
  remember (length l) as n eqn:Hn.
  revert l Hn. induction (lt_wf n) as [n _ IH]. intros l Hn.
  destruct l as [|a [|b [|c [|d l]]]]; try (apply Hsmall; simpl; lia).
  apply Hstep. apply (IH (length l)); [subst n; simpl; lia | reflexivity].
Qed.

(** ** [range] *)

Lemma range3_nil (start stop step : Z) :
  0 < step -> stop <= start -> range3 start stop step = [].
Proof.
  intros Hs Hle. unfold range3.
  replace (Z.to_nat ((stop - start + step - 1) / step)) with O; [reflexivity|].
  assert ((stop - start + step - 1) / step <= 0); [|lia].
  assert ((stop - start + step - 1) / step < 1); [|lia].
  apply Z.div_lt_upper_bound; lia.
Qed.

Lemma range3_cons (start stop step : Z) :
  0 < step -> start < stop ->
  range3 start stop step = start :: range3 (start + step) stop step.
Proof.
  intros Hs Hlt. unfold range3.
  replace (stop - start + step - 1) with ((stop - (start + step) + step - 1) + 1 * step) by lia.
  rewrite Z.div_add by lia.
  set (q := (stop - (start + step) + step - 1) / step).
  assert (0 <= q).
  { apply Z.div_pos; lia. }
  replace (Z.to_nat (q + 1)) with (S (Z.to_nat q)) by lia.
  rewrite <- cons_seq. rewrite fmap_cons. f_equal; [lia|].
  rewrite <- fmap_S_seq, <- list_fmap_compose.
  apply list_fmap_ext. intros _ k _. simpl. lia.
Qed.

Lemma slice_app_skip {A} (pre l : list A) (lo hi : Z) :
  0 <= lo -> slice (pre ++ l) (len pre + lo) (len pre + hi) = slice l lo hi.
Proof.
  intros Hlo. unfold slice, len.
  replace (Z.to_nat (Z.of_nat (length pre) + lo)) with (length pre + Z.to_nat lo)%nat by lia.
  rewrite drop_app_add. f_equal. lia.
Qed.

Lemma slice_concat {A} (l : list A) (a b c : Z) :
  0 <= a -> a <= b -> b <= c ->
  slice l a b ++ slice l b c = slice l a c.
Proof.
  intros Ha Hab Hbc. unfold slice.
  replace (Z.to_nat b) with (Z.to_nat a + Z.to_nat (b - a))%nat by lia.
  rewrite <- drop_drop, take_take_drop. f_equal. lia.
Qed.

Lemma slice_all {A} (l : list A) : slice l 0 (len l) = l.
Proof.
  unfold slice, len. change (Z.to_nat 0) with 0%nat. rewrite drop_0.
  apply take_ge. lia.
Qed.

Lemma filter_none {A} (P : A -> Prop) `{!forall x, Decision (P x)} (l : list A) :
  Forall (fun x => ~ P x) l -> filter P l = [].
Proof.
  induction 1 as [|x l Hx _ IH]; [reflexivity|].
  rewrite filter_cons_False by exact Hx. exact IH.
Qed.

(** ** The [struct] model *)

Lemma le_value_nonneg (bs : list byte) : 0 <= struct.le_value bs.
Proof.
  induction bs as [|b bs IH]; simpl; [lia|].
  pose proof (byte_to_Z_range b). lia.
Qed.

Lemma le_value_word_range (a b c d : byte) :
  0 <= struct.le_value [a; b; c; d] < 2 ^ 32.
Proof.
  simpl.
  pose proof (byte_to_Z_range a). pose proof (byte_to_Z_range b).
  pose proof (byte_to_Z_range c). pose proof (byte_to_Z_range d). lia.
Qed.

Lemma le_value_half_range (a b : byte) :
  0 <= struct.le_value [a; b] < 2 ^ 16.
Proof.
  simpl. pose proof (byte_to_Z_range a). pose proof (byte_to_Z_range b). lia.
Qed.

Lemma le_bytes_length (n : nat) (v : Z) : length (struct.le_bytes n v) = n.
Proof. revert v. induction n as [|n IH]; intros v; simpl; [|rewrite IH]; reflexivity. Qed.

Lemma div_mod_256 (x r : Z) :
  0 <= x < 256 -> (x + 256 * r) mod 256 = x /\ (x + 256 * r) / 256 = r.
Proof. intros Hx. split; Z.div_mod_to_equations; lia. Qed.

Lemma le_bytes_le_value (bs : list byte) :
  struct.le_bytes (length bs) (struct.le_value bs) = bs.
Proof.
  induction bs as [|b bs IH]; [reflexivity|].
  cbn [length struct.le_bytes struct.le_value].
  destruct (div_mod_256 (byte_to_Z b) (struct.le_value bs) (byte_to_Z_range b)) as [Hm Hd].
  rewrite Hd, IH. f_equal.
  rewrite <- (byte_of_to_Z b) at 2.
  unfold byte_of_Z. rewrite Hm.
  rewrite (Z.mod_small (byte_to_Z b)) by apply byte_to_Z_range. reflexivity.
Qed.

Lemma le_bytes_word_value (a b c d : byte) :
  struct.le_bytes 4 (struct.le_value [a; b; c; d]) = [a; b; c; d].
Proof. apply (le_bytes_le_value [a; b; c; d]). Qed.

Lemma le_value_word_bytes (v : Z) :
  0 <= v < 2 ^ 32 -> struct.le_value (struct.le_bytes 4 v) = v.
Proof.
  intros Hv. cbn [struct.le_bytes struct.le_value].
  rewrite !byte_to_of_Z.
  repeat rewrite Z.div_div by lia.
  change (256 * 256) with 65536. change (65536 * 256) with 16777216.
  pose proof (Z.div_mod v 256 ltac:(lia)).
  pose proof (Z.div_mod (v / 256) 256 ltac:(lia)) as H1.
  pose proof (Z.div_mod (v / 256 / 256) 256 ltac:(lia)) as H2.
  rewrite Z.div_div in H1, H2 by lia. rewrite Z.div_div in H2 by lia.
  change (256 * 256) with 65536 in *. change (65536 * 256) with 16777216 in *.
  assert (v / 16777216 < 256) by (apply Z.div_lt_upper_bound; lia).
  assert (0 <= v / 16777216) by (apply Z.div_pos; lia).
  rewrite (Z.mod_small (v / 16777216)) by lia.
  lia.
Qed.

Lemma unpack_from_ok (f : struct.format) (buffer : list byte) (offset : Z) :
  0 <= offset -> offset + struct.calcsize f <= len buffer ->
  struct.unpack_from f buffer offset
  = Return (struct.decode f (slice buffer offset (offset + struct.calcsize f))).
Proof.
  intros H1 H2. unfold struct.unpack_from.
  destruct (decide _) as [_|N]; [reflexivity | exfalso; apply N; split; assumption].
Qed.

Lemma unpack_from_short (f : struct.format) (buffer : list byte) (offset : Z) :
  len buffer < offset + struct.calcsize f ->
  struct.unpack_from f buffer offset = Raise struct_error.
Proof.
  intros H. unfold struct.unpack_from.
  destruct (decide _) as [[_ Y]|_]; [lia | reflexivity].
Qed.

Lemma unpack_from_cases (f : struct.format) (buffer : list byte) (offset : Z) :
  (exists v, struct.unpack_from f buffer offset = Return v)
  \/ struct.unpack_from f buffer offset = Raise struct_error.
Proof.
  unfold struct.unpack_from. destruct (decide _); eauto.
Qed.

Lemma unpack_word_app (pre post : list byte) (a b c d : byte) :
  struct.unpack_from struct.LE_I (pre ++ [a; b; c; d] ++ post) (len pre)
  = Return (struct.le_value [a; b; c; d]).
Proof.
  rewrite unpack_from_ok.
  - f_equal. change (struct.calcsize struct.LE_I) with (len [a; b; c; d]).
    rewrite slice_app_middle. reflexivity.
  - apply len_nonneg.
  - rewrite !len_app. pose proof (len_nonneg post).
    change (struct.calcsize struct.LE_I) with 4. change (len [a; b; c; d]) with 4. lia.
Qed.

Lemma pack_word_ok (v : Z) :
  0 <= v < 2 ^ 32 -> struct.pack struct.LE_I v = Return (struct.le_bytes 4 v).
Proof.
  intros Hv. unfold struct.pack.
  destruct (decide _) as [_|N]; [reflexivity|].
  exfalso. apply N. change (2 ^ (8 * struct.calcsize struct.LE_I)) with (2 ^ 32). exact Hv.
Qed.

Lemma unpack_from_app_skip (f : struct.format) (pre l : list byte) (o : Z) :
  0 <= o ->
  struct.unpack_from f (pre ++ l) (len pre + o) = struct.unpack_from f l o.
Proof.
  intros Ho. unfold struct.unpack_from.
  pose proof (len_nonneg pre).
  replace (len pre + o + struct.calcsize f) with (len pre + (o + struct.calcsize f)) by lia.
  rewrite slice_app_skip by lia. rewrite len_app.
  destruct (decide (0 <= len pre + o /\ len pre + (o + struct.calcsize f) <= len pre + len l))
    as [Y|N]; destruct (decide (0 <= o /\ o + struct.calcsize f <= len l)) as [Y'|N'];
    try reflexivity; exfalso; [apply N' | apply N]; lia.
Qed.

Lemma le_value_range (bs : list byte) :
  0 <= struct.le_value bs < 2 ^ (8 * len bs).
Proof.
  induction bs as [|b bs IH].
  - compute. split; [discriminate | reflexivity].
  - cbn [struct.le_value]. pose proof (byte_to_Z_range b).
    replace (8 * len (b :: bs)) with (8 + 8 * len bs) by (unfold len; simpl length; lia).
    rewrite Z.pow_add_r by (pose proof (len_nonneg bs); lia).
    change (2 ^ 8) with 256.
    set (P := 2 ^ (8 * len bs)) in *. lia.
Qed.

Lemma decode_range (f : struct.format) (bs : list byte) :
  len bs = struct.calcsize f -> 0 <= struct.decode f bs < 2 ^ (8 * struct.calcsize f).
Proof.
  intros Hlen. unfold struct.decode. rewrite <- Hlen.
  destruct (struct.little f); [apply le_value_range|].
  replace (len bs) with (len (rev bs)) by (unfold len; rewrite length_rev; reflexivity).
  apply le_value_range.
Qed.

Lemma unpack_from_value (f : struct.format) (buffer : list byte) (offset : Z) :
  0 <= offset -> offset + struct.calcsize f <= len buffer ->
  exists v, struct.unpack_from f buffer offset = Return v
            /\ 0 <= v < 2 ^ (8 * struct.calcsize f).
Proof.
  intros H1 H2. eexists. split; [apply unpack_from_ok; assumption|].
  apply decode_range. rewrite len_slice; destruct f; simpl in *; lia.
Qed.

Lemma getitem_ok {A} (l : list A) (i : Z) :
  0 <= i < len l -> exists x, getitem l i = Return x /\ x ∈ l.
Proof.
  intros Hi. unfold getitem.
  destruct (decide (i < 0)); [lia|]. destruct (decide (i < 0)); [lia|].
  destruct (l !! Z.to_nat i) as [x|] eqn:E.
  - exists x. split; [reflexivity|]. eapply list_elem_of_lookup_2. exact E.
  - apply lookup_ge_None in E. unfold len in Hi. lia.
Qed.

Lemma byte_at_ok (data : list byte) (i : Z) :
  0 <= i < len data -> exists v, byte_at data i = Return v /\ 0 <= v < 256.
Proof.
  intros Hi. unfold byte_at.
  destruct (getitem_ok data i Hi) as (b & -> & _).
  exists (byte_to_Z b). split; [reflexivity | apply byte_to_Z_range].
Qed.

(** ** The section checksum *)

Ltac len_solve := rewrite ?len_app in *; unfold len in *; simpl in *; lia.

Lemma words_total_nonneg (l : list byte) : 0 <= words_total l.
Proof.
  induction l as [l Hl | a b c d l IH] using chunk4_ind.
  - destruct l as [|a [|b [|c [|d l]]]]; simpl in *; lia.
  - cbn [words_total]. pose proof (le_value_word_range a b c d). lia.
Qed.

Lemma sum_words_spec (rest pre : list byte) (total : Z) :
  sum_words (pre ++ rest) (range3 (len pre) (len (pre ++ rest)) 4) total
  = Return (total + words_total rest).
Proof.
  revert pre total.
  induction rest as [l Hl | a b c d l IH] using chunk4_ind; intros pre total.
  - replace (words_total l) with 0
      by (destruct l as [|a [|b [|c [|d l]]]]; simpl in *; lia).
    rewrite Z.add_0_r.
    destruct l as [|a l].
    + rewrite app_nil_r, range3_nil by lia. reflexivity.
    + rewrite range3_cons by len_solve.
      rewrite range3_nil by len_solve.
      cbn [sum_words].
      destruct (decide _) as [Hc|_]; [|reflexivity].
      len_solve.
  - rewrite range3_cons by len_solve.
    cbn [sum_words].
    destruct (decide _) as [_|N].
    2:{ exfalso. apply N. len_solve. }
    change (a :: b :: c :: d :: l) with ([a; b; c; d] ++ l).
    rewrite unpack_word_app. cbn [mbind pyres_bind].
    specialize (IH (pre ++ [a; b; c; d]) (total + struct.le_value [a; b; c; d])).
    rewrite <- app_assoc in IH.
    replace (len (pre ++ [a; b; c; d])) with (len pre + 4) in IH
      by (rewrite len_app; reflexivity).
    rewrite IH. f_equal. cbn [words_total app]. lia.
Qed.

Lemma section_checksum_eq (section : list byte) :
  section_checksum section
  = Return (fold16 (words_total (slice section 0 GBA_FOOTER_OFFSET))).
Proof.
  unfold section_checksum.
  pose proof (sum_words_spec (slice section 0 GBA_FOOTER_OFFSET) [] 0) as H.
  simpl app in H. change (len []) with 0 in H. rewrite H.
  reflexivity.
Qed.

Lemma fold16_arith (t : Z) :
  fold16 t = (t / 65536 + t mod 65536) mod 65536.
Proof.
  unfold fold16.
  change 0xFFFF with (Z.ones 16).
  rewrite !Z.land_ones by lia. rewrite Z.shiftr_div_pow2 by lia.
  reflexivity.
Qed.

Lemma fold16_range (t : Z) : 0 <= fold16 t < 2 ^ 16.
Proof.
  rewrite fold16_arith. change (2 ^ 16) with 65536.
  apply Z.mod_pos_bound. lia.
Qed.

(** Adding a single power of two below 2^32 to the word sum always moves
    the folded value. *)
Lemma fold16_add_pow2 (t k : Z) :
  0 <= k < 32 -> fold16 (t + 2 ^ k) <> fold16 t.
Proof.
  intros Hk. rewrite !fold16_arith.
  assert (Hcases : k = 0 \/ k = 1 \/ k = 2 \/ k = 3 \/ k = 4 \/ k = 5 \/ k = 6 \/ k = 7
                \/ k = 8 \/ k = 9 \/ k = 10 \/ k = 11 \/ k = 12 \/ k = 13 \/ k = 14
                \/ k = 15 \/ k = 16 \/ k = 17 \/ k = 18 \/ k = 19 \/ k = 20 \/ k = 21
                \/ k = 22 \/ k = 23 \/ k = 24 \/ k = 25 \/ k = 26 \/ k = 27 \/ k = 28
                \/ k = 29 \/ k = 30 \/ k = 31) by lia.
  repeat (destruct Hcases as [-> | Hcases]); [..|subst k];
    match goal with
    | |- context [2 ^ ?n] => let v := eval compute in (2 ^ n) in change (2 ^ n) with v
    end;
    intros Heq; Z.div_mod_to_equations; lia.
Qed.

Lemma flip_byte_value (j : Z) (b : byte) :
  0 <= j < 8 ->
  byte_to_Z (flip_byte j b) = byte_to_Z b + 2 ^ j
  \/ byte_to_Z b = byte_to_Z (flip_byte j b) + 2 ^ j.
Proof.
  intros Hj.
  assert (Hcases : j = 0 \/ j = 1 \/ j = 2 \/ j = 3 \/ j = 4 \/ j = 5 \/ j = 6 \/ j = 7)
    by lia.
  repeat (destruct Hcases as [-> | Hcases]); [..|subst j];
    destruct b; vm_compute; (left; reflexivity) || (right; reflexivity).
Qed.

(** Flipping one bit inside a complete word moves the word sum by a power
    of two below 2^32, up or down. *)
Lemma words_total_flip (j : Z) (l : list byte) (p : nat) :
  0 <= j < 8 -> Z.of_nat p < 4 * (len l / 4) ->
  exists k, 0 <= k < 32 /\
    (words_total (alter (flip_byte j) p l) = words_total l + 2 ^ k
     \/ words_total l = words_total (alter (flip_byte j) p l) + 2 ^ k).
Proof.
  intros Hj. revert p.
  induction l as [l Hl | a b c d l IH] using chunk4_ind; intros p Hp.
  - exfalso. unfold len in Hp.
    assert (Z.of_nat (length l) / 4 = 0) by (apply Z.div_small; lia). lia.
  - assert (Hpow : forall n, 0 <= n -> 2 ^ (j + n) = 2 ^ j * 2 ^ n)
      by (intros; apply Z.pow_add_r; lia).
    destruct p as [|[|[|[|p]]]].
    + destruct (flip_byte_value j a Hj) as [H|H];
        exists j; (split; [lia|]); cbn [alter list_alter words_total struct.le_value] in *;
        [left|right]; lia.
    + destruct (flip_byte_value j b Hj) as [H|H];
        exists (j + 8); (split; [lia|]); rewrite (Hpow 8) by lia;
        cbn [alter list_alter words_total struct.le_value] in *; [left|right]; lia.
    + destruct (flip_byte_value j c Hj) as [H|H];
        exists (j + 16); (split; [lia|]); rewrite (Hpow 16) by lia;
        cbn [alter list_alter words_total struct.le_value] in *; [left|right]; lia.
    + destruct (flip_byte_value j d Hj) as [H|H];
        exists (j + 24); (split; [lia|]); rewrite (Hpow 24) by lia;
        cbn [alter list_alter words_total struct.le_value] in *; [left|right]; lia.
    + destruct (IH p) as (k & Hk & Hdiff).
      { unfold len in *. cbn [length] in Hp.
        replace (Z.of_nat (S (S (S (S (length l)))))) with (Z.of_nat (length l) + 1 * 4) in Hp by lia.
        rewrite Z.div_add in Hp by lia. lia. }
      exists k. split; [exact Hk|].
      cbn [alter list_alter words_total] in *. lia.
Qed.

Lemma slice_flip_bit_data_area (section : list byte) (p j : Z) :
  0 <= p < GBA_FOOTER_OFFSET ->
  slice (flip_bit section p j) 0 GBA_FOOTER_OFFSET
  = alter (flip_byte j) (Z.to_nat p) (slice section 0 GBA_FOOTER_OFFSET).
Proof.
  intros Hp. unfold slice, flip_bit. cbn [Z.to_nat drop].
  apply take_alter_lt. unfold GBA_FOOTER_OFFSET in *. lia.
Qed.

(** C8: the section checksum is a function of the first 0xFF8 bytes of the
    section only, its value is a 16-bit number, and flipping any single bit
    of any of those bytes yields a different checksum. *)
Theorem C8_checksum_16bit_and_bit_sensitive (section : list byte) :
  GBA_FOOTER_OFFSET <= len section ->
  exists c,
    section_checksum section = Return c
    /\ 0 <= c < 2 ^ 16
    /\ (forall section',
          slice section' 0 GBA_FOOTER_OFFSET = slice section 0 GBA_FOOTER_OFFSET ->
          section_checksum section' = Return c)
    /\ (forall p j, 0 <= p < GBA_FOOTER_OFFSET -> 0 <= j < 8 ->
          exists c', section_checksum (flip_bit section p j) = Return c' /\ c' <> c).
Proof.
  intros Hlen.
  exists (fold16 (words_total (slice section 0 GBA_FOOTER_OFFSET))).
  split; [apply section_checksum_eq|].
  split; [apply fold16_range|].
  split.
  - intros section' Heq. rewrite section_checksum_eq, Heq. reflexivity.
  - intros p j Hp Hj.
    eexists. split; [apply section_checksum_eq|].
    rewrite slice_flip_bit_data_area by assumption.
    set (area := slice section 0 GBA_FOOTER_OFFSET).
    assert (Harea : len area = GBA_FOOTER_OFFSET).
    { subst area. rewrite len_slice; unfold GBA_FOOTER_OFFSET in *; lia. }
    destruct (words_total_flip j area (Z.to_nat p) Hj) as (k & Hk & [Hup | Hdown]).
    + rewrite Harea. unfold GBA_FOOTER_OFFSET in *.
      change (4088 / 4) with 1022. lia.
    + rewrite Hup. apply fold16_add_pow2. exact Hk.
    + rewrite Hdown. intros Heq. symmetry in Heq. revert Heq.
      apply fold16_add_pow2. exact Hk.
Qed.

Lemma C8_witness :
  exists c,
    section_checksum (sample_section x01 0 0 7) = Return c
    /\ 0 <= c < 2 ^ 16
    /\ (forall section',
          slice section' 0 GBA_FOOTER_OFFSET
          = slice (sample_section x01 0 0 7) 0 GBA_FOOTER_OFFSET ->
          section_checksum section' = Return c)
    /\ (forall p j, 0 <= p < GBA_FOOTER_OFFSET -> 0 <= j < 8 ->
          exists c', section_checksum (flip_bit (sample_section x01 0 0 7) p j) = Return c'
                     /\ c' <> c).
Proof.
  apply (C8_checksum_16bit_and_bit_sensitive (sample_section x01 0 0 7)).
  vm_compute. discriminate.
Defined.

(** ** Payload decryption *)

Lemma lxor_word_range (x y : Z) :
  0 <= x < 2 ^ 32 -> 0 <= y < 2 ^ 32 -> 0 <= Z.lxor x y < 2 ^ 32.
Proof.
  intros Hx Hy.
  assert (Hnn : 0 <= Z.lxor x y) by (apply Z.lxor_nonneg; lia).
  split; [exact Hnn|].
  destruct (Z.eq_dec (Z.lxor x y) 0) as [->|Hne]; [lia|].
  apply Z.log2_lt_pow2; [lia|].
  pose proof (Z.log2_lxor x y ltac:(lia) ltac:(lia)) as Hlog.
  assert (Z.log2 x < 32).
  { destruct (Z.eq_dec x 0) as [->|]; [simpl; lia|]. apply Z.log2_lt_pow2; lia. }
  assert (Z.log2 y < 32).
  { destruct (Z.eq_dec y 0) as [->|]; [simpl; lia|]. apply Z.log2_lt_pow2; lia. }
  lia.
Qed.

Lemma xor_words_length (key : Z) (l : list byte) :
  length (xor_words key l) = length l.
Proof.
  induction l as [l Hl | a b c d l IH] using chunk4_ind.
  - destruct l as [|a [|b [|c [|d l]]]]; simpl in *; try lia; reflexivity.
  - cbn [xor_words]. rewrite length_app, le_bytes_length, IH. reflexivity.
Qed.

Lemma decrypt_loop_spec (key : Z) (rest pre out : list byte) :
  0 <= key < 2 ^ 32 -> length out = length pre ->
  _decrypt_pk3_data_loop (pre ++ rest) key
    (range3 (len pre) (len (pre ++ rest)) 4) (out ++ zero_bytes (len rest))
  = Return (out ++ xor_words key rest).
Proof.
  intros Hkey. revert pre out.
  induction rest as [l Hl | a b c d l IH] using chunk4_ind; intros pre out Hout.
  - replace (xor_words key l) with (zero_bytes (len l))
      by (destruct l as [|a [|b [|c [|d l]]]]; simpl in *; try lia; reflexivity).
    destruct l as [|a l].
    + rewrite app_nil_r, range3_nil by lia. reflexivity.
    + rewrite range3_cons by len_solve.
      rewrite range3_nil by len_solve.
      cbn [_decrypt_pk3_data_loop].
      destruct (decide _) as [Hc|_]; [|reflexivity].
      len_solve.
  - rewrite range3_cons by len_solve.
    cbn [_decrypt_pk3_data_loop].
    destruct (decide _) as [_|N].
    2:{ exfalso. apply N. len_solve. }
    change (a :: b :: c :: d :: l) with ([a; b; c; d] ++ l).
    rewrite unpack_word_app. cbn [mbind pyres_bind].
    set (w := Z.lxor (struct.le_value [a; b; c; d]) key).
    assert (Hw : 0 <= w < 2 ^ 32)
      by (apply lxor_word_range; [apply le_value_word_range | exact Hkey]).
    unfold struct.pack_into. rewrite (pack_word_ok w Hw). cbn [mbind pyres_bind].
    destruct (decide _) as [_|N].
    2:{ exfalso. apply N. unfold zero_bytes. rewrite len_app. unfold len.
        rewrite length_replicate, length_app. simpl. lia. }
    assert (Hbuf : slice (out ++ zero_bytes (len ([a; b; c; d] ++ l))) 0 (len pre)
                   ++ struct.le_bytes 4 w
                   ++ drop (Z.to_nat (len pre + struct.calcsize struct.LE_I))
                        (out ++ zero_bytes (len ([a; b; c; d] ++ l)))
                   = (out ++ struct.le_bytes 4 w) ++ zero_bytes (len l)).
    { unfold slice, zero_bytes, len.
      change (Z.to_nat 0) with 0%nat. rewrite drop_0.
      replace (Z.to_nat (Z.of_nat (length pre) - 0)) with (length out) by lia.
      rewrite take_app_length.
      replace (Z.to_nat (Z.of_nat (length pre) + struct.calcsize struct.LE_I))
        with (length out + 4)%nat by (simpl; lia).
      rewrite drop_app_add, drop_replicate, <- app_assoc.
      do 3 f_equal. rewrite length_app. simpl. lia. }
    rewrite Hbuf.
    specialize (IH (pre ++ [a; b; c; d]) (out ++ struct.le_bytes 4 w)).
    rewrite <- app_assoc in IH.
    replace (len (pre ++ [a; b; c; d])) with (len pre + 4) in IH
      by (rewrite len_app; reflexivity).
    cbn [mbind pyres_bind]. rewrite IH.
    + rewrite <- app_assoc. reflexivity.
    + rewrite !length_app, le_bytes_length. simpl. lia.
Qed.

Lemma decrypt_pk3_data_spec (key : Z) (encrypted : list byte) :
  0 <= key < 2 ^ 32 ->
  _decrypt_pk3_data encrypted key = Return (xor_words key encrypted).
Proof.
  intros Hkey. unfold _decrypt_pk3_data.
  apply (decrypt_loop_spec key encrypted [] [] Hkey). reflexivity.
Qed.

Lemma xor_words_involutive (key : Z) (l : list byte) :
  0 <= key < 2 ^ 32 -> len l mod 4 = 0 ->
  xor_words key (xor_words key l) = l.
Proof.
  intros Hkey.
  induction l as [l Hl | a b c d l IH] using chunk4_ind; intros Hmod.
  - destruct l as [|a l]; [reflexivity|].
    exfalso. unfold len in Hmod. simpl in *.
    rewrite Z.mod_small in Hmod by lia. lia.
  - cbn [xor_words].
    set (w := Z.lxor (struct.le_value [a; b; c; d]) key).
    assert (Hw : 0 <= w < 2 ^ 32)
      by (apply lxor_word_range; [apply le_value_word_range | exact Hkey]).
    pose proof (le_value_word_bytes w Hw) as Hval.
    pose proof (le_bytes_length 4 w) as Hlen4.
    destruct (struct.le_bytes 4 w) as [|x0 [|x1 [|x2 [|x3 [|x4 xs]]]]] eqn:E;
      try discriminate Hlen4.
    cbn [app xor_words]. rewrite Hval. subst w.
    rewrite Z.lxor_assoc, Z.lxor_nilpotent, Z.lxor_0_r.
    rewrite le_bytes_word_value. cbn [app]. do 4 f_equal.
    apply IH. unfold len in *. cbn [length] in Hmod.
    replace (Z.of_nat (S (S (S (S (length l)))))) with (Z.of_nat (length l) + 1 * 4) in Hmod by lia.
    rewrite Z.mod_add in Hmod by lia. exact Hmod.
Qed.

Lemma unpack_xor_words (key : Z) (l : list byte) (i : Z) :
  0 <= key < 2 ^ 32 -> 0 <= i -> 4 * i + 4 <= len l ->
  struct.unpack_from struct.LE_I (xor_words key l) (4 * i)
  = Return (Z.lxor (struct.le_value (slice l (4 * i) (4 * i + 4))) key).
Proof.
  intros Hkey. revert i.
  induction l as [l Hl | a b c d l IH] using chunk4_ind; intros i Hi Hlen.
  - exfalso. unfold len in Hlen. lia.
  - cbn [xor_words].
    set (w := Z.lxor (struct.le_value [a; b; c; d]) key).
    assert (Hw : 0 <= w < 2 ^ 32)
      by (apply lxor_word_range; [apply le_value_word_range | exact Hkey]).
    pose proof (le_value_word_bytes w Hw) as Hval.
    pose proof (le_bytes_length 4 w) as Hlen4.
    destruct (struct.le_bytes 4 w) as [|x0 [|x1 [|x2 [|x3 [|x4 xs]]]]] eqn:E;
      try discriminate Hlen4.
    destruct (Z.eq_dec i 0) as [->|Hne].
    + pose proof (unpack_word_app [] (xor_words key l) x0 x1 x2 x3) as Hu.
      cbn [app] in Hu. change (len []) with (4 * 0) in Hu. cbn [app].
      rewrite Hu, Hval. reflexivity.
    + pose proof (unpack_from_app_skip struct.LE_I [x0; x1; x2; x3] (xor_words key l)
                    (4 * (i - 1)) ltac:(lia)) as H1.
      pose proof (slice_app_skip [a; b; c; d] l (4 * (i - 1)) (4 * (i - 1) + 4)
                    ltac:(lia)) as H2.
      change (len [x0; x1; x2; x3]) with 4 in H1. change (len [a; b; c; d]) with 4 in H2.
      cbn [app] in H1, H2 |- *.
      replace (4 * i + 4) with (4 + (4 * (i - 1) + 4)) by lia.
      replace (4 * i) with (4 + 4 * (i - 1)) by lia.
      rewrite H1, H2. apply IH; [lia|].
      unfold len in *. cbn [length] in Hlen. lia.
Qed.

(** C2: the key is the personality value XOR the combined owner-id word;
    decrypting the 48-byte payload replaces each of its twelve little-endian
    32-bit words by that word XOR the one key; decrypting twice with the
    same key gives back the original 48 bytes. *)
Theorem C2_decrypt_xor_roundtrip (personality_value ot_id_full : Z) (payload : list byte) :
  0 <= personality_value < 2 ^ 32 -> 0 <= ot_id_full < 2 ^ 32 ->
  len payload = PK3_DATA_SIZE ->
  let key := pk3_key personality_value ot_id_full in
  key = Z.lxor personality_value ot_id_full
  /\ exists decrypted,
       _decrypt_pk3_data payload key = Return decrypted
       /\ len decrypted = PK3_DATA_SIZE
       /\ (forall i, 0 <= i < 12 ->
             exists w,
               struct.unpack_from struct.LE_I payload (4 * i) = Return w
               /\ struct.unpack_from struct.LE_I decrypted (4 * i) = Return (Z.lxor w key))
       /\ _decrypt_pk3_data decrypted key = Return payload.
Proof.
  intros Hpv Hot Hlen key.
  assert (Hkey : 0 <= key < 2 ^ 32) by (apply lxor_word_range; assumption).
  split; [reflexivity|].
  exists (xor_words key payload).
  split; [apply decrypt_pk3_data_spec; exact Hkey|].
  split; [unfold len in *; rewrite xor_words_length; exact Hlen|].
  split.
  - intros i Hi. unfold PK3_DATA_SIZE in Hlen.
    exists (struct.le_value (slice payload (4 * i) (4 * i + 4))). split.
    + rewrite unpack_from_ok; [reflexivity | lia | simpl; lia].
    + apply unpack_xor_words; [exact Hkey | lia | lia].
  - rewrite decrypt_pk3_data_spec by exact Hkey. f_equal.
    apply xor_words_involutive; [exact Hkey|].
    rewrite Hlen. reflexivity.
Qed.

Lemma C2_witness :
  exists decrypted,
    _decrypt_pk3_data (sample_payload 25 x07) (pk3_key 0x12345678 0xCAFE0001)
    = Return decrypted
    /\ _decrypt_pk3_data decrypted (pk3_key 0x12345678 0xCAFE0001)
       = Return (sample_payload 25 x07).
Proof.
  destruct (C2_decrypt_xor_roundtrip 0x12345678 0xCAFE0001 (sample_payload 25 x07))
    as (_ & decrypted & Hdec & _ & _ & Hback).
  - lia.
  - lia.
  - reflexivity.
  - exists decrypted. split; assumption.
Defined.

(** ** Substructure order *)

Lemma build_sub_map_four (c0 c1 c2 c3 : ascii) (decrypted : list byte) :
  build_sub_map (String c0 (String c1 (String c2 (String c3 EmptyString)))) decrypted
  = <[String c3 EmptyString := slice decrypted 36 48]>
      (<[String c2 EmptyString := slice decrypted 24 36]>
         (<[String c1 EmptyString := slice decrypted 12 24]>
            (<[String c0 EmptyString := slice decrypted 0 12]> ∅))).
Proof. reflexivity. Qed.

Lemma blocks_concat (decrypted : list byte) :
  len decrypted = 48 ->
  slice decrypted 0 12 ++ slice decrypted 12 24 ++ slice decrypted 24 36
  ++ slice decrypted 36 48 = decrypted.
Proof.
  intros Hlen.
  rewrite (slice_concat decrypted 24 36 48) by lia.
  rewrite (slice_concat decrypted 12 24 48) by lia.
  rewrite (slice_concat decrypted 0 12 48) by lia.
  rewrite <- Hlen. apply slice_all.
Qed.

Lemma places_four (c0 c1 c2 c3 : ascii) :
  let s k := String k EmptyString in
  [s c0; s c1; s c2; s c3] ≡ₚ ["G"; "A"; "E"; "M"] ->
  NoDup [s c0; s c1; s c2; s c3] ->
  places_substructures (String c0 (String c1 (String c2 (String c3 EmptyString)))).
Proof.
  intros s Hperm Hnodup.
  exists (s c0), (s c1), (s c2), (s c3).
  split; [reflexivity|]. split; [exact Hperm|].
  intros decrypted Hlen sub_map. subst sub_map.
  rewrite build_sub_map_four. fold (s c0) (s c1) (s c2) (s c3).
  apply NoDup_cons in Hnodup as [H0 Hnodup].
  apply NoDup_cons in Hnodup as [H1 Hnodup].
  apply NoDup_cons in Hnodup as [H2 _].
  assert (H01 : s c0 ≠ s c1) by set_solver.
  assert (H02 : s c0 ≠ s c2) by set_solver.
  assert (H03 : s c0 ≠ s c3) by set_solver.
  assert (H12 : s c1 ≠ s c2) by set_solver.
  assert (H13 : s c1 ≠ s c3) by set_solver.
  assert (H23 : s c2 ≠ s c3) by set_solver.
  set (m := <[s c3 := _]> _).
  assert (L0 : m !! s c0 = Some (slice decrypted 0 12)).
  { subst m. rewrite !lookup_insert_ne by congruence. apply lookup_insert_eq. }
  assert (L1 : m !! s c1 = Some (slice decrypted 12 24)).
  { subst m. rewrite !lookup_insert_ne by congruence. apply lookup_insert_eq. }
  assert (L2 : m !! s c2 = Some (slice decrypted 24 36)).
  { subst m. rewrite !lookup_insert_ne by congruence. apply lookup_insert_eq. }
  assert (L3 : m !! s c3 = Some (slice decrypted 36 48)).
  { subst m. apply lookup_insert_eq. }
  assert (Hblock : forall letter, letter ∈ [s c0; s c1; s c2; s c3] ->
                     len (sub_map_get m letter) = 12).
  { intros letter Hin. unfold sub_map_get, PK3_DATA_SIZE in *.
    rewrite !elem_of_cons in Hin.
    destruct Hin as [-> | [-> | [-> | [-> | Hin]]]];
      [rewrite L0 | rewrite L1 | rewrite L2 | rewrite L3 | inversion Hin];
      simpl; rewrite len_slice; lia. }
  repeat split; try assumption;
    try (apply Hblock; rewrite Hperm; set_solver).
  unfold sub_map_get. rewrite L0, L1, L2, L3. simpl.
  apply blocks_concat. exact Hlen.
Qed.

Lemma substructure_order_places (order : string) :
  order ∈ SUBSTRUCTURE_ORDER -> places_substructures order.
Proof.
  unfold SUBSTRUCTURE_ORDER. rewrite !elem_of_cons.
  intros H.
  repeat (destruct H as [-> | H]);
    [apply places_four; [solve_Permutation | by apply (bool_decide_unpack _)] ..|].
  inversion H.
Qed.

Lemma order_lookup (personality_value : Z) :
  0 <= personality_value ->
  exists order,
    getitem SUBSTRUCTURE_ORDER (personality_value mod 24) = Return order
    /\ places_substructures order.
Proof.
  intros Hpv.
  pose proof (Z.mod_pos_bound personality_value 24 ltac:(lia)) as Hr.
  destruct (getitem_ok SUBSTRUCTURE_ORDER (personality_value mod 24)) as (order & E & Hin).
  - exact Hr.
  - exists order. split; [exact E | apply substructure_order_places; exact Hin].
Qed.

(** C3: for every personality value in [0, 2^32) the index
    [personality_value mod 24] selects an entry of the 24-entry order table,
    and that entry assigns to Growth, Attacks, Condition and Misc four
    12-byte blocks that together are exactly the 48 decrypted bytes, in
    some order, without overlap or gap. *)
Theorem C3_order_index_selects_partition (personality_value : Z) :
  0 <= personality_value < 2 ^ 32 ->
  len SUBSTRUCTURE_ORDER = 24
  /\ 0 <= personality_value mod 24 < len SUBSTRUCTURE_ORDER
  /\ exists order,
       getitem SUBSTRUCTURE_ORDER (personality_value mod 24) = Return order
       /\ places_substructures order.
Proof.
  intros Hpv.
  pose proof (Z.mod_pos_bound personality_value 24 ltac:(lia)) as Hr.
  split; [reflexivity|]. split; [exact Hr|].
  apply order_lookup. lia.
Qed.

Lemma C3_witness :
  exists order,
    getitem SUBSTRUCTURE_ORDER (0x12345678 mod 24) = Return order
    /\ places_substructures order.
Proof.
  apply (C3_order_index_selects_partition 0x12345678). lia.
Defined.

(** ** The cartridge record decoder *)

Lemma pyres_bind_assoc {A B C} (m : pyres A) (f : A -> pyres B) (g : B -> pyres C) :
  (m ≫= f) ≫= g = m ≫= (fun x => f x ≫= g).
Proof. destruct m; reflexivity. Qed.

Ltac read_step :=
  lazymatch goal with
  | |- present_with _ (mbind _ (mbind _ _)) _ => rewrite pyres_bind_assoc
  | E : getitem NATURES _ = Return _ |- present_with _ (mbind _ (getitem NATURES _)) _ =>
      rewrite E; cbn [mbind pyres_bind]
  | |- present_with _ (mbind _ (struct.unpack_from ?f ?b ?o)) _ =>
      let E := fresh "E" in
      destruct (unpack_from_value f b o) as (? & E & ?);
      [simpl; lia | simpl; lia | rewrite E; clear E; cbn [mbind pyres_bind]]
  | |- present_with _ (mbind _ (byte_at ?b ?i)) _ =>
      let E := fresh "E" in
      destruct (byte_at_ok b i) as (? & E & ?);
      [lia | rewrite E; clear E; cbn [mbind pyres_bind]]
  | |- present_with _ (mbind _ (if decide ?P then _ else _)) _ =>
      destruct (decide P); [try (exfalso; lia) | try (exfalso; lia)]
  | |- present_with _ (if decide ?P then _ else _) _ =>
      destruct (decide P); [try (exfalso; lia) | try (exfalso; lia)]
  | |- present_with _ (mbind _ (getitem NATURES (?x mod 25))) _ =>
      let E := fresh "E" in
      destruct (getitem_ok NATURES (x mod 25)) as (? & E & _);
      [change (len NATURES) with 25; apply Z.mod_pos_bound; lia
      | rewrite E; clear E; cbn [mbind pyres_bind]]
  | |- present_with _ (mbind _ (Return _)) _ => cbn [mbind pyres_bind mret pyres_ret]
  | |- present_with _ (mbind _ (mret _)) _ => cbn [mbind pyres_bind mret pyres_ret]
  end.

Lemma parse_pk3_body_species (float_pow_third : Z -> Z) (data : list byte) :
  PK3_HEADER_SIZE + PK3_DATA_SIZE <= len data ->
  exists sid,
    pk3_decoded_species data = Return sid
    /\ 0 <= sid < 2 ^ 16
    /\ (sid = 0 \/ sid > 386 -> _parse_pk3_body float_pow_third data = Return None)
    /\ (~ (sid = 0 \/ sid > 386) ->
        present_with PK3Pokemon.species_id (_parse_pk3_body float_pow_third data) sid).
Proof.
  unfold PK3_HEADER_SIZE, PK3_DATA_SIZE. intros Hlen.
  destruct (unpack_from_value struct.LE_I data 0) as (pv & Epv & Hpv); [lia | simpl; lia |].
  destruct (unpack_from_value struct.LE_I data 4) as (ot & Eot & Hot); [lia | simpl; lia |].
  change (2 ^ (8 * struct.calcsize struct.LE_I)) with (2 ^ 32) in *.
  assert (Hkey : 0 <= pk3_key pv ot < 2 ^ 32) by (apply lxor_word_range; assumption).
  pose proof (decrypt_pk3_data_spec (pk3_key pv ot) (slice data 32 (32 + 48)) Hkey) as Edec.
  destruct (order_lookup pv ltac:(lia)) as (order & Eorder & Hplaces).
  destruct Hplaces as (l0 & l1 & l2 & l3 & _ & _ & Hblocks).
  specialize (Hblocks (xor_words (pk3_key pv ot) (slice data 32 (32 + 48)))).
  destruct Hblocks as (_ & _ & _ & _ & Hg & Ha & He & Hm & _).
  { unfold len. rewrite xor_words_length. fold (len (slice data 32 (32 + 48))).
    rewrite len_slice; unfold PK3_DATA_SIZE; lia. }
  set (dec := xor_words (pk3_key pv ot) (slice data 32 (32 + 48))) in *.
  set (sub_map := build_sub_map order dec) in *.
  destruct (unpack_from_value struct.LE_H (sub_map_get sub_map "G") 0)
    as (sid & Esid & Hsid); [lia | simpl; lia |].
  exists sid.
  split.
  { unfold pk3_decoded_species, PK3_HEADER_SIZE, PK3_DATA_SIZE.
    rewrite Epv. cbn [mbind pyres_bind]. rewrite Eot. cbn [mbind pyres_bind].
    rewrite Edec. cbn [mbind pyres_bind]. rewrite Eorder. cbn [mbind pyres_bind].
    exact Esid. }
  split; [exact Hsid|].
  assert (Hnat : exists nature, getitem NATURES (pv mod 25) = Return nature).
  { destruct (getitem_ok NATURES (pv mod 25)) as (x & E & _).
    - pose proof (Z.mod_pos_bound pv 25 ltac:(lia)). change (len NATURES) with 25. lia.
    - eauto. }
  destruct Hnat as (nature & Enat).
  split.
  - intros Hbad. unfold _parse_pk3_body, PK3_HEADER_SIZE, PK3_DATA_SIZE.
    rewrite Epv. cbn [mbind pyres_bind]. rewrite Eot. cbn [mbind pyres_bind].
    destruct (decide (len data > 18)); [|lia].
    destruct (byte_at_ok data 18) as (? & -> & _); [lia|]. cbn [mbind pyres_bind].
    destruct (decide (len data > 27)); [|lia].
    destruct (byte_at_ok data 27) as (? & -> & _); [lia|]. cbn [mbind pyres_bind].
    destruct (decide (len data > 30)); [|lia].
    destruct (unpack_from_value struct.LE_H data 28) as (? & -> & _); [lia | simpl; lia |].
    cbn [mbind pyres_bind].
    destruct (decide (len data < 32 + 48)); [lia|].
    rewrite Edec. cbn [mbind pyres_bind]. rewrite Eorder. cbn [mbind pyres_bind].
    fold dec. fold sub_map. rewrite Esid. cbn [mbind pyres_bind].
    destruct (unpack_from_value struct.LE_H (sub_map_get sub_map "G") 2)
      as (? & -> & _); [lia | simpl; lia |]. cbn [mbind pyres_bind].
    destruct (unpack_from_value struct.LE_I (sub_map_get sub_map "G") 4)
      as (? & -> & _); [lia | simpl; lia |]. cbn [mbind pyres_bind].
    destruct (byte_at_ok (sub_map_get sub_map "G") 8) as (? & -> & _); [lia|].
    cbn [mbind pyres_bind].
    destruct (byte_at_ok (sub_map_get sub_map "G") 9) as (? & -> & _); [lia|].
    cbn [mbind pyres_bind].
    destruct (unpack_from_value struct.LE_H (sub_map_get sub_map "G") 10)
      as (? & -> & _); [lia | simpl; lia |]. cbn [mbind pyres_bind].
    destruct (decide (sid = 0 \/ sid > 386)) as [_|N]; [reflexivity | contradiction].
  - intros Hgood. unfold _parse_pk3_body, PK3_HEADER_SIZE, PK3_DATA_SIZE, PK3_STATUS_SIZE.
    rewrite Epv. cbn [mbind pyres_bind]. rewrite Eot. cbn [mbind pyres_bind].
    do 7 read_step.
    rewrite Edec. cbn [mbind pyres_bind]. rewrite Eorder. cbn [mbind pyres_bind].
    fold dec. fold sub_map. rewrite Esid. cbn [mbind pyres_bind].
    do 5 read_step.
    destruct (decide (sid = 0 \/ sid > 386)) as [Y|_]; [contradiction|].
    assert (Hst : 32 + 48 + 20 <= len data -> len (slice data (32 + 48) (32 + 48 + 20)) = 20)
      by (intros; rewrite len_slice; lia).
    repeat read_step; reflexivity.
Qed.


(** ** The console record decoder *)

Lemma gc_str_loop_ok (data : list byte) (offset : Z) (idxs : list Z) :
  0 <= offset -> Forall (fun i => 0 <= i) idxs ->
  exists chars, GCIParser._gc_str_loop data offset idxs = Return chars.
Proof.
  intros Hoff Hidx. induction Hidx as [|i idxs Hi _ IH].
  - eexists. reflexivity.
  - cbn [GCIParser._gc_str_loop].
    destruct (decide _) as [|Hin]; [eexists; reflexivity|].
    destruct (unpack_from_value struct.BE_H data (offset + i * 2)) as (code & -> & _);
      [lia | simpl; lia |].
    cbn [mbind pyres_bind].
    destruct (decide (code = 0)); [eexists; reflexivity|].
    destruct IH as (rest & ->). eexists. reflexivity.
Qed.

Lemma gc_str_ok (data : list byte) (offset max_len : Z) :
  0 <= offset -> exists s, GCIParser._gc_str data offset max_len = Return s.
Proof.
  intros Hoff. unfold GCIParser._gc_str.
  destruct (gc_str_loop_ok data offset (range max_len) Hoff) as (chars & ->).
  - unfold range, range3. apply Forall_fmap, Forall_forall. intros k _. simpl. lia.
  - eexists. reflexivity.
Qed.

Lemma moves_loop_ok (data : list byte) (ms : list Z) :
  Forall (fun m => 0 <= m) ms ->
  exists moves, GCIParser.moves_loop data ms = Return moves.
Proof.
  intros Hms. induction Hms as [|m ms Hm _ IH].
  - eexists. reflexivity.
  - cbn [GCIParser.moves_loop]. destruct IH as (rest & ->).
    destruct (decide _) as [Hin|].
    + destruct (unpack_from_value struct.BE_H data (64 + m * 2)) as (mid & -> & _);
        [lia | simpl; lia |].
      eexists. reflexivity.
    + eexists. reflexivity.
Qed.

Lemma parse_pokemon_body_species (data : list byte) (idx : Z) :
  0x50 <= len data ->
  exists sid,
    gc_decoded_species data = Return sid
    /\ 0 <= sid < 2 ^ 16
    /\ (sid = 0 \/ sid > 386 -> GCIParser._parse_pokemon_body data idx = Return None)
    /\ (~ (sid = 0 \/ sid > 386) ->
        present_with SavedPokemon.species_id (GCIParser._parse_pokemon_body data idx) sid).
Proof.
  intros Hlen.
  destruct (unpack_from_value struct.BE_H data 0) as (sid & Esid & Hsid); [lia | simpl; lia |].
  exists sid. split; [exact Esid|]. split; [exact Hsid|].
  unfold GCIParser._parse_pokemon_body. rewrite Esid. cbn [mbind pyres_bind].
  split.
  - intros Hbad. destruct (decide (sid = 0 \/ sid > 386)); [reflexivity | contradiction].
  - intros Hgood. destruct (decide (sid = 0 \/ sid > 386)); [contradiction|].
    destruct (gc_str_ok data 0x18 10 ltac:(lia)) as (nick & Enick).
    destruct (moves_loop_ok data (range 4)) as (moves & Emoves).
    { repeat constructor; lia. }
    repeat first
      [ read_step
      | rewrite Enick; cbn [mbind pyres_bind]
      | rewrite Emoves; cbn [mbind pyres_bind mret pyres_ret] ];
      reflexivity.
Qed.

Lemma parse_pk3_unfold (float_pow_third : Z -> Z) (data : list byte) :
  PK3_HEADER_SIZE <= len data ->
  _parse_pk3 float_pow_third data
  = try_except_struct_or_index (_parse_pk3_body float_pow_third data) (mret None).
Proof.
  intros Hlen. unfold _parse_pk3. destruct (decide _); [lia | reflexivity].
Qed.

Lemma parse_pk3_never_raises (float_pow_third : Z -> Z) (data : list byte) :
  exists r, _parse_pk3 float_pow_third data = Return r.
Proof.
  unfold _parse_pk3. destruct (decide _); [eexists; reflexivity|].
  destruct (_parse_pk3_body float_pow_third data) as [r|[]]; eexists; reflexivity.
Qed.

Lemma present_with_inv {A} (species : A -> Z) (r : pyres (option A)) (sid : Z) :
  present_with species r sid -> exists p, r = Return (Some p) /\ species p = sid.
Proof.
  destruct r as [[p|]|]; simpl; intros H; try contradiction. eauto.
Qed.

(** Below the length guards both codecs answer with an absent record. *)
Lemma short_buffers_absent (float_pow_third : Z -> Z) (data : list byte) (idx : Z) :
  (len data < PK3_HEADER_SIZE + PK3_DATA_SIZE ->
   _parse_pk3 float_pow_third data = Return None)
  /\ (len data < 0x50 -> GCIParser._parse_pokemon data idx = Return None).
Proof.
  unfold PK3_HEADER_SIZE, PK3_DATA_SIZE. split; intros Hlen.
  - unfold _parse_pk3, PK3_HEADER_SIZE. destruct (decide (len data < 32)); [reflexivity|].
    unfold _parse_pk3_body, PK3_HEADER_SIZE, PK3_DATA_SIZE.
    destruct (unpack_from_value struct.LE_I data 0) as (? & -> & _); [lia | simpl; lia |].
    cbn [mbind pyres_bind].
    destruct (unpack_from_value struct.LE_I data 4) as (? & -> & _); [lia | simpl; lia |].
    cbn [mbind pyres_bind].
    destruct (decide (len data > 18)); [|lia].
    destruct (byte_at_ok data 18) as (? & -> & _); [lia|]. cbn [mbind pyres_bind].
    destruct (decide (len data > 27)); [|lia].
    destruct (byte_at_ok data 27) as (? & -> & _); [lia|]. cbn [mbind pyres_bind].
    destruct (decide (len data > 30)); [|lia].
    destruct (unpack_from_value struct.LE_H data 28) as (? & -> & _); [lia | simpl; lia |].
    cbn [mbind pyres_bind].
    destruct (decide (len data < 32 + 48)); [reflexivity | lia].
  - unfold GCIParser._parse_pokemon. destruct (decide _); [reflexivity | lia].
Qed.

(** C4: for both record codecs, once the buffer passes the length guards
    that precede the species check (80 bytes in either codec), a record is
    produced exactly when the decoded species id lies in [1, 386], and then
    it carries that id; otherwise the record is absent. *)
Theorem C4_record_present_iff_species_in_range
    (float_pow_third : Z -> Z) (cartridge console : list byte) (idx : Z) :
  PK3_HEADER_SIZE + PK3_DATA_SIZE <= len cartridge ->
  0x50 <= len console ->
  (exists sid,
     pk3_decoded_species cartridge = Return sid
     /\ ((exists p, _parse_pk3 float_pow_third cartridge = Return (Some p)
                    /\ PK3Pokemon.species_id p = sid)
         <-> 1 <= sid <= 386)
     /\ (~ (1 <= sid <= 386) -> _parse_pk3 float_pow_third cartridge = Return None))
  /\ (exists sid,
        gc_decoded_species console = Return sid
        /\ ((exists p, GCIParser._parse_pokemon console idx = Return (Some p)
                       /\ SavedPokemon.species_id p = sid)
            <-> 1 <= sid <= 386)
        /\ (~ (1 <= sid <= 386) -> GCIParser._parse_pokemon console idx = Return None)).
Proof.
  intros Hcart Hcons. split.
  - destruct (parse_pk3_body_species float_pow_third cartridge Hcart)
      as (sid & Esid & Hsid & Hbad & Hgood).
    rewrite parse_pk3_unfold by (unfold PK3_HEADER_SIZE, PK3_DATA_SIZE in *; lia).
    exists sid. split; [exact Esid|].
    destruct (decide (sid = 0 \/ sid > 386)) as [Y|N].
    + rewrite (Hbad Y). cbn. split; [|intros; reflexivity].
      split; [intros (p & Hp & _); discriminate Hp | lia].
    + destruct (present_with_inv _ _ _ (Hgood N)) as (p & Ep & Hp). rewrite Ep. cbn.
      split; [|lia]. split; [lia | eauto].
  - destruct (parse_pokemon_body_species console idx Hcons)
      as (sid & Esid & Hsid & Hbad & Hgood).
    unfold GCIParser._parse_pokemon. destruct (decide _); [lia|].
    exists sid. split; [exact Esid|].
    destruct (decide (sid = 0 \/ sid > 386)) as [Y|N].
    + rewrite (Hbad Y). cbn. split; [|intros; reflexivity].
      split; [intros (p & Hp & _); discriminate Hp | lia].
    + destruct (present_with_inv _ _ _ (Hgood N)) as (p & Ep & Hp). rewrite Ep. cbn.
      split; [|lia]. split; [lia | eauto].
Qed.

Lemma C4_witness :
  (exists sid,
     pk3_decoded_species (sample_pk3 386 (zero_bytes 20)) = Return sid
     /\ ((exists p, _parse_pk3 cube_root_floor (sample_pk3 386 (zero_bytes 20))
                    = Return (Some p)
                    /\ PK3Pokemon.species_id p = sid)
         <-> 1 <= sid <= 386)
     /\ (~ (1 <= sid <= 386) ->
         _parse_pk3 cube_root_floor (sample_pk3 386 (zero_bytes 20)) = Return None))
  /\ (exists sid,
        gc_decoded_species (sample_gc_record 386) = Return sid
        /\ ((exists p, GCIParser._parse_pokemon (sample_gc_record 386) 0 = Return (Some p)
                       /\ SavedPokemon.species_id p = sid)
            <-> 1 <= sid <= 386)
        /\ (~ (1 <= sid <= 386) ->
            GCIParser._parse_pokemon (sample_gc_record 386) 0 = Return None)).
Proof.
  apply (C4_record_present_iff_species_in_range cube_root_floor
           (sample_pk3 386 (zero_bytes 20)) (sample_gc_record 386) 0).
  - vm_compute. discriminate.
  - vm_compute. discriminate.
Defined.

(** The boundary cases on concrete records: species 386 is decoded, species
    387 and species 0 are absent, with and without a status block. *)
Example pk3_species_boundary :
  (PK3Pokemon.species_id
     <$> default None (match _parse_pk3 cube_root_floor (sample_pk3 386 (zero_bytes 20)) with
                       | Return r => Some r | Raise _ => None end)) = Some 386
  /\ _parse_pk3 cube_root_floor (sample_pk3 386 []) <> Return None
  /\ _parse_pk3 cube_root_floor (sample_pk3 387 (zero_bytes 20)) = Return None
  /\ _parse_pk3 cube_root_floor (sample_pk3 0 (zero_bytes 20)) = Return None
  /\ _parse_pk3 cube_root_floor (sample_pk3 387 []) = Return None
  /\ _parse_pk3 cube_root_floor (sample_pk3 0 []) = Return None.
Proof. vm_compute. repeat split; discriminate. Qed.

Example gc_species_boundary :
  (SavedPokemon.species_id
     <$> default None (match GCIParser._parse_pokemon (sample_gc_record 386) 0 with
                       | Return r => Some r | Raise _ => None end)) = Some 386
  /\ GCIParser._parse_pokemon (sample_gc_record 387) 0 = Return None
  /\ GCIParser._parse_pokemon (sample_gc_record 0) 0 = Return None.
Proof. vm_compute. repeat split. Qed.

(** ** Slot assembly *)

Lemma verify_section_checksum_cases (section : list byte) :
  (GBA_CHECKSUM_OFF + 2 <= len section
   /\ _verify_section_checksum section = Return (checksum_valid section))
  \/ (len section < GBA_CHECKSUM_OFF + 2
      /\ _verify_section_checksum section = Return false).
Proof.
  unfold _verify_section_checksum.
  destruct (decide (GBA_CHECKSUM_OFF + 2 <= len section)) as [Hlen|Hlen].
  - left. split; [exact Hlen|].
    rewrite unpack_from_ok by (unfold GBA_CHECKSUM_OFF in *; simpl; lia).
    cbn [mbind pyres_bind]. rewrite section_checksum_eq. reflexivity.
  - right. split; [lia|].
    rewrite unpack_from_short by (simpl; lia). reflexivity.
Qed.

Lemma section_at_length (data : list byte) (offset i : Z) :
  0 <= offset -> 0 <= i -> section_fits data offset i ->
  len (section_at data offset i) = GBA_SECTION_SIZE.
Proof.
  unfold section_fits, section_at, GBA_SECTION_SIZE. intros Ho Hi Hfit.
  rewrite len_slice; lia.
Qed.

(** A section that verifies stops verifying once any single bit of its data
    area is flipped: the footer is untouched and the checksum moves. *)
Lemma verify_fails_after_flip (section : list byte) (p j : Z) :
  len section = GBA_SECTION_SIZE -> 0 <= p < GBA_FOOTER_OFFSET -> 0 <= j < 8 ->
  _verify_section_checksum section = Return true ->
  _verify_section_checksum (flip_bit section p j) = Return false.
Proof.
  unfold GBA_SECTION_SIZE, GBA_FOOTER_OFFSET. intros Hlen Hp Hj Hok.
  assert (Hlen' : len (flip_bit section p j) = 4096)
    by (unfold flip_bit, len in *; rewrite length_alter; exact Hlen).
  destruct (verify_section_checksum_cases section) as [[_ E]|[Hshort _]];
    [|unfold GBA_CHECKSUM_OFF in Hshort; lia].
  rewrite E in Hok. injection Hok as Hok.
  destruct (verify_section_checksum_cases (flip_bit section p j)) as [[_ ->]|[Hshort _]];
    [|unfold GBA_CHECKSUM_OFF in Hshort; lia].
  f_equal. unfold checksum_valid in *.
  apply bool_decide_eq_true_1 in Hok. apply bool_decide_eq_false_2.
  assert (Hfoot : footer_checksum (flip_bit section p j) = footer_checksum section).
  { unfold footer_checksum, slice, flip_bit, GBA_CHECKSUM_OFF.
    rewrite drop_alter_lt by lia. reflexivity. }
  rewrite Hfoot, <- Hok.
  rewrite slice_flip_bit_data_area by (unfold GBA_FOOTER_OFFSET; lia).
  set (area := slice section 0 GBA_FOOTER_OFFSET).
  assert (Harea : len area = 4088)
    by (subst area; rewrite len_slice; unfold GBA_FOOTER_OFFSET; lia).
  destruct (words_total_flip j area (Z.to_nat p) Hj) as (k & Hk & [Hup | Hdown]).
  - rewrite Harea. change (4088 / 4) with 1022. lia.
  - rewrite Hup. apply fold16_add_pow2. exact Hk.
  - rewrite Hdown. intros Heq. symmetry in Heq. revert Heq.
    apply fold16_add_pow2. exact Hk.
Qed.

(** The loop of [_parse_slot] never raises, and it computes the
    specification's fold with the flags forgotten; the flags go to the log. *)
Lemma parse_slot_loop_spec (data : list byte) (offset : Z) (idxs : list Z) :
  0 <= offset -> Forall (fun i => 0 <= i) idxs -> StronglySorted Z.le idxs ->
  forall (slot : gmap Z (list byte * bool)) (log : list Z),
    _parse_slot_loop data offset idxs (fst <$> slot) log
    = Return
        (fst <$> foldl spec_slot_step slot
                   (section_at data offset <$> filter (section_fits data offset) idxs),
         log ++ (footer_id <$>
                   filter (fun s => ¬ footer_id s > 13 ∧ checksum_valid s = false)
                     (section_at data offset <$> filter (section_fits data offset) idxs))).
Proof.
  intros Hoff Hpos Hsorted.
  induction idxs as [|i idxs IH]; intros slot log.
  - cbn. rewrite app_nil_r. reflexivity.
  - apply Forall_cons in Hpos as [Hi Hpos].
    apply StronglySorted_inv in Hsorted as [Hsorted Hle].
    cbn [_parse_slot_loop].
    destruct (decide (offset + i * GBA_SECTION_SIZE + GBA_SECTION_SIZE > len data)) as [Hout|Hin].
    + (* break: no later section fits either *)
      assert (Hnone : filter (section_fits data offset) (i :: idxs) = []).
      { apply filter_none. apply Forall_cons. split.
        - unfold section_fits. lia.
        - eapply Forall_impl; [exact Hle|]. intros j Hj. unfold section_fits.
          unfold GBA_SECTION_SIZE in *. lia. }
      rewrite Hnone. cbn. rewrite app_nil_r. reflexivity.
    + assert (Hfit : section_fits data offset i) by (unfold section_fits; lia).
      rewrite filter_cons_True by exact Hfit. rewrite fmap_cons. cbn [foldl].
      fold (section_at data offset i).
      set (section := section_at data offset i).
      pose proof (section_at_length data offset i Hoff Hi Hfit) as Hlen.
      fold section in Hlen. unfold GBA_SECTION_SIZE in Hlen.
      rewrite unpack_from_ok by (unfold GBA_SECTION_ID_OFF; simpl; lia).
      cbn [mbind pyres_bind].
      change (struct.decode struct.LE_H
                (slice section GBA_SECTION_ID_OFF
                   (GBA_SECTION_ID_OFF + struct.calcsize struct.LE_H)))
        with (footer_id section).
      destruct (decide (footer_id section > 13)) as [Hbad|Hgood].
      * replace (spec_slot_step slot section) with slot
          by (unfold spec_slot_step; destruct (decide _); [reflexivity | contradiction]).
        rewrite filter_cons_False by tauto. apply IH; assumption.
      * replace (spec_slot_step slot section)
          with (<[footer_id section := (section, checksum_valid section)]> slot)
          by (unfold spec_slot_step; destruct (decide _); [contradiction | reflexivity]).
        destruct (verify_section_checksum_cases section) as [[_ ->]|[Hshort _]];
          [|unfold GBA_CHECKSUM_OFF in Hshort; lia].
        cbn [mbind pyres_bind].
        specialize (IH Hpos Hsorted
                      (<[footer_id section := (section, checksum_valid section)]> slot)).
        rewrite fmap_insert in IH. cbn [fst] in IH.
        destruct (checksum_valid section) eqn:Hvalid.
        -- rewrite filter_cons_False by (intros [_ ?]; congruence). apply IH.
        -- rewrite filter_cons_True by (split; [exact Hgood | exact Hvalid]).
           rewrite IH, fmap_cons, <- app_assoc. reflexivity.
Qed.

Lemma range_sorted_nonneg (n : Z) :
  Forall (fun i => 0 <= i) (range n) /\ StronglySorted Z.le (range n).
Proof.
  unfold range, range3.
  set (m := Z.to_nat ((n - 0 + 1 - 1) / 1)). clearbody m.
  split.
  - apply Forall_fmap, Forall_forall. intros k _. simpl. lia.
  - assert (H : forall s, StronglySorted Z.le ((fun k : nat => 0 + 1 * Z.of_nat k) <$> seq s m)).
    { induction m as [|m IH]; intros s; cbn; constructor.
      - apply IH.
      - apply Forall_fmap, Forall_forall. intros k Hk.
        apply elem_of_seq in Hk. simpl. lia. }
    apply H.
Qed.

Lemma parse_slot_run_spec (data : list byte) (offset : Z) :
  0 <= offset ->
  _parse_slot_run data offset
  = Return (fst <$> spec_slot_map data offset, spec_invalid_ids data offset).
Proof.
  intros Hoff. unfold _parse_slot_run.
  destruct (range_sorted_nonneg GBA_SECTION_COUNT) as [Hpos Hsorted].
  pose proof (parse_slot_loop_spec data offset (range GBA_SECTION_COUNT)
                Hoff Hpos Hsorted ∅ []) as H.
  rewrite fmap_empty in H. exact H.
Qed.

Lemma spec_fold_lookup (l : list (list byte)) (slot : gmap Z (list byte * bool))
    (id : Z) (e : list byte * bool) :
  foldl spec_slot_step slot l !! id = Some e ->
  slot !! id = Some e
  \/ exists s, s ∈ l /\ footer_id s = id /\ ~ id > 13 /\ e = (s, checksum_valid s).
Proof.
  revert slot. induction l as [|s l IH]; intros slot H; [left; exact H|].
  cbn [foldl] in H. apply IH in H as [H | (s' & Hin & Hs')].
  - unfold spec_slot_step in H. destruct (decide (footer_id s > 13)) as [|Hgood].
    + left. exact H.
    + destruct (decide (footer_id s = id)) as [Heq|Hne].
      * subst id. rewrite lookup_insert_eq in H. injection H as <-.
        right. exists s. repeat split; [left | exact Hgood].
      * rewrite lookup_insert_ne in H by exact Hne. left. exact H.
  - right. exists s'. split; [right; exact Hin | exact Hs'].
Qed.

Lemma spec_fold_keeps (l : list (list byte)) (slot : gmap Z (list byte * bool)) (id : Z) :
  is_Some (slot !! id) -> is_Some (foldl spec_slot_step slot l !! id).
Proof.
  revert slot. induction l as [|s l IH]; intros slot H; [exact H|].
  cbn [foldl]. apply IH. unfold spec_slot_step.
  destruct (decide (footer_id s > 13)); [exact H|].
  destruct (decide (footer_id s = id)) as [->|Hne].
  - rewrite lookup_insert_eq. eauto.
  - rewrite lookup_insert_ne by exact Hne. exact H.
Qed.

Lemma spec_fold_retains (l : list (list byte)) (slot : gmap Z (list byte * bool))
    (s : list byte) :
  s ∈ l -> ~ footer_id s > 13 ->
  is_Some (foldl spec_slot_step slot l !! footer_id s).
Proof.
  revert slot. induction l as [|s' l IH]; intros slot Hin Hgood; [inversion Hin|].
  cbn [foldl]. apply elem_of_cons in Hin as [->|Hin].
  - apply spec_fold_keeps. unfold spec_slot_step.
    destruct (decide _); [contradiction|]. rewrite lookup_insert_eq. eauto.
  - apply IH; assumption.
Qed.

Lemma spec_fold_discards (l : list (list byte)) (slot : gmap Z (list byte * bool)) :
  Forall (fun s => footer_id s > 13) l -> foldl spec_slot_step slot l = slot.
Proof.
  induction 1 as [|s l Hs _ IH]; [reflexivity|].
  cbn [foldl]. unfold spec_slot_step at 2.
  destruct (decide _); [exact IH | contradiction].
Qed.

Lemma spec_parse_slot_none (data : list byte) (offset : Z) :
  spec_parse_slot data offset = None
  <-> Forall (fun s => footer_id s > 13) (slot_sections data offset).
Proof.
  unfold spec_parse_slot, spec_slot_map. split.
  - destruct (decide _) as [Hempty|]; [intros _|discriminate].
    apply Forall_forall. intros s Hin.
    destruct (decide (footer_id s > 13)) as [|Hgood]; [assumption|].
    pose proof (spec_fold_retains _ ∅ s Hin Hgood) as [e He].
    rewrite Hempty, lookup_empty in He. discriminate.
  - intros Hall. rewrite spec_fold_discards by exact Hall.
    destruct (decide _) as [|N]; [reflexivity | contradiction].
Qed.

Lemma parse_slot_spec (data : list byte) (offset : Z) :
  0 <= offset ->
  _parse_slot data offset = Return (forget_flags <$> spec_parse_slot data offset).
Proof.
  intros Hoff. unfold _parse_slot. rewrite parse_slot_run_spec by exact Hoff.
  cbn [mbind pyres_bind fst mret pyres_ret]. f_equal. unfold spec_parse_slot, forget_flags.
  destruct (decide (spec_slot_map data offset = ∅)) as [->|Hne].
  - rewrite fmap_empty. destruct (decide _) as [|N]; [reflexivity | contradiction].
  - destruct (decide _) as [Hempty|]; [|reflexivity].
    apply fmap_empty_inv in Hempty. contradiction.
Qed.

Lemma slot_sections_length (data : list byte) (offset : Z) (s : list byte) :
  0 <= offset -> s ∈ slot_sections data offset -> len s = GBA_SECTION_SIZE.
Proof.
  intros Hoff Hin. unfold slot_sections in Hin.
  apply list_elem_of_fmap in Hin as (i & -> & Hi).
  apply list_elem_of_filter in Hi as [Hfit Hi].
  apply section_at_length; [exact Hoff | | exact Hfit].
  destruct (range_sorted_nonneg GBA_SECTION_COUNT) as [Hpos _].
  rewrite Forall_forall in Hpos. apply Hpos. exact Hi.
Qed.

Lemma footer_id_range (s : list byte) :
  len s = GBA_SECTION_SIZE -> 0 <= footer_id s < 2 ^ 16.
Proof.
  intros Hlen. unfold footer_id.
  apply (decode_range struct.LE_H).
  rewrite len_slice; unfold GBA_SECTION_ID_OFF, GBA_SECTION_SIZE in *; simpl; lia.
Qed.

Lemma parse_slot_entries (data : list byte) (offset : Z) (m : gmap Z (list byte))
    (id : Z) (s : list byte) :
  0 <= offset -> _parse_slot data offset = Return (Some m) -> m !! id = Some s ->
  0 <= id <= 13 /\ s ∈ slot_sections data offset /\ footer_id s = id.
Proof.
  intros Hoff Hslot Hm. rewrite parse_slot_spec in Hslot by exact Hoff.
  injection Hslot as Hslot. unfold spec_parse_slot in Hslot.
  destruct (decide _); [discriminate|]. injection Hslot as <-.
  unfold forget_flags in Hm. rewrite lookup_fmap in Hm.
  destruct (spec_slot_map data offset !! id) as [e|] eqn:He; [|discriminate].
  injection Hm as <-.
  apply spec_fold_lookup in He as [He | (s & Hin & Hid & Hgood & ->)].
  - rewrite lookup_empty in He. discriminate.
  - cbn [fst]. pose proof (slot_sections_length data offset s Hoff Hin) as Hlen.
    pose proof (footer_id_range s Hlen). repeat split; try assumption; lia.
Qed.

Lemma parse_slot_retains (data : list byte) (offset : Z) (s : list byte) :
  0 <= offset -> s ∈ slot_sections data offset -> ~ footer_id s > 13 ->
  exists m s', _parse_slot data offset = Return (Some m)
               /\ m !! footer_id s = Some s' /\ footer_id s' = footer_id s.
Proof.
  intros Hoff Hin Hgood.
  pose proof (spec_fold_retains _ ∅ s Hin Hgood) as [e He].
  fold (spec_slot_map data offset) in He.
  destruct (decide (spec_slot_map data offset = ∅)) as [Hempty|Hne].
  { rewrite Hempty, lookup_empty in He. discriminate. }
  assert (Hslot : _parse_slot data offset
                  = Return (Some (forget_flags (spec_slot_map data offset)))).
  { rewrite parse_slot_spec by exact Hoff. unfold spec_parse_slot.
    destruct (decide (spec_slot_map data offset = ∅)) as [Hempty|_];
      [exfalso; exact (Hne Hempty) | reflexivity]. }
  assert (Hm : forget_flags (spec_slot_map data offset) !! footer_id s = Some e.1).
  { unfold forget_flags. rewrite lookup_fmap, He. reflexivity. }
  exists (forget_flags (spec_slot_map data offset)), e.1.
  split; [exact Hslot|]. split; [exact Hm|].
  exact (proj2 (proj2 (parse_slot_entries data offset _ _ _ Hoff Hslot Hm))).
Qed.

(** C7 (as the code has it): the assembled slot maps each retained section
    id to the section bytes alone.  It is the specification's slot with the
    checksum-valid flags dropped; the outcome of the checksum comparison
    only reaches the debug log.  A section whose checksum does not match is
    retained like any other. *)
Theorem C7_slot_holds_bytes_only (data : list byte) (offset : Z) :
  0 <= offset ->
  _parse_slot data offset = Return (forget_flags <$> spec_parse_slot data offset)
  /\ _parse_slot_log data offset = Return (spec_invalid_ids data offset)
  /\ (forall s, s ∈ slot_sections data offset -> ~ footer_id s > 13 ->
        exists m s', _parse_slot data offset = Return (Some m)
                     /\ m !! footer_id s = Some s'
                     /\ footer_id s' = footer_id s
                     /\ code_slot_value s' = PyBytes s').
Proof.
  intros Hoff. split; [apply parse_slot_spec; exact Hoff|]. split.
  - unfold _parse_slot_log. rewrite parse_slot_run_spec by exact Hoff. reflexivity.
  - intros s Hin Hgood.
    destruct (parse_slot_retains data offset s Hoff Hin Hgood) as (m & s' & H1 & H2 & H3).
    exists m, s'. repeat split; assumption.
Qed.

Lemma C7_witness :
  _parse_slot (sample_section x01 0 0 7) 0
  = Return (forget_flags <$> spec_parse_slot (sample_section x01 0 0 7) 0)
  /\ _parse_slot_log (sample_section x01 0 0 7) 0
     = Return (spec_invalid_ids (sample_section x01 0 0 7) 0).
Proof.
  destruct (C7_slot_holds_bytes_only (sample_section x01 0 0 7) 0) as (H1 & H2 & _).
  - lia.
  - exact (conj H1 H2).
Defined.

(** C7 as written fails on a one-section image whose stored checksum is
    wrong: the section is retained, but the value stored under its id is
    the bare [bytes] object, not a pair of bytes and a cleared flag as in
    the specification's slot. *)
Lemma C7_counterexample :
  _verify_section_checksum (sample_section x01 0 0 7) = Return false
  /\ _parse_slot (sample_section x01 0 0 7) 0
     = Return (Some ({[ 0 := sample_section x01 0 0 7 ]} : gmap Z (list byte)))
  /\ spec_parse_slot (sample_section x01 0 0 7) 0
     = Some ({[ 0 := (sample_section x01 0 0 7, false) ]} : gmap Z (list byte * bool))
  /\ ~ (exists flag : bool,
          code_slot_value (sample_section x01 0 0 7)
          = spec_slot_value (sample_section x01 0 0 7, flag)).
Proof.
  split; [vm_compute; reflexivity|].
  split; [vm_compute; reflexivity|].
  split; [vm_compute; reflexivity|].
  intros [flag H]. discriminate H.
Qed.
(** ** Slot selection *)

Lemma get_save_index_spec (sections : gmap Z (list byte)) :
  _get_save_index sections = Return (default (-1) (readable_index sections)).
Proof.
  unfold _get_save_index, readable_index.
  destruct (sections !! (0 : Z)) as [sec0|]; [|reflexivity].
  destruct (decide (GBA_SAVE_INDEX_OFF + 4 <= len sec0)) as [Hlen|Hlen].
  - rewrite unpack_from_ok by (unfold GBA_SAVE_INDEX_OFF in *; simpl; lia). reflexivity.
  - rewrite unpack_from_short by (simpl; lia). reflexivity.
Qed.

Lemma readable_index_range (sections : gmap Z (list byte)) (idx : Z) :
  readable_index sections = Some idx -> 0 <= idx < 2 ^ 32.
Proof.
  unfold readable_index.
  destruct (sections !! (0 : Z)) as [sec0|]; [|discriminate].
  destruct (decide _) as [Hlen|]; [|discriminate].
  intros [= <-]. unfold footer_save_index.
  apply (decode_range struct.LE_I).
  rewrite len_slice; unfold GBA_SAVE_INDEX_OFF in *; simpl; lia.
Qed.

Lemma pick_best_slot_spec (a b : gmap Z (list byte)) :
  _pick_best_slot (Some a) (Some b)
  = Return (Some (if decide (default (-1) (readable_index a)
                             >= default (-1) (readable_index b))
                  then (SlotA, a) else (SlotB, b))).
Proof.
  unfold _pick_best_slot. rewrite !get_save_index_spec. reflexivity.
Qed.

(** C5: with two valid slots the selector compares the save indices read
    from the footer of each slot's section 0; the slot with the higher
    index is returned, and on equal indices the first (offset-0) slot. *)
Theorem C5_higher_save_index_wins (a b : gmap Z (list byte)) (idx_a idx_b : Z) :
  readable_index a = Some idx_a -> readable_index b = Some idx_b ->
  _get_save_index a = Return idx_a
  /\ _get_save_index b = Return idx_b
  /\ (idx_a < idx_b -> _pick_best_slot (Some a) (Some b) = Return (Some (SlotB, b)))
  /\ (idx_b < idx_a -> _pick_best_slot (Some a) (Some b) = Return (Some (SlotA, a)))
  /\ (idx_a = idx_b -> _pick_best_slot (Some a) (Some b) = Return (Some (SlotA, a))).
Proof.
  intros Ha Hb. rewrite pick_best_slot_spec, !get_save_index_spec, Ha, Hb. cbn [from_option id].
  repeat split; intros H; destruct (decide (idx_a >= idx_b)); try reflexivity; lia.
Qed.

(** C10: a slot without section 0, or whose section 0 is too short to hold
    the save index, enters the comparison with index -1.  A slot with a
    readable index therefore wins over one without, and when neither has
    one the first (offset-0) slot is returned. *)
Theorem C10_unreadable_index_counts_as_minus_one (a b : gmap Z (list byte)) :
  (readable_index a = None -> _get_save_index a = Return (-1))
  /\ (readable_index b = None -> _get_save_index b = Return (-1))
  /\ (is_Some (readable_index a) -> readable_index b = None ->
      _pick_best_slot (Some a) (Some b) = Return (Some (SlotA, a)))
  /\ (readable_index a = None -> is_Some (readable_index b) ->
      _pick_best_slot (Some a) (Some b) = Return (Some (SlotB, b)))
  /\ (readable_index a = None -> readable_index b = None ->
      _pick_best_slot (Some a) (Some b) = Return (Some (SlotA, a))).
Proof.
  rewrite pick_best_slot_spec, !get_save_index_spec.
  repeat split.
  - intros ->. reflexivity.
  - intros ->. reflexivity.
  - intros [idx Ha] Hb. rewrite Ha, Hb. cbn [from_option id].
    apply readable_index_range in Ha.
    destruct (decide _); [reflexivity | lia].
  - intros Ha [idx Hb]. rewrite Ha, Hb. cbn [from_option id].
    apply readable_index_range in Hb.
    destruct (decide _); [lia | reflexivity].
  - intros -> ->. reflexivity.
Qed.

Lemma C5_witness :
  _pick_best_slot (Some (sample_sections 3)) (Some (sample_sections 7))
  = Return (Some (SlotB, sample_sections 7)).
Proof.
  refine (proj1 (proj2 (proj2
            (C5_higher_save_index_wins (sample_sections 3) (sample_sections 7) 3 7 _ _))) _).
  - vm_compute. reflexivity.
  - vm_compute. reflexivity.
  - lia.
Defined.

Lemma C10_witness :
  _pick_best_slot (Some sample_sections_without_zero) (Some (sample_sections 0))
  = Return (Some (SlotB, sample_sections 0)).
Proof.
  refine (proj1 (proj2 (proj2 (proj2
            (C10_unreadable_index_counts_as_minus_one
               sample_sections_without_zero (sample_sections 0))))) _ _).
  - vm_compute. reflexivity.
  - exists 0. vm_compute. reflexivity.
Defined.

(** The selection examples of the specification, on whole images: index 3
    against index 7 selects the second slot, equal indices select the
    first, a second slot with every footer id forced to 99 leaves the first
    slot in use, and two such slots make the parse fail. *)
Example slot_selection_examples :
  slot_used_of (parse_save_file cube_root_floor "save.sav"
                  (sample_image (sample_slot 3) (sample_slot 7))) = Some 1
  /\ slot_used_of (parse_save_file cube_root_floor "save.sav"
                     (sample_image (sample_slot 3) (sample_slot 3))) = Some 0
  /\ slot_used_of (parse_save_file cube_root_floor "save.sav"
                     (sample_image (sample_slot 3) sample_bad_slot)) = Some 0
  /\ parse_save_file cube_root_floor "save.sav"
       (sample_image sample_bad_slot sample_bad_slot) = Return (inl NoValidSlot).
Proof. vm_compute. repeat split. Qed.

(** A wrong stored checksum leaves no trace in the parse result: the image
    whose section 0 verifies and the image whose section 0 does not verify
    give the same save. *)
Example checksum_mismatch_not_reported :
  _verify_section_checksum (sample_section x00 0 0 3) = Return true
  /\ _verify_section_checksum (sample_section x00 0 5 3) = Return false
  /\ parse_save_file cube_root_floor "save.sav"
       (sample_image (sample_slot_with 5 3) sample_bad_slot)
     = parse_save_file cube_root_floor "save.sav"
         (sample_image (sample_slot_with 0 3) sample_bad_slot).
Proof. vm_compute. repeat split. Qed.

(** ** Party decoding *)

Lemma range_eq (n : Z) :
  range n = (fun k : nat => 0 + 1 * Z.of_nat k) <$> seq 0 (Z.to_nat n).
Proof.
  unfold range, range3.
  replace (n - 0 + 1 - 1) with n by lia. rewrite Z.div_1_r. reflexivity.
Qed.

Lemma filter_range_lt (n t : Z) :
  filter (fun i => i < t) (range n) = range (Z.min n (Z.max 0 t)).
Proof.
  rewrite !range_eq.
  replace (Z.to_nat (Z.min n (Z.max 0 t))) with (Nat.min (Z.to_nat n) (Z.to_nat t)) by lia.
  induction (Z.to_nat n) as [|m IH]; [reflexivity|].
  rewrite seq_S, fmap_app, filter_app, IH. cbn [fmap list_fmap plus].
  destruct (decide (Z.of_nat m < t)) as [Hlt|Hge].
  - rewrite filter_cons_True by lia. rewrite filter_nil.
    replace (Nat.min (S m) (Z.to_nat t)) with (S m) by lia.
    replace (Nat.min m (Z.to_nat t)) with m by lia.
    rewrite seq_S, fmap_app. reflexivity.
  - rewrite filter_cons_False by lia. rewrite filter_nil, app_nil_r.
    f_equal. f_equal. lia.
Qed.

Lemma range_length (n : Z) : len (range n) = Z.max 0 n.
Proof. rewrite range_eq. unfold len. rewrite length_fmap, length_seq. lia. Qed.

Lemma range_bounds (n i : Z) : i ∈ range n -> 0 <= i < n.
Proof.
  rewrite range_eq. intros Hin.
  apply list_elem_of_fmap in Hin as (k & -> & Hk).
  apply elem_of_seq in Hk. lia.
Qed.

Lemma party_fits_iff (sec : list byte) (i : Z) :
  party_window_fits sec i <-> i < (len sec - PARTY_DATA_OFFSET) / PK3_SIZE.
Proof.
  unfold party_window_fits, PARTY_DATA_OFFSET, PK3_SIZE.
  pose proof (Z.div_mod (len sec - 568) 100 ltac:(lia)).
  pose proof (Z.mod_pos_bound (len sec - 568) 100 ltac:(lia)).
  lia.
Qed.

Lemma party_windows_prefix (sec : list byte) (count : Z) :
  filter (party_window_fits sec) (range count)
  = range (Z.min count (party_capacity sec)).
Proof.
  unfold party_capacity. rewrite <- filter_range_lt.
  apply list_filter_iff. intros i. apply party_fits_iff.
Qed.

(** The loop of [_parse_party] never raises; it decodes the windows that
    fit, in order, and stops at the first that does not. *)
Lemma parse_party_loop_spec (float_pow_third : Z -> Z) (sec : list byte) (idxs : list Z) :
  Forall (fun i => 0 <= i) idxs -> StronglySorted Z.le idxs ->
  forall pokemon,
    _parse_party_loop float_pow_third sec idxs pokemon
    = Return (foldl append_if_present pokemon
                (decode_record float_pow_third
                   <$> (party_window sec <$> filter (party_window_fits sec) idxs))).
Proof.
  intros Hpos Hsorted. induction idxs as [|i idxs IH]; intros pokemon; [reflexivity|].
  apply Forall_cons in Hpos as [Hi Hpos].
  apply StronglySorted_inv in Hsorted as [Hsorted Hle].
  cbn [_parse_party_loop].
  destruct (decide (PARTY_DATA_OFFSET + i * PK3_SIZE + PK3_SIZE > len sec)) as [Hout|Hin].
  - replace (filter (party_window_fits sec) (i :: idxs)) with (@nil Z); [reflexivity|].
    symmetry. apply filter_none. apply Forall_cons. split.
    + unfold party_window_fits. lia.
    + eapply Forall_impl; [exact Hle|]. intros j Hj.
      unfold party_window_fits, PK3_SIZE in *. lia.
  - rewrite filter_cons_True by (unfold party_window_fits; lia).
    rewrite !fmap_cons. cbn [foldl]. fold (party_window sec i).
    destruct (parse_pk3_never_raises float_pow_third (party_window sec i)) as (r & Er).
    rewrite Er. cbn [mbind pyres_bind].
    replace (decode_record float_pow_third (party_window sec i)) with r
      by (unfold decode_record; rewrite Er; reflexivity).
    apply IH; assumption.
Qed.

Lemma collect_length (records : list (option PK3Pokemon.t)) (acc : list PK3Pokemon.t) :
  len (foldl append_if_present acc records) <= len acc + len records.
Proof.
  revert acc. induction records as [|r records IH]; intros acc.
  - cbn. unfold len. simpl. lia.
  - cbn [foldl]. etransitivity; [apply IH|].
    assert (len (append_if_present acc r) <= len acc + 1).
    { unfold append_if_present. destruct r as [p|]; [|lia].
      destruct (decide _); [rewrite len_app; unfold len; simpl|]; lia. }
    unfold len in *. cbn [length]. lia.
Qed.

(** C9: the stored party count is clamped to [0, 6] before decoding, the
    decoded party never holds more than 6 records, decoding stops at the
    first record whose 100-byte window would pass the end of section 1
    while the parse still returns the records decoded so far, and every
    window that is decoded lies inside the section. *)
Theorem C9_party_clamped_and_in_bounds
    (float_pow_third : Z -> Z) (sections : gmap Z (list byte)) :
  exists party,
    _parse_party float_pow_third sections = Return party
    /\ len (GBAParty.pokemon party) <= 6
    /\ GBAParty.count party = len (GBAParty.pokemon party)
    /\ forall sec stored,
         sections !! (1 : Z) = Some sec ->
         struct.unpack_from struct.LE_I sec PARTY_COUNT_OFFSET = Return stored ->
         let count := Z.max 0 (Z.min 6 stored) in
         let decoded := Z.min count (party_capacity sec) in
         party_count sec = Return count
         /\ 0 <= count <= 6
         /\ 0 <= decoded <= count
         /\ GBAParty.pokemon party
            = collect (decode_record float_pow_third <$> (party_window sec <$> range decoded))
         /\ forall i, 0 <= i < decoded ->
              0 <= PARTY_DATA_OFFSET + i * PK3_SIZE
              /\ PARTY_DATA_OFFSET + i * PK3_SIZE + PK3_SIZE <= len sec
              /\ len (party_window sec i) = PK3_SIZE.
Proof.
  unfold _parse_party.
  destruct (sections !! (1 : Z)) as [sec|] eqn:Hsec.
  2:{ exists GBAParty.empty. split; [reflexivity|].
      split; [vm_compute; discriminate|]. split; [reflexivity|].
      intros sec' stored' Hs. discriminate Hs. }
  unfold party_count.
  destruct (unpack_from_cases struct.LE_I sec PARTY_COUNT_OFFSET) as [[stored Hst]|Hst];
    rewrite Hst; cbn [mbind pyres_bind mret pyres_ret].
  2:{ exists GBAParty.empty. split; [reflexivity|].
      split; [vm_compute; discriminate|]. split; [reflexivity|].
      intros sec' stored' [= <-] Hs. rewrite Hst in Hs. discriminate Hs. }
  set (count := Z.max 0 (Z.min 6 stored)).
  destruct (range_sorted_nonneg count) as [Hpos Hsorted].
  rewrite (parse_party_loop_spec float_pow_third sec (range count) Hpos Hsorted).
  cbn [mbind pyres_bind mret pyres_ret].
  rewrite party_windows_prefix.
  set (decoded := Z.min count (party_capacity sec)).
  assert (Hcount : 0 <= count <= 6) by (subst count; lia).
  assert (Hdec : 0 <= decoded <= count)
    by (subst decoded; unfold party_capacity; lia).
  eexists. split; [reflexivity|]. cbn [GBAParty.pokemon GBAParty.count].
  split.
  { etransitivity; [apply collect_length|].
    unfold len at 2. rewrite !length_fmap. fold (len (range decoded)).
    rewrite range_length. change (len []) with 0. lia. }
  split; [reflexivity|].
  intros sec' stored' [= <-] Hst'. rewrite Hst in Hst'. injection Hst' as <-.
  fold count. fold decoded. cbn zeta.
  split; [rewrite Hst; reflexivity|]. split; [exact Hcount|]. split; [exact Hdec|].
  split; [reflexivity|].
  intros i Hi.
  assert (Hfit : party_window_fits sec i).
  { apply party_fits_iff. subst decoded. unfold party_capacity in Hi. lia. }
  unfold party_window_fits, party_window, PARTY_DATA_OFFSET, PK3_SIZE in *.
  repeat split; try lia. rewrite len_slice; lia.
Qed.

Lemma C9_witness :
  exists party,
    _parse_party cube_root_floor {[ 1 := sample_party_section 9 4096 ]} = Return party
    /\ len (GBAParty.pokemon party) <= 6.
Proof.
  destruct (C9_party_clamped_and_in_bounds cube_root_floor
              {[ 1 := sample_party_section 9 4096 ]}) as (party & Hparty & Hlen & _).
  exists party. exact (conj Hparty Hlen).
Defined.

(** The clamp on concrete sections: a stored count of 9 yields exactly six
    records when the section is complete, and the records that fit when the
    section is cut short; a section too short for the count word yields an
    empty party. *)
Example party_count_clamp_examples :
  (GBAParty.count
     <$> match _parse_party cube_root_floor {[ 1 := sample_party_section 9 4096 ]} with
         | Return p => Some p | Raise _ => None end) = Some 6
  /\ (GBAParty.count
        <$> match _parse_party cube_root_floor {[ 1 := sample_party_section 9 850 ]} with
            | Return p => Some p | Raise _ => None end) = Some 2
  /\ _parse_party cube_root_floor {[ 1 := sample_party_section 9 0x236 ]}
     = Return GBAParty.empty.
Proof. vm_compute. repeat split. Qed.

(** ** Transfer compatibility *)

Lemma sample_pokemon_decoded : sample_record = Some sample_pokemon.
Proof. vm_compute. reflexivity. Qed.

(** C1 as written fails: a record whose EV total is 600 must be
    Incompatible by the rule list, whichever side is the non-shadow one,
    yet the console-to-cartridge checker, which takes no EV input, accepts
    it. *)
Lemma C1_counterexample :
  spec_verdict true (sample_input 600) = INCOMPATIBLE
  /\ spec_verdict false (sample_input 600) = INCOMPATIBLE
  /\ check_direction GCN_TO_GBA (sample_input 600) = (true, "Compatible").
Proof. repeat split. Qed.

(** C1 (as the code has it): the verdict-valued evaluator over decoded
    cartridge records follows the rule list with no shadow rule and never
    answers RequiresPurify; the two directional checkers answer accept or
    reject.  Cartridge-to-console rejects in the order egg, shadow, species
    id 0 or above 386, level outside [1,100], EV total above 510.
    Console-to-cartridge rejects in the order shadow, egg, species id 0 or
    above 386, has no EV input, and accepts every other record whose level
    is within [1,100]. *)
Theorem C1_rules_as_implemented
    (pokemon : PK3Pokemon.t) (target_game : string) (r : TransferInput.t) :
  0 <= PK3Pokemon.species_id pokemon ->
  0 <= TransferInput.species_id r ->
  (GBAToGCNTransfer.check_transfer_compatibility pokemon target_game).1
    = spec_verdict false (input_of_pk3 pokemon)
  /\ (GBAToGCNTransfer.check_transfer_compatibility pokemon target_game).1
     <> REQUIRES_PURIFY
  /\ check_direction GBA_TO_GCN r
     = first_match
         [(TransferInput.is_egg r,
           (false, "Eggs cannot be transferred via link cable"));
          (TransferInput.is_shadow r,
           (false, "Shadow Pokemon cannot be transferred to GBA"));
          (bool_decide (¬ (1 <= TransferInput.species_id r <= 386)),
           (false, "Species #" +:+ pretty (TransferInput.species_id r)
                   +:+ " is not available in Gen 3"));
          (bool_decide (¬ (1 <= TransferInput.level r <= 100)),
           (false, "Invalid level: " +:+ pretty (TransferInput.level r)));
          (bool_decide (TransferInput.total_evs r > 510),
           (false, "Total EVs (" +:+ pretty (TransferInput.total_evs r)
                   +:+ ") exceed maximum (510)"))]
         (true, "Compatible")
  /\ ((check_direction GBA_TO_GCN r).1 = true <-> spec_verdict true r = COMPATIBLE)
  /\ (TransferInput.is_shadow r = true ->
      check_direction GCN_TO_GBA r
      = (false, "Shadow Pokemon must be purified before transferring to GBA"))
  /\ (TransferInput.is_shadow r = false -> TransferInput.is_egg r = true ->
      check_direction GCN_TO_GBA r
      = (false, "Eggs cannot be transferred via link cable"))
  /\ (TransferInput.is_shadow r = false -> TransferInput.is_egg r = false ->
      ~ (1 <= TransferInput.species_id r <= 386) ->
      check_direction GCN_TO_GBA r
      = (false, "Species #" +:+ pretty (TransferInput.species_id r)
                +:+ " cannot be transferred to Gen 3 GBA"))
  /\ (TransferInput.is_shadow r = false -> TransferInput.is_egg r = false ->
      1 <= TransferInput.species_id r <= 386 -> 1 <= TransferInput.level r <= 100 ->
      check_direction GCN_TO_GBA r = (true, "Compatible")).
Proof.
  intros Hp Hr.
  destruct r as [species shadow egg level evs]. cbn [TransferInput.species_id] in Hr.
  unfold check_direction, GBACompatibilityChecker.check_gba_to_gcn,
    GBACompatibilityChecker.check_gcn_to_gba, spec_verdict,
    GBAToGCNTransfer.check_transfer_compatibility, input_of_pk3.
  cbn [TransferInput.species_id TransferInput.is_shadow TransferInput.is_egg
       TransferInput.level TransferInput.total_evs first_match].
  split; [|split; [|split; [|split]]].
  - destruct (PK3Pokemon.is_egg pokemon); [reflexivity|].
    repeat (destruct (decide _) as [?|?]); cbn; try reflexivity; exfalso; lia.
  - destruct (PK3Pokemon.is_egg pokemon); [discriminate|].
    repeat (destruct (decide _) as [?|?]); cbn; discriminate.
  - destruct egg; [reflexivity|]. destruct shadow; [reflexivity|].
    repeat (destruct (decide _) as [?|?]); repeat case_bool_decide;
      try reflexivity; exfalso; lia.
  - destruct egg; [cbn; split; discriminate|].
    destruct shadow; cbn;
      repeat (destruct (decide _) as [?|?]); cbn; split; intros H;
      try reflexivity; try discriminate H; exfalso; lia.
  - repeat split.
    + intros ->. reflexivity.
    + intros -> ->. reflexivity.
    + intros -> -> Hbad. destruct (decide _) as [?|?]; [reflexivity | exfalso; lia].
    + intros -> -> Hgood _. destruct (decide _) as [?|?]; [exfalso; lia | reflexivity].
Qed.

Lemma C1_witness :
  (GBAToGCNTransfer.check_transfer_compatibility sample_pokemon "colosseum").1
    = spec_verdict false (input_of_pk3 sample_pokemon)
  /\ check_direction GCN_TO_GBA (sample_input 600) = (true, "Compatible").
Proof.
  destruct (C1_rules_as_implemented sample_pokemon "colosseum" (sample_input 600))
    as (H1 & _ & _ & _ & _ & _ & _ & H8).
  - vm_compute. discriminate.
  - vm_compute. discriminate.
  - split; [exact H1|]. apply H8; [reflexivity | reflexivity | cbn; lia | cbn; lia].
Defined.


(** ** Decoded cartridge records: what the fields are *)

Lemma bind_return_inv {A B} (m : pyres A) (k : A -> pyres B) (r : B) :
  m ≫= k = Return r -> exists a, m = Return a /\ k a = Return r.
Proof. destruct m as [a|e]; [eauto | discriminate]. Qed.

Lemma unpack_from_return (f : struct.format) (buffer : list byte) (offset v : Z) :
  struct.unpack_from f buffer offset = Return v ->
  0 <= offset /\ offset + struct.calcsize f <= len buffer
  /\ 0 <= v < 2 ^ (8 * struct.calcsize f).
Proof.
  intros H. unfold struct.unpack_from in H.
  destruct (decide _) as [[Ho Hl]|]; [| discriminate].
  injection H as <-. split; [done | split; [done |]].
  apply decode_range. rewrite len_slice; destruct f; cbn [struct.calcsize] in *; lia.
Qed.

Lemma byte_at_return (data : list byte) (i v : Z) :
  byte_at data i = Return v -> 0 <= v < 256.
Proof.
  unfold byte_at. intros H. apply bind_return_inv in H as (b & _ & H).
  injection H as <-. apply byte_to_Z_range.
Qed.

Lemma getitem_return {A} (l : list A) (i : Z) (x : A) :
  0 <= i -> getitem l i = Return x -> l !! Z.to_nat i = Some x.
Proof.
  intros Hi. unfold getitem. destruct (decide (i < 0)); [lia |].
  destruct (decide (i < 0)); [lia |].
  destruct (l !! Z.to_nat i); [| discriminate]. by intros [= ->].
Qed.

(** One step through the [try] body of a decoder whose result is known. *)
Ltac inv_step H :=
  lazymatch type of H with
  | mbind _ (mbind _ _) = Return _ => rewrite pyres_bind_assoc in H
  | mbind _ (if decide ?P then _ else _) = Return _ => destruct (decide P)
  | (if decide ?P then _ else _) = Return _ =>
      destruct (decide P); [try discriminate H | try discriminate H]
  | mbind _ (struct.unpack_from ?f ?b ?o) = Return _ =>
      let v := fresh "v" in
      let E := fresh "E" in
      destruct (struct.unpack_from f b o) as [v|] eqn:E; [| discriminate H];
      cbn [mbind pyres_bind] in H
  | mbind _ (byte_at ?b ?o) = Return _ =>
      let v := fresh "v" in
      let E := fresh "E" in
      destruct (byte_at b o) as [v|] eqn:E; [| discriminate H];
      cbn [mbind pyres_bind] in H
  | mbind _ (getitem ?l ?i) = Return _ =>
      let v := fresh "v" in
      let E := fresh "E" in
      destruct (getitem l i) as [v|] eqn:E; [| discriminate H];
      cbn [mbind pyres_bind] in H
  | mbind _ (_decrypt_pk3_data ?b ?k) = Return _ =>
      let v := fresh "v" in
      let E := fresh "E" in
      destruct (_decrypt_pk3_data b k) as [v|] eqn:E; [| discriminate H];
      cbn [mbind pyres_bind] in H
  | mbind _ (Return _) = Return _ => cbn [mbind pyres_bind mret pyres_ret] in H
  | mbind _ (mret _) = Return _ => cbn [mbind pyres_bind mret pyres_ret] in H
  end.

Lemma parse_pk3_some_body (float_pow_third : Z -> Z) (data : list byte)
    (p : PK3Pokemon.t) :
  _parse_pk3 float_pow_third data = Return (Some p) ->
  _parse_pk3_body float_pow_third data = Return (Some p).
Proof.
  unfold _parse_pk3. destruct (decide _); [discriminate |].
  unfold try_except_struct_or_index.
  destruct (_parse_pk3_body float_pow_third data) as [r|[]]; done.
Qed.

Ltac range_facts :=
  repeat match goal with
  | E : struct.unpack_from _ _ _ = Return _ |- _ =>
      let R := fresh "R" in
      pose proof (unpack_from_return _ _ _ _ E) as (_ & _ & R);
      change (2 ^ (8 * struct.calcsize struct.LE_I)) with (2 ^ 32) in R;
      change (2 ^ (8 * struct.calcsize struct.LE_H)) with (2 ^ 16) in R;
      revert E
  | E : byte_at _ _ = Return _ |- _ =>
      let R := fresh "R" in
      pose proof (byte_at_return _ _ _ E) as R; revert E
  end; intros.

Lemma parse_pk3_decoded (float_pow_third : Z -> Z) (data : list byte)
    (p : PK3Pokemon.t) :
  _parse_pk3 float_pow_third data = Return (Some p) ->
  pk3_decoded float_pow_third data p.
Proof.
  intros H. apply parse_pk3_some_body in H.
  unfold _parse_pk3_body in H.
  do 2 inv_step H.
  apply bind_return_inv in H as (language & Elang & H).
  assert (Rlang : 0 <= language < 256).
  { destruct (decide (len data > 0x12)); [eapply byte_at_return, Elang | injection Elang as <-; lia]. }
  apply bind_return_inv in H as (markings & Emark & H).
  assert (Rmark : 0 <= markings < 256).
  { destruct (decide (len data > 0x1B)); [eapply byte_at_return, Emark | injection Emark as <-; lia]. }
  apply bind_return_inv in H as (checksum & Esum & H).
  assert (Rsum : 0 <= checksum < 2 ^ 16).
  { destruct (decide (len data > 0x1E)); [apply (unpack_from_return _ _ _ _ Esum) | injection Esum as <-; lia]. }
  clear Elang Emark Esum.
  inv_step H.
  do 9 inv_step H.
  do 25 inv_step H.
  lazymatch type of H with mbind _ ?m = Return _ =>
  lazymatch m with context [_exp_to_level _ ?s ?e] =>
  assert (Hst : exists sc lv pd st0 st1 st2 st3 st4 st5 st6,
            m = Return (sc, lv, pd, [st0; st1; st2; st3; st4; st5; st6])
            /\ (PK3_SIZE <= len data ->
                let st := slice data 80 100 in
                struct.unpack_from struct.LE_I st 0 = Return sc
                /\ byte_at st 4 = Return lv
                /\ byte_at st 5 = Return pd
                /\ struct.unpack_from struct.LE_H st 6 = Return st0
                /\ struct.unpack_from struct.LE_H st 8 = Return st1
                /\ struct.unpack_from struct.LE_H st 10 = Return st2
                /\ struct.unpack_from struct.LE_H st 12 = Return st3
                /\ struct.unpack_from struct.LE_H st 14 = Return st4
                /\ struct.unpack_from struct.LE_H st 16 = Return st5
                /\ struct.unpack_from struct.LE_H st 18 = Return st6)
            /\ (len data < PK3_SIZE ->
                lv = _exp_to_level float_pow_third s e
                /\ [sc; pd; st0; st1; st2; st3; st4; st5; st6] = replicate 9 0))
  end end.
  { lazymatch type of H with
    | mbind _ ?m = Return _ => destruct m as [[[[sc lv] pd] stats]|] eqn:Est;
                               [| discriminate H]
    end.
    clear H. destruct (decide _) as [Hfull|Hshort].
    - change (PK3_HEADER_SIZE + PK3_DATA_SIZE) with 80 in Est.
      change (80 + PK3_STATUS_SIZE) with 100 in Est.
      do 10 inv_step Est. injection Est as <- <- <- <-.
      do 10 eexists. split; [reflexivity |].
      split; [intros _; cbv zeta; repeat split; assumption |].
      unfold PK3_SIZE, PK3_HEADER_SIZE, PK3_DATA_SIZE, PK3_STATUS_SIZE in *. lia.
    - injection Est as <- <- <- <-.
      do 10 eexists. split; [reflexivity |].
      split; [| intros _; split; reflexivity].
      unfold PK3_SIZE, PK3_HEADER_SIZE, PK3_DATA_SIZE, PK3_STATUS_SIZE in *. lia. }
  destruct Hst as (sc & lv & pd & st0 & st1 & st2 & st3 & st4 & st5 & st6
                   & Est & Hfull & Hshort).
  rewrite Est in H. clear Est. cbn [mbind pyres_bind] in H.
  inv_step H.
  injection H as <-.
  range_facts.
  assert (0 <= v mod 25) by (apply Z.mod_pos_bound; lia).
  constructor; cbn -[Z.shiftr Z.land Z.pow GEN3_SPECIES GEN3_MOVES GEN3_ITEMS
                     _read_gba_string pk3_move_names _origins_to_game dict_get
                     slice replicate NATURES Z.modulo _exp_to_level].
  - unfold PK3_HEADER_SIZE, PK3_DATA_SIZE in *. lia.
  - done.
  - eexists. split; [eassumption | done].
  - lia.
  - repeat constructor; lia.
  - repeat constructor; lia.
  - repeat constructor; lia.
  - done.
  - done.
  - done.
  - by apply getitem_return.
  - done.
  - done.
  - exact Hfull.
  - exact Hshort.
Qed.

(** ** Decoded cartridge records: ranges and the packed IV word *)

Lemma land_shiftr_field (w sh n : Z) :
  0 <= sh -> 0 <= n ->
  Z.land (Z.shiftr w sh) (Z.ones n) = (w / 2 ^ sh) mod 2 ^ n.
Proof. intros. rewrite Z.land_ones, Z.shiftr_div_pow2 by lia. reflexivity. Qed.

Lemma iv_word_split (w : Z) :
  0 <= w < 2 ^ 32 ->
  w = (w / 2 ^ 0) mod 2 ^ 5 + 2 ^ 5 * ((w / 2 ^ 5) mod 2 ^ 5)
      + 2 ^ 10 * ((w / 2 ^ 10) mod 2 ^ 5) + 2 ^ 15 * ((w / 2 ^ 15) mod 2 ^ 5)
      + 2 ^ 20 * ((w / 2 ^ 20) mod 2 ^ 5) + 2 ^ 25 * ((w / 2 ^ 25) mod 2 ^ 5)
      + 2 ^ 30 * ((w / 2 ^ 30) mod 2 ^ 1) + 2 ^ 31 * ((w / 2 ^ 31) mod 2 ^ 1).
Proof.
  intros Hw.
  change (2 ^ 0) with 1. change (2 ^ 1) with 2. change (2 ^ 5) with 32.
  change (2 ^ 10) with (32 * 32). change (2 ^ 15) with (32 * 32 * 32).
  change (2 ^ 20) with (32 * 32 * 32 * 32).
  change (2 ^ 25) with (32 * 32 * 32 * 32 * 32).
  change (2 ^ 30) with (32 * 32 * 32 * 32 * 32 * 32).
  change (2 ^ 31) with (32 * 32 * 32 * 32 * 32 * 32 * 2).
  change (2 ^ 32) with 4294967296 in Hw.
  rewrite <- !Z.div_div by lia. rewrite Z.div_1_r.
  set (w1 := w / 32). set (w2 := w1 / 32). set (w3 := w2 / 32).
  set (w4 := w3 / 32). set (w5 := w4 / 32). set (w6 := w5 / 32).
  set (w7 := w6 / 2).
  assert (w = 32 * w1 + w mod 32) by (apply Z.div_mod; lia).
  assert (w1 = 32 * w2 + w1 mod 32) by (apply Z.div_mod; lia).
  assert (w2 = 32 * w3 + w2 mod 32) by (apply Z.div_mod; lia).
  assert (w3 = 32 * w4 + w3 mod 32) by (apply Z.div_mod; lia).
  assert (w4 = 32 * w5 + w4 mod 32) by (apply Z.div_mod; lia).
  assert (w5 = 32 * w6 + w5 mod 32) by (apply Z.div_mod; lia).
  assert (w6 = 2 * w7 + w6 mod 2) by (apply Z.div_mod; lia).
  pose proof (Z.mod_pos_bound w 32 ltac:(lia)).
  pose proof (Z.mod_pos_bound w1 32 ltac:(lia)).
  pose proof (Z.mod_pos_bound w2 32 ltac:(lia)).
  pose proof (Z.mod_pos_bound w3 32 ltac:(lia)).
  pose proof (Z.mod_pos_bound w4 32 ltac:(lia)).
  pose proof (Z.mod_pos_bound w5 32 ltac:(lia)).
  pose proof (Z.mod_pos_bound w6 2 ltac:(lia)).
  clearbody w1 w2 w3 w4 w5 w6 w7.
  assert (w7 mod 2 = w7) by (apply Z.mod_small; lia).
  lia.
Qed.

(** X1. For every record the cartridge codec returns, each of the six IVs
    lies in 0..31, the ability slot is 0 or 1, and the packed word
    [iv_egg_ability] is exactly the six IVs at bit offsets 0, 5, ..., 25,
    the egg flag at bit 30 and the ability slot at bit 31: unpacking loses
    nothing and repacking reproduces the word. *)
Theorem pk3_iv_word_repacks (float_pow_third : Z -> Z) (data : list byte)
    (p : PK3Pokemon.t) :
  _parse_pk3 float_pow_third data = Return (Some p) ->
  Forall (fun iv => 0 <= iv <= 31)
    [PK3Pokemon.hp_iv p; PK3Pokemon.atk_iv p; PK3Pokemon.def_iv p;
     PK3Pokemon.spe_iv p; PK3Pokemon.spa_iv p; PK3Pokemon.spd_iv p]
  /\ 0 <= PK3Pokemon.ability_slot p <= 1
  /\ PK3Pokemon.iv_egg_ability p
     = PK3Pokemon.hp_iv p + 2 ^ 5 * PK3Pokemon.atk_iv p
       + 2 ^ 10 * PK3Pokemon.def_iv p + 2 ^ 15 * PK3Pokemon.spe_iv p
       + 2 ^ 20 * PK3Pokemon.spa_iv p + 2 ^ 25 * PK3Pokemon.spd_iv p
       + 2 ^ 30 * (if PK3Pokemon.is_egg p then 1 else 0)
       + 2 ^ 31 * PK3Pokemon.ability_slot p.
Proof.
  intros H. apply parse_pk3_decoded in H.
  destruct H as [_ _ _ _ _ Hw _ Hivs Hegg Hab _ _ _ _ _].
  apply Forall_cons_1 in Hw as [_ Hw]. apply Forall_cons_1 in Hw as [_ Hw].
  apply Forall_cons_1 in Hw as [Hw _].
  set (w := PK3Pokemon.iv_egg_ability p) in *.
  cbn [fmap list_fmap] in Hivs.
  change 0x1F with (Z.ones 5) in Hivs. change 1 with (Z.ones 1) in Hegg, Hab.
  rewrite !land_shiftr_field in Hivs by lia.
  rewrite land_shiftr_field in Hegg, Hab by lia.
  injection Hivs as -> -> -> -> -> ->.
  rewrite Hegg, Hab. clear Hegg Hab.
  pose proof (iv_word_split w Hw) as Hsplit.
  assert (Hegg : (if nonzero ((w / 2 ^ 30) mod 2 ^ 1) then 1 else 0)
                 = (w / 2 ^ 30) mod 2 ^ 1).
  { unfold nonzero. pose proof (Z.mod_pos_bound (w / 2 ^ 30) (2 ^ 1) eq_refl).
    change (2 ^ 1) with 2 in *. case_bool_decide; lia. }
  rewrite Hegg.
  split; [| split; [| exact Hsplit]].
  - repeat constructor;
      match goal with
      | |- _ <= ?x mod 2 ^ 5 => pose proof (Z.mod_pos_bound (x / 1) (2 ^ 5) eq_refl);
                                pose proof (Z.mod_pos_bound x (2 ^ 5) eq_refl); lia
      | |- ?x mod 2 ^ 5 <= _ => pose proof (Z.mod_pos_bound x (2 ^ 5) eq_refl);
                                change (2 ^ 5) with 32 in *; lia
      end.
  - pose proof (Z.mod_pos_bound (w / 2 ^ 31) (2 ^ 1) eq_refl).
    change (2 ^ 1) with 2 in *. lia.
Qed.

Lemma pk3_iv_word_repacks_witness :
  exists p, _parse_pk3 cube_root_floor (sample_pk3 25 (replicate 20 x32)) = Return (Some p)
            /\ PK3Pokemon.iv_egg_ability p
               = PK3Pokemon.hp_iv p + 2 ^ 5 * PK3Pokemon.atk_iv p
                 + 2 ^ 10 * PK3Pokemon.def_iv p + 2 ^ 15 * PK3Pokemon.spe_iv p
                 + 2 ^ 20 * PK3Pokemon.spa_iv p + 2 ^ 25 * PK3Pokemon.spd_iv p
                 + 2 ^ 30 * (if PK3Pokemon.is_egg p then 1 else 0)
                 + 2 ^ 31 * PK3Pokemon.ability_slot p.
Proof.
  exists sample_pokemon.
  assert (H : _parse_pk3 cube_root_floor (sample_pk3 25 (replicate 20 x32))
              = Return (Some sample_pokemon)) by (vm_compute; reflexivity).
  split; [exact H |].
  exact (proj2 (proj2 (pk3_iv_word_repacks _ _ _ H))).
Defined.

Lemma exp_to_level_range (float_pow_third : Z -> Z) (species_id experience : Z) :
  1 <= _exp_to_level float_pow_third species_id experience <= 100.
Proof. unfold _exp_to_level. destruct (decide _); lia. Qed.

Lemma str_or_nonempty (a b : string) : b <> "" -> str_or a b <> "".
Proof. unfold str_or. by destruct (decide (a = "")). Qed.

Lemma dict_get_elem {V} (d : list (Z * V)) (k : Z) (v : V) :
  dict_get d k = Some v -> (k, v) ∈ d.
Proof.
  induction d as [|[k' v'] d IH]; [done |]. cbn [dict_get].
  destruct (decide (k = k')) as [->|].
  - intros [= ->]. left.
  - intros H. right. auto.
Qed.

Lemma species_names_nonempty : Forall (fun kv : Z * string => kv.2 <> "") GEN3_SPECIES.
Proof.
  apply (bool_decide_unpack _). vm_compute. exact I.
Qed.

Lemma land_low_range (x n : Z) : 0 <= n -> 0 <= Z.land x (Z.ones n) < 2 ^ n.
Proof. intros. rewrite Z.land_ones by lia. apply Z.mod_pos_bound. lia. Qed.

Lemma move_names_nonempty : Forall (fun kv : Z * string => kv.2 <> "") GEN3_MOVES.
Proof. apply (bool_decide_unpack _). vm_compute. exact I. Qed.

Lemma pk3_move_names_nonempty (mids : list Z) :
  Forall (fun name => name <> "") (pk3_move_names mids).
Proof.
  unfold pk3_move_names. apply Forall_fmap, Forall_forall. intros mid _. unfold compose.
  destruct (dict_get GEN3_MOVES mid) as [name|] eqn:E; cbn [default].
  - apply dict_get_elem in E.
    exact (proj1 (Forall_forall _ _) move_names_nonempty _ E).
  - discriminate.
Qed.

(** X2. The numeric fields of every decoded cartridge record fit their
    storage width: the species is 1..386, the two owner ids are 16-bit
    halves that recombine to the owner word of the header, every EV is a
    byte (so the EV total is at most 1530), the level is a byte, the met
    level has seven bits, the nature is one of the 25 names, there are at
    most four move names, and no name is empty: not the species name, the
    nickname or the owner name, and none of the move names. *)
Theorem pk3_fields_fit_their_width (float_pow_third : Z -> Z) (data : list byte)
    (p : PK3Pokemon.t) :
  _parse_pk3 float_pow_third data = Return (Some p) ->
  1 <= PK3Pokemon.species_id p <= 386
  /\ (exists ot_id_full,
        struct.unpack_from struct.LE_I data 0x04 = Return ot_id_full
        /\ 0 <= PK3Pokemon.ot_id p < 2 ^ 16
        /\ 0 <= PK3Pokemon.ot_secret_id p < 2 ^ 16
        /\ ot_id_full = PK3Pokemon.ot_id p + 2 ^ 16 * PK3Pokemon.ot_secret_id p)
  /\ Forall (fun ev => 0 <= ev <= 255)
       [PK3Pokemon.hp_ev p; PK3Pokemon.atk_ev p; PK3Pokemon.def_ev p;
        PK3Pokemon.spe_ev p; PK3Pokemon.spa_ev p; PK3Pokemon.spd_ev p]
  /\ 0 <= GBAToGCNTransfer.total_evs p <= 1530
  /\ 0 <= PK3Pokemon.level p <= 255
  /\ 0 <= PK3Pokemon.met_level p <= 127
  /\ PK3Pokemon.nature p ∈ NATURES
  /\ (length (PK3Pokemon.move_names p) <= 4)%nat
  /\ PK3Pokemon.species_name p <> ""
  /\ PK3Pokemon.nickname p <> ""
  /\ PK3Pokemon.ot_name p <> ""
  /\ Forall (fun name => name <> "") (PK3Pokemon.move_names p).
Proof.
  intros H. apply parse_pk3_decoded in H.
  destruct H as [Hlen _ (w & Ew & Hot & Hsec) Hsp _ _ Hb _ _ _ Hnat
                   (Hsn & Hnick & Hotn & Hmv) [Hml _] Hfull Hshort].
  assert (Hname : PK3Pokemon.species_name p <> "").
  { rewrite Hsn. destruct (dict_get GEN3_SPECIES _) as [name|] eqn:E; cbn [default].
    - apply dict_get_elem in E.
      exact (proj1 (Forall_forall _ _) species_names_nonempty _ E).
    - discriminate. }
  do 8 apply Forall_cons_1 in Hb as [_ Hb].
  apply Forall_cons_1 in Hb as [Hev0 Hb]. apply Forall_cons_1 in Hb as [Hev1 Hb].
  apply Forall_cons_1 in Hb as [Hev2 Hb]. apply Forall_cons_1 in Hb as [Hev3 Hb].
  apply Forall_cons_1 in Hb as [Hev4 Hb]. apply Forall_cons_1 in Hb as [Hev5 _].
  split; [exact Hsp |]. split.
  { exists w. split; [exact Ew |].
    pose proof (unpack_from_return _ _ _ _ Ew) as (_ & _ & Rw).
    change (2 ^ (8 * struct.calcsize struct.LE_I)) with (2 ^ 32) in Rw.
    rewrite Hot, Hsec. change 0xFFFF with (Z.ones 16).
    rewrite (Z.land_ones w), land_shiftr_field by lia.
    change (Z.ones 16) with 0xFFFF.
    pose proof (Z.mod_pos_bound w (2 ^ 16) eq_refl).
    pose proof (Z.mod_pos_bound (w / 2 ^ 16) (2 ^ 16) eq_refl).
    pose proof (Z.div_mod w (2 ^ 16) ltac:(lia)).
    assert ((w / 2 ^ 16) mod 2 ^ 16 = w / 2 ^ 16).
    { apply Z.mod_small. split; [apply Z.div_pos; lia |].
      apply Z.div_lt_upper_bound; lia. }
    lia. }
  split; [repeat constructor; lia |].
  split; [unfold GBAToGCNTransfer.total_evs; lia |].
  split.
  { destruct (decide (PK3_SIZE <= len data)) as [Hf|Hs].
    - destruct (Hfull Hf) as (_ & Hlv & _). apply byte_at_return in Hlv. lia.
    - destruct (Hshort ltac:(lia)) as [-> _].
      pose proof (exp_to_level_range float_pow_third (PK3Pokemon.species_id p)
                    (PK3Pokemon.experience p)). lia. }
  split.
  { rewrite Hml.
    pose proof (land_low_range (PK3Pokemon.origins_info p) 7 ltac:(lia)) as R.
    change (Z.ones 7) with 0x7F in R. change (2 ^ 7) with 128 in R. lia. }
  split; [by eapply list_elem_of_lookup_2 |].
  split.
  { rewrite Hmv. unfold pk3_move_names. rewrite length_fmap.
    etrans; [apply length_filter |]. done. }
  split; [exact Hname |].
  split; [rewrite Hnick; by apply str_or_nonempty |].
  split; [rewrite Hotn; by apply str_or_nonempty |].
  rewrite Hmv. apply pk3_move_names_nonempty.
Qed.

Lemma pk3_fields_fit_their_width_witness :
  exists p, _parse_pk3 cube_root_floor (sample_pk3 25 (replicate 20 x32)) = Return (Some p)
            /\ 1 <= PK3Pokemon.species_id p <= 386
            /\ 0 <= GBAToGCNTransfer.total_evs p <= 1530.
Proof.
  exists sample_pokemon.
  assert (H : _parse_pk3 cube_root_floor (sample_pk3 25 (replicate 20 x32))
              = Return (Some sample_pokemon)) by (vm_compute; reflexivity).
  pose proof (pk3_fields_fit_their_width _ _ _ H) as (Hs & _ & _ & Hev & _).
  exact (conj H (conj Hs Hev)).
Defined.

(** X3. On a record that came out of the cartridge codec the species test
    of the compatibility rules never fires: the record's own
    [transfer_compatibility] is COMPATIBLE exactly when the record is not
    an egg, and [check_transfer_compatibility] never answers
    "Invalid species". *)
Theorem decoded_record_compatible_iff_not_egg (float_pow_third : Z -> Z)
    (data : list byte) (p : PK3Pokemon.t) (target_game : string) :
  _parse_pk3 float_pow_third data = Return (Some p) ->
  (transfer_compatibility p = COMPATIBLE <-> PK3Pokemon.is_egg p = false)
  /\ (transfer_compatibility p = INCOMPATIBLE <-> PK3Pokemon.is_egg p = true)
  /\ (GBAToGCNTransfer.check_transfer_compatibility p target_game).2
     <> "Invalid species".
Proof.
  intros H. apply parse_pk3_decoded in H. destruct H as [_ _ _ Hsp].
  unfold transfer_compatibility, GBAToGCNTransfer.check_transfer_compatibility.
  destruct (PK3Pokemon.is_egg p).
  - repeat split; intros; done.
  - destruct (decide (_ ∨ _)) as [Hbad|_]; [lia |].
    repeat split; intros; try done.
    repeat destruct (decide _); done.
Qed.

Lemma decoded_record_compatible_iff_not_egg_witness :
  exists p, _parse_pk3 cube_root_floor (sample_pk3 25 (replicate 20 x32)) = Return (Some p)
            /\ (transfer_compatibility p = COMPATIBLE <-> PK3Pokemon.is_egg p = false).
Proof.
  exists sample_pokemon.
  assert (H : _parse_pk3 cube_root_floor (sample_pk3 25 (replicate 20 x32))
              = Return (Some sample_pokemon)) by (vm_compute; reflexivity).
  exact (conj H (proj1 (decoded_record_compatible_iff_not_egg _ _ _ "colosseum" H))).
Defined.

(** ** PC boxes and the level estimate *)

Lemma bind_ext {A B} (m : pyres A) (k k' : A -> pyres B) :
  (forall a, k a = k' a) -> m ≫= k = m ≫= k'.
Proof. intros H. destruct m; [apply H | reflexivity]. Qed.

(** The level estimate is only consulted for buffers of 80 to 99 bytes. *)
Lemma parse_pk3_body_float_irrelevant (f g : Z -> Z) (data : list byte) :
  PK3_SIZE <= len data -> _parse_pk3_body f data = _parse_pk3_body g data.
Proof.
  intros Hlen. unfold _parse_pk3_body.
  repeat first
    [ apply bind_ext; intros ?
    | lazymatch goal with
      | |- (if decide ?P then _ else _) = (if decide ?P then _ else _) =>
          destruct (decide P); [reflexivity |]
      end ].
  lazymatch goal with
  | |- mbind ?k (if decide ?P then _ else _) = _ =>
      destruct (decide P) as [_|Hshort]; [reflexivity |]
  end.
  unfold PK3_SIZE, PK3_HEADER_SIZE, PK3_DATA_SIZE, PK3_STATUS_SIZE in *. lia.
Qed.

Lemma parse_pk3_float_irrelevant (f g : Z -> Z) (data : list byte) :
  PK3_SIZE <= len data -> _parse_pk3 f data = _parse_pk3 g data.
Proof.
  intros Hlen. unfold _parse_pk3.
  by rewrite (parse_pk3_body_float_irrelevant f g data Hlen).
Qed.

Lemma box_window_length (pc_data : list byte) (off : Z) :
  0 <= off -> off + PC_POKEMON_SIZE <= len pc_data ->
  len (slice pc_data off (off + PC_POKEMON_SIZE)) = PC_POKEMON_SIZE.
Proof. unfold PC_POKEMON_SIZE. intros. rewrite len_slice; lia. Qed.

Lemma append_if_present_elem (acc : list PK3Pokemon.t) (r : option PK3Pokemon.t)
    (p : PK3Pokemon.t) :
  p ∈ append_if_present acc r -> p ∈ acc \/ r = Some p.
Proof.
  destruct r as [q|]; cbn [append_if_present]; [| auto].
  destruct (decide _); [| auto].
  rewrite elem_of_app, list_elem_of_singleton. intros [?| ->]; auto.
Qed.

Lemma append_if_present_length (acc : list PK3Pokemon.t) (r : option PK3Pokemon.t) :
  len (append_if_present acc r) <= len acc + 1.
Proof.
  destruct r as [q|]; cbn [append_if_present]; [| lia].
  destruct (decide _); [rewrite len_app; unfold len; simpl |]; lia.
Qed.

(** What one run of the slot loop of a box returns. *)
Lemma parse_box_loop_inv (f : Z -> Z) (pc_data : list byte) (box_idx : Z)
    (slots : list Z) :
  0 <= box_idx -> Forall (fun slot => 0 <= slot) slots ->
  forall acc, exists r,
    _parse_box_loop f pc_data box_idx slots acc = Return r
    /\ len r <= len acc + len slots
    /\ (forall g, _parse_box_loop g pc_data box_idx slots acc = Return r)
    /\ (forall p, p ∈ r ->
          p ∈ acc
          \/ exists window, len window = PC_POKEMON_SIZE
                /\ _parse_pk3 f (window ++ zero_bytes (PK3_SIZE - PC_POKEMON_SIZE))
                   = Return (Some p)).
Proof.
  intros Hbox Hslots. induction Hslots as [|slot slots Hslot _ IH]; intros acc.
  { exists acc. cbn. repeat split; [unfold len; simpl; lia | auto]. }
  cbn [_parse_box_loop].
  set (off := BOX_DATA_START + (box_idx * PC_BOX_SIZE + slot) * PC_POKEMON_SIZE).
  assert (0 <= off) by (unfold off, BOX_DATA_START, PC_BOX_SIZE, PC_POKEMON_SIZE; lia).
  destruct (decide (off + PC_POKEMON_SIZE > len pc_data)) as [Hbreak|Hfit].
  { exists acc. repeat split; [| auto].
    change (len (slot :: slots)) with (Z.of_nat (S (length slots))).
    unfold len. lia. }
  set (window := slice pc_data off (off + PC_POKEMON_SIZE)).
  assert (Hw : len window = PC_POKEMON_SIZE) by (apply box_window_length; lia).
  set (padded := window ++ zero_bytes (PK3_SIZE - PC_POKEMON_SIZE)).
  assert (Hp : len padded = PK3_SIZE).
  { unfold padded. rewrite len_app, Hw. reflexivity. }
  destruct (parse_pk3_never_raises f padded) as [rec Erec].
  rewrite Erec. cbn [mbind pyres_bind].
  destruct (IH (append_if_present acc rec)) as (r & Er & Hlen & Hg & Hin).
  exists r. split; [exact Er |]. split.
  { pose proof (append_if_present_length acc rec).
    change (len (slot :: slots)) with (Z.of_nat (S (length slots))).
    unfold len in *. lia. }
  split.
  { intros g. rewrite (parse_pk3_float_irrelevant g f padded) by lia.
    rewrite Erec. cbn [mbind pyres_bind]. apply Hg. }
  intros p Hp'. destruct (Hin p Hp') as [Hacc|Hnew]; [| auto].
  apply append_if_present_elem in Hacc as [?| ->]; [auto |].
  right. exists window. split; [exact Hw | exact Erec].
Qed.

Lemma box_name_nonempty (pc_data : list byte) (box_idx : Z) (s : string) :
  str_or s ("Box " +:+ pretty (box_idx + 1)) <> "".
Proof. apply str_or_nonempty. discriminate. Qed.

Lemma parse_boxes_loop_inv (f : Z -> Z) (pc_data : list byte) (box_idxs : list Z) :
  Forall (fun box_idx => 0 <= box_idx) box_idxs ->
  exists boxes,
    _parse_boxes_loop f pc_data box_idxs = Return boxes
    /\ GBABox.box_index <$> boxes = box_idxs
    /\ (forall g, _parse_boxes_loop g pc_data box_idxs = Return boxes)
    /\ Forall (fun box =>
         len (GBABox.pokemon box) <= PC_BOX_SIZE
         /\ GBABox.name box <> ""
         /\ forall p, p ∈ GBABox.pokemon box ->
              exists window, len window = PC_POKEMON_SIZE
                /\ _parse_pk3 f (window ++ zero_bytes (PK3_SIZE - PC_POKEMON_SIZE))
                   = Return (Some p)) boxes.
Proof.
  induction 1 as [|box_idx box_idxs Hbox _ (boxes & E & Hidx & Hg & Hall)].
  { exists []. repeat split; constructor. }
  cbn [_parse_boxes_loop]. unfold _parse_box.
  destruct (parse_box_loop_inv f pc_data box_idx (range PC_BOX_SIZE) Hbox
              (proj1 (range_sorted_nonneg _)) []) as (r & Er & Hlen & Hgr & Hin).
  rewrite Er. cbn [mbind pyres_bind]. rewrite E. cbn [mbind pyres_bind mret pyres_ret].
  eexists. split; [reflexivity |]. split; [cbn; by rewrite Hidx |]. split.
  { intros g. rewrite Hgr. cbn [mbind pyres_bind]. rewrite Hg. reflexivity. }
  constructor; [| exact Hall]. cbn [GBABox.pokemon GBABox.name].
  split; [rewrite range_length in Hlen; unfold PC_BOX_SIZE in *; unfold len in *;
          cbn [length] in *; lia |].
  split; [apply str_or_nonempty; discriminate |].
  intros p Hp. destruct (Hin p Hp) as [Hnil|?]; [| done].
  by apply elem_of_nil in Hnil.
Qed.

(** X4. [_parse_pc_boxes] returns for every slot: no box at all when no
    PC section contributes a byte, otherwise exactly the fourteen boxes
    numbered 0 to 13 in order, each holding at most thirty records and
    carrying a non-empty name. *)
Theorem parse_pc_boxes_shape (float_pow_third : Z -> Z) (sections : gmap Z (list byte)) :
  exists boxes,
    _parse_pc_boxes float_pow_third sections = Return boxes
    /\ (pc_buffer sections = [] -> boxes = [])
    /\ (pc_buffer sections <> [] -> GBABox.box_index <$> boxes = range PC_BOX_COUNT)
    /\ Forall (fun box => len (GBABox.pokemon box) <= PC_BOX_SIZE
                          /\ GBABox.name box <> "") boxes.
Proof.
  unfold _parse_pc_boxes. destruct (decide (pc_buffer sections = [])) as [Hnil|Hsome].
  { exists []. repeat split; [done | constructor]. }
  destruct (parse_boxes_loop_inv float_pow_third (pc_buffer sections) (range PC_BOX_COUNT)
              (proj1 (range_sorted_nonneg _))) as (boxes & E & Hidx & _ & Hall).
  exists boxes. split; [exact E |]. split; [done |]. split; [done |].
  eapply Forall_impl; [exact Hall |]. intros box (? & ? & _). done.
Qed.

Lemma padded_status_block (window : list byte) :
  len window = PC_POKEMON_SIZE ->
  slice (window ++ zero_bytes (PK3_SIZE - PC_POKEMON_SIZE)) 80 100 = zero_bytes 20.
Proof.
  intros Hw.
  replace 80 with (len window + 0) by (rewrite Hw; reflexivity).
  replace 100 with (len window + 20) by (rewrite Hw; reflexivity).
  rewrite slice_app_skip by lia. reflexivity.
Qed.

(** X5. A record decoded from a PC box is read from its 80 stored bytes
    followed by twenty zero bytes, so its status block is the padding:
    level, status condition and the seven battle stats are all 0.  As the
    level is 0, [check_transfer_compatibility] answers INCOMPATIBLE for
    every box record, while the record's own [transfer_compatibility]
    still accepts every one that is not an egg. *)
Theorem box_records_have_level_zero (float_pow_third : Z -> Z)
    (sections : gmap Z (list byte)) (boxes : list GBABox.t) (box : GBABox.t)
    (p : PK3Pokemon.t) (target_game : string) :
  _parse_pc_boxes float_pow_third sections = Return boxes ->
  box ∈ boxes -> p ∈ GBABox.pokemon box ->
  PK3Pokemon.level p = 0
  /\ [PK3Pokemon.status_condition p; PK3Pokemon.pokerus_days p;
      PK3Pokemon.current_hp p; PK3Pokemon.total_hp p; PK3Pokemon.attack p;
      PK3Pokemon.defense p; PK3Pokemon.speed p; PK3Pokemon.sp_attack p;
      PK3Pokemon.sp_defense p] = replicate 9 0
  /\ (GBAToGCNTransfer.check_transfer_compatibility p target_game).1 = INCOMPATIBLE
  /\ (transfer_compatibility p = COMPATIBLE <-> PK3Pokemon.is_egg p = false).
Proof.
  intros E Hbox Hp. unfold _parse_pc_boxes in E.
  destruct (decide (pc_buffer sections = [])) as [Hnil|Hsome].
  { injection E as <-. by apply elem_of_nil in Hbox. }
  destruct (parse_boxes_loop_inv float_pow_third (pc_buffer sections) (range PC_BOX_COUNT)
              (proj1 (range_sorted_nonneg _))) as (boxes' & E' & _ & _ & Hall).
  rewrite E' in E. injection E as ->.
  destruct (proj1 (Forall_forall _ _) Hall box Hbox) as (_ & _ & Hrec).
  destruct (Hrec p Hp) as (window & Hw & Edec).
  pose proof (parse_pk3_decoded _ _ _ Edec) as D.
  assert (Hlen : PK3_SIZE <= len (window ++ zero_bytes (PK3_SIZE - PC_POKEMON_SIZE))).
  { rewrite len_app, Hw. done. }
  destruct (dec_status_full _ _ _ D Hlen)
    as (Hsc & Hlv & Hpd & H0 & H1 & H2 & H3 & H4 & H5 & H6).
  rewrite (padded_status_block window Hw) in Hsc, Hlv, Hpd, H0, H1, H2, H3, H4, H5, H6.
  pose proof (dec_species _ _ _ D) as Hsp. clear Edec E' Hrec D.
  repeat match goal with
  | H : ?lhs = Return (_ p) |- _ =>
      let v := eval vm_compute in lhs in
      change lhs with v in H; injection H as H; symmetry in H; revert H
  end.
  intros Hsc Hlv Hpd H0 H1 H2 H3 H4 H5 H6.
  split; [exact Hlv |]. split.
  { rewrite Hsc, Hpd, H0, H1, H2, H3, H4, H5, H6. reflexivity. }
  unfold GBAToGCNTransfer.check_transfer_compatibility, transfer_compatibility.
  destruct (PK3Pokemon.is_egg p); [by repeat split |].
  destruct (decide (_ ∨ _)) as [?|_]; [lia |].
  destruct (decide (_ ∨ _)) as [_|?]; [| lia].
  by repeat split.
Qed.

(** ** The whole save: totality, shape, and what never matters *)

(** What the record loop of the party returns. *)
Lemma parse_party_loop_inv (f : Z -> Z) (sec : list byte) (idxs : list Z) :
  Forall (fun i => 0 <= i) idxs ->
  forall acc, exists r,
    _parse_party_loop f sec idxs acc = Return r
    /\ len r <= len acc + len idxs
    /\ (forall g, _parse_party_loop g sec idxs acc = Return r)
    /\ (forall p, p ∈ r ->
          p ∈ acc
          \/ exists window, len window = PK3_SIZE
                            /\ _parse_pk3 f window = Return (Some p)).
Proof.
  intros Hidxs. induction Hidxs as [|i idxs Hi _ IH]; intros acc.
  { exists acc. cbn. repeat split; [unfold len; simpl; lia | auto]. }
  cbn [_parse_party_loop].
  set (off := PARTY_DATA_OFFSET + i * PK3_SIZE).
  assert (0 <= off) by (unfold off, PARTY_DATA_OFFSET, PK3_SIZE; lia).
  destruct (decide (off + PK3_SIZE > len sec)) as [Hbreak|Hfit].
  { exists acc. repeat split; [| auto].
    change (len (i :: idxs)) with (Z.of_nat (S (length idxs))).
    unfold len. lia. }
  set (window := slice sec off (off + PK3_SIZE)).
  assert (Hw : len window = PK3_SIZE).
  { unfold window, PK3_SIZE in *. rewrite len_slice; lia. }
  destruct (parse_pk3_never_raises f window) as [rec Erec].
  rewrite Erec. cbn [mbind pyres_bind].
  destruct (IH (append_if_present acc rec)) as (r & Er & Hlen & Hg & Hin).
  exists r. split; [exact Er |]. split.
  { pose proof (append_if_present_length acc rec).
    change (len (i :: idxs)) with (Z.of_nat (S (length idxs))).
    unfold len in *. lia. }
  split.
  { intros g. rewrite (parse_pk3_float_irrelevant g f window) by lia.
    rewrite Erec. cbn [mbind pyres_bind]. apply Hg. }
  intros p Hp'. destruct (Hin p Hp') as [Hacc|Hnew]; [| auto].
  apply append_if_present_elem in Hacc as [?| ->]; [auto |].
  right. exists window. split; [exact Hw | exact Erec].
Qed.

Lemma parse_party_inv (f : Z -> Z) (sections : gmap Z (list byte)) :
  exists party,
    _parse_party f sections = Return party
    /\ len (GBAParty.pokemon party) <= 6
    /\ GBAParty.count party = len (GBAParty.pokemon party)
    /\ (forall g, _parse_party g sections = Return party)
    /\ (forall p, p ∈ GBAParty.pokemon party ->
          exists window, len window = PK3_SIZE
                         /\ _parse_pk3 f window = Return (Some p)).
Proof.
  unfold _parse_party.
  destruct (sections !! (1 : Z)) as [sec|].
  2:{ exists GBAParty.empty. repeat split; [vm_compute; discriminate |].
      intros p Hp. by apply elem_of_nil in Hp. }
  unfold party_count.
  destruct (unpack_from_cases struct.LE_I sec PARTY_COUNT_OFFSET) as [[stored Hst]|Hst];
    rewrite Hst; cbn [mbind pyres_bind mret pyres_ret].
  2:{ exists GBAParty.empty. repeat split; [vm_compute; discriminate |].
      intros p Hp. by apply elem_of_nil in Hp. }
  set (count := Z.max 0 (Z.min 6 stored)).
  destruct (parse_party_loop_inv f sec (range count) (proj1 (range_sorted_nonneg _)) [])
    as (r & Er & Hlen & Hg & Hin).
  rewrite Er. cbn [mbind pyres_bind mret pyres_ret].
  eexists. split; [reflexivity |]. cbn [GBAParty.pokemon GBAParty.count].
  split.
  { rewrite range_length in Hlen. unfold len in *. cbn [length] in *. lia. }
  split; [reflexivity |]. split.
  { intros g. rewrite Hg. reflexivity. }
  intros p Hp. destruct (Hin p Hp) as [Hnil|?]; [| done].
  by apply elem_of_nil in Hnil.
Qed.

Lemma parse_pc_boxes_inv (f : Z -> Z) (sections : gmap Z (list byte)) :
  exists boxes,
    _parse_pc_boxes f sections = Return boxes
    /\ (boxes = [] \/ GBABox.box_index <$> boxes = range PC_BOX_COUNT)
    /\ (forall g, _parse_pc_boxes g sections = Return boxes)
    /\ Forall (fun box =>
         len (GBABox.pokemon box) <= PC_BOX_SIZE
         /\ GBABox.name box <> ""
         /\ forall p, p ∈ GBABox.pokemon box ->
              exists window, len window = PC_POKEMON_SIZE
                /\ _parse_pk3 f (window ++ zero_bytes (PK3_SIZE - PC_POKEMON_SIZE))
                   = Return (Some p)) boxes.
Proof.
  unfold _parse_pc_boxes. destruct (decide (pc_buffer sections = [])) as [Hnil|Hsome].
  { exists []. repeat split; [by left | constructor]. }
  destruct (parse_boxes_loop_inv f (pc_buffer sections) (range PC_BOX_COUNT)
              (proj1 (range_sorted_nonneg _))) as (boxes & E & Hidx & Hg & Hall).
  exists boxes. split; [exact E |]. split; [by right |]. split; [| exact Hall].
  intros g. apply Hg.
Qed.

(** X6. The floating-point level estimate never reaches the output of
    [parse_save_file]: party records are decoded from 100-byte windows and
    box records from 80 bytes padded to 100, so the estimate, which is only
    consulted for buffers of 80 to 99 bytes, is dead on this path.  Any two
    behaviours of the float expression give the same result. *)
Theorem parse_save_file_ignores_level_estimate (f g : Z -> Z) (file_path : string)
    (data : list byte) :
  parse_save_file f file_path data = parse_save_file g file_path data.
Proof.
  unfold parse_save_file. destruct (decide _); [reflexivity |].
  apply bind_ext; intros slot_a. apply bind_ext; intros slot_b.
  apply bind_ext; intros [picked|]; [| reflexivity].
  unfold parse_picked_slot. apply bind_ext; intros [info|]; [| reflexivity].
  destruct (parse_party_inv f picked.2) as (party & Ef & _ & _ & Hg & _).
  rewrite Ef, (Hg g). cbn [mbind pyres_bind].
  destruct (parse_pc_boxes_inv f picked.2) as (boxes & Ebf & _ & Hbg & _).
  rewrite Ebf, (Hbg g). reflexivity.
Qed.

Lemma byte_at_return_bound (data : list byte) (i v : Z) :
  0 <= i -> byte_at data i = Return v -> i < len data.
Proof.
  intros Hi H. unfold byte_at in H. apply bind_return_inv in H as (b & Hb & _).
  apply getitem_return in Hb; [| done].
  apply lookup_lt_Some in Hb. unfold len. lia.
Qed.

Lemma popcount_range (z : Z) : 0 <= popcount z <= 8.
Proof.
  unfold popcount. split; [apply len_nonneg |].
  pose proof (length_filter (fun i => Z.testbit z i = true) (range 8)) as H.
  pose proof (range_length 8) as H8. unfold len in *. lia.
Qed.

Lemma detect_game_cases (sections : gmap Z (list byte)) :
  match sections !! (0 : Z) with
  | None => _detect_game sections = (GAME_UNKNOWN, REGION_UNKNOWN)
  | Some _ =>
      (_detect_game sections).2 = US
      /\ (_detect_game sections).1 ∈ [RUBY; EMERALD; FIRERED]
      /\ (Z.of_nat (size sections) <> GBA_SECTION_COUNT ->
          (_detect_game sections).1 = RUBY)
  end.
Proof.
  unfold _detect_game. destruct (sections !! (0 : Z)) as [sec0|]; [| reflexivity].
  destruct (decide _) as [H14|H14].
  - repeat match goal with |- context [match ?x with _ => _ end] => destruct x end;
      cbn; (split; [reflexivity |]); (split; [set_solver | done]).
  - cbn. split; [reflexivity |]. split; [set_solver | done].
Qed.

Lemma parse_trainer_info_inv (sections : gmap Z (list byte)) (file_path : string)
    (slot_used : Z) :
  exists r,
    _parse_trainer_info sections file_path slot_used = Return r
    /\ (r = None <-> forall sec, sections !! (0 : Z) = Some sec -> len sec < 0x12)
    /\ forall info, r = Some info ->
         GBASaveInfo.file_path info = file_path
         /\ GBASaveInfo.slot_used info = slot_used
         /\ GBASaveInfo.is_valid info = true
         /\ GBASaveInfo.error info = ""
         /\ GBASaveInfo.trainer_name info <> ""
         /\ 0 <= GBASaveInfo.badges info <= 8
         /\ (GBASaveInfo.game info, GBASaveInfo.region info) = _detect_game sections
         /\ GBASaveInfo.game_name info
            = _get_game_name (GBASaveInfo.game info) (GBASaveInfo.region info)
         /\ GBASaveInfo.game info ∈ [RUBY; EMERALD; FIRERED]
         /\ GBASaveInfo.region info = US
         /\ 0 <= GBASaveInfo.trainer_id info < 2 ^ 16
         /\ 0 <= GBASaveInfo.secret_id info < 2 ^ 16
         /\ 0 <= GBASaveInfo.play_time_h info < 2 ^ 16
         /\ 0 <= GBASaveInfo.play_time_m info < 256
         /\ 0 <= GBASaveInfo.play_time_s info < 256
         /\ 0 <= GBASaveInfo.money info < 2 ^ 32.
Proof.
  unfold _parse_trainer_info.
  pose proof (detect_game_cases sections) as Hgame.
  destruct (sections !! (0 : Z)) as [sec|] eqn:Hsec.
  2:{ exists None. split; [reflexivity |]. split; [| discriminate].
      split; [intros _ sec' [=] | reflexivity]. }
  destruct (decide (len sec < 0x12)) as [Hshort|Hlong].
  - exists None. split.
    2:{ split; [| discriminate]. split; [| reflexivity]. by intros _ sec' [= <-]. }
    destruct (struct.unpack_from struct.LE_H sec 10) as [v0|[]] eqn:E0;
      cbn [mbind pyres_bind try_except_struct_or_index]; try reflexivity.
    destruct (struct.unpack_from struct.LE_H sec 12) as [v1|[]] eqn:E1;
      cbn [mbind pyres_bind try_except_struct_or_index]; try reflexivity.
    destruct (struct.unpack_from struct.LE_H sec 14) as [v2|[]] eqn:E2;
      cbn [mbind pyres_bind try_except_struct_or_index]; try reflexivity.
    destruct (byte_at sec 16) as [v3|[]] eqn:E3;
      cbn [mbind pyres_bind try_except_struct_or_index]; try reflexivity.
    destruct (byte_at sec 17) as [v4|[]] eqn:E4;
      cbn [mbind pyres_bind try_except_struct_or_index]; try reflexivity.
    apply byte_at_return_bound in E4; lia.
  - destruct (unpack_from_value struct.LE_H sec 0x0A) as (tid & -> & Rtid);
      [lia | simpl; lia |].
    destruct (unpack_from_value struct.LE_H sec 0x0C) as (sid & -> & Rsid);
      [lia | simpl; lia |].
    destruct (unpack_from_value struct.LE_H sec 0x0E) as (ph & -> & Rph);
      [lia | simpl; lia |].
    destruct (byte_at_ok sec 0x10) as (pm & -> & Rpm); [lia |].
    destruct (byte_at_ok sec 0x11) as (ps & -> & Rps); [lia |].
    cbn [mbind pyres_bind].
    assert (Hmoney : exists money,
              (if decide (len sec > 0x0294)
               then struct.unpack_from struct.LE_I sec 0x0290 else mret 0)
              = Return money /\ 0 <= money < 2 ^ 32).
    { destruct (decide _).
      - destruct (unpack_from_value struct.LE_I sec 0x0290) as (m & -> & Rm);
          [lia | simpl; lia |]. eauto.
      - exists 0. split; [reflexivity | lia]. }
    destruct Hmoney as (money & -> & Rmoney). cbn [mbind pyres_bind].
    assert (Hbadge : exists badges,
              (if decide (len sec > 0x0098) then byte_at sec 0x0098 else mret 0)
              = Return badges).
    { destruct (decide _).
      - destruct (byte_at_ok sec 0x0098) as (b & -> & _); [lia |]. eauto.
      - by exists 0. }
    destruct Hbadge as (badges & ->). cbn [mbind pyres_bind].
    destruct (_detect_game sections) as [game region] eqn:Edet.
    cbn [mret pyres_ret try_except_struct_or_index].
    eexists. split; [reflexivity |]. split.
    { split; [discriminate |]. intros H. specialize (H sec eq_refl). lia. }
    intros info [= <-].
    cbn [GBASaveInfo.file_path GBASaveInfo.slot_used GBASaveInfo.is_valid
         GBASaveInfo.error GBASaveInfo.trainer_name GBASaveInfo.badges
         GBASaveInfo.game GBASaveInfo.region GBASaveInfo.game_name
         GBASaveInfo.trainer_id GBASaveInfo.secret_id GBASaveInfo.play_time_h
         GBASaveInfo.play_time_m GBASaveInfo.play_time_s GBASaveInfo.money].
    cbn [fst snd] in Hgame. destruct Hgame as (Hreg & Hg & _).
    change (2 ^ (8 * struct.calcsize struct.LE_H)) with (2 ^ 16) in *.
    repeat split; try done; try lia.
    + by apply str_or_nonempty.
    + apply popcount_range.
    + apply popcount_range.
Qed.

(** X7. [_parse_trainer_info] never raises.  It gives no record exactly
    when the slot has no section 0 or that section is shorter than 18
    bytes; a record it gives carries the path and slot number passed in,
    is marked valid, has a non-empty trainer name, between 0 and 8 badges,
    and a game that is Ruby, Emerald or FireRed with region US, as
    [_detect_game] never answers anything else for a slot with a
    section 0. *)
Theorem parse_trainer_info_cases (sections : gmap Z (list byte)) (file_path : string)
    (slot_used : Z) :
  exists r,
    _parse_trainer_info sections file_path slot_used = Return r
    /\ (r = None <-> forall sec, sections !! (0 : Z) = Some sec -> len sec < 0x12)
    /\ forall info, r = Some info ->
         GBASaveInfo.file_path info = file_path
         /\ GBASaveInfo.slot_used info = slot_used
         /\ GBASaveInfo.is_valid info = true
         /\ GBASaveInfo.trainer_name info <> ""
         /\ 0 <= GBASaveInfo.badges info <= 8
         /\ (GBASaveInfo.game info, GBASaveInfo.region info) = _detect_game sections
         /\ GBASaveInfo.game info ∈ [RUBY; EMERALD; FIRERED]
         /\ GBASaveInfo.region info = US.
Proof.
  destruct (parse_trainer_info_inv sections file_path slot_used) as (r & E & Hnone & Hsome).
  exists r. split; [exact E |]. split; [exact Hnone |].
  intros info Hinfo.
  destruct (Hsome info Hinfo) as (? & ? & ? & _ & ? & ? & ? & _ & ? & ? & _).
  done.
Qed.

(** ** Listing the records of a save *)

Lemma foldl_app_concat {A B} (h : B -> list A) (init : list A) (l : list B) :
  foldl (fun result b => result ++ h b) init l = init ++ concat (h <$> l).
Proof.
  revert init. induction l as [|b l IH]; intros init; cbn.
  - by rewrite app_nil_r.
  - rewrite IH. by rewrite <- app_assoc.
Qed.

Lemma elem_of_concat {A} (x : A) (ls : list (list A)) :
  x ∈ concat ls <-> exists l, x ∈ l /\ l ∈ ls.
Proof.
  induction ls as [|l ls IH]; cbn [concat].
  - split; [by intros ?%elem_of_nil | by intros (l & _ & ?%elem_of_nil)].
  - rewrite elem_of_app, IH. split.
    + intros [?|(l' & ? & ?)]; [exists l | exists l']; split; try done;
        [left | by right].
    + intros (l' & Hx & [->|Hl]%elem_of_cons); [by left | right; by exists l'].
Qed.

Lemma all_pokemon_eq (save : GBASave.t) :
  all_pokemon save
  = GBAParty.pokemon (GBASave.party save)
    ++ concat (GBABox.pokemon <$> GBASave.boxes save).
Proof. apply foldl_app_concat. Qed.

Lemma zip_seq_lookup {A} (l : list A) (s k : nat) :
  zip ((fun j : nat => 0 + 1 * Z.of_nat j) <$> seq s (length l)) l !! k
  = (fun x => (Z.of_nat (s + k), x)) <$> l !! k.
Proof.
  revert s k. induction l as [|x l IH]; intros s k; [done |].
  cbn [length seq fmap list_fmap zip zip_with]. destruct k as [|k]; cbn.
  - do 2 f_equal. lia.
  - rewrite IH. destruct (l !! k); cbn; [| done]. do 2 f_equal. lia.
Qed.

Lemma enumerate_lookup {A} (l : list A) (k : nat) :
  enumerate l !! k = (fun x => (Z.of_nat k, x)) <$> l !! k.
Proof.
  unfold enumerate. rewrite range_eq. unfold len. rewrite Nat2Z.id.
  apply zip_seq_lookup.
Qed.

Lemma enumerate_elem {A} (l : list A) (i : Z) (x : A) :
  (i, x) ∈ enumerate l <-> 0 <= i /\ l !! Z.to_nat i = Some x.
Proof.
  rewrite list_elem_of_lookup. split.
  - intros (k & Hk). rewrite enumerate_lookup in Hk.
    destruct (l !! k) as [y|] eqn:E; [| done]. injection Hk as <- <-.
    rewrite Nat2Z.id. split; [lia | done].
  - intros (Hi & Hx). exists (Z.to_nat i). rewrite enumerate_lookup, Hx. cbn.
    by rewrite Z2Nat.id.
Qed.

Lemma enumerate_snd {A} (l : list A) : (enumerate l).*2 = l.
Proof.
  unfold enumerate. apply snd_zip.
  pose proof (range_length (len l)) as H. unfold len in *. lia.
Qed.

Lemma fmap_filter_comm {A B} (f : A -> B) (P : B -> Prop) (Q : A -> Prop)
    `{!forall y, Decision (P y)} `{!forall x, Decision (Q x)} (l : list A) :
  (forall x, Q x <-> P (f x)) ->
  f <$> filter Q l = filter P (f <$> l).
Proof.
  intros HPQ. induction l as [|x l IH]; [done |]. cbn [fmap list_fmap].
  rewrite !filter_cons.
  destruct (decide (Q x)) as [HQ|HQ], (decide (P (f x))) as [HP|HP]; cbn;
    rewrite ?IH; try done; by apply HPQ in HQ || by apply HPQ in HP.
Qed.

Lemma transferable_entries_snd (label : Z -> string) (pokemon : list PK3Pokemon.t) :
  (transferable_entries label pokemon).*2
  = filter (fun p => transfer_compatibility p = COMPATIBLE) pokemon.
Proof.
  unfold transferable_entries. rewrite <- list_fmap_compose.
  rewrite <- (enumerate_snd pokemon) at 2.
  by apply fmap_filter_comm.
Qed.

Lemma transferable_entries_elem (label : Z -> string) (pokemon : list PK3Pokemon.t)
    (loc : string) (p : PK3Pokemon.t) :
  (loc, p) ∈ transferable_entries label pokemon ->
  transfer_compatibility p = COMPATIBLE
  /\ exists i, 0 <= i /\ loc = label i /\ pokemon !! Z.to_nat i = Some p.
Proof.
  unfold transferable_entries. intros H.
  apply list_elem_of_fmap in H as ([i q] & [= -> ->] & H).
  apply list_elem_of_filter in H as [Hc H]. apply enumerate_elem in H as [Hi Hq].
  split; [exact Hc |]. exists i. done.
Qed.

(** X8. [get_transferable_pokemon] lists exactly the records of
    [transferable_pokemon], in the same order; every entry is COMPATIBLE,
    and the number in its location string is the record's position in the
    unfiltered party or box list, under the box's own [box_index]. *)
Theorem get_transferable_matches_transferable (save : GBASave.t) :
  (get_transferable_pokemon save).*2 = transferable_pokemon save
  /\ forall loc p, (loc, p) ∈ get_transferable_pokemon save ->
       transfer_compatibility p = COMPATIBLE
       /\ ((exists i, 0 <= i /\ loc = party_label i
                      /\ GBAParty.pokemon (GBASave.party save) !! Z.to_nat i = Some p)
           \/ (exists box i, box ∈ GBASave.boxes save /\ 0 <= i
                             /\ loc = box_label (GBABox.box_index box) i
                             /\ GBABox.pokemon box !! Z.to_nat i = Some p)).
Proof.
  unfold get_transferable_pokemon, transferable_pokemon.
  rewrite foldl_app_concat, all_pokemon_eq. split.
  - rewrite fmap_app, filter_app, transferable_entries_snd. f_equal.
    induction (GBASave.boxes save) as [|box boxes IH]; [done |].
    cbn [fmap list_fmap concat]. rewrite fmap_app, filter_app, transferable_entries_snd.
    f_equal. exact IH.
  - intros loc p Hin. apply elem_of_app in Hin as [Hin|Hin].
    + apply transferable_entries_elem in Hin as (Hc & i & ? & ? & ?).
      split; [exact Hc |]. left. exists i. done.
    + apply elem_of_concat in Hin as (entries & Hin & Hentries).
      apply list_elem_of_fmap in Hentries as (box & -> & Hbox).
      apply transferable_entries_elem in Hin as (Hc & i & ? & ? & ?).
      split; [exact Hc |]. right. exists box, i. done.
Qed.

(** ** What [parse_save_file] returns *)

Lemma concat_length_bound {A} (ls : list (list A)) (k : Z) :
  Forall (fun l => len l <= k) ls -> len (concat ls) <= len ls * k.
Proof.
  induction 1 as [|l ls Hl _ IH]; [unfold len; simpl; lia |].
  cbn [concat]. rewrite len_app.
  change (len (l :: ls)) with (Z.of_nat (S (length ls))). unfold len in *. lia.
Qed.

Lemma parse_picked_slot_inv (f : Z -> Z) (file_path : string)
    (picked : slot_ref * gmap Z (list byte)) :
  exists r,
    parse_picked_slot f file_path picked = Return r
    /\ r <> inl TooSmall /\ r <> inl NoValidSlot
    /\ forall save, r = inr save ->
         GBASaveInfo.slot_used (GBASave.info save)
         = match picked.1 with SlotA => 0 | SlotB => 1 end
         /\ GBASaveInfo.file_path (GBASave.info save) = file_path
         /\ GBASaveInfo.is_valid (GBASave.info save) = true
         /\ GBASaveInfo.trainer_name (GBASave.info save) <> ""
         /\ 0 <= GBASaveInfo.badges (GBASave.info save) <= 8
         /\ GBASaveInfo.game (GBASave.info save) ∈ [RUBY; EMERALD; FIRERED]
         /\ GBASaveInfo.region (GBASave.info save) = US
         /\ len (GBAParty.pokemon (GBASave.party save)) <= 6
         /\ GBAParty.count (GBASave.party save)
            = len (GBAParty.pokemon (GBASave.party save))
         /\ (GBASave.boxes save = []
             \/ GBABox.box_index <$> GBASave.boxes save = range PC_BOX_COUNT)
         /\ Forall (fun box => len (GBABox.pokemon box) <= PC_BOX_SIZE
                               /\ GBABox.name box <> "") (GBASave.boxes save)
         /\ len (all_pokemon save) <= 6 + PC_BOX_COUNT * PC_BOX_SIZE
         /\ Forall (fun p => 1 <= PK3Pokemon.species_id p <= 386) (all_pokemon save).
Proof.
  unfold parse_picked_slot.
  destruct (parse_trainer_info_inv picked.2 file_path
              (match picked.1 with SlotA => 0 | SlotB => 1 end))
    as (ri & -> & _ & Hinfo).
  cbn [mbind pyres_bind]. destruct ri as [info|].
  2:{ eexists. split; [reflexivity |]. repeat split; discriminate. }
  destruct (Hinfo info eq_refl)
    as (Hpath & Hslot & Hvalid & _ & Hname & Hbadges & _ & _ & Hgame & Hregion & _).
  destruct (parse_party_inv f picked.2) as (party & -> & Hlen & Hcount & _ & Hrec).
  cbn [mbind pyres_bind].
  destruct (parse_pc_boxes_inv f picked.2) as (boxes & -> & Hidx & _ & Hall).
  cbn [mbind pyres_bind mret pyres_ret].
  eexists. split; [reflexivity |]. split; [discriminate |]. split; [discriminate |].
  intros save [= <-]. cbn [GBASave.info GBASave.party GBASave.boxes].
  assert (Hboxes : Forall (fun box => len (GBABox.pokemon box) <= PC_BOX_SIZE
                                      /\ GBABox.name box <> "") boxes).
  { eapply Forall_impl; [exact Hall |]. intros box (? & ? & _). done. }
  assert (Hn : len boxes <= PC_BOX_COUNT).
  { destruct Hidx as [->|Hidx]; [done |].
    apply (f_equal len) in Hidx. rewrite range_length in Hidx.
    unfold len in *. rewrite length_fmap in Hidx. unfold PC_BOX_COUNT in *. lia. }
  split_and!; try done; try lia.
  - rewrite all_pokemon_eq, len_app. cbn [GBASave.party GBASave.boxes].
    assert (len (concat (GBABox.pokemon <$> boxes)) <= len boxes * PC_BOX_SIZE).
    { etrans; [apply (concat_length_bound _ PC_BOX_SIZE) |].
      - apply Forall_fmap. eapply Forall_impl; [exact Hall |]. by intros box (? & _).
      - unfold len. rewrite length_fmap. lia. }
    pose proof (len_nonneg boxes). unfold PC_BOX_SIZE, PC_BOX_COUNT in *. nia.
  - rewrite all_pokemon_eq. cbn [GBASave.party GBASave.boxes].
    apply Forall_app. split.
    + apply Forall_forall. intros p Hp. destruct (Hrec p Hp) as (w & _ & Hdec).
      exact (dec_species _ _ _ (parse_pk3_decoded _ _ _ Hdec)).
    + apply Forall_forall. intros p Hp.
      apply elem_of_concat in Hp as (ps & Hp & Hps).
      apply list_elem_of_fmap in Hps as (box & -> & Hbox).
      destruct (proj1 (Forall_forall _ _) Hall box Hbox) as (_ & _ & Hr).
      destruct (Hr p Hp) as (w & _ & Hdec).
      exact (dec_species _ _ _ (parse_pk3_decoded _ _ _ Hdec)).
Qed.

Lemma pick_best_slot_inv (a b : option (gmap Z (list byte))) :
  exists r,
    _pick_best_slot a b = Return r
    /\ forall picked, r = Some picked ->
         match picked.1 with
         | SlotA => a = Some picked.2
         | SlotB => b = Some picked.2
         end.
Proof.
  destruct a as [a|], b as [b|]; cbn [_pick_best_slot].
  - rewrite !get_save_index_spec. cbn [mbind pyres_bind mret pyres_ret].
    eexists. split; [reflexivity |]. intros picked [= <-].
    by destruct (decide _).
  - eexists. split; [reflexivity |]. by intros picked [= <-].
  - eexists. split; [reflexivity |]. by intros picked [= <-].
  - eexists. split; [reflexivity |]. by intros picked [=].
Qed.

(** X9. [parse_save_file] returns for every byte string.  It reports
    "too small" exactly for images shorter than one slot (0xE000 bytes).
    A save it returns names slot 0 or 1, and slot 1 only for an image of at
    least 0x20000 bytes; it carries the given path, is marked valid, has a
    non-empty trainer name and 0 to 8 badges; its game is Ruby, Emerald or
    FireRed with region US; the party holds at most six records and its
    count is the number of records; there are no boxes or the fourteen
    boxes 0..13 with at most thirty records each; in all at most 426
    records, each with a species in 1..386. *)
Theorem parse_save_file_total_and_shape (float_pow_third : Z -> Z) (file_path : string)
    (data : list byte) :
  exists r,
    parse_save_file float_pow_third file_path data = Return r
    /\ (r = inl TooSmall <-> len data < GBA_SLOT_SIZE)
    /\ forall save, r = inr save ->
         (GBASaveInfo.slot_used (GBASave.info save) = 0
          \/ (GBASaveInfo.slot_used (GBASave.info save) = 1
              /\ GBA_SAVE_SIZE <= len data))
         /\ GBASaveInfo.file_path (GBASave.info save) = file_path
         /\ GBASaveInfo.is_valid (GBASave.info save) = true
         /\ GBASaveInfo.trainer_name (GBASave.info save) <> ""
         /\ 0 <= GBASaveInfo.badges (GBASave.info save) <= 8
         /\ GBASaveInfo.game (GBASave.info save) ∈ [RUBY; EMERALD; FIRERED]
         /\ GBASaveInfo.region (GBASave.info save) = US
         /\ len (GBAParty.pokemon (GBASave.party save)) <= 6
         /\ GBAParty.count (GBASave.party save)
            = len (GBAParty.pokemon (GBASave.party save))
         /\ (GBASave.boxes save = []
             \/ GBABox.box_index <$> GBASave.boxes save = range PC_BOX_COUNT)
         /\ Forall (fun box => len (GBABox.pokemon box) <= PC_BOX_SIZE
                               /\ GBABox.name box <> "") (GBASave.boxes save)
         /\ len (all_pokemon save) <= 426
         /\ Forall (fun p => 1 <= PK3Pokemon.species_id p <= 386) (all_pokemon save).
Proof.
  unfold parse_save_file.
  destruct (decide (len data < GBA_SAVE_SIZE ∧ len data < GBA_SLOT_SIZE)) as [Hs|Hs].
  { exists (inl TooSmall). split; [reflexivity |]. split; [| discriminate].
    split; [intros _; apply Hs | reflexivity]. }
  assert (Hlen : GBA_SLOT_SIZE <= len data)
    by (unfold GBA_SAVE_SIZE, GBA_SLOT_SIZE in *; lia).
  rewrite (parse_slot_spec data 0) by lia. cbn [mbind pyres_bind].
  set (slot_a := forget_flags <$> spec_parse_slot data 0).
  assert (Hb : exists slot_b,
            (if decide (len data >= GBA_SAVE_SIZE)
             then _parse_slot data GBA_SLOT_SIZE else mret None) = Return slot_b
            /\ (is_Some slot_b -> GBA_SAVE_SIZE <= len data)).
  { destruct (decide _).
    - rewrite (parse_slot_spec data GBA_SLOT_SIZE) by (unfold GBA_SLOT_SIZE; lia).
      eexists. split; [reflexivity |]. lia.
    - exists None. split; [reflexivity |]. by intros [? [=]]. }
  destruct Hb as (slot_b & -> & Hslot_b). cbn [mbind pyres_bind].
  destruct (pick_best_slot_inv slot_a slot_b) as (r & -> & Hpick).
  cbn [mbind pyres_bind]. destruct r as [picked|].
  2:{ eexists. split; [reflexivity |]. split; [| discriminate].
      split; [discriminate | lia]. }
  destruct (parse_picked_slot_inv float_pow_third file_path picked)
    as (r & -> & Hr1 & _ & Hshape).
  exists r. split; [reflexivity |]. split; [split; [done | lia] |].
  intros save ->. destruct (Hshape save eq_refl) as (Hslot & Hrest).
  split; [| exact Hrest].
  specialize (Hpick picked eq_refl). rewrite Hslot.
  destruct picked.1; [by left |]. right. split; [done |]. apply Hslot_b. by rewrite Hpick.
Qed.

(** ** Which slot a save is decoded from *)

(** What [parse_save_file] does with the slot it picked, in terms of the
    three decoders it calls on the slot's sections. *)
Lemma parse_picked_slot_decodes (f : Z -> Z) (file_path : string)
    (which : slot_ref) (sections : gmap Z (list byte)) :
  let slot_used := match which with SlotA => 0 | SlotB => 1 end in
  exists r,
    parse_picked_slot f file_path (which, sections) = Return r
    /\ r <> inl NoValidSlot /\ r <> inl TooSmall
    /\ (r = inl NoTrainerInfo
        <-> forall sec, sections !! (0 : Z) = Some sec -> len sec < 0x12)
    /\ forall save, r = inr save ->
         _parse_trainer_info sections file_path slot_used
         = Return (Some (GBASave.info save))
         /\ GBASaveInfo.slot_used (GBASave.info save) = slot_used
         /\ _parse_party f sections = Return (GBASave.party save)
         /\ _parse_pc_boxes f sections = Return (GBASave.boxes save).
Proof.
  cbv zeta. unfold parse_picked_slot. cbn [fst snd].
  destruct (parse_trainer_info_inv sections file_path
              (match which with SlotA => 0 | SlotB => 1 end))
    as (ri & Ei & Hnone & Hinfo).
  rewrite Ei. cbn [mbind pyres_bind]. destruct ri as [info|].
  - destruct (parse_party_inv f sections) as (party & Ep & _).
    destruct (parse_pc_boxes_inv f sections) as (boxes & Eb & _).
    rewrite Ep. cbn [mbind pyres_bind]. rewrite Eb. cbn [mbind pyres_bind mret pyres_ret].
    eexists. split; [reflexivity |].
    split; [discriminate |]. split; [discriminate |]. split.
    + split; [discriminate |]. intros Hshort. apply Hnone in Hshort. discriminate.
    + intros save [= <-]. cbn [GBASave.info GBASave.party GBASave.boxes].
      destruct (Hinfo info eq_refl) as (_ & Hslot & _).
      split; [reflexivity |]. split; [exact Hslot |]. split; reflexivity.
  - eexists. split; [reflexivity |].
    split; [discriminate |]. split; [discriminate |]. split.
    + split; [intros _; by apply Hnone | reflexivity].
    + discriminate.
Qed.

(** C6: a section whose footer id exceeds 13 is left out and does not make
    the slot invalid; a slot is invalid exactly when none of its sections
    has an id of at most 13; with no valid slot the parse fails as a whole
    with NoValidSlot; with exactly one valid slot the parse never fails
    with NoValidSlot and the save is decoded from that slot's sections:
    the result is the trainer record, the party and the boxes that
    [_parse_trainer_info], [_parse_party] and [_parse_pc_boxes] read from
    them, under slot number 0 for the first slot and 1 for the second. *)
Theorem C6_slot_validity_and_fallback
    (float_pow_third : Z -> Z) (file_path : string) (data : list byte) :
  GBA_SLOT_SIZE <= len data ->
  let result := parse_save_file float_pow_third file_path data in
  let decoded_from (sections : gmap Z (list byte)) (slot_used : Z) : Prop :=
    result
    = (info ← _parse_trainer_info sections file_path slot_used;
       match info with
       | None => mret (inl NoTrainerInfo)
       | Some info =>
           party ← _parse_party float_pow_third sections;
           boxes ← _parse_pc_boxes float_pow_third sections;
           mret (inr {| GBASave.info := info; GBASave.party := party;
                        GBASave.boxes := boxes |})
       end)
    /\ exists r,
         result = Return r
         /\ r <> inl NoValidSlot /\ r <> inl TooSmall
         /\ (r = inl NoTrainerInfo
             <-> forall sec, sections !! (0 : Z) = Some sec -> len sec < 0x12)
         /\ forall save, r = inr save ->
              _parse_trainer_info sections file_path slot_used
              = Return (Some (GBASave.info save))
              /\ GBASaveInfo.slot_used (GBASave.info save) = slot_used
              /\ _parse_party float_pow_third sections = Return (GBASave.party save)
              /\ _parse_pc_boxes float_pow_third sections
                 = Return (GBASave.boxes save) in
  (forall offset, 0 <= offset ->
     (_parse_slot data offset = Return None
      <-> Forall (fun s => footer_id s > 13) (slot_sections data offset))
     /\ (forall m id s,
           _parse_slot data offset = Return (Some m) -> m !! id = Some s ->
           0 <= id <= 13 /\ s ∈ slot_sections data offset /\ footer_id s = id)
     /\ (forall s, s ∈ slot_sections data offset -> ~ footer_id s > 13 ->
           exists m, _parse_slot data offset = Return (Some m)
                     /\ is_Some (m !! footer_id s)))
  /\ exists slot_a slot_b,
       _parse_slot data 0 = Return slot_a
       /\ (if decide (len data >= GBA_SAVE_SIZE)
           then _parse_slot data GBA_SLOT_SIZE else mret None) = Return slot_b
       /\ (slot_a = None -> slot_b = None -> result = Return (inl NoValidSlot))
       /\ (forall a, slot_a = Some a -> slot_b = None -> decoded_from a 0)
       /\ (forall b, slot_a = None -> slot_b = Some b -> decoded_from b 1).
Proof.
  intros Hlen result decoded_from. split.
  - intros offset Hoff. split; [|split].
    + rewrite parse_slot_spec by exact Hoff. rewrite <- spec_parse_slot_none.
      destruct (spec_parse_slot data offset); cbn; split; intros H;
        try reflexivity; discriminate H.
    + intros m id s. apply parse_slot_entries. exact Hoff.
    + intros s Hin Hgood.
      destruct (parse_slot_retains data offset s Hoff Hin Hgood) as (m & s' & H1 & H2 & _).
      exists m. split; [exact H1 | eauto].
  - exists (forget_flags <$> spec_parse_slot data 0).
    exists (if decide (len data >= GBA_SAVE_SIZE)
            then forget_flags <$> spec_parse_slot data GBA_SLOT_SIZE else None).
    split; [apply parse_slot_spec; lia|].
    split.
    { destruct (decide _); [|reflexivity].
      apply parse_slot_spec. unfold GBA_SLOT_SIZE. lia. }
    assert (Hfile : result
              = (sections ← _pick_best_slot (forget_flags <$> spec_parse_slot data 0)
                   (if decide (len data >= GBA_SAVE_SIZE)
                    then forget_flags <$> spec_parse_slot data GBA_SLOT_SIZE else None);
                 match sections with
                 | None => mret (inl NoValidSlot)
                 | Some picked => parse_picked_slot float_pow_third file_path picked
                 end)).
    { unfold result, parse_save_file.
      destruct (decide (len data < GBA_SAVE_SIZE /\ len data < GBA_SLOT_SIZE)); [lia|].
      rewrite (parse_slot_spec data 0) by lia. cbn [mbind pyres_bind].
      destruct (decide (len data >= GBA_SAVE_SIZE)); [|reflexivity].
      rewrite (parse_slot_spec data GBA_SLOT_SIZE) by (unfold GBA_SLOT_SIZE; lia).
      reflexivity. }
    clearbody result. subst decoded_from. cbv beta. rewrite Hfile. clear Hfile.
    split; [| split].
    + intros -> ->. reflexivity.
    + intros a -> ->. split; [reflexivity |].
      exact (parse_picked_slot_decodes float_pow_third file_path SlotA a).
    + intros b -> ->. split; [reflexivity |].
      exact (parse_picked_slot_decodes float_pow_third file_path SlotB b).
Qed.

(** The example of the specification: the second slot has every footer id
    forced to 99, the first is well formed with save index 3; the parse
    succeeds and the save is the one decoded from the first slot. *)
Lemma C6_witness :
  GBA_SLOT_SIZE <= len (sample_image (sample_slot 3) sample_bad_slot)
  /\ _parse_slot (sample_image (sample_slot 3) sample_bad_slot) 0
     = Return (Some (sample_sections 3))
  /\ exists save,
       parse_save_file cube_root_floor "save.sav"
         (sample_image (sample_slot 3) sample_bad_slot) = Return (inr save)
       /\ GBASaveInfo.slot_used (GBASave.info save) = 0
       /\ _parse_trainer_info (sample_sections 3) "save.sav" 0
          = Return (Some (GBASave.info save))
       /\ _parse_party cube_root_floor (sample_sections 3) = Return (GBASave.party save)
       /\ _parse_pc_boxes cube_root_floor (sample_sections 3)
          = Return (GBASave.boxes save).
Proof.
  assert (Hlen : GBA_SLOT_SIZE <= len (sample_image (sample_slot 3) sample_bad_slot))
    by (vm_compute; discriminate).
  assert (Ha0 : _parse_slot (sample_image (sample_slot 3) sample_bad_slot) 0
                = Return (Some (sample_sections 3)))
    by (vm_compute; reflexivity).
  assert (Hsec : sample_sections 3 !! (0 : Z) = Some (sample_section x00 0 0 3))
    by (vm_compute; reflexivity).
  assert (Hlong : ~ len (sample_section x00 0 0 3) < 0x12)
    by (vm_compute; discriminate).
  split; [exact Hlen |]. split; [exact Ha0 |].
  destruct (C6_slot_validity_and_fallback cube_root_floor "save.sav"
              (sample_image (sample_slot 3) sample_bad_slot) Hlen)
    as (_ & slot_a & slot_b & Ha & Hb & _ & Hone & _).
  pose proof (eq_trans (eq_sym Ha) Ha0) as Hsa. injection Hsa as Hsa.
  assert (Hsb : slot_b = None).
  { assert (Hb0 : _parse_slot (sample_image (sample_slot 3) sample_bad_slot) GBA_SLOT_SIZE
                  = Return None)
      by (vm_compute; reflexivity).
    destruct (decide (len (sample_image (sample_slot 3) sample_bad_slot) >= GBA_SAVE_SIZE))
      as [_|Hshort].
    - pose proof (eq_trans (eq_sym Hb) Hb0) as Hsb. injection Hsb as Hsb. exact Hsb.
    - injection Hb as Hb. symmetry. exact Hb. }
  destruct (Hone (sample_sections 3) Hsa Hsb) as (_ & r & Hr & Hnv & Hts & Hnone & Hsave).
  destruct r as [[]|save].
  - exfalso. exact (Hts eq_refl).
  - exfalso. exact (Hnv eq_refl).
  - exfalso. exact (Hlong (proj1 Hnone eq_refl _ Hsec)).
  - exists save. destruct (Hsave save eq_refl) as (Hinfo & Hslot & Hparty & Hboxes).
    exact (conj Hr (conj Hslot (conj Hinfo (conj Hparty Hboxes)))).
Defined.

(** ** Which bytes of the image are read *)

Lemma slice_as_drop_take {A} (l : list A) (lo hi : Z) :
  0 <= lo -> lo <= hi -> slice l lo hi = drop (Z.to_nat lo) (take (Z.to_nat hi) l).
Proof.
  intros. unfold slice. rewrite take_drop_commute. do 2 f_equal. lia.
Qed.

Lemma slice_of_prefix {A} (l : list A) (n lo hi : Z) :
  0 <= lo -> lo <= hi -> hi <= n -> slice (slice l 0 n) lo hi = slice l lo hi.
Proof.
  intros. rewrite !(slice_as_drop_take _ lo hi) by lia.
  unfold slice. change (Z.to_nat 0) with 0%nat. rewrite drop_0, take_take.
  do 2 f_equal. lia.
Qed.

Lemma slices_agree {A} (l l' : list A) (n lo hi : Z) :
  0 <= lo -> lo <= hi -> hi <= n ->
  slice l 0 n = slice l' 0 n -> slice l lo hi = slice l' lo hi.
Proof.
  intros ? ? ? H. rewrite <- (slice_of_prefix l n lo hi), <- (slice_of_prefix l' n lo hi)
    by lia. by rewrite H.
Qed.

Lemma filter_all {A} (P : A -> Prop) `{!forall x, Decision (P x)} (l : list A) :
  Forall P l -> filter P l = l.
Proof.
  induction 1 as [|x l Hx _ IH]; [done |]. by rewrite filter_cons_True, IH.
Qed.

(** A slot that lies inside the common prefix of two images is assembled
    to the same result from both. *)
Lemma parse_slot_agree (data data' : list byte) (offset n : Z) :
  0 <= offset -> offset + GBA_SLOT_SIZE <= n -> n <= len data -> n <= len data' ->
  slice data 0 n = slice data' 0 n ->
  _parse_slot data offset = _parse_slot data' offset.
Proof.
  intros Ho Hn Hl Hl' Hpre. rewrite !parse_slot_spec by lia.
  do 2 f_equal. unfold spec_parse_slot, spec_slot_map.
  assert (Hs : slot_sections data offset = slot_sections data' offset).
  { unfold slot_sections.
    assert (Hall : forall d, n <= len d ->
              filter (section_fits d offset) (range GBA_SECTION_COUNT)
              = range GBA_SECTION_COUNT).
    { intros d Hd. apply filter_all. apply Forall_forall. intros i Hi.
      apply range_bounds in Hi. unfold section_fits.
      unfold GBA_SECTION_COUNT, GBA_SECTION_SIZE, GBA_SLOT_SIZE in *. lia. }
    rewrite !Hall by done. apply Forall_fmap_ext_1, Forall_forall. intros i Hi.
    apply range_bounds in Hi. unfold section_at.
    apply (slices_agree _ _ n); [| | | exact Hpre];
      unfold GBA_SECTION_COUNT, GBA_SECTION_SIZE, GBA_SLOT_SIZE in *; lia. }
  by rewrite Hs.
Qed.

(** X10. An image of at least one slot but fewer than 0x20000 bytes is
    decoded from its first 0xE000 bytes alone, whatever follows them: the
    second slot is not looked at, even when all of it is present, and the
    save never names slot 1. *)
Theorem short_image_uses_first_slot_only (float_pow_third : Z -> Z)
    (file_path : string) (data : list byte) :
  GBA_SLOT_SIZE <= len data < GBA_SAVE_SIZE ->
  parse_save_file float_pow_third file_path data
  = parse_save_file float_pow_third file_path (slice data 0 GBA_SLOT_SIZE)
  /\ slot_used_of (parse_save_file float_pow_third file_path data) <> Some 1.
Proof.
  intros [Hlo Hhi].
  assert (Hlen : len (slice data 0 GBA_SLOT_SIZE) = GBA_SLOT_SIZE).
  { rewrite len_slice; unfold GBA_SLOT_SIZE in *; lia. }
  assert (Hparse : parse_save_file float_pow_third file_path data
                   = slot_a ← _parse_slot data 0;
                     sections ← _pick_best_slot slot_a None;
                     match sections with
                     | None => mret (inl NoValidSlot)
                     | Some picked => parse_picked_slot float_pow_third file_path picked
                     end).
  { unfold parse_save_file.
    destruct (decide (_ ∧ _)) as [[_ ?]|_]; [lia |].
    destruct (decide (len data >= GBA_SAVE_SIZE)); [lia |]. reflexivity. }
  split.
  - rewrite Hparse. unfold parse_save_file. rewrite Hlen.
    destruct (decide (_ ∧ _)) as [[_ ?]|_]; [lia |].
    destruct (decide (GBA_SLOT_SIZE >= GBA_SAVE_SIZE)) as [?|_]; [done |].
    rewrite (parse_slot_agree data (slice data 0 GBA_SLOT_SIZE) 0 GBA_SLOT_SIZE);
      [reflexivity | lia | lia | lia | lia |].
    by rewrite slice_of_prefix by (unfold GBA_SLOT_SIZE; lia).
  - rewrite Hparse. rewrite (parse_slot_spec data 0) by lia. cbn [mbind pyres_bind].
    destruct (forget_flags <$> spec_parse_slot data 0) as [a|];
      cbn [_pick_best_slot mbind pyres_bind mret pyres_ret]; [| discriminate].
    destruct (parse_picked_slot_inv float_pow_third file_path (SlotA, a))
      as (r & -> & _ & _ & Hshape).
    destruct r as [e|save]; [discriminate |]. cbn [slot_used_of].
    destruct (Hshape save eq_refl) as (-> & _). discriminate.
Qed.

(** X11. For an image of at least 0x20000 bytes the result depends only on
    the first 0x1C000 bytes, the two slots: the 16 KB after them, and any
    bytes beyond the nominal size, are never read. *)
Theorem full_image_tail_is_ignored (float_pow_third : Z -> Z) (file_path : string)
    (data data' : list byte) :
  GBA_SAVE_SIZE <= len data -> GBA_SAVE_SIZE <= len data' ->
  slice data 0 (2 * GBA_SLOT_SIZE) = slice data' 0 (2 * GBA_SLOT_SIZE) ->
  parse_save_file float_pow_third file_path data
  = parse_save_file float_pow_third file_path data'.
Proof.
  intros Hl Hl' Hpre. unfold parse_save_file.
  destruct (decide (len data < _ ∧ _)) as [[? _]|_]; [lia |].
  destruct (decide (len data' < _ ∧ _)) as [[? _]|_]; [lia |].
  destruct (decide (len data >= GBA_SAVE_SIZE)) as [_|?]; [| lia].
  destruct (decide (len data' >= GBA_SAVE_SIZE)) as [_|?]; [| lia].
  rewrite (parse_slot_agree data data' 0 (2 * GBA_SLOT_SIZE));
    [| unfold GBA_SLOT_SIZE, GBA_SAVE_SIZE in *; lia ..| exact Hpre].
  rewrite (parse_slot_agree data data' GBA_SLOT_SIZE (2 * GBA_SLOT_SIZE));
    [| unfold GBA_SLOT_SIZE, GBA_SAVE_SIZE in *; lia ..| exact Hpre].
  reflexivity.
Qed.

(** ** Sample runs of the box and image properties *)

Lemma box_records_have_level_zero_witness :
  exists boxes box p,
    _parse_pc_boxes cube_root_floor sample_pc_sections = Return boxes
    /\ box ∈ boxes /\ p ∈ GBABox.pokemon box
    /\ PK3Pokemon.species_id p = 25
    /\ PK3Pokemon.level p = 0
    /\ (GBAToGCNTransfer.check_transfer_compatibility p "colosseum").1 = INCOMPATIBLE.
Proof.
  exists sample_boxes, sample_box, sample_box_pokemon.
  assert (E : _parse_pc_boxes cube_root_floor sample_pc_sections = Return sample_boxes)
    by (vm_compute; reflexivity).
  assert (Hbox : sample_box ∈ sample_boxes)
    by (apply (list_elem_of_lookup_2 _ 0%nat); vm_compute; reflexivity).
  assert (Hp : sample_box_pokemon ∈ GBABox.pokemon sample_box)
    by (apply (list_elem_of_lookup_2 _ 0%nat); vm_compute; reflexivity).
  pose proof (box_records_have_level_zero cube_root_floor sample_pc_sections
                sample_boxes sample_box sample_box_pokemon "colosseum" E Hbox Hp)
    as (Hlevel & _ & Hcheck & _).
  exact (conj E (conj Hbox (conj Hp (conj eq_refl (conj Hlevel Hcheck))))).
Defined.

Lemma sample_two_slots_length : len sample_two_slots = 2 * GBA_SLOT_SIZE.
Proof. vm_compute. reflexivity. Qed.

Lemma short_image_uses_first_slot_only_witness :
  GBA_SLOT_SIZE <= len sample_two_slots < GBA_SAVE_SIZE
  /\ parse_save_file cube_root_floor "save.sav" sample_two_slots
     = parse_save_file cube_root_floor "save.sav" (slice sample_two_slots 0 GBA_SLOT_SIZE).
Proof.
  assert (H : GBA_SLOT_SIZE <= len sample_two_slots < GBA_SAVE_SIZE).
  { rewrite sample_two_slots_length. unfold GBA_SLOT_SIZE, GBA_SAVE_SIZE. lia. }
  exact (conj H (proj1 (short_image_uses_first_slot_only cube_root_floor "save.sav"
                          sample_two_slots H))).
Defined.

Lemma slice_app_prefix {A} (l k : list A) (n : Z) :
  len l = n -> slice (l ++ k) 0 n = l.
Proof.
  intros <-. unfold slice, len. change (Z.to_nat 0) with 0%nat.
  rewrite drop_0, Z.sub_0_r, Nat2Z.id. apply take_app_length.
Qed.

Lemma full_image_tail_is_ignored_witness :
  GBA_SAVE_SIZE <= len (sample_image (sample_slot 3) (sample_slot 7))
  /\ GBA_SAVE_SIZE <= len sample_long_image
  /\ parse_save_file cube_root_floor "save.sav" (sample_image (sample_slot 3) (sample_slot 7))
     = parse_save_file cube_root_floor "save.sav" sample_long_image.
Proof.
  assert (H1 : GBA_SAVE_SIZE <= len (sample_image (sample_slot 3) (sample_slot 7))).
  { unfold sample_image. rewrite app_assoc, len_app.
    change (sample_slot 3 ++ sample_slot 7) with sample_two_slots.
    rewrite sample_two_slots_length. vm_compute. discriminate. }
  assert (H2 : GBA_SAVE_SIZE <= len sample_long_image).
  { unfold sample_long_image. rewrite len_app, sample_two_slots_length.
    vm_compute. discriminate. }
  assert (H3 : slice (sample_image (sample_slot 3) (sample_slot 7)) 0 (2 * GBA_SLOT_SIZE)
               = slice sample_long_image 0 (2 * GBA_SLOT_SIZE)).
  { unfold sample_image, sample_long_image. rewrite app_assoc.
    change (sample_slot 3 ++ sample_slot 7) with sample_two_slots.
    rewrite !slice_app_prefix by apply sample_two_slots_length. reflexivity. }
  exact (conj H1 (conj H2 (full_image_tail_is_ignored cube_root_floor "save.sav"
                             _ _ H1 H2 H3))).
Defined.

(** ** The name decoder as a function of its window *)

Lemma range_succ (n : nat) :
  range (Z.of_nat (S n)) = 0 :: ((fun i => i + 1) <$> range (Z.of_nat n)).
Proof.
  rewrite !range_eq, !Nat2Z.id. cbn [seq fmap list_fmap]. f_equal.
  rewrite <- fmap_S_seq, <- !list_fmap_compose.
  apply list_fmap_ext. intros _ k _. cbn. lia.
Qed.

Lemma read_gba_string_loop_shift (data : list byte) (offset : Z) (idxs : list Z) :
  _read_gba_string_loop data offset ((fun i => i + 1) <$> idxs)
  = _read_gba_string_loop data (offset + 1) idxs.
Proof.
  induction idxs as [|i idxs IH]; [done |].
  cbn [fmap list_fmap _read_gba_string_loop].
  replace (offset + (i + 1)) with (offset + 1 + i) by lia.
  destruct (decide _); [done |].
  destruct (data !! _); [| done]. destruct (decide _); [done |]. by rewrite IH.
Qed.

Lemma read_gba_string_loop_window (data : list byte) (n : nat) (offset : Z) :
  0 <= offset ->
  _read_gba_string_loop data offset (range (Z.of_nat n))
  = gba_char <$> until_terminator (slice data offset (offset + Z.of_nat n)).
Proof.
  revert offset. induction n as [|n IH]; intros offset Hoff.
  { unfold slice. replace (offset + Z.of_nat 0 - offset) with 0 by lia. done. }
  rewrite range_succ. cbn [_read_gba_string_loop]. rewrite Z.add_0_r.
  unfold slice. replace (Z.to_nat (offset + Z.of_nat (S n) - offset)) with (S n) by lia.
  destruct (decide (offset >= len data)) as [Hout|Hin].
  { rewrite drop_ge by (unfold len in *; lia). done. }
  destruct (data !! Z.to_nat offset) as [b|] eqn:Hb.
  2:{ apply lookup_ge_None in Hb. unfold len in *. lia. }
  rewrite (drop_S _ _ _ Hb). cbn [take until_terminator].
  destruct (decide (byte_to_Z b = 0xFF)); [done |].
  cbn [fmap list_fmap]. f_equal.
  rewrite read_gba_string_loop_shift, IH by lia. unfold slice.
  do 3 f_equal; [lia |]. f_equal. lia.
Qed.

(** X12. [_read_gba_string] is a function of its window alone: for a
    non-negative offset the result is the stripped text of the bytes of
    [data[offset : offset + max_len]] that come before the first 0xFF.
    Bytes after the terminator, bytes past [max_len] and bytes before
    [offset] never influence the name. *)
Theorem read_gba_string_closed_form (data : list byte) (offset max_len : Z) :
  0 <= offset ->
  _read_gba_string data offset max_len
  = strip (join (gba_char <$> until_terminator (slice data offset (offset + max_len)))).
Proof.
  intros Hoff. unfold _read_gba_string. do 2 f_equal.
  destruct (decide (0 <= max_len)) as [Hn|Hn].
  - rewrite <- (Z2Nat.id max_len) by lia. by apply read_gba_string_loop_window.
  - unfold slice, range, range3.
    replace (Z.to_nat ((max_len - 0 + 1 - 1) / 1)) with 0%nat
      by (rewrite Z.div_1_r; lia).
    replace (Z.to_nat (offset + max_len - offset)) with 0%nat by lia. done.
Qed.

Lemma read_gba_string_closed_form_witness :
  0 <= 2
  /\ _read_gba_string [x00; x00; xbc; xbd; x00; xbe; xff; xbf; xc0] 2 10 = "AB C".
Proof.
  assert (H : 0 <= 2) by lia.
  exact (conj H (eq_trans (read_gba_string_closed_form
                             [x00; x00; xbc; xbd; x00; xbe; xff; xbf; xc0] 2 10 H)
                          eq_refl)).
Defined.

(** ** Console records and console saves *)

Lemma parse_pokemon_some_body (data : list byte) (idx : Z) (p : SavedPokemon.t) :
  GCIParser._parse_pokemon data idx = Return (Some p) ->
  0x50 <= len data /\ GCIParser._parse_pokemon_body data idx = Return (Some p).
Proof.
  unfold GCIParser._parse_pokemon. destruct (decide _); [discriminate |].
  unfold try_except_struct_or_index.
  destruct (GCIParser._parse_pokemon_body data idx) as [r|[]]; try done.
  intros [= ->]. split; [lia | done].
Qed.

Lemma parse_pokemon_decoded (data : list byte) (idx : Z) (p : SavedPokemon.t) :
  GCIParser._parse_pokemon data idx = Return (Some p) -> gc_decoded data idx p.
Proof.
  intros H. apply parse_pokemon_some_body in H as [Hlen H].
  unfold GCIParser._parse_pokemon_body in H.
  apply bind_return_inv in H as (sid & Esid & H).
  destruct (decide (sid = 0 ∨ sid > 386)) as [|Hsid]; [discriminate |].
  destruct (decide (len data > 4)); [| lia].
  apply bind_return_inv in H as (level_raw & Elv & H).
  destruct (decide (len data > 8)); [| lia].
  apply bind_return_inv in H as (nature_raw & Enr & H).
  apply bind_return_inv in H as (nature & Enat & H).
  destruct (decide (len data > 16)); [| lia].
  rewrite pyres_bind_assoc in H.
  apply bind_return_inv in H as (flag & Eflag & H). cbn [mbind pyres_bind mret pyres_ret] in H.
  apply bind_return_inv in H as (shadow_raw & Esr & H).
  apply bind_return_inv in H as (nick & Enick & H).
  destruct (decide (len data >= 60)); [| lia].
  rewrite pyres_bind_assoc in H.
  apply bind_return_inv in H as (iv_raw & Eiv & H). cbn [mbind pyres_bind mret pyres_ret] in H.
  apply bind_return_inv in H as (moves & Emoves & H).
  injection H as <-.
  pose proof (unpack_from_return _ _ _ _ Esid) as (_ & _ & Rsid).
  pose proof (byte_at_return _ _ _ Enr) as Rnr.
  assert (0 <= nature_raw mod 25) by (apply Z.mod_pos_bound; lia).
  constructor; cbn [SavedPokemon.slot_index SavedPokemon.species_id SavedPokemon.level
                    SavedPokemon.nature SavedPokemon.is_shadow SavedPokemon.shadow_level
                    SavedPokemon.species_name SavedPokemon.nickname SavedPokemon.moves
                    SavedPokemon.hp_iv SavedPokemon.atk_iv SavedPokemon.def_iv
                    SavedPokemon.spa_iv SavedPokemon.spd_iv SavedPokemon.spe_iv
                    SavedPokemon.hp_ev SavedPokemon.atk_ev SavedPokemon.def_ev
                    SavedPokemon.spa_ev SavedPokemon.spd_ev SavedPokemon.spe_ev
                    SavedPokemon.ot_id SavedPokemon.purification_progress
                    SavedPokemon.ability SavedPokemon.held_item SavedPokemon.ot_name
                    SavedPokemon.gender SavedPokemon.is_shiny].
  - exact Hlen.
  - reflexivity.
  - exact Esid.
  - lia.
  - eauto.
  - exists nature_raw. split; [done |]. by apply getitem_return.
  - eauto.
  - split.
    + intros Hns. destruct (decide (_ ∧ _)) as [[Hs _]|_].
      * congruence.
      * by injection Esr as <-.
    + intros Hs. destruct (decide (_ ∧ _)) as [_|Hn].
      * eauto.
      * exfalso. apply Hn. split; [done | lia].
  - split; [reflexivity |]. eauto.
  - exists iv_raw. split; [done |].
    change (range 6) with [0; 1; 2; 3; 4; 5]. reflexivity.
  - exact Emoves.
  - done.
Qed.

Lemma gc_species_names_nonempty :
  Forall (fun kv : Z * string => kv.2 <> "") GCIParser.SPECIES.
Proof. apply (bool_decide_unpack _). vm_compute. exact I. Qed.

Lemma gc_species_name_nonempty (sid : Z) : GCIParser.species_name sid <> "".
Proof.
  unfold GCIParser.species_name.
  destruct (dict_get GCIParser.SPECIES sid) as [name|] eqn:E; cbn [default].
  - apply dict_get_elem in E.
    exact (proj1 (Forall_forall _ _) gc_species_names_nonempty _ E).
  - discriminate.
Qed.

Lemma moves_loop_length (data : list byte) (ms : list Z) (moves : list string) :
  GCIParser.moves_loop data ms = Return moves -> (length moves <= length ms)%nat.
Proof.
  revert moves. induction ms as [|m ms IH]; intros moves; cbn [GCIParser.moves_loop].
  { intros [= <-]. done. }
  intros H. apply bind_return_inv in H as (here & Ehere & H).
  apply bind_return_inv in H as (rest & Erest & H). injection H as <-.
  specialize (IH rest Erest). rewrite length_app. cbn [length].
  assert (length here <= 1)%nat; [| lia].
  destruct (decide _).
  - apply bind_return_inv in Ehere as (mid & _ & Ehere). injection Ehere as <-.
    destruct (decide _); cbn; lia.
  - injection Ehere as <-. cbn. lia.
Qed.

(** X13. Every record the console codec returns has its position as slot
    index, a species in 1..386, a level in 1..100, a shadow level in 0..5
    that is 0 unless the shadow flag is set, six IVs in 0..31, a nature
    from the table, at most four moves and a non-empty nickname.  Such a
    record passes [check_gcn_to_gba] exactly when its shadow flag is
    clear. *)
Theorem gc_record_invariants (data : list byte) (idx : Z) (p : SavedPokemon.t) :
  GCIParser._parse_pokemon data idx = Return (Some p) ->
  SavedPokemon.slot_index p = idx
  /\ 1 <= SavedPokemon.species_id p <= 386
  /\ 1 <= SavedPokemon.level p <= 100
  /\ 0 <= SavedPokemon.shadow_level p <= 5
  /\ (SavedPokemon.is_shadow p = false -> SavedPokemon.shadow_level p = 0)
  /\ Forall (fun iv => 0 <= iv <= 31)
       [SavedPokemon.hp_iv p; SavedPokemon.atk_iv p; SavedPokemon.def_iv p;
        SavedPokemon.spa_iv p; SavedPokemon.spd_iv p; SavedPokemon.spe_iv p]
  /\ SavedPokemon.nature p ∈ NATURES
  /\ (length (SavedPokemon.moves p) <= 4)%nat
  /\ SavedPokemon.nickname p <> ""
  /\ (GBACompatibilityChecker.check_gcn_to_gba (SavedPokemon.species_id p)
        (SavedPokemon.is_shadow p) false (SavedPokemon.level p)).1
     = negb (SavedPokemon.is_shadow p).
Proof.
  intros H. apply parse_pokemon_decoded in H.
  destruct H as [_ Hslot _ Hsp (lr & _ & Hlv) (nr & _ & Hnat) _ [Hsl0 Hsl1]
                   (Hsn & nick & _ & Hnick) (iv_raw & _ & Hivs) Hmoves _].
  split; [exact Hslot |]. split; [exact Hsp |]. split; [lia |].
  split.
  { destruct (SavedPokemon.is_shadow p).
    - destruct (Hsl1 eq_refl) as (sr & _ & ->). lia.
    - rewrite Hsl0 by done. lia. }
  split; [exact Hsl0 |]. split.
  { cbn [fmap list_fmap] in Hivs. injection Hivs as -> -> -> -> -> ->.
    repeat constructor;
      match goal with
      | |- _ (Z.land ?x 31) =>
          pose proof (land_low_range x 5 ltac:(lia)) as R;
          change (Z.ones 5) with 31 in R; change (2 ^ 5) with 32 in R; lia
      | |- _ <= Z.land ?x 31 =>
          pose proof (land_low_range x 5 ltac:(lia)) as R;
          change (Z.ones 5) with 31 in R; change (2 ^ 5) with 32 in R; lia
      | |- Z.land ?x 31 <= _ =>
          pose proof (land_low_range x 5 ltac:(lia)) as R;
          change (Z.ones 5) with 31 in R; change (2 ^ 5) with 32 in R; lia
      end. }
  split; [by eapply list_elem_of_lookup_2 |].
  split.
  { apply moves_loop_length in Hmoves. rewrite range_eq in Hmoves.
    rewrite length_fmap, length_seq in Hmoves. exact Hmoves. }
  split.
  { rewrite Hnick. apply str_or_nonempty. rewrite Hsn. apply gc_species_name_nonempty. }
  unfold GBACompatibilityChecker.check_gcn_to_gba.
  destruct (SavedPokemon.is_shadow p); [reflexivity |].
  destruct (decide (_ ∨ _)); [lia | reflexivity].
Qed.

Lemma gc_record_invariants_witness :
  exists p, GCIParser._parse_pokemon (sample_gc_record 386) 3 = Return (Some p)
            /\ SavedPokemon.slot_index p = 3
            /\ 1 <= SavedPokemon.level p <= 100.
Proof.
  destruct (GCIParser._parse_pokemon (sample_gc_record 386) 3) as [[p|]|] eqn:E;
    [| vm_compute in E; discriminate E ..].
  exists p. pose proof (gc_record_invariants _ _ _ E) as (Hs & _ & Hl & _).
  exact (conj eq_refl (conj Hs Hl)).
Defined.

(** ** Console saves: names, trainer block, party, file framing *)

Lemma chars_join_singletons (cs : list string) :
  Forall (fun c => String.length c = 1%nat) cs -> chars (join cs) = cs.
Proof.
  induction 1 as [|c cs Hc _ IH]; [done |].
  destruct c as [|a [|b c]]; try discriminate.
  change (join (String a "" :: cs)) with (String a (join cs)).
  cbn [chars]. by rewrite IH.
Qed.

Lemma join_singletons_length (cs : list string) :
  Forall (fun c => String.length c = 1%nat) cs -> String.length (join cs) = length cs.
Proof.
  induction 1 as [|c cs Hc _ IH]; [done |].
  destruct c as [|a [|b c]]; try discriminate.
  change (join (String a "" :: cs)) with (String a (join cs)).
  cbn [String.length length]. by rewrite IH.
Qed.

Lemma gc_str_loop_inv (data : list byte) (offset : Z) (idxs : list Z) :
  0 <= offset -> Forall (fun i => 0 <= i) idxs ->
  exists cs,
    GCIParser._gc_str_loop data offset idxs = Return cs
    /\ (length cs <= length idxs)%nat
    /\ Forall (fun c => c = "?"
                 \/ exists code,
                      (0x41 <= code <= 0x5A \/ 0x61 <= code <= 0x7A \/ 0x30 <= code <= 0x39)
                      /\ c = GCIParser.chr code) cs.
Proof.
  intros Hoff. induction 1 as [|i idxs Hi _ (cs & E & Hl & Hc)];
    cbn [GCIParser._gc_str_loop].
  { exists []. repeat split; constructor. }
  destruct (decide (offset + i * 2 + 1 >= len data)).
  { exists []. repeat split; [cbn; lia | constructor]. }
  destruct (unpack_from_value struct.BE_H data (offset + i * 2)) as (code & -> & _);
    [lia | simpl; lia |].
  cbn [mbind pyres_bind]. destruct (decide (code = 0)).
  { exists []. repeat split; [cbn; lia | constructor]. }
  rewrite E. cbn [mbind pyres_bind mret pyres_ret].
  eexists. split; [reflexivity |]. split; [cbn; lia |].
  constructor; [| exact Hc]. destruct (decide _) as [Hcode|_]; [| by left].
  right. exists code. done.
Qed.

(** X14. [_gc_str] returns for every non-negative offset.  The name it
    reads has at most [max_len] characters, and each of them is an ASCII
    letter, an ASCII digit or the question mark that stands for every other
    code. *)
Theorem gc_str_alphabet (data : list byte) (offset max_len : Z) :
  0 <= offset ->
  exists s,
    GCIParser._gc_str data offset max_len = Return s
    /\ Z.of_nat (String.length s) <= Z.max 0 max_len
    /\ forall c, c ∈ chars s ->
         c = "?"
         \/ exists code,
              (0x41 <= code <= 0x5A \/ 0x61 <= code <= 0x7A \/ 0x30 <= code <= 0x39)
              /\ c = GCIParser.chr code.
Proof.
  intros Hoff. unfold GCIParser._gc_str.
  destruct (gc_str_loop_inv data offset (range max_len) Hoff
              (proj1 (range_sorted_nonneg _))) as (cs & -> & Hl & Hc).
  cbn [mbind pyres_bind mret pyres_ret]. eexists. split; [reflexivity |].
  assert (Hone : Forall (fun c => String.length c = 1%nat) cs).
  { eapply Forall_impl; [exact Hc |]. intros c [->|(code & _ & ->)]; done. }
  split.
  - rewrite join_singletons_length by done.
    pose proof (range_length max_len) as Hr. unfold len in Hr. lia.
  - rewrite chars_join_singletons by done. intros c Hin.
    exact (proj1 (Forall_forall _ _) Hc c Hin).
Qed.

Lemma gc_str_alphabet_witness :
  0 <= 2 /\ exists s, GCIParser._gc_str (sample_gc_record 386) 2 8 = Return s
                      /\ Z.of_nat (String.length s) <= Z.max 0 8.
Proof.
  assert (H : 0 <= 2) by lia.
  destruct (gc_str_alphabet (sample_gc_record 386) 2 8 H) as (s & E & Hl & _).
  exact (conj H (ex_intro _ s (conj E Hl))).
Defined.

Lemma trainer_info_inv (data : list byte) (name_off id_off time_off : Z) :
  0 <= name_off -> 0 <= id_off -> 0 <= time_off ->
  exists name tid ph pm,
    GCISlotParser._trainer_info data name_off id_off time_off
    = Return (name, tid, ph, pm)
    /\ name <> ""
    /\ 0 <= tid < 2 ^ 16 /\ 0 <= ph < 2 ^ 16 /\ 0 <= pm < 256
    /\ (len data <= name_off + 16 -> name = "Trainer")
    /\ (len data <= id_off + 4 -> tid = 0)
    /\ (len data <= time_off + 4 -> ph = 0 /\ pm = 0).
Proof.
  intros Hn Hi Ht. unfold GCISlotParser._trainer_info.
  assert (Hname : exists name,
            (if decide (len data > name_off + 16)
             then s ← GCIParser._gc_str data name_off 8; mret (str_or s "Trainer")
             else mret "Trainer") = Return name
            /\ name <> "" /\ (len data <= name_off + 16 -> name = "Trainer")).
  { destruct (decide _).
    - destruct (gc_str_ok data name_off 8 Hn) as (s & ->).
      cbn [mbind pyres_bind mret pyres_ret]. eexists. split; [reflexivity |].
      split; [by apply str_or_nonempty | lia].
    - exists "Trainer". done. }
  destruct Hname as (name & -> & Hne & Hdef).
  assert (Htid : exists tid,
            (if decide (len data > id_off + 4)
             then w ← struct.unpack_from struct.BE_I data id_off;
                  mret (Z.land w 0xFFFF)
             else mret 0) = Return tid
            /\ 0 <= tid < 2 ^ 16 /\ (len data <= id_off + 4 -> tid = 0)).
  { destruct (decide _).
    - destruct (unpack_from_value struct.BE_I data id_off) as (w & -> & _);
        [lia | simpl; lia |].
      cbn [mbind pyres_bind mret pyres_ret]. eexists. split; [reflexivity |].
      split; [apply (land_low_range w 16); lia | lia].
    - exists 0. repeat split; lia. }
  destruct Htid as (tid & -> & Rtid & Htid0).
  assert (Htime : exists ph pm,
            (if decide (len data > time_off + 4)
             then t ← struct.unpack_from struct.BE_I data time_off;
                  mret (Z.land (Z.shiftr t 16) 0xFFFF, Z.land (Z.shiftr t 8) 0xFF)
             else mret (0, 0)) = Return (ph, pm)
            /\ 0 <= ph < 2 ^ 16 /\ 0 <= pm < 256
            /\ (len data <= time_off + 4 -> ph = 0 /\ pm = 0)).
  { destruct (decide _).
    - destruct (unpack_from_value struct.BE_I data time_off) as (t & -> & _);
        [lia | simpl; lia |].
      cbn [mbind pyres_bind mret pyres_ret]. do 2 eexists. split; [reflexivity |].
      split; [apply (land_low_range _ 16); lia |].
      split; [apply (land_low_range _ 8); lia | lia].
    - exists 0, 0. repeat split; lia. }
  destruct Htime as (ph & pm & -> & Rph & Rpm & Htime0).
  exists name, tid, ph, pm. done.
Qed.

Lemma gc_append_elem (acc : list SavedPokemon.t) (r : option SavedPokemon.t)
    (p : SavedPokemon.t) :
  p ∈ GCISlotParser.append_if_present acc r -> p ∈ acc \/ r = Some p.
Proof.
  destruct r as [q|]; cbn [GCISlotParser.append_if_present]; [| auto].
  destruct (decide _); [| auto].
  rewrite elem_of_app, list_elem_of_singleton. intros [?| ->]; auto.
Qed.

Lemma gc_parse_pokemon_never_raises (data : list byte) (idx : Z) :
  exists r, GCIParser._parse_pokemon data idx = Return r.
Proof.
  unfold GCIParser._parse_pokemon. destruct (decide _); [by eexists |].
  unfold try_except_struct_or_index.
  destruct (GCIParser._parse_pokemon_body data idx) as [r|[]]; by eexists.
Qed.

(** What the loop of the console [_parse_party] returns: the slot indices
    of the records it keeps are a sub-sequence of the positions it was
    given. *)
Lemma gc_parse_party_loop_inv (data : list byte) (offset poke_size : Z) (idxs : list Z) :
  forall acc, exists r new,
    GCISlotParser._parse_party_loop data offset poke_size idxs acc = Return r
    /\ r = acc ++ new
    /\ SavedPokemon.slot_index <$> new `sublist_of` idxs
    /\ forall p, p ∈ new ->
         exists window,
           GCIParser._parse_pokemon window (SavedPokemon.slot_index p) = Return (Some p).
Proof.
  induction idxs as [|i idxs IH]; intros acc; cbn [GCISlotParser._parse_party_loop].
  { exists acc, []. rewrite app_nil_r. repeat split; [constructor |].
    by intros p ?%elem_of_nil. }
  destruct (decide _).
  { exists acc, []. rewrite app_nil_r. repeat split; [apply sublist_nil_l |].
    by intros p ?%elem_of_nil. }
  set (window := slice data (offset + i * poke_size) (offset + i * poke_size + poke_size)).
  destruct (gc_parse_pokemon_never_raises window i) as (rec & Erec).
  rewrite Erec. cbn [mbind pyres_bind].
  destruct (IH (GCISlotParser.append_if_present acc rec)) as (r & new & -> & -> & Hsub & Hrec).
  destruct rec as [q|]; cbn [GCISlotParser.append_if_present].
  2:{ exists (acc ++ new), new. repeat split; [by apply sublist_cons | exact Hrec]. }
  destruct (decide _).
  2:{ exists (acc ++ new), new. repeat split; [by apply sublist_cons | exact Hrec]. }
  pose proof (gc_slot _ _ _ (parse_pokemon_decoded _ _ _ Erec)) as Hq.
  exists ((acc ++ [q]) ++ new), (q :: new). split; [reflexivity |].
  split; [by rewrite <- app_assoc |]. split.
  - cbn [fmap list_fmap]. rewrite Hq. by apply sublist_skip.
  - intros p [->|Hp]%elem_of_cons; [| by apply Hrec].
    exists window. by rewrite Hq.
Qed.

Lemma from_bytes_header (data : list byte) :
  len data = GCI_HEADER_SIZE ->
  exists header,
    GCIHeader.from_bytes data = inr header
    /\ GCIHeader.raw_header header = data
    /\ GCIHeader.game_id header = slice data 0 4
    /\ GCIHeader.maker_code header = slice data 4 6
    /\ 0 <= GCIHeader.modified_time header < 2 ^ 32
    /\ 0 <= GCIHeader.block_count header < 2 ^ 16
    /\ 0 <= GCIHeader.file_size header < 2 ^ 32.
Proof.
  intros Hlen. unfold GCIHeader.from_bytes, GCI_HEADER_SIZE in *.
  destruct (decide _); [lia |].
  destruct (unpack_from_value struct.BE_I data 0x28) as (mt & -> & Rmt);
    [lia | simpl; lia |].
  destruct (unpack_from_value struct.BE_H data 0x38) as (bc & -> & Rbc);
    [lia | simpl; lia |].
  destruct (unpack_from_value struct.BE_I data 0x3C) as (fs & -> & Rfs);
    [lia | simpl; lia |].
  cbn [mbind pyres_bind mret pyres_ret].
  eexists. split; [reflexivity |].
  cbn [GCIHeader.raw_header GCIHeader.game_id GCIHeader.maker_code
       GCIHeader.modified_time GCIHeader.block_count GCIHeader.file_size].
  split; [rewrite <- Hlen; apply slice_all |]. done.
Qed.

Lemma parse_save_inv (header : GCIHeader.t) (data : list byte) :
  exists slot,
    GCISlotParser._parse_save header data = Return slot
    /\ MemoryCardSlot.raw_data slot = data
    /\ MemoryCardSlot.game slot = GCIHeader.detected_game header
    /\ MemoryCardSlot.slot_index slot = 0
    /\ MemoryCardSlot.status slot = OCCUPIED
    /\ MemoryCardSlot.boxes slot = []
    /\ MemoryCardSlot.purif_chamber slot = []
    /\ MemoryCardSlot.trainer_name slot <> ""
    /\ 0 <= MemoryCardSlot.trainer_id slot < 2 ^ 16
    /\ 0 <= MemoryCardSlot.play_time_h slot < 2 ^ 16
    /\ 0 <= MemoryCardSlot.play_time_m slot < 256
    /\ (MemoryCardSlot.checksum_ok slot = true
        <-> MemoryCardSlot.game slot = COLOSSEUM \/ MemoryCardSlot.game slot = XD_GALE)
    /\ (MemoryCardSlot.checksum_ok slot = false ->
        MemoryCardSlot.party slot = [] /\ MemoryCardSlot.trainer_name slot = "Unknown")
    /\ SavedPokemon.slot_index <$> MemoryCardSlot.party slot `sublist_of` range 6
    /\ forall p, p ∈ MemoryCardSlot.party slot ->
         exists window,
           GCIParser._parse_pokemon window (SavedPokemon.slot_index p) = Return (Some p).
Proof.
  unfold GCISlotParser._parse_save.
  destruct (decide (GCIHeader.detected_game header = COLOSSEUM)) as [Hc|Hc].
  { unfold GCISlotParser._parse_colosseum.
    destruct (trainer_info_inv data GCISlotParser.COLO_TRAINER_NAME
                GCISlotParser.COLO_TRAINER_ID GCISlotParser.COLO_PLAY_TIME)
      as (name & tid & ph & pm & -> & Hname & Rtid & Rph & Rpm & _); [done .. |].
    cbn [mbind pyres_bind]. unfold GCISlotParser._parse_party.
    destruct (gc_parse_party_loop_inv data GCISlotParser.COLO_PARTY
                GCISlotParser.COLO_POKE_SIZE (range COLOSSEUM_PARTY_SIZE) [])
      as (r & new & -> & -> & Hsub & Hrec).
    cbn [mbind pyres_bind mret pyres_ret app]. eexists. split; [reflexivity |].
    cbn [MemoryCardSlot.raw_data MemoryCardSlot.game MemoryCardSlot.slot_index
         MemoryCardSlot.status MemoryCardSlot.boxes MemoryCardSlot.purif_chamber
         MemoryCardSlot.trainer_name MemoryCardSlot.trainer_id
         MemoryCardSlot.play_time_h MemoryCardSlot.play_time_m
         MemoryCardSlot.checksum_ok MemoryCardSlot.party].
    split_and!; try done; try lia. split; [by left | done]. }
  destruct (decide (GCIHeader.detected_game header = XD_GALE)) as [Hx|Hx].
  { unfold GCISlotParser._parse_xd.
    destruct (trainer_info_inv data GCISlotParser.XD_TRAINER_NAME
                GCISlotParser.XD_TRAINER_ID GCISlotParser.XD_PLAY_TIME)
      as (name & tid & ph & pm & -> & Hname & Rtid & Rph & Rpm & _); [done .. |].
    cbn [mbind pyres_bind]. unfold GCISlotParser._parse_party.
    destruct (gc_parse_party_loop_inv data GCISlotParser.XD_PARTY
                GCISlotParser.XD_POKE_SIZE (range XD_PARTY_SIZE) [])
      as (r & new & -> & -> & Hsub & Hrec).
    cbn [mbind pyres_bind mret pyres_ret app]. eexists. split; [reflexivity |].
    cbn [MemoryCardSlot.raw_data MemoryCardSlot.game MemoryCardSlot.slot_index
         MemoryCardSlot.status MemoryCardSlot.boxes MemoryCardSlot.purif_chamber
         MemoryCardSlot.trainer_name MemoryCardSlot.trainer_id
         MemoryCardSlot.play_time_h MemoryCardSlot.play_time_m
         MemoryCardSlot.checksum_ok MemoryCardSlot.party].
    split_and!; try done; try lia. split; [by right | done]. }
  eexists. split; [reflexivity |].
  cbn [MemoryCardSlot.raw_data MemoryCardSlot.game MemoryCardSlot.slot_index
       MemoryCardSlot.status MemoryCardSlot.boxes MemoryCardSlot.purif_chamber
       MemoryCardSlot.trainer_name MemoryCardSlot.trainer_id
       MemoryCardSlot.play_time_h MemoryCardSlot.play_time_m
       MemoryCardSlot.checksum_ok MemoryCardSlot.party].
  split_and!; try done; try lia.
  - split; [done |]. by intros [?|?].
  - apply sublist_nil_l.
  - by intros p ?%elem_of_nil.
Qed.

Lemma parse_gci_file_inv (raw : list byte) :
  exists r,
    GCISlotParser.parse_gci_file raw = Return r
    /\ (r = None <-> len raw < GCI_HEADER_SIZE)
    /\ forall header slot, r = Some (header, slot) ->
         GCIHeader.from_bytes (slice raw 0 GCI_HEADER_SIZE) = inr header
         /\ GCISlotParser._parse_save header (drop (Z.to_nat GCI_HEADER_SIZE) raw)
            = Return slot
         /\ GCIHeader.raw_header header ++ MemoryCardSlot.raw_data slot = raw
         /\ len (GCIHeader.raw_header header) = GCI_HEADER_SIZE
         /\ GCIHeader.game_id header = slice raw 0 4.
Proof.
  unfold GCISlotParser.parse_gci_file.
  destruct (decide (len raw < GCI_HEADER_SIZE)) as [Hs|Hl].
  { exists None. split; [reflexivity |]. split; [done | discriminate]. }
  assert (Hlen : len (slice raw 0 GCI_HEADER_SIZE) = GCI_HEADER_SIZE).
  { unfold GCI_HEADER_SIZE in *. rewrite len_slice; lia. }
  destruct (from_bytes_header _ Hlen) as (header & E & Hraw & Hid & _).
  rewrite E.
  destruct (parse_save_inv header (drop (Z.to_nat GCI_HEADER_SIZE) raw))
    as (slot & Es & Hdata & _).
  rewrite Es. cbn [mbind pyres_bind mret pyres_ret].
  eexists. split; [reflexivity |]. split; [split; [discriminate | lia] |].
  intros header' slot' [= <- <-]. split; [reflexivity |]. split; [exact Es |].
  rewrite Hraw, Hdata. split.
  { unfold slice. change (Z.to_nat 0) with 0%nat. rewrite drop_0, Z.sub_0_r.
    apply take_drop. }
  split; [exact Hlen |].
  rewrite Hid. apply slice_of_prefix; unfold GCI_HEADER_SIZE; lia.
Qed.

(** X15. [parse_gci_file] returns for every byte string, and fails
    exactly for files shorter than the 64-byte header.  On success the
    header's raw bytes followed by the slot's raw data are the file again,
    the game id is the first four bytes, and the slot is occupied, has
    index 0, no boxes, the game the header detects, a non-empty trainer
    name, and [checksum_ok] set exactly for Colosseum and XD; for any other
    game there is no party and the trainer is "Unknown". *)
Theorem parse_gci_file_framing (raw : list byte) :
  exists r,
    GCISlotParser.parse_gci_file raw = Return r
    /\ (r = None <-> len raw < GCI_HEADER_SIZE)
    /\ forall header slot, r = Some (header, slot) ->
         GCIHeader.raw_header header ++ MemoryCardSlot.raw_data slot = raw
         /\ len (GCIHeader.raw_header header) = GCI_HEADER_SIZE
         /\ GCIHeader.game_id header = slice raw 0 4
         /\ MemoryCardSlot.game slot = GCIHeader.detected_game header
         /\ MemoryCardSlot.slot_index slot = 0
         /\ MemoryCardSlot.status slot = OCCUPIED
         /\ MemoryCardSlot.boxes slot = []
         /\ MemoryCardSlot.trainer_name slot <> ""
         /\ (MemoryCardSlot.checksum_ok slot = true
             <-> MemoryCardSlot.game slot = COLOSSEUM
                 \/ MemoryCardSlot.game slot = XD_GALE)
         /\ (MemoryCardSlot.checksum_ok slot = false ->
             MemoryCardSlot.party slot = []
             /\ MemoryCardSlot.trainer_name slot = "Unknown").
Proof.
  destruct (parse_gci_file_inv raw) as (r & E & Hnone & Hsome).
  exists r. split; [exact E |]. split; [exact Hnone |].
  intros header slot Hr.
  destruct (Hsome header slot Hr) as (_ & Es & Hcat & Hlen & Hid).
  destruct (parse_save_inv header (drop (Z.to_nat GCI_HEADER_SIZE) raw))
    as (slot' & Es' & _ & Hgame & Hidx & Hst & Hbox & _ & Hname & _ & _ & _ & Hck & Hun & _).
  rewrite Es in Es'. injection Es' as <-. done.
Qed.

(** X16. The party of a console save holds at most six records; their
    slot indices are distinct positions 0..5 in increasing order, and each
    record satisfies the invariants of the console codec: species 1..386,
    level 1..100, shadow level 0..5. *)
Theorem parse_gci_party_records (raw : list byte) (header : GCIHeader.t)
    (slot : MemoryCardSlot.t) :
  GCISlotParser.parse_gci_file raw = Return (Some (header, slot)) ->
  len (MemoryCardSlot.party slot) <= 6
  /\ SavedPokemon.slot_index <$> MemoryCardSlot.party slot `sublist_of` range 6
  /\ Forall (fun p => 1 <= SavedPokemon.species_id p <= 386
                      /\ 1 <= SavedPokemon.level p <= 100
                      /\ 0 <= SavedPokemon.shadow_level p <= 5)
       (MemoryCardSlot.party slot).
Proof.
  intros E. destruct (parse_gci_file_inv raw) as (r & E' & _ & Hsome).
  rewrite E in E'. injection E' as <-.
  destruct (Hsome header slot eq_refl) as (_ & Es & _).
  destruct (parse_save_inv header (drop (Z.to_nat GCI_HEADER_SIZE) raw))
    as (slot' & Es' & _ & _ & _ & _ & _ & _ & _ & _ & _ & _ & _ & _ & Hsub & Hrec).
  rewrite Es in Es'. injection Es' as <-.
  split.
  { apply sublist_length in Hsub. rewrite length_fmap in Hsub.
    pose proof (range_length 6) as H6. unfold len in *. lia. }
  split; [exact Hsub |].
  apply Forall_forall. intros p Hp. destruct (Hrec p Hp) as (window & Hdec).
  apply parse_pokemon_decoded in Hdec.
  destruct Hdec as [_ _ _ Hsp (lr & _ & Hlv) _ _ [Hsl0 Hsl1] _ _ _ _].
  split; [exact Hsp |]. split; [lia |].
  destruct (SavedPokemon.is_shadow p).
  - destruct (Hsl1 eq_refl) as (sr & _ & ->). lia.
  - rewrite Hsl0 by done. lia.
Qed.

(** ** The game tables of the console header *)

(** X17. The two game tables of the console header agree: a game id is
    given a display name from [KNOWN_GAME_IDS] exactly when
    [detected_game] recognises it, the name is the one of the detected
    game, and every other id is shown as "Unknown (...)" with the [repr]
    of its bytes. *)
Theorem known_game_ids_match_detected_game (header : GCIHeader.t) :
  (GCIHeader.detected_game header = UNKNOWN
   <-> bytes_dict_get KNOWN_GAME_IDS (GCIHeader.game_id header) = None)
  /\ match GCIHeader.detected_game header with
     | COLOSSEUM =>
         exists region, GCIHeader.game_name header
                        = "Pokemon Colosseum (" +:+ region +:+ ")"
     | XD_GALE =>
         exists region, GCIHeader.game_name header
                        = "Pokemon XD: Gale of Darkness (" +:+ region +:+ ")"
     | POKEMON_BOX =>
         exists region, GCIHeader.game_name header
                        = "Pokemon Box: Ruby & Sapphire (" +:+ region +:+ ")"
     | UNKNOWN =>
         GCIHeader.game_name header
         = "Unknown (" +:+ bytes_repr (GCIHeader.game_id header) +:+ ")"
     end.
Proof.
  unfold GCIHeader.detected_game, GCIHeader.game_name.
  destruct (decide (_ ∈ [GC6E; GC6J; GC6P])) as [Hc|Hc].
  { split; [split; [done |] |].
    - set_unfold. destruct Hc as [->|[->|[->|[]]]]; discriminate.
    - set_unfold. destruct Hc as [->|[->|[->|[]]]];
        [exists "US" | exists "JP" | exists "EU"]; reflexivity. }
  destruct (decide (_ ∈ [GXXE; GXXJ; GXXP])) as [Hx|Hx].
  { split; [split; [done |] |].
    - set_unfold. destruct Hx as [->|[->|[->|[]]]]; discriminate.
    - set_unfold. destruct Hx as [->|[->|[->|[]]]];
        [exists "US" | exists "JP" | exists "EU"]; reflexivity. }
  destruct (decide (_ ∈ [GPXE; GPXJ])) as [Hb|Hb].
  { split; [split; [done |] |].
    - set_unfold. destruct Hb as [->|[->|[]]]; discriminate.
    - set_unfold. destruct Hb as [->|[->|[]]];
        [exists "US" | exists "JP"]; reflexivity. }
  assert (Hnone : bytes_dict_get KNOWN_GAME_IDS (GCIHeader.game_id header) = None).
  { set_unfold. unfold KNOWN_GAME_IDS, bytes_dict_get.
    repeat (destruct (decide _) as [Heq|_]; [tauto |]). reflexivity. }
  rewrite Hnone. done.
Qed.

(** ** Slots of a memory card *)

Section keyed_lists.
Context {A : Type} (P : A -> Prop) `{!forall x, Decision (P x)}.

Lemma find_snd_cons (x : A) (l : list A) :
  snd <$> list_find P (x :: l) = if decide (P x) then Some x else snd <$> list_find P l.
Proof.
  cbn. destruct (decide (P x)); [done |]. by destruct (list_find P l) as [[i y]|].
Qed.

Lemma find_snd_app_skip (l1 l2 : list A) (x : A) :
  ~ P x -> snd <$> list_find P (l1 ++ x :: l2) = snd <$> list_find P (l1 ++ l2).
Proof.
  intros Hx. induction l1 as [|y l1 IH]; cbn [app].
  - rewrite find_snd_cons. by destruct (decide (P x)).
  - rewrite !find_snd_cons. by destruct (decide (P y)).
Qed.

Lemma find_snd_app_hit (l1 l2 : list A) (x : A) :
  Forall (fun y => ~ P y) l1 -> P x -> snd <$> list_find P (l1 ++ x :: l2) = Some x.
Proof.
  intros Hall Hx. induction Hall as [|y l1 Hy _ IH]; cbn [app]; rewrite find_snd_cons.
  - by destruct (decide (P x)).
  - by destruct (decide (P y)).
Qed.

Lemma find_snd_none (l : list A) :
  Forall (fun y => ~ P y) l -> snd <$> list_find P l = None.
Proof. intros Hall. by rewrite (proj2 (list_find_None P l) Hall). Qed.

Lemma list_find_split (l : list A) (i : nat) (x : A) :
  list_find P l = Some (i, x) ->
  exists pre post, l = pre ++ x :: post /\ length pre = i
                   /\ Forall (fun y => ~ P y) pre /\ P x
                   /\ (forall y, <[i := y]> l = pre ++ y :: post)
                   /\ delete i l = pre ++ post.
Proof.
  intros (Hi & Hx & Hleast)%list_find_Some.
  exists (take i l), (drop (S i) l).
  pose proof (lookup_lt_Some _ _ _ Hi) as Hlt.
  split; [by rewrite take_drop_middle |].
  split; [rewrite length_take; lia |].
  split.
  { apply Forall_lookup. intros j y Hj.
    apply lookup_take_Some in Hj as [Hj ?]. by apply (Hleast j y). }
  split; [exact Hx |]. split.
  - intros y. by rewrite insert_take_drop.
  - by rewrite delete_take_drop.
Qed.

End keyed_lists.

(** The slot list after [add_slot]: the first slot with the same index is
    replaced in place, or the new slot is appended. *)
Lemma add_slot_cases (now : string) (card : MemoryCard.t) (slot : MemoryCardSlot.t) :
  let index := MemoryCardSlot.slot_index slot in
  let slots' := MemoryCard.slots (MemoryCard.add_slot now card slot).2 in
  (MemoryCard.add_slot now card slot).1 = true
  /\ (MemoryCard.add_slot now card slot).2
     = MemoryCard.touch card slots' now
  /\ ((exists pre old post,
         MemoryCard.slots card = pre ++ old :: post
         /\ Forall (fun s => MemoryCardSlot.slot_index s <> index) pre
         /\ MemoryCardSlot.slot_index old = index
         /\ slots' = pre ++ slot :: post)
      \/ (Forall (fun s => MemoryCardSlot.slot_index s <> index) (MemoryCard.slots card)
          /\ slots' = MemoryCard.slots card ++ [slot])).
Proof.
  cbv zeta. unfold MemoryCard.add_slot.
  destruct (list_find _ (MemoryCard.slots card)) as [[i old]|] eqn:E.
  - apply list_find_split in E as (pre & post & Hl & _ & Hpre & Hold & Hins & _).
    cbn [fst snd MemoryCard.slots MemoryCard.touch]. split; [done |]. split; [done |].
    left. exists pre, old, post. by rewrite Hins.
  - apply list_find_None in E.
    cbn [fst snd MemoryCard.slots MemoryCard.touch]. split; [done |]. split; [done |].
    right. done.
Qed.

Lemma remove_slot_cases (now : string) (card : MemoryCard.t) (index : Z) :
  (exists pre old post,
     MemoryCard.slots card = pre ++ old :: post
     /\ Forall (fun s => MemoryCardSlot.slot_index s <> index) pre
     /\ MemoryCardSlot.slot_index old = index
     /\ MemoryCard.remove_slot now card index
        = (true, MemoryCard.touch card (pre ++ post) now))
  \/ (Forall (fun s => MemoryCardSlot.slot_index s <> index) (MemoryCard.slots card)
      /\ MemoryCard.remove_slot now card index = (false, card)).
Proof.
  unfold MemoryCard.remove_slot.
  destruct (list_find _ (MemoryCard.slots card)) as [[i old]|] eqn:E.
  - apply list_find_split in E as (pre & post & Hl & _ & Hpre & Hold & _ & Hdel).
    left. exists pre, old, post. by rewrite Hdel.
  - apply list_find_None in E. right. done.
Qed.

Lemma get_slot_touch (card : MemoryCard.t) (slots' : list MemoryCardSlot.t)
    (now : string) (index : Z) :
  MemoryCard.get_slot (MemoryCard.touch card slots' now) index
  = snd <$> list_find (fun s => MemoryCardSlot.slot_index s = index) slots'.
Proof. reflexivity. Qed.

Lemma add_slot_lookup (now : string) (card : MemoryCard.t) (slot : MemoryCardSlot.t) :
  MemoryCard.get_slot (MemoryCard.add_slot now card slot).2
    (MemoryCardSlot.slot_index slot) = Some slot
  /\ (forall index, index <> MemoryCardSlot.slot_index slot ->
        MemoryCard.get_slot (MemoryCard.add_slot now card slot).2 index
        = MemoryCard.get_slot card index).
Proof.
  destruct (add_slot_cases now card slot) as (_ & Hcard & Hcases).
  cbv zeta in Hcard, Hcases. split.
  - rewrite Hcard, get_slot_touch.
    destruct Hcases as [(pre & old & post & Hl & Hpre & Hold & ->)|(Hall & ->)];
      by apply find_snd_app_hit.
  - intros index Hne. rewrite Hcard, get_slot_touch. unfold MemoryCard.get_slot.
    destruct Hcases as [(pre & old & post & Hl & Hpre & Hold & ->)|(Hall & ->)].
    + rewrite Hl, !find_snd_app_skip; [done | |]; congruence.
    + rewrite find_snd_app_skip by congruence. by rewrite app_nil_r.
Qed.

(** X18. [add_slot] always answers True and stamps the card.  Afterwards
    [get_slot] at the new slot's index returns exactly the new slot,
    every other index resolves as before, and the card has one slot more
    unless a slot with that index was there, in which case the first such
    slot was replaced in place: the slots before and after it stay as
    they were.  Otherwise the new slot is appended at the end.  There is
    no capacity limit. *)
Theorem add_slot_then_get_slot (now : string) (card : MemoryCard.t)
    (slot : MemoryCardSlot.t) :
  let card' := (MemoryCard.add_slot now card slot).2 in
  (MemoryCard.add_slot now card slot).1 = true
  /\ MemoryCard.get_slot card' (MemoryCardSlot.slot_index slot) = Some slot
  /\ (forall index, index <> MemoryCardSlot.slot_index slot ->
        MemoryCard.get_slot card' index = MemoryCard.get_slot card index)
  /\ length (MemoryCard.slots card')
     = match MemoryCard.get_slot card (MemoryCardSlot.slot_index slot) with
       | Some _ => length (MemoryCard.slots card)
       | None => S (length (MemoryCard.slots card))
       end
  /\ MemoryCard.modified_at card' = now
  /\ MemoryCard.created_at card' = MemoryCard.created_at card
  /\ MemoryCard.card_label card' = MemoryCard.card_label card
  /\ ((exists pre old post,
         MemoryCard.slots card = pre ++ old :: post
         /\ Forall (fun s => MemoryCardSlot.slot_index s
                             <> MemoryCardSlot.slot_index slot) pre
         /\ MemoryCardSlot.slot_index old = MemoryCardSlot.slot_index slot
         /\ MemoryCard.slots card' = pre ++ slot :: post)
      \/ (Forall (fun s => MemoryCardSlot.slot_index s
                           <> MemoryCardSlot.slot_index slot) (MemoryCard.slots card)
          /\ MemoryCard.slots card' = MemoryCard.slots card ++ [slot])).
Proof.
  cbv zeta. destruct (add_slot_cases now card slot) as (Hflag & Hcard & Hcases).
  destruct (add_slot_lookup now card slot) as (Hget & Hother).
  cbv zeta in Hcard, Hcases.
  split; [exact Hflag |]. split; [exact Hget |]. split; [exact Hother |].
  split.
  { unfold MemoryCard.get_slot.
    destruct Hcases as [(pre & old & post & Hl & Hpre & Hold & ->)|(Hall & ->)].
    + rewrite Hl, (find_snd_app_hit _ pre post old) by done. by rewrite !length_app.
    + rewrite (find_snd_none _ _ Hall), length_app. cbn. lia. }
  split; [rewrite Hcard; done |]. split; [rewrite Hcard; done |].
  split; [rewrite Hcard; done |]. exact Hcases.
Qed.

(** X19. [remove_slot] answers True exactly when some slot has the index.
    When it answers False the card is unchanged, time stamp included.
    When it answers True the card has one slot less and is stamped; every
    other index resolves as before; and if the slot indices were distinct
    the removed index no longer resolves, whereas with duplicate indices
    only the first match is removed: the slots before it, none of which
    has the index, and all slots after it are kept in order. *)
Theorem remove_slot_behaviour (now : string) (card : MemoryCard.t) (index : Z) :
  let r := MemoryCard.remove_slot now card index in
  (r.1 = true <-> is_Some (MemoryCard.get_slot card index))
  /\ (r.1 = false -> r.2 = card)
  /\ (r.1 = true ->
      S (length (MemoryCard.slots r.2)) = length (MemoryCard.slots card)
      /\ MemoryCard.modified_at r.2 = now)
  /\ (forall other, other <> index ->
        MemoryCard.get_slot r.2 other = MemoryCard.get_slot card other)
  /\ (NoDup (MemoryCardSlot.slot_index <$> MemoryCard.slots card) ->
      MemoryCard.get_slot r.2 index = None)
  /\ (r.1 = true ->
      exists pre old post,
        MemoryCard.slots card = pre ++ old :: post
        /\ Forall (fun s => MemoryCardSlot.slot_index s <> index) pre
        /\ MemoryCardSlot.slot_index old = index
        /\ MemoryCard.slots r.2 = pre ++ post).
Proof.
  cbv zeta.
  destruct (remove_slot_cases now card index)
    as [(pre & old & post & Hl & Hpre & Hold & ->)|(Hall & ->)];
    cbn [fst snd].
  2:{ unfold MemoryCard.get_slot. split_and!; try done.
      + split; [done |]. rewrite find_snd_none by done. by intros [? [=]].
      + intros _. by apply find_snd_none. }
  - split_and!.
    6:{ intros _. exists pre, old, post. done. }
    + split; [| done]. intros _. unfold MemoryCard.get_slot.
      by rewrite Hl, find_snd_app_hit.
    + done.
    + intros _. cbn [MemoryCard.touch MemoryCard.slots MemoryCard.modified_at].
      split; [| done]. rewrite Hl, !length_app. cbn. lia.
    + intros other Hne. rewrite get_slot_touch. unfold MemoryCard.get_slot.
      rewrite Hl, find_snd_app_skip; [done |]. congruence.
    + intros Hnd. rewrite get_slot_touch. apply find_snd_none, Forall_app.
      split; [done |].
      rewrite Hl, fmap_app, fmap_cons in Hnd.
      apply NoDup_app in Hnd as (_ & _ & Hnd). apply NoDup_cons in Hnd as [Hnot _].
      apply Forall_forall. intros s Hs Heq. apply Hnot. rewrite Hold, <- Heq.
      by apply list_elem_of_fmap_2.
Qed.

(** X20. Distinct slot indices are an invariant of the card operations:
    if no two slots of a card share an index, the same holds after
    [add_slot] and after [remove_slot]. *)
Theorem distinct_slot_indices_preserved (now : string) (card : MemoryCard.t)
    (slot : MemoryCardSlot.t) (index : Z) :
  NoDup (MemoryCardSlot.slot_index <$> MemoryCard.slots card) ->
  NoDup (MemoryCardSlot.slot_index
           <$> MemoryCard.slots (MemoryCard.add_slot now card slot).2)
  /\ NoDup (MemoryCardSlot.slot_index
              <$> MemoryCard.slots (MemoryCard.remove_slot now card index).2).
Proof.
  intros Hnd. split.
  - destruct (add_slot_cases now card slot) as (_ & _ & Hcases). cbv zeta in Hcases.
    destruct Hcases as [(pre & old & post & Hl & _ & Hold & ->)|(Hall & ->)].
    + rewrite Hl in Hnd. rewrite fmap_app, fmap_cons in *. by rewrite <- Hold.
    + rewrite fmap_app. apply NoDup_app. split; [done |]. split.
      * intros i Hi [->|[]%elem_of_nil]%elem_of_cons.
        apply list_elem_of_fmap in Hi as (s & Heq & Hs).
        by apply (proj1 (Forall_forall _ _) Hall s Hs).
      * apply NoDup_singleton.
  - destruct (remove_slot_cases now card index)
      as [(pre & old & post & Hl & _ & _ & ->)|(_ & ->)]; [| done].
    cbn [snd MemoryCard.touch MemoryCard.slots].
    rewrite Hl in Hnd. rewrite fmap_app, fmap_cons in Hnd. rewrite fmap_app.
    apply NoDup_app in Hnd as (Hpre & Hdis & Hpost).
    apply NoDup_cons in Hpost as [_ Hpost].
    apply NoDup_app. split; [done |]. split; [| done].
    intros i Hi Hi'. apply (Hdis i Hi). by right.
Qed.





(** Slicing counts code points, not bytes: of ten two-byte characters the
    first eight are kept, sixteen bytes in all. *)
Example str_prefix_counts_code_points :
  MemoryCardManager.str_prefix 8 "ÉÉÉÉÉÉÉÉÉÉ" = "ÉÉÉÉÉÉÉÉ"
  /\ str_len "ÉÉÉÉÉÉÉÉ" = 8%nat
  /\ String.length "ÉÉÉÉÉÉÉÉ" = 16%nat.
Proof. vm_compute. repeat split. Qed.


Lemma distinct_slot_indices_preserved_witness :
  NoDup (MemoryCardSlot.slot_index <$> MemoryCard.slots sample_card)
  /\ NoDup (MemoryCardSlot.slot_index
              <$> MemoryCard.slots
                    (MemoryCard.add_slot "2004-03-23T08:00:00" sample_card
                       sample_card_slot).2)
  /\ NoDup (MemoryCardSlot.slot_index
              <$> MemoryCard.slots
                    (MemoryCard.remove_slot "2004-03-23T08:00:00" sample_card 0).2).
Proof.
  assert (H : NoDup (MemoryCardSlot.slot_index <$> MemoryCard.slots sample_card))
    by (apply (bool_decide_unpack _); vm_compute; exact I).
  exact (conj H (distinct_slot_indices_preserved "2004-03-23T08:00:00" sample_card
                   sample_card_slot 0 H)).
Defined.

Lemma parse_gci_party_records_witness :
  exists header slot,
    GCISlotParser.parse_gci_file sample_gci = Return (Some (header, slot))
    /\ MemoryCardSlot.game slot = COLOSSEUM
    /\ len (MemoryCardSlot.party slot) = 1
    /\ Forall (fun p => 1 <= SavedPokemon.species_id p <= 386
                        /\ 1 <= SavedPokemon.level p <= 100
                        /\ 0 <= SavedPokemon.shadow_level p <= 5)
         (MemoryCardSlot.party slot).
Proof.
  destruct (GCISlotParser.parse_gci_file sample_gci) as [[[header slot]|]|] eqn:E;
    [| vm_compute in E; discriminate E ..].
  exists header, slot.
  pose proof (parse_gci_party_records _ _ _ E) as (_ & _ & Hall).
  assert (Hgame : MemoryCardSlot.game slot = COLOSSEUM
                  /\ len (MemoryCardSlot.party slot) = 1).
  { vm_compute in E. injection E as _ <-. split; reflexivity. }
  exact (conj eq_refl (conj (proj1 Hgame) (conj (proj2 Hgame) Hall))).
Defined.

(** ** The card manager *)

Lemma set_slot_index_same (slot : MemoryCardSlot.t) :
  MemoryCardSlot.set_slot_index (MemoryCardSlot.slot_index slot) slot = slot.
Proof. by destruct slot. Qed.

(** X22. Loading a console export file gives a card exactly when the file
    has at least the 64 header bytes.  The card is labelled with the
    game's display name followed by " Save", records the path, and holds
    the one parsed slot at index 0, so importing the team from slot 0
    returns the parsed party and no other index holds a team. *)
Theorem load_gci_then_import (now now' file_path : string) (raw : list byte) :
  exists r,
    MemoryCardManager.load_gci now now' file_path raw = Return r
    /\ (r = None <-> len raw < GCI_HEADER_SIZE)
    /\ forall card, r = Some card ->
         exists header slot,
           GCISlotParser.parse_gci_file raw = Return (Some (header, slot))
           /\ MemoryCard.slots card = [slot]
           /\ MemoryCard.card_label card = GCIHeader.game_name header +:+ " Save"
           /\ MemoryCard.source_file card = file_path
           /\ MemoryCard.created_at card = now
           /\ MemoryCard.modified_at card = now'
           /\ MemoryCardManager.import_team_from_slot card 0
              = Some (MemoryCardSlot.party slot)
           /\ forall index, index <> 0 ->
                MemoryCardManager.import_team_from_slot card index = None.
Proof.
  unfold MemoryCardManager.load_gci.
  destruct (parse_gci_file_inv raw) as (r & E & Hnone & Hsome).
  rewrite E. cbn [mbind pyres_bind]. destruct r as [[header slot]|].
  2:{ exists None. split; [reflexivity |]. split; [| discriminate].
      split; [intros _; by apply Hnone | done]. }
  destruct (Hsome header slot eq_refl) as (_ & Es & _).
  destruct (parse_save_inv header (drop (Z.to_nat GCI_HEADER_SIZE) raw))
    as (slot' & Es' & _ & _ & Hidx & Hst & _).
  rewrite Es in Es'. injection Es' as <-.
  assert (Hset : MemoryCardSlot.set_slot_index 0 slot = slot)
    by (rewrite <- Hidx; apply set_slot_index_same).
  rewrite Hset.
  eexists. split; [reflexivity |]. split.
  { split; [discriminate |]. intros Hs. apply Hnone in Hs. discriminate. }
  intros card [= <-]. exists header, slot. split; [reflexivity |].
  unfold MemoryCardManager.import_team_from_slot. setoid_rewrite get_slot_touch.
  cbn [MemoryCard.touch MemoryCard.slots MemoryCard.card_label
       MemoryCard.source_file MemoryCard.created_at MemoryCard.modified_at].
  split_and!; try done.
  - rewrite find_snd_cons.
    destruct (decide (MemoryCardSlot.slot_index slot = 0)) as [_|?]; [| done].
    rewrite Hst. by destruct (decide (OCCUPIED <> OCCUPIED)).
  - intros index Hne. rewrite find_snd_cons.
    destruct (decide (MemoryCardSlot.slot_index slot = index)) as [?|_]; [congruence |].
    reflexivity.
Qed.

Lemma foldl_app_concat_pairs {A K} (init : list A) (l : list (K * list A)) :
  foldl (fun all_p (kv : K * list A) => all_p ++ kv.2) init l
  = init ++ concat (snd <$> l).
Proof. apply (foldl_app_concat (fun kv : K * list A => kv.2)). Qed.

(** X23. [get_all_shadow_pokemon] lists a pair (index, record) exactly
    when some occupied slot of the card has that index and holds the
    record, in its party, one of its boxes or its purification chamber,
    with the shadow flag set.  Records of empty or corrupt slots and
    records without the flag are never listed. *)
Theorem all_shadow_pokemon_characterised (card : MemoryCard.t) (index : Z)
    (p : SavedPokemon.t) :
  (index, p) ∈ MemoryCardManager.get_all_shadow_pokemon card
  <-> exists s,
        s ∈ MemoryCard.slots card
        /\ MemoryCardSlot.status s = OCCUPIED
        /\ MemoryCardSlot.slot_index s = index
        /\ SavedPokemon.is_shadow p = true
        /\ (p ∈ MemoryCardSlot.party s
            \/ (exists name box, (name, box) ∈ MemoryCardSlot.boxes s /\ p ∈ box)
            \/ p ∈ MemoryCardSlot.purif_chamber s).
Proof.
  unfold MemoryCardManager.get_all_shadow_pokemon, MemoryCard.get_occupied_slots.
  rewrite list_elem_of_bind. split.
  - intros (s & Hin & Hs). apply list_elem_of_filter in Hs as [Hst Hs].
    apply list_elem_of_bind in Hin as (q & Hin & Hq).
    apply list_elem_of_ret in Hin. injection Hin as -> ->.
    unfold MemoryCardSlot.shadow_pokemon in Hq.
    apply list_elem_of_filter in Hq as [Hshadow Hq].
    rewrite foldl_app_concat_pairs in Hq.
    exists s. split_and!; try done.
    apply elem_of_app in Hq as [Hq|Hq]; [| by right; right].
    apply elem_of_app in Hq as [Hq|Hq]; [by left |].
    right; left. apply elem_of_concat in Hq as (box & Hq & Hbox).
    apply list_elem_of_fmap in Hbox as ([name box'] & -> & Hbox). by exists name, box'.
  - intros (s & Hs & Hst & Hidx & Hshadow & Hwhere).
    exists s. split; [| by apply list_elem_of_filter].
    apply list_elem_of_bind. exists p. split; [apply list_elem_of_ret; by rewrite Hidx |].
    unfold MemoryCardSlot.shadow_pokemon. apply list_elem_of_filter. split; [done |].
    rewrite foldl_app_concat_pairs, !elem_of_app.
    destruct Hwhere as [?|[(name & box & Hbox & ?)|?]]; [by left; left | | by right].
    left; right. apply elem_of_concat. exists box. split; [done |].
    apply list_elem_of_fmap. by exists (name, box).
Qed.

(** ** Link-cable transfers *)

Lemma only_sets_within_exclusives :
  GBARequiredGame.RUBY_ONLY ⊆ RUBY_EXCLUSIVES
  /\ GBARequiredGame.SAPPHIRE_ONLY ⊆ SAPPHIRE_EXCLUSIVES
  /\ GBARequiredGame.FIRERED_ONLY ⊆ FIRERED_EXCLUSIVES
  /\ GBARequiredGame.LEAFGREEN_ONLY ⊆ LEAFGREEN_EXCLUSIVES.
Proof. split_and!; apply (bool_decide_unpack _); vm_compute; exact I. Qed.

Lemma exclusives_pairwise_disjoint :
  RUBY_EXCLUSIVES ## SAPPHIRE_EXCLUSIVES /\ RUBY_EXCLUSIVES ## FIRERED_EXCLUSIVES
  /\ RUBY_EXCLUSIVES ## LEAFGREEN_EXCLUSIVES
  /\ SAPPHIRE_EXCLUSIVES ## FIRERED_EXCLUSIVES
  /\ SAPPHIRE_EXCLUSIVES ## LEAFGREEN_EXCLUSIVES
  /\ FIRERED_EXCLUSIVES ## LEAFGREEN_EXCLUSIVES.
Proof. split_and!; apply (bool_decide_unpack _); vm_compute; exact I. Qed.

Lemma exclusives_in_range (game : GBAGame) :
  set_Forall (fun species_id => 1 <= species_id <= 386) (version_exclusives game).
Proof. destruct game; apply (bool_decide_unpack _); vm_compute; exact I. Qed.

(** X24. The trading checker and the save decoder agree on version
    exclusives: whenever [get_required_game] names a game for a species,
    the species is listed among that game's exclusives in
    [get_version_exclusives_info], among no other game's, and is a Gen 1-3
    species.  The four sets are disjoint, so the order of the tests in
    [get_required_game] does not matter. *)
Theorem required_game_is_the_exclusive_game (species_id : Z) (name : string) :
  GBARequiredGame.get_required_game species_id = Some name ->
  exists game,
    GBAGame_value game = name
    /\ species_id ∈ version_exclusives game
    /\ (forall other, species_id ∈ version_exclusives other -> other = game)
    /\ 1 <= species_id <= 386.
Proof.
  destruct only_sets_within_exclusives as (Hr & Hs & Hf & Hl).
  destruct exclusives_pairwise_disjoint as (Drs & Drf & Drl & Dsf & Dsl & Dfl).
  rewrite elem_of_disjoint in Drs, Drf, Drl, Dsf, Dsl, Dfl.
  unfold GBARequiredGame.get_required_game.
  intros H.
  assert (Hgame : exists game, GBAGame_value game = name
                               /\ species_id ∈ version_exclusives game
                               /\ version_exclusives game <> ∅).
  { destruct (decide (species_id ∈ GBARequiredGame.RUBY_ONLY)) as [Hin|_].
    { injection H as <-. exists RUBY. split; [done |]. split; [by apply Hr | done]. }
    destruct (decide (species_id ∈ GBARequiredGame.SAPPHIRE_ONLY)) as [Hin|_].
    { injection H as <-. exists SAPPHIRE. split; [done |]. split; [by apply Hs | done]. }
    destruct (decide (species_id ∈ GBARequiredGame.FIRERED_ONLY)) as [Hin|_].
    { injection H as <-. exists FIRERED. split; [done |]. split; [by apply Hf | done]. }
    destruct (decide (species_id ∈ GBARequiredGame.LEAFGREEN_ONLY)) as [Hin|_].
    { injection H as <-. exists LEAFGREEN. split; [done |]. split; [by apply Hl | done]. }
    discriminate. }
  destruct Hgame as (game & Hname & Hin & Hgame).
  exists game. split; [exact Hname |]. split; [exact Hin |].
  split; [| exact (exclusives_in_range game species_id Hin)].
  intros other Hother.
  destruct game, other; try reflexivity; exfalso;
    cbn [version_exclusives] in Hin, Hother, Hgame;
    first [ exact (Hgame eq_refl)
          | exact (not_elem_of_empty _ Hother)
          | match goal with
            | D : forall x, x ∈ ?A -> x ∈ ?B -> False, H1 : _ ∈ ?A, H2 : _ ∈ ?B |- _ =>
                exact (D _ H1 H2)
            end ].
Qed.

Lemma required_game_is_the_exclusive_game_witness :
  GBARequiredGame.get_required_game 335 = Some "ruby"
  /\ exists game, GBAGame_value game = "ruby" /\ 335 ∈ version_exclusives game.
Proof.
  assert (H : GBARequiredGame.get_required_game 335 = Some "ruby")
    by (vm_compute; reflexivity).
  destruct (required_game_is_the_exclusive_game 335 "ruby" H) as (game & Hv & Hin & _).
  exact (conj H (ex_intro _ game (conj Hv Hin))).
Defined.

Lemma record_transfer_spec (self : GBALinkCableTrading.t) (record : GBATransferRecord.t) :
  let self' := GBALinkCableTrading.record_transfer self record in
  let session_id := GBATransferRecord.session_id record in
  GBALinkCableTrading._transfer_history self'
  = GBALinkCableTrading._transfer_history self ++ [record]
  /\ GBALinkCableTrading._active_link_sessions self' !! session_id
     = (fun session => GBALinkSession.log_append session record)
         <$> GBALinkCableTrading._active_link_sessions self !! session_id
  /\ (forall other, other <> session_id ->
        GBALinkCableTrading._active_link_sessions self' !! other
        = GBALinkCableTrading._active_link_sessions self !! other)
  /\ dom (GBALinkCableTrading._active_link_sessions self')
     = dom (GBALinkCableTrading._active_link_sessions self).
Proof.
  cbv zeta. unfold GBALinkCableTrading.record_transfer.
  destruct (GBALinkCableTrading._active_link_sessions self !! _) as [session|] eqn:E;
    cbn [GBALinkCableTrading._transfer_history GBALinkCableTrading._active_link_sessions].
  - split; [done |]. split; [by rewrite lookup_insert_eq |].
    split; [intros other Hne; by rewrite lookup_insert_ne |].
    rewrite dom_insert_L. apply elem_of_dom_2 in E.
    apply subseteq_union_1_L. by apply singleton_subseteq_l.
  - rewrite E. done.
Qed.

(** X25. [transfer_gba_to_gcn] only ever reports SUCCESS or
    FAILED_ILLEGAL: an egg is reported as FAILED_ILLEGAL, never as
    FAILED_EGG.  It reports SUCCESS exactly when the data, with the
    defaults for missing keys, is no egg, has a species other than 0 and
    at most 386, a level in 1..100 and an EV total of at most 510; the
    notes are empty exactly on success.  The record is appended to the
    history and to the log of its session when that session is known;
    other sessions are untouched and no session is created. *)
Theorem transfer_gba_to_gcn_outcome (transfer_id now : string)
    (self : GBALinkCableTrading.t) (session_id : string) (pokemon_data : PokemonData.t) :
  let r := GBALinkCableTrading.transfer_gba_to_gcn transfer_id now self session_id
             pokemon_data in
  let species_id := default 0 (PokemonData.species_id pokemon_data) in
  let level := default 1 (PokemonData.level pokemon_data) in
  let total_evs :=
    default 0 (PokemonData.hp_ev pokemon_data) + default 0 (PokemonData.atk_ev pokemon_data)
    + default 0 (PokemonData.def_ev pokemon_data) + default 0 (PokemonData.spe_ev pokemon_data)
    + default 0 (PokemonData.spa_ev pokemon_data)
    + default 0 (PokemonData.spd_ev pokemon_data) in
  (GBATransferRecord.result r.1 = SUCCESS \/ GBATransferRecord.result r.1 = FAILED_ILLEGAL)
  /\ (GBATransferRecord.result r.1 = SUCCESS
      <-> default false (PokemonData.is_egg pokemon_data) = false
          /\ species_id <> 0 /\ species_id <= 386
          /\ 1 <= level <= 100 /\ total_evs <= 510)
  /\ (GBATransferRecord.notes r.1 = "" <-> GBATransferRecord.result r.1 = SUCCESS)
  /\ GBATransferRecord.session_id r.1 = session_id
  /\ GBATransferRecord.direction r.1 = GBA_TO_GCN
  /\ GBALinkCableTrading._transfer_history r.2
     = GBALinkCableTrading._transfer_history self ++ [r.1]
  /\ GBALinkCableTrading._active_link_sessions r.2 !! session_id
     = (fun session => GBALinkSession.log_append session r.1)
         <$> GBALinkCableTrading._active_link_sessions self !! session_id
  /\ (forall other, other <> session_id ->
        GBALinkCableTrading._active_link_sessions r.2 !! other
        = GBALinkCableTrading._active_link_sessions self !! other)
  /\ dom (GBALinkCableTrading._active_link_sessions r.2)
     = dom (GBALinkCableTrading._active_link_sessions self).
Proof.
  cbv zeta. unfold GBALinkCableTrading.transfer_gba_to_gcn.
  set (species_id := default 0 (PokemonData.species_id pokemon_data)).
  set (level := default 1 (PokemonData.level pokemon_data)).
  set (evs := foldr Z.add 0 _).
  assert (Hevs : evs
            = default 0 (PokemonData.hp_ev pokemon_data)
              + default 0 (PokemonData.atk_ev pokemon_data)
              + default 0 (PokemonData.def_ev pokemon_data)
              + default 0 (PokemonData.spe_ev pokemon_data)
              + default 0 (PokemonData.spa_ev pokemon_data)
              + default 0 (PokemonData.spd_ev pokemon_data))
    by (unfold evs; cbn [foldr]; lia).
  rewrite <- Hevs. clearbody evs species_id level.
  destruct (GBACompatibilityChecker.check_gba_to_gcn species_id false
              (default false (PokemonData.is_egg pokemon_data)) level evs)
    as [can_transfer reason] eqn:Echeck.
  cbn [fst snd].
  match goal with
  | |- context [GBALinkCableTrading.record_transfer self ?rec] =>
      pose proof (record_transfer_spec self rec) as Hrec; cbv zeta in Hrec;
      cbn [GBATransferRecord.session_id] in Hrec;
      destruct Hrec as (Hhist & Hlog & Hother & Hdom)
  end.
  cbn [GBATransferRecord.result GBATransferRecord.notes GBATransferRecord.session_id
       GBATransferRecord.direction].
  assert (Hcan : (can_transfer = true
                  <-> default false (PokemonData.is_egg pokemon_data) = false
                      /\ species_id <> 0 /\ species_id <= 386
                      /\ 1 <= level <= 100 /\ evs <= 510)
                 /\ (can_transfer = false -> reason <> "")).
  { unfold GBACompatibilityChecker.check_gba_to_gcn in Echeck.
    destruct (default false (PokemonData.is_egg pokemon_data)).
    { injection Echeck as <- <-. split; [split; [done | by intros [? _]] | done]. }
    repeat case_decide; injection Echeck as <- <-;
      (split; [split; [try done; intros _; split_and!; try done; lia
                      | try done; intros (_ & ? & ? & ? & ?); exfalso; lia]
              | try done; intros _; discriminate]). }
  destruct Hcan as [Hcan Hreason].
  split_and!; try done.
  - destruct can_transfer; [by left | by right].
  - rewrite <- Hcan. by destruct can_transfer.
  - destruct can_transfer; cbn [negb]; [done |].
    split; [intros ->; by destruct (Hreason eq_refl) | done].
Qed.

(** X26. [transfer_gcn_to_gba] reports FAILED_SHADOW exactly for a shadow
    Pokemon with a positive shadow level, SUCCESS exactly for a non-shadow
    one whose species is not 0 and at most 386, and FAILED_ILLEGAL for the
    rest; no other result occurs.  The level is passed to the checker but
    never influences the result.  The record is appended to the history
    and to the log of its session when that session is known. *)
Theorem transfer_gcn_to_gba_outcome (transfer_id now : string)
    (self : GBALinkCableTrading.t) (session_id : string) (pokemon : Pokemon.t) :
  let r := GBALinkCableTrading.transfer_gcn_to_gba transfer_id now self session_id
             pokemon in
  let shadow := GBALinkCableTrading.is_shadow_pokemon pokemon in
  (GBATransferRecord.result r.1 = FAILED_SHADOW <-> shadow = true)
  /\ (GBATransferRecord.result r.1 = SUCCESS
      <-> shadow = false /\ Pokemon.species_id pokemon <> 0
          /\ Pokemon.species_id pokemon <= 386)
  /\ (GBATransferRecord.result r.1 = FAILED_ILLEGAL
      <-> shadow = false
          /\ (Pokemon.species_id pokemon = 0 \/ Pokemon.species_id pokemon > 386))
  /\ (GBATransferRecord.notes r.1 = "" <-> GBATransferRecord.result r.1 = SUCCESS)
  /\ (forall level',
        GBATransferRecord.result
          (GBALinkCableTrading.transfer_gcn_to_gba transfer_id now self session_id
             (Pokemon.make (Pokemon.name pokemon) (Pokemon.species_id pokemon) level'
                (Pokemon.shadow_level pokemon))).1
        = GBATransferRecord.result r.1)
  /\ GBATransferRecord.direction r.1 = GCN_TO_GBA
  /\ GBALinkCableTrading._transfer_history r.2
     = GBALinkCableTrading._transfer_history self ++ [r.1]
  /\ GBALinkCableTrading._active_link_sessions r.2 !! session_id
     = (fun session => GBALinkSession.log_append session r.1)
         <$> GBALinkCableTrading._active_link_sessions self !! session_id
  /\ (forall other, other <> session_id ->
        GBALinkCableTrading._active_link_sessions r.2 !! other
        = GBALinkCableTrading._active_link_sessions self !! other).
Proof.
  cbv zeta. split_and!.
  1-5: unfold GBALinkCableTrading.transfer_gcn_to_gba,
         GBACompatibilityChecker.check_gcn_to_gba,
         GBALinkCableTrading.is_shadow_pokemon;
       cbn [Pokemon.name Pokemon.species_id Pokemon.level Pokemon.shadow_level];
       destruct (Pokemon.shadow_level pokemon) as [shadow_level|];
       repeat case_bool_decide; repeat case_decide;
       cbn [fst snd negb GBATransferRecord.result GBATransferRecord.notes];
       try done; try (split; try done; intros; split_and?; try done; lia);
       try (split; try done; intros (? & ? & ?); try done; lia);
       try (split; try done; intros (? & [?|?]); try done; lia).
  all: unfold GBALinkCableTrading.transfer_gcn_to_gba;
       destruct (GBACompatibilityChecker.check_gcn_to_gba _ _ _ _) as [can reason];
       cbn [fst snd].
  - done.
  - match goal with
    | |- context [GBALinkCableTrading.record_transfer self ?rec] =>
        exact (proj1 (record_transfer_spec self rec))
    end.
  - match goal with
    | |- context [GBALinkCableTrading.record_transfer self ?rec] =>
        exact (proj1 (proj2 (record_transfer_spec self rec)))
    end.
  - match goal with
    | |- context [GBALinkCableTrading.record_transfer self ?rec] =>
        exact (proj1 (proj2 (proj2 (record_transfer_spec self rec))))
    end.
Qed.

(** X27. [validate_pokemon_for_trading] reports no issue exactly for a
    Pokemon that is not a shadow Pokemon with a positive shadow level, has
    a species of at most 386 and a level in 1..100; it never reports more
    than three issues.  It accepts species 0 and negative species, so a
    Pokemon it passes is transferred successfully by [transfer_gcn_to_gba]
    only if its species is also not 0. *)
Theorem validate_pokemon_for_trading_issues (transfer_id now : string)
    (self : GBALinkCableTrading.t) (session_id : string) (pokemon : Pokemon.t) :
  (GBALinkCableTrading.validate_pokemon_for_trading pokemon = []
   <-> GBALinkCableTrading.is_shadow_pokemon pokemon = false
       /\ Pokemon.species_id pokemon <= 386
       /\ 1 <= Pokemon.level pokemon <= 100)
  /\ (length (GBALinkCableTrading.validate_pokemon_for_trading pokemon) <= 3)%nat
  /\ (GBALinkCableTrading.validate_pokemon_for_trading pokemon = [] ->
      (GBATransferRecord.result
         (GBALinkCableTrading.transfer_gcn_to_gba transfer_id now self session_id
            pokemon).1 = SUCCESS
       <-> Pokemon.species_id pokemon <> 0)).
Proof.
  unfold GBALinkCableTrading.validate_pokemon_for_trading,
    GBALinkCableTrading.transfer_gcn_to_gba, GBACompatibilityChecker.check_gcn_to_gba.
  destruct (GBALinkCableTrading.is_shadow_pokemon pokemon);
    repeat case_decide; cbn [app length fst snd negb GBATransferRecord.result];
    split_and!; try lia; try done;
    try (split; [discriminate | intros (? & ? & ?); try done; lia]);
    try (split; [intros _; split_and!; try done; lia | done]);
    try (intros _; split; [intros _; lia | done]);
    try (intros _; split; [done | intros ?; lia]).
Qed.

(** X28. A transfer shows up in the history of its own session and in no
    other session's: after [transfer_gba_to_gcn] the history filtered by
    the transfer's session, and the unfiltered history, are the old ones
    with the new record appended, and the history of any other non-empty
    session id is unchanged.  An empty session id does not filter at
    all. *)
Theorem transfer_history_by_session (transfer_id now : string)
    (self : GBALinkCableTrading.t) (session_id : string) (pokemon_data : PokemonData.t) :
  let r := GBALinkCableTrading.transfer_gba_to_gcn transfer_id now self session_id
             pokemon_data in
  GBALinkCableTrading.get_transfer_history r.2 None
  = GBALinkCableTrading.get_transfer_history self None ++ [r.1]
  /\ GBALinkCableTrading.get_transfer_history r.2 (Some session_id)
     = GBALinkCableTrading.get_transfer_history self (Some session_id) ++ [r.1]
  /\ (forall other, other <> session_id -> other <> "" ->
        GBALinkCableTrading.get_transfer_history r.2 (Some other)
        = GBALinkCableTrading.get_transfer_history self (Some other))
  /\ GBALinkCableTrading.get_transfer_history r.2 (Some "")
     = GBALinkCableTrading.get_transfer_history r.2 None
  /\ (forall sid record,
        sid <> "" ->
        record ∈ GBALinkCableTrading.get_transfer_history r.2 (Some sid) ->
        GBATransferRecord.session_id record = sid).
Proof.
  cbv zeta. unfold GBALinkCableTrading.transfer_gba_to_gcn.
  destruct (GBACompatibilityChecker.check_gba_to_gcn _ _ _ _ _) as [can reason].
  cbn [fst snd].
  match goal with
  | |- context [GBALinkCableTrading.record_transfer self ?rec] =>
      pose proof (proj1 (record_transfer_spec self rec)) as Hhist; cbv zeta in Hhist;
      set (record := rec) in *
  end.
  assert (Hsid : GBATransferRecord.session_id record = session_id) by reflexivity.
  clearbody record.
  unfold GBALinkCableTrading.get_transfer_history. rewrite Hhist.
  split_and!.
  - done.
  - destruct (decide (session_id = "")); [done |].
    rewrite filter_app, filter_cons_True by done. done.
  - intros other Hne Hne'. destruct (decide (other = "")); [done |].
    rewrite filter_app, filter_cons_False by congruence.
    by rewrite filter_nil, app_nil_r.
  - done.
  - intros sid rec' Hne Hin. destruct (decide (sid = "")); [done |].
    by apply list_elem_of_filter in Hin as [? _].
Qed.
